(* ===== verification/_CoqProject ===== *)
-Q . S2P
Prelude.v
Exec.v
Twins.v
Hash.v
Crypto.v
CoreModels.v
DRand.v
Samples.v
Messages.v
Utf8.v
DRandService.v
TransactionService.v
ConsensusService.v
ConsensusTheorems.v
ConsensusSafety.v
ConsensusNetwork.v
BlockService.v
BlockTheorems.v
System.v
CoreNetwork.v
NodeModels.v
NodeErrors.v
Database.v
DatabaseTheorems.v
DatabaseRefinement.v
Fuel.v
EventService.v
WasmMachine.v
NodeMessages.v
HostFunc.v
Wasmtime.v
WmLocal.v
WmLocalTheorems.v
WmFuel.v
WasmService.v
DBService.v
DBServiceTheorems.v
CoreInterface.v
P2PService.v
P2PTheorems.v
SocketService.v
SocketTheorems.v
SocketRun.v
RestApi.v
RestApiT2.v
RestTheorems.v
WasmTheorems.v
WasmBlocks.v
WasmSamples.v
WmLocalSamples.v
NodeStart.v
NodeStartTheorems.v
MiningModels.v
MiningService.v
MiningTheorems.v
UpdateService.v
UpdateTheorems.v
ToolSocket.v
MiningEndpoints.v
EndpointTheorems.v
PlaygroundInterface.v
PlaygroundTheorems.v
Panopticon.v
PanopticonTheorems.v
TauriInterface.v
TauriTheorems.v
P2PStart.v
NodeRun.v
NodeRunTheorems.v
Indexer.v
Kafka.v
TxSubmitter.v
NodeKeys.v
WasmPlayground.v
ExtComm.v
MiningStart.v
KeyFiles.v
WasmAgreement.v
