(* ===== verification/Prelude.v ===== *)
(** * TRINCI: a verification development (root file)

    The development models the code of the repository's Rust crates: the core of the blockchain
    ([src/trinci-core-new]), the node built around it ([src/trinci-node]), the mining tool
    ([src/trinci-mining-tool]), the playground ([src/trinci-playground/src-tauri]) and the submitter
    of test transactions ([src/test-utility]).  Each definition translates the code it is named
    after; paths below are under [src/].

    ** How the program is modelled

    A service of the code is a thread with a state, a channel of messages and handlers.  [Exec]
    gives handlers a monad [M S E R]: a state [S], effects [E] that are recorded in order, answers
    [R] that are consumed in order (a request whose answers have run out times out), a clock, and
    panics, which keep what was done before.  A service is a function from the sequence of what it
    receives to the effects it has; several services run together as a relation of steps on their
    states and channels ([System]).  Programs on a part of a state are run through [zoom].
    Reasoning is by [rel P m] (every run, panicking or not, relates its worlds by the preorder [P]:
    frames, invariants, added effects), [ensures] and [hoare] (pre- and postconditions), [safe] (no
    panic), [inverting] (the steps of a run that ended), and [twins] ([Twins]: two runs side by side).

    Integers are [Z] with the wrap-around of the release profile written out ([Prelude], [Fuel]);
    bytes are [list Z]; texts are the sequences of their bytes ([Utf8]); [HashMap]s are [gmap]s,
    with their order of iteration a parameter where the code depends on it ([HashMapIter]).

    ** Files

    Shared: [Prelude] (integers, results, lists, maps), [Exec] (the monad), [Utf8], [Samples]
    (concrete parameters for the witnesses).

    Core, [trinci-core-new/src]:
    - [Hash]: [crypto/hash.rs].  [Crypto], [KeyFiles]: [crypto/{ecdsa,ed25519,identity}.rs], the
      header of [utils.rs].
    - [CoreModels], [DRand]: [artifacts/models.rs] (the traits as classes [Executable], [Confirmable],
      [Transactable] with their laws; proposals, players; seed source and random numbers), [consts.rs].
    - [Messages]: [artifacts/{messages,errors}.rs].
    - [DRandService], [TransactionService], [ConsensusService] (proved in [ConsensusTheorems],
      [ConsensusSafety]; several nodes in [ConsensusNetwork]), [BlockService] (proved in [BlockTheorems]): [services/*.rs].
    - [System]: [lib.rs], the four services and their channels.  [CoreNetwork]: many such cores,
      each step of which is one of [System]; each does what a node of [ConsensusNetwork] does.

    Node, [trinci-node/src]:
    - [NodeModels], [NodeKeys], [NodeErrors], [NodeMessages], [ExtComm]: [artifacts/{models,errors,messages}.rs].
    - [Database] (proved in [DatabaseTheorems], refined in [DatabaseRefinement]): [artifacts/{db,rocks_db}.rs].
    - [Fuel]: the conversions of [utils.rs] and [consts.rs].
    - [WasmMachine], [HostFunc], [Wasmtime], [WmLocal] (proved in [WmLocalTheorems], [WmFuel], run in
      [WmLocalSamples]): [services/wm/*.rs].
    - [WasmService] (proved in [WasmTheorems], [WasmBlocks], [WasmAgreement], run in [WasmSamples]),
      [WasmPlayground]: [services/wasm_service.rs].
    - [EventService], [DBService] (+ [DBServiceTheorems]), [CoreInterface], [P2PService] and [P2PStart]
      (+ [P2PTheorems]), [SocketService] (a turn of a connection; + [SocketTheorems]) and [SocketRun]
      (the bytes, the loop, the listener), [RestApi] and [RestApiT2] (+ [RestTheorems]), [PlaygroundInterface] (+ [PlaygroundTheorems]), [Indexer], [Kafka]:
      the files of the same names in [services/].
    - [NodeStart] (+ [NodeStartTheorems]), [NodeRun] (+ [NodeRunTheorems]): [lib.rs], [clap.rs],
      [utils.rs]: what a node reads, writes and starts.

    Tools:
    - [MiningModels], [MiningService] (+ [MiningTheorems]), [UpdateService] (+ [UpdateTheorems]),
      [ToolSocket], [MiningEndpoints] (+ [EndpointTheorems]), [MiningStart]: [trinci-mining-tool/src].
    - [Panopticon] (+ [PanopticonTheorems]), [TauriInterface] (+ [TauriTheorems]):
      [trinci-playground/src-tauri/src].
    - [TxSubmitter]: [test-utility/tx-submitter/src].

    ** Interfaces

    The clients are proved against classes, which the implementations or a sample discharge: [Db],
    [DbFork] and their laws (by [RocksDb] over the merkledb crate), [Wm] and [WmLaws] (by [WmLocal]
    over wasmtime), [Executable], [Confirmable] and [Transactable] with their laws (by the models of
    the node).  Code outside the repository is a parameter with its documented behaviour as laws:
    [Digest], [Ring] and [RingLaws], [Base58], [Pcg], [Hex], [MerkleDb] and [MerkleDbLaws],
    [Wasmtime] and [WasmtimeLaws], [Libp2p], [P2PIdentity], [Sled] and [SledLaws], and the codecs of
    MessagePack, JSON and texts ([MsgPack], [MsgUnpack], [WasmCodecs], [RestCodecs], [T2Codecs],
    [ToolCodecs], [UpdateCodecs], [EndpointCodecs], [SocketCodecs]).  An instance in memory or a
    small sample shows for each that its laws can hold.

    ** What is shown

    - Core: a player votes once a round; the cores of a network, with all their services, never
      consolidate two blocks of a height in one round (a run shows that they can in two); proposals
      and the pool keep their invariants, a block from a peer is checked, blocks are built once, the
      block service never panics; in every reachable state of the four services their views of the
      chain agree.
    - Node: the database refines a record of finite maps; the machine refines its interface, burns
      within its limits and does not depend on the room for nested calls; failed transactions leave
      nothing, a block one node builds is accepted by the others exactly with the builder's roots,
      nodes that build blocks in turn stay replicas, blocks are consolidated as the last ones and
      keep the earlier ones; a bulk is found by its hash and those of its nodes; the services answer
      what the database holds; the requests of a client and the keys of the database are read back;
      responses of peers are delivered once.
    - Start: a node starts its services in order, a restart and a replica agree with the node they
      come from.
    - Tools: one transaction of the mining cycle waits at a time, the tables of the players are in
      order, a tool that starts again starts a service for exactly the nodes that answer, what the
      playground floods reaches every node once, what the submitter posts verifies.
    - Where the code does not do what it means to, theorems on concrete inputs or on every input say
      what it does.

    ** Bounds and fuel

    Loops of the code over a list are structural.  The others: six attempts of a request
    ([attempts_fuel], one more than the code makes); the alignment, the reconnection to the network
    and the collection of answers of the window run on the number of answers left, each turn
    consuming one; [host_function n] is the stack of the thread, and calls that fit in [n] give the
    same result on a deeper one ([WmFuel.larger_stack_agrees]); the reading of UTF-8 on the number
    of bytes; packs of packs on the bound of the code ([RestTheorems.packs_bounded]).  A service that
    receives for ever is run on every finite sequence of what it receives.

    ** Not modelled

    - [crypto/tpm2.rs]: it is a foreign interface to a device, and names modules that the crate no
      longer has.
    - Logs, [Debug] and [Display] texts that only logs show; the statistics of the system.
    - The updates the WASM service collects for the indexer: that feature does not compile.
    - Threads and tasks that are started are taken to start; timers and latencies are inputs.
    - The encodings of values (MessagePack, JSON) are parameters. *)

From stdpp Require Import base gmap strings list fin_maps.
From Stdlib Require Import ZArith Lia Sorting.Sorted.

#[global] Set Default Goal Selector "!".

Declare Scope trinci_scope.
Delimit Scope trinci_scope with trinci.
Open Scope trinci_scope.
Open Scope Z_scope.

(** ** Machine integers

    The Rust code uses [u8], [u32], [u64], [i64] and [usize] (64 bits).  A value
    of such a type is a [Z] in range; the arithmetic operators of the release
    profile wrap around, which is what the operations below write out. *)

Definition u8_max : Z := 255.
Definition u64_max : Z := 18446744073709551615.

Definition u8_wrap (x : Z) : Z := x mod 2 ^ 8.
Definition u64_wrap (x : Z) : Z := x mod 2 ^ 64.

Definition u8_add (x y : Z) : Z := u8_wrap (x + y).
Definition u64_add (x y : Z) : Z := u64_wrap (x + y).
Definition u64_sub (x y : Z) : Z := u64_wrap (x - y).

(** [x as i64] for a [u64] or an unbounded intermediate result. *)
Definition i64_wrap (x : Z) : Z := (x + 2 ^ 63) mod 2 ^ 64 - 2 ^ 63.

Definition is_u8 (x : Z) : Prop := 0 <= x <= u8_max.
Definition is_u64 (x : Z) : Prop := 0 <= x <= u64_max.

Notation "x +u64 y" := (u64_add x y) (at level 50, left associativity) : trinci_scope.
Notation "x -u64 y" := (u64_sub x y) (at level 50, left associativity) : trinci_scope.
Notation "x +u8 y" := (u8_add x y) (at level 50, left associativity) : trinci_scope.

Create HintDb trinci discriminated.
Create Rewrite HintDb trinci_rw.

Lemma u64_add_small x y : 0 <= x + y <= u64_max -> x +u64 y = x + y.
Proof. intros H. unfold u64_add, u64_wrap, u64_max in *. apply Z.mod_small. lia. Qed.

Lemma u64_sub_small x y : 0 <= x - y <= u64_max -> x -u64 y = x - y.
Proof. intros H. unfold u64_sub, u64_wrap, u64_max in *. apply Z.mod_small. lia. Qed.

Lemma u64_wrap_range x : is_u64 (u64_wrap x).
Proof.
  unfold is_u64, u64_wrap, u64_max.
  pose proof (Z.mod_pos_bound x (2 ^ 64) ltac:(lia)). lia.
Qed.

Lemma u8_wrap_range x : is_u8 (u8_wrap x).
Proof.
  unfold is_u8, u8_wrap, u8_max.
  pose proof (Z.mod_pos_bound x (2 ^ 8) ltac:(lia)). lia.
Qed.

Lemma i64_wrap_small x : - 2 ^ 63 <= x < 2 ^ 63 -> i64_wrap x = x.
Proof. intros H. unfold i64_wrap. rewrite Z.mod_small; lia. Qed.

#[export] Hint Resolve u64_wrap_range u8_wrap_range : trinci.

(** ** Results

    Rust's [Result<T, E>]. *)

Inductive Result (A E : Type) : Type :=
| Ok (a : A)
| Err (e : E).
Arguments Ok {A E} a.
Arguments Err {A E} e.

Definition is_err {A E} (r : Result A E) : bool :=
  match r with Ok _ => false | Err _ => true end.
Definition is_ok {A E} (r : Result A E) : bool := negb (is_err r).

#[export] Instance Result_eq_dec {A E} `{EqDecision A, EqDecision E} :
  EqDecision (Result A E).
Proof. solve_decision. Defined.

Definition result_bind {A B E} (r : Result A E) (f : A -> Result B E) : Result B E :=
  match r with Ok a => f a | Err e => Err e end.
Notation "'let?' x := r 'in' k" := (result_bind r (fun x => k))
  (at level 10, x binder, r at level 100, k at level 200) : trinci_scope.

Lemma result_bind_ok {A B E} (r : Result A E) (f : A -> Result B E) b :
  result_bind r f = Ok b <-> exists a, r = Ok a /\ f a = Ok b.
Proof.
  destruct r as [a|e]; simpl; split.
  - eauto.
  - intros (a' & [= ->] & Hf). exact Hf.
  - discriminate.
  - intros (a' & [=] & _).
Qed.

(** ** Lists

    [Iterator::find] is [List.find], [Vec::retain] is [List.filter], [any] and
    [all] are [existsb] and [forallb].  [iter_mut().find(p)] followed by a
    mutation of the element found is [update_first]. *)

Fixpoint update_first {A} (p : A -> bool) (f : A -> A) (l : list A) : list A :=
  match l with
  | [] => []
  | x :: l => if p x then f x :: l else x :: update_first p f l
  end.

(** [Vec::contains] *)
Definition contains {A} `{EqDecision A} (l : list A) (x : A) : bool := bool_decide (x ∈ l).

(** [slice::sort_by(|a, b| b.key.cmp(&a.key))]: a stable sort by decreasing key,
    as the insertion sort that computes it. *)
Fixpoint insert_desc {A} (key : A -> Z) (x : A) (l : list A) : list A :=
  match l with
  | [] => [x]
  | y :: l' => if key y <=? key x then x :: l else y :: insert_desc key x l'
  end.

Fixpoint sort_desc {A} (key : A -> Z) (l : list A) : list A :=
  match l with [] => [] | x :: l => insert_desc key x (sort_desc key l) end.

(** [u64] length of a vector *)
Definition len {A} (l : list A) : Z := Z.of_nat (length l).

Section lists.
Context {A : Type}.
Implicit Types (p : A -> bool) (l : list A).

Lemma contains_true `{EqDecision A} l x : contains l x = true <-> x ∈ l.
Proof. apply bool_decide_eq_true. Qed.

Lemma contains_false `{EqDecision A} l x : contains l x = false <-> x ∉ l.
Proof. apply bool_decide_eq_false. Qed.

Lemma find_elem p l x : find p l = Some x -> x ∈ l /\ p x = true.
Proof. intros H. apply find_some in H. by rewrite list_elem_of_In. Qed.

Lemma find_None_elem p l : find p l = None <-> forall x, x ∈ l -> p x = false.
Proof.
  split.
  - intros H x Hx. apply list_elem_of_In in Hx. eapply find_none in H; eauto.
  - induction l as [|y l IH]; intros H; simpl; [done|].
    rewrite (H y) by (left). apply IH. intros x Hx. apply H. by right.
Qed.

Lemma find_app p l k : find p (l ++ k) = match find p l with Some x => Some x | None => find p k end.
Proof. induction l as [|x l IH]; simpl; [done|]. destruct (p x); [done|exact IH]. Qed.

Lemma length_update_first p f l : length (update_first p f l) = length l.
Proof. induction l as [|x l IH]; simpl; [done|]. destruct (p x); simpl; congruence. Qed.

Lemma update_first_None p f l : find p l = None -> update_first p f l = l.
Proof. induction l as [|x l IH]; simpl; [done|]. destruct (p x); [done|]. intros. by rewrite IH. Qed.

Lemma find_update_first p f l x :
  find p l = Some x -> (forall y, p (f y) = p y) -> find p (update_first p f l) = Some (f x).
Proof.
  intros H Hf. induction l as [|y l IH]; simpl in *; [done|].
  destruct (p y) eqn:E; simpl.
  - simplify_eq. by rewrite Hf, E.
  - rewrite E. by apply IH.
Qed.

Lemma elem_of_update_first p f l y :
  y ∈ update_first p f l -> y ∈ l \/ exists x, x ∈ l /\ p x = true /\ y = f x.
Proof.
  induction l as [|x l IH]; simpl; [by auto|]. destruct (p x) eqn:E.
  - intros [->|Hy]%elem_of_cons; [|left; by right]. right. exists x. split_and!; [left|done|done].
  - intros [->|Hy]%elem_of_cons; [left; left|].
    destruct (IH Hy) as [?|(z & ? & ? & ?)]; [left; by right|].
    right. exists z. split_and!; [by right|done|done].
Qed.

Lemma Forall_update_first (P : A -> Prop) p f l :
  Forall P l -> (forall x, p x = true -> P x -> P (f x)) -> Forall P (update_first p f l).
Proof.
  intros Hl Hf. induction Hl as [|x l Hx Hl IH]; simpl; [constructor|].
  destruct (p x) eqn:E; constructor; auto.
Qed.

Lemma map_update_first {B} (g : A -> B) p f l :
  (forall x, p x = true -> g (f x) = g x) -> map g (update_first p f l) = map g l.
Proof.
  intros Hf. induction l as [|x l IH]; simpl; [done|].
  destruct (p x) eqn:E; simpl; [by rewrite Hf|by rewrite IH].
Qed.

Lemma insert_desc_perm key (x : A) l : insert_desc key x l ≡ₚ x :: l.
Proof.
  induction l as [|y l IH]; simpl; [done|]. destruct (_ <=? _); [done|].
  rewrite IH. apply Permutation_swap.
Qed.

Lemma sort_desc_perm (key : A -> Z) l : sort_desc key l ≡ₚ l.
Proof. induction l as [|x l IH]; simpl; [done|]. by rewrite insert_desc_perm, IH. Qed.

Lemma length_sort_desc (key : A -> Z) l : length (sort_desc key l) = length l.
Proof. apply Permutation_length, sort_desc_perm. Qed.

Lemma elem_of_filter_list p l x : x ∈ List.filter p l <-> x ∈ l /\ p x = true.
Proof. rewrite !list_elem_of_In. apply filter_In. Qed.

Lemma Forall_filter_list (P : A -> Prop) p l : Forall P l -> Forall P (List.filter p l).
Proof. rewrite !Forall_forall. intros H x [Hx _]%elem_of_filter_list. auto. Qed.

Lemma existsb_elem p l : existsb p l = true <-> exists x, x ∈ l /\ p x = true.
Proof. rewrite existsb_exists. by setoid_rewrite list_elem_of_In. Qed.

Lemma existsb_false_elem p l : existsb p l = false <-> forall x, x ∈ l -> p x = false.
Proof.
  rewrite <- not_true_iff_false, existsb_elem. split.
  - intros H x Hx. apply not_true_iff_false. eauto.
  - intros H (x & Hx & Hp). specialize (H x Hx). congruence.
Qed.

Lemma forallb_elem p l : forallb p l = true <-> forall x, x ∈ l -> p x = true.
Proof. rewrite forallb_forall. by setoid_rewrite list_elem_of_In. Qed.

Lemma len_nonneg l : 0 <= len l.
Proof. unfold len. lia. Qed.

Lemma len_app l k : len (l ++ k) = len l + len k.
Proof. unfold len. rewrite length_app. lia. Qed.
End lists.

(** The sort is a sort, and it is stable: elements of equal keys keep their order. *)
Definition desc {A} (key : A -> Z) (x y : A) : Prop := key y <= key x.

Section sorting.
Context {A : Type} (key : A -> Z).
Implicit Types l : list A.

Lemma insert_desc_sorted x l :
  StronglySorted (desc key) l -> StronglySorted (desc key) (insert_desc key x l).
Proof.
  induction 1 as [|y l Hl IH Hy]; simpl; [by repeat constructor|].
  destruct (key y <=? key x) eqn:E.
  - constructor; [by constructor|]. constructor; unfold desc in *; [lia|].
    eapply Forall_impl; [exact Hy|]. simpl. lia.
  - constructor; [done|]. rewrite insert_desc_perm. constructor; unfold desc in *; [lia|done].
Qed.

Lemma sort_desc_sorted l : StronglySorted (desc key) (sort_desc key l).
Proof. induction l; simpl; [constructor|by apply insert_desc_sorted]. Qed.

Lemma filter_insert_desc k x l :
  List.filter (fun y => key y =? k) (insert_desc key x l) =
  List.filter (fun y => key y =? k) (x :: l).
Proof.
  induction l as [|y l IH]; simpl in *; [done|]. destruct (key y <=? key x) eqn:E; [done|].
  simpl. rewrite IH. destruct (key y =? k) eqn:Ey, (key x =? k) eqn:Ex; try done. lia.
Qed.

Lemma sort_desc_stable k l :
  List.filter (fun y => key y =? k) (sort_desc key l) = List.filter (fun y => key y =? k) l.
Proof.
  induction l as [|x l IH]; [done|]. simpl sort_desc. rewrite filter_insert_desc. simpl.
  by rewrite IH.
Qed.

(** The first element of a sorted list that satisfies [p] has the largest key of those. *)
Lemma find_sorted_max p l x y :
  StronglySorted (desc key) l -> find p l = Some x -> y ∈ l -> p y = true -> key y <= key x.
Proof.
  induction 1 as [|z l Hl IH Hz]; simpl; [by intros|]. destruct (p z) eqn:E.
  - intros [= ->] [->|Hy]%elem_of_cons Hp; [done|]. rewrite Forall_forall in Hz. by apply Hz.
  - intros Hf [->|Hy]%elem_of_cons Hp; [congruence|]. eauto.
Qed.
End sorting.

(** ** Strings

    [str::strip_prefix] and [str::starts_with] *)
Fixpoint strip_prefix (p s : string) : option string :=
  match p, s with
  | EmptyString, _ => Some s
  | String c p, String c' s => if Ascii.eqb c c' then strip_prefix p s else None
  | String _ _, EmptyString => None
  end.
Definition starts_with (p s : string) : bool := bool_decide (is_Some (strip_prefix p s)).

Lemma strip_prefix_Some p s t : strip_prefix p s = Some t <-> s = (p ++ t)%string.
Proof.
  revert s. induction p as [|c p IH]; intros s; simpl; [split; [by intros [= ->]|by intros ->]|].
  destruct s as [|c' s]; [done|]. destruct (Ascii.eqb_spec c c') as [<-|Hc].
  - rewrite IH. change (String c p ++ t)%string with (String c (p ++ t)%string). split; [by intros ->|by intros [= ->]].
  - split; [done|]. by intros [= <- _].
Qed.

Lemma starts_with_true p s : starts_with p s = true <-> exists t, s = (p ++ t)%string.
Proof.
  unfold starts_with. rewrite bool_decide_eq_true. unfold is_Some. by setoid_rewrite strip_prefix_Some.
Qed.

(** ** Hash maps

    The order in which a [HashMap] is iterated is not specified: it is a parameter,
    which enumerates each entry once. *)
Class HashMapIter (K : Type) `{Countable K} : Type := {
  map_iter : forall {V : Type}, gmap K V -> list (K * V);
  map_iter_perm : forall {V : Type} (m : gmap K V), map_iter m ≡ₚ map_to_list m
}.

(** [HashMap::len] *)
Definition map_len `{Countable K} {V} (m : gmap K V) : Z := Z.of_nat (size m).

Lemma elem_of_map_iter `{HashMapIter K} {V} (m : gmap K V) k v :
  (k, v) ∈ map_iter m <-> m !! k = Some v.
Proof. by rewrite map_iter_perm, elem_of_map_to_list. Qed.

Lemma length_map_iter `{HashMapIter K} {V} (m : gmap K V) : len (map_iter m) = map_len m.
Proof. unfold len, map_len. by rewrite map_iter_perm, length_map_to_list. Qed.

(** The order [gmap] itself enumerates *)
Definition gmap_iter `{Countable K} : HashMapIter K :=
  {| map_iter := fun V m => map_to_list m; map_iter_perm := fun V m => reflexivity _ |}.

#[export] Hint Resolve len_nonneg Forall_filter_list sort_desc_sorted : trinci.
#[export] Hint Rewrite @length_update_first @length_sort_desc @len_app : trinci_rw.
