(* ===== verification/Exec.v ===== *)
(** * Execution model of the services

    A service of the code is a thread that owns a state, receives messages from
    a channel and runs a handler for each.  A handler reads and writes the state,
    sends messages, waits for the answers of the requests it sends, reads the
    clock and may panic (which ends the thread).  [M] is the monad of such
    handlers; the state [S], the effects [E] and the answers [R] are those of
    the service. *)

From S2P Require Import Prelude.
From stdpp Require Import base gmap strings list fin_maps.

(** What a handler runs in: the service's state; the answers the requests it
    sends will get, in order (when there are no more, a request times out); the
    clock, as its present reading and the readings that follow; and the effects
    done so far, in order. *)
Record world (S E R : Type) : Type := World {
  w_state : S;
  w_answers : list R;
  w_clock : Z * list Z;
  w_out : list E
}.
Arguments World {S E R} _ _ _ _.
Arguments w_state {S E R} _.
Arguments w_answers {S E R} _.
Arguments w_clock {S E R} _.
Arguments w_out {S E R} _.

(** A run returns a value, or panics leaving the effects done before. *)
Inductive exec (W A : Type) : Type :=
| Ret (a : A) (w : W)
| Panic (w : W).
Arguments Ret {W A} _ _.
Arguments Panic {W A} _.

Definition exec_world {W A} (r : exec W A) : W := match r with Ret _ w => w | Panic w => w end.
Definition panicked {W A} (r : exec W A) : bool := match r with Ret _ _ => false | Panic _ => true end.

Definition M (S E R A : Type) : Type := world S E R -> exec (world S E R) A.

#[export] Instance M_ret {S E R} : MRet (M S E R) := fun A a w => Ret a w.
#[export] Instance M_bind {S E R} : MBind (M S E R) := fun A B f m w =>
  match m w with Ret a w' => f a w' | Panic w' => Panic w' end.

Section primitives.
Context {S E R : Type}.

Definition get_state : M S E R S := fun w => Ret (w_state w) w.
Definition gets {A} (f : S -> A) : M S E R A := fun w => Ret (f (w_state w)) w.
Definition modify (f : S -> S) : M S E R unit := fun w =>
  Ret tt (World (f (w_state w)) (w_answers w) (w_clock w) (w_out w)).
Definition emit (e : E) : M S E R unit := fun w =>
  Ret tt (World (w_state w) (w_answers w) (w_clock w) (w_out w ++ [e])).
(** The next answer, [None] when none comes. *)
Definition next_answer : M S E R (option R) := fun w =>
  match w_answers w with
  | [] => Ret None w
  | a :: rest => Ret (Some a) (World (w_state w) rest (w_clock w) (w_out w))
  end.
(** [crate::utils::timestamp()] *)
Definition timestamp : M S E R Z := fun w =>
  let '(now, later) := w_clock w in
  Ret now (World (w_state w) (w_answers w)
                 (match later with [] => (now, []) | t :: ts => (t, ts) end) (w_out w)).
Definition panic {A} : M S E R A := fun w => Panic w.
(** [Option::expect], [Option::unwrap] and indexing *)
Definition expect {A} (o : option A) : M S E R A :=
  match o with Some a => mret a | None => panic end.
(** [for x in l { body }] *)
Fixpoint for_each {A} (l : list A) (body : A -> M S E R unit) : M S E R unit :=
  match l with [] => mret tt | x :: l => body x ;; for_each l body end.
(** [if c { body }] *)
Definition when (c : bool) (body : M S E R unit) : M S E R unit :=
  if c then body else mret tt.
(** The [?] operator on a [Result] *)
Definition try_bind {A B X} (m : M S E R (Result A X)) (k : A -> M S E R (Result B X)) :
    M S E R (Result B X) :=
  r ← m; match r with Ok a => k a | Err e => mret (Err e) end.
End primitives.

Notation "x <-? m ; k" := (try_bind m (fun x => k))
  (at level 20, m at level 100, k at level 200, only parsing) : trinci_scope.

(** A world with its state updated *)
Definition upd {S E R} (f : S -> S) (w : world S E R) : world S E R :=
  World (f (w_state w)) (w_answers w) (w_clock w) (w_out w).
(** A world with more effects *)
Definition outs {S E R} (es : list E) (w : world S E R) : world S E R :=
  World (w_state w) (w_answers w) (w_clock w) (w_out w ++ es).
(** The clock read once *)
Definition tick {S E R} (w : world S E R) : world S E R :=
  World (w_state w) (w_answers w)
    (match snd (w_clock w) with [] => (fst (w_clock w), []) | t :: ts => (t, ts) end) (w_out w).
(** The present reading of the clock *)
Definition now {S E R} (w : world S E R) : Z := fst (w_clock w).

Section equations.
Context {S E R : Type}.
Implicit Types w : world S E R.

Lemma bind_eq {A B} (m : M S E R A) (k : A -> M S E R B) w :
  (m ≫= k) w = match m w with Ret a w' => k a w' | Panic w' => Panic w' end.
Proof. done. Qed.

Lemma modify_eq (f : S -> S) w : modify f w = Ret tt (upd f w).
Proof. done. Qed.

Lemma timestamp_eq w : timestamp w = Ret (now w) (tick w).
Proof. destruct w as [s a [n l] o]. done. Qed.

Lemma for_each_modify {A} (l : list A) (f : A -> S -> S) w :
  for_each l (fun x => modify (f x)) w = Ret tt (upd (fun s => fold_left (fun s x => f x s) l s) w).
Proof.
  revert w. induction l as [|x l IH]; intros w; simpl; [by destruct w|].
  rewrite bind_eq, modify_eq. apply IH.
Qed.

Lemma for_each_upd {A} (l : list A) (body : A -> M S E R unit) (f : A -> S -> S) w :
  (forall x w, body x w = Ret tt (upd (f x) w)) ->
  for_each l body w = Ret tt (upd (fun s => fold_left (fun s x => f x s) l s) w).
Proof.
  intros Hb. revert w. induction l as [|x l IH]; intros w; simpl; [by destruct w|].
  rewrite bind_eq, Hb. apply IH.
Qed.

Lemma outs_outs (es es' : list E) (w : world S E R) : outs es' (outs es w) = outs (es ++ es') w.
Proof. unfold outs. cbn. by rewrite app_assoc. Qed.
Lemma outs_nil (w : world S E R) : outs [] w = w.
Proof. unfold outs. rewrite app_nil_r. by destruct w. Qed.
Lemma emit_outs (e : E) (w : world S E R) : emit e w = Ret tt (outs [e] w).
Proof. done. Qed.

Lemma for_each_emit {A} (l : list A) (f : A -> E) (w : world S E R) :
  for_each l (fun x => emit (f x)) w = Ret tt (World (w_state w) (w_answers w) (w_clock w) (w_out w ++ map f l)).
Proof.
  revert w. induction l as [|x l IH]; intros w; cbn [for_each map]; [rewrite app_nil_r; by destruct w|].
  rewrite bind_eq. cbn [emit]. rewrite IH. cbn. by rewrite <- app_assoc.
Qed.

(** A loop whose turns only emit *)
Lemma for_each_outs {A} (l : list A) (body : A -> M S E R unit) (f : A -> list E) w :
  (forall x v, x ∈ l -> body x v = Ret tt (outs (f x) v)) -> for_each l body w = Ret tt (outs (mjoin (map f l)) w).
Proof.
  revert w. induction l as [|x l IH]; intros w Hb; cbn [for_each map]; [unfold outs; cbn; rewrite app_nil_r; by destruct w|].
  rewrite bind_eq, Hb by (by left). rewrite IH by (intros y v Hy; apply Hb; by right). unfold outs. cbn. by rewrite app_assoc.
Qed.

Lemma for_each_app {A} (l k : list A) (body : A -> M S E R unit) w :
  for_each (l ++ k) body w =
    match for_each l body w with Ret _ w' => for_each k body w' | Panic w' => Panic w' end.
Proof.
  revert w. induction l as [|x l IH]; intros w; [done|]. cbn [app for_each].
  rewrite !bind_eq. by destruct (body x w) as [[] w'|w'].
Qed.

(** Invariants of the states of a loop that does not panic *)
Lemma for_each_inv {A} (P : world S E R -> Prop) (l : list A) body w w' :
  (forall x w w', x ∈ l -> P w -> body x w = Ret tt w' -> P w') ->
  P w -> for_each l body w = Ret tt w' -> P w'.
Proof.
  revert w. induction l as [|x l IH]; intros w Hb Hw; simpl; [by intros [= <-]|].
  rewrite bind_eq. destruct (body x w) as [[] w1|w1] eqn:Eb; [|done]. intros H.
  eapply IH; [|by eapply Hb; [left| |]|exact H]. intros y v v' Hy. apply Hb. by right.
Qed.
End equations.

(** ** Relational reasoning

    [rel P m]: every run of [m], panicking or not, ends in a world related by [P]
    to the one it started from.  For a preorder [P] this composes, so the frame
    properties of a handler follow from those of its primitives. *)

Definition rel {S E R A} (P : world S E R -> world S E R -> Prop) (m : M S E R A) : Prop :=
  forall w, P w (exec_world (m w)).

Section rel.
Context {S E R : Type} (P : world S E R -> world S E R -> Prop) `{!PreOrder P}.

Lemma rel_ret {A} (a : A) : rel P (mret a).
Proof. intros w. simpl. reflexivity. Qed.

Lemma rel_bind {A B} (m : M S E R A) (k : A -> M S E R B) :
  rel P m -> (forall a, rel P (k a)) -> rel P (m ≫= k).
Proof.
  intros Hm Hk w. specialize (Hm w). unfold mbind, M_bind.
  destruct (m w) as [a w'|w']; simpl in *; [|done]. etrans; [exact Hm|apply Hk].
Qed.

Lemma rel_panic {A} : rel P (panic (A := A)).
Proof. intros w. simpl. reflexivity. Qed.

Lemma rel_expect {A} (o : option A) : rel P (expect o).
Proof. destruct o; [apply rel_ret|apply rel_panic]. Qed.

Lemma rel_gets {A} (f : S -> A) : rel P (gets f).
Proof. intros w. simpl. reflexivity. Qed.

Lemma rel_get_state : rel P get_state.
Proof. intros w. simpl. reflexivity. Qed.

Lemma rel_when c (m : M S E R unit) : rel P m -> rel P (when c m).
Proof. intros H. destruct c; [exact H|apply rel_ret]. Qed.

Lemma rel_for_each {A} (l : list A) (body : A -> M S E R unit) :
  (forall x, x ∈ l -> rel P (body x)) -> rel P (for_each l body).
Proof.
  induction l as [|x l IH]; intros H; simpl; [apply rel_ret|].
  apply rel_bind; [apply H; left|]. intros _. apply IH. intros y Hy. apply H. by right.
Qed.

Lemma rel_try_bind {A B X} (m : M S E R (Result A X)) (k : A -> M S E R (Result B X)) :
  rel P m -> (forall a, rel P (k a)) -> rel P (try_bind m k).
Proof.
  intros Hm Hk. apply rel_bind; [exact Hm|]. intros [a|e]; [apply Hk|apply rel_ret].
Qed.
End rel.

(** Preorders used as frames: what a run leaves unchanged. *)
Definition same_proj {S E R X} (f : S -> X) (w w' : world S E R) : Prop :=
  f (w_state w') = f (w_state w).

(** The effects of a run are added after the earlier ones, each satisfying [Q]. *)
Definition adds {S E R} (Q : E -> Prop) (w w' : world S E R) : Prop :=
  exists es, w_out w' = w_out w ++ es /\ Forall Q es.

#[export] Instance same_proj_preorder {S E R X} (f : S -> X) :
  PreOrder (same_proj (E := E) (R := R) f).
Proof. split; [done|]. intros x y z. unfold same_proj. congruence. Qed.

#[export] Instance adds_preorder {S E R} (Q : E -> Prop) : PreOrder (adds (S := S) (R := R) Q).
Proof.
  split.
  - intros w. exists []. by rewrite app_nil_r.
  - intros x y z (es1 & Hy & H1) (es2 & Hz & H2). exists (es1 ++ es2).
    rewrite Hz, Hy, app_assoc. split; [done|].
    by apply Forall_app.
Qed.

(** An invariant of the state is kept. *)
Definition keeps {S E R} (I : S -> Prop) (w w' : world S E R) : Prop := I (w_state w) -> I (w_state w').

#[export] Instance keeps_preorder {S E R} (I : S -> Prop) : PreOrder (keeps (E := E) (R := R) I).
Proof. split; unfold keeps; [by intros x|]. intros x y z Hxy Hyz Hx. auto. Qed.

(** A program that leaves the state alone keeps any invariant of it. *)
Lemma rel_same_keeps {S E R A} (I : S -> Prop) (m : M S E R A) :
  rel (same_proj (fun s => s)) m -> rel (keeps I) m.
Proof. intros H w Hw. specialize (H w). unfold same_proj in H. by rewrite H. Qed.

Lemma rel_proj_keeps {S E R A X} (f : S -> X) (J : X -> Prop) (m : M S E R A) :
  rel (same_proj f) m -> rel (keeps (fun s => J (f s))) m.
Proof. intros H w Hw. specialize (H w). unfold same_proj in H. by rewrite H. Qed.

Lemma rel_modify_keeps {S E R} (I : S -> Prop) (f : S -> S) :
  (forall s, I s -> I (f s)) -> rel (E := E) (R := R) (keeps I) (modify f).
Proof. intros H w Hw. by apply H. Qed.

Lemma rel_modify {S E R} P (f : S -> S) :
  (forall w : world S E R, P w (World (f (w_state w)) (w_answers w) (w_clock w) (w_out w))) ->
  rel P (modify f).
Proof. intros H w. apply H. Qed.

Lemma rel_emit_adds {S E R} Q (e : E) : Q e -> rel (adds (S := S) (R := R) Q) (emit e).
Proof. intros H w. exists [e]. split; [done|]. by repeat constructor. Qed.

(** A preorder on a part of the state *)
Definition via {S E R X} (f : S -> X) (P : X -> X -> Prop) (w w' : world S E R) : Prop := P (f (w_state w)) (f (w_state w')).

#[export] Instance via_preorder {S E R X} (f : S -> X) (P : X -> X -> Prop) `{!PreOrder P} :
  PreOrder (via (E := E) (R := R) f P).
Proof. split; unfold via; [intros x; reflexivity|]. intros x y z Hxy Hyz. by etrans. Qed.

Lemma rel_via_same {S E R X A} (f : S -> X) (P : X -> X -> Prop) `{!PreOrder P} (m : M S E R A) :
  rel (same_proj f) m -> rel (via f P) m.
Proof. intros H w. specialize (H w). unfold same_proj in H. unfold via. by rewrite H. Qed.

Lemma rel_via_modify {S E R X} (f : S -> X) (P : X -> X -> Prop) (g : S -> S) :
  (forall s, P (f s) (f (g s))) -> rel (E := E) (R := R) (via f P) (modify g).
Proof. intros H w. apply H. Qed.

Section frames.
Context {S E R X : Type} (f : S -> X) (Q : E -> Prop).

Lemma rel_modify_proj (g : S -> S) :
  (forall s, f (g s) = f s) -> rel (E := E) (R := R) (same_proj f) (modify g).
Proof. intros H w. apply H. Qed.
Lemma rel_emit_proj (e : E) : rel (R := R) (same_proj f) (emit e).
Proof. intros w. done. Qed.
Lemma rel_next_answer_proj : rel (E := E) (R := R) (same_proj f) next_answer.
Proof. intros w. unfold next_answer. by destruct (w_answers w). Qed.
Lemma rel_timestamp_proj : rel (E := E) (R := R) (same_proj f) timestamp.
Proof. intros w. unfold timestamp. by destruct (w_clock w). Qed.
Lemma rel_modify_adds (g : S -> S) : rel (R := R) (adds Q) (modify g).
Proof. intros w. exists []. by rewrite app_nil_r. Qed.
Lemma rel_next_answer_adds : rel (S := S) (R := R) (adds Q) next_answer.
Proof.
  intros w. unfold next_answer. exists []. rewrite app_nil_r. by destruct (w_answers w).
Qed.
Lemma rel_timestamp_adds : rel (S := S) (R := R) (adds Q) timestamp.
Proof.
  intros w. unfold timestamp. exists []. rewrite app_nil_r. by destruct (w_clock w).
Qed.
End frames.

(** ** Total correctness

    [hoare P m Q]: from a world satisfying [P], [m] does not panic and its value
    and final world satisfy [Q]. *)
Definition hoare {S E R A} (P : world S E R -> Prop) (m : M S E R A)
    (Q : A -> world S E R -> Prop) : Prop :=
  forall w, P w -> match m w with Ret a w' => Q a w' | Panic _ => False end.

Section hoare.
Context {S E R : Type}.
Implicit Types P : world S E R -> Prop.

Lemma hoare_ret {A} P (a : A) : hoare P (mret a) (fun x w => x = a /\ P w).
Proof. intros w Hw. simpl. done. Qed.

Lemma hoare_bind {A B} P (m : M S E R A) Q (k : A -> M S E R B) Q' :
  hoare P m Q -> (forall a, hoare (Q a) (k a) Q') -> hoare P (m ≫= k) Q'.
Proof.
  intros Hm Hk w Hw. specialize (Hm w Hw). unfold mbind, M_bind.
  destruct (m w) as [a w'|]; [|done]. by apply Hk.
Qed.

Lemma hoare_conseq {A} P P' (m : M S E R A) Q Q' :
  hoare P' m Q' -> (forall w, P w -> P' w) -> (forall a w, Q' a w -> Q a w) -> hoare P m Q.
Proof.
  intros Hm HP HQ w Hw. specialize (Hm w (HP w Hw)). destruct (m w); [by apply HQ|done].
Qed.

Lemma hoare_for_each {A} (I : world S E R -> Prop) (l : list A) body :
  (forall x, x ∈ l -> hoare I (body x) (fun _ => I)) -> hoare I (for_each l body) (fun _ => I).
Proof.
  induction l as [|x l IH]; intros H; simpl.
  - intros w Hw. exact Hw.
  - apply (hoare_bind I _ (fun _ => I)); [apply H; left|]. intros ?. apply IH. intros y Hy. apply H. by right.
Qed.
End hoare.

Create HintDb frames discriminated.
#[export] Hint Resolve rel_ret rel_bind rel_panic rel_expect rel_gets rel_get_state rel_when
  rel_for_each rel_try_bind rel_emit_proj rel_next_answer_proj rel_timestamp_proj
  rel_modify_adds rel_next_answer_adds rel_timestamp_adds : frames.
#[export] Hint Extern 1 (PreOrder _) => typeclasses eauto : frames.

(** [frames]: proves a [rel] goal by descending into the program, with the
    lemmas of the database for the sub-programs. *)
Ltac frame_step :=
  lazymatch goal with
  | |- forall _, _ => intros ?
  | |- rel _ (mbind _ _) => apply rel_bind; [typeclasses eauto| |intros ?]
  | |- rel _ (mret _) => apply rel_ret; typeclasses eauto
  | |- rel _ (try_bind _ _) => apply rel_try_bind; [typeclasses eauto| |intros ?]
  | |- rel _ (when _ _) => apply rel_when; [typeclasses eauto|]
  | |- rel _ (for_each _ _) => apply rel_for_each; [typeclasses eauto|intros ? _]
  | |- rel _ (if ?c then _ else _) => destruct c
  | |- rel _ (match ?x with _ => _ end) => destruct x
  | |- rel _ (let '_ := ?x in _) => destruct x
  | |- rel (same_proj _) (modify _) => apply rel_modify_proj; intros ?
  | |- rel _ (emit _) => first [apply rel_emit_proj | apply rel_emit_adds]
  | |- rel _ _ => solve [auto with frames nocore]
  end.
Ltac frames := repeat frame_step.

(** ** Runs that ended *)

Lemma bind_ret_inv {S E R A B} (m : M S E R A) (k : A -> M S E R B) w b w' :
  (m ≫= k) w = Ret b w' -> exists a w1, m w = Ret a w1 /\ k a w1 = Ret b w'.
Proof. rewrite bind_eq. destruct (m w) as [a w1|w1]; [|done]. intros H. by exists a, w1. Qed.

Lemma expect_ret_inv {S E R A} (o : option A) (w : world S E R) a w' : expect o w = Ret a w' -> o = Some a /\ w' = w.
Proof. destruct o; [|done]. by intros [= -> ->]. Qed.

Lemma try_ret_inv {S E R A B X} (m : M S E R (Result A X)) (k : A -> M S E R (Result B X)) w b w' :
  try_bind m k w = Ret (Ok b) w' -> exists a w1, m w = Ret (Ok a) w1 /\ k a w1 = Ret (Ok b) w'.
Proof. unfold try_bind. intros (r & w1 & Hm & H)%bind_ret_inv. destruct r as [a|e]; [by exists a, w1|done]. Qed.

(** [invert H]: the steps of a run that ended *)
Ltac invert H :=
  lazymatch type of H with
  | (_ ≫= _) _ = Ret _ _ =>
      let a := fresh "a" in let w1 := fresh "w" in let H1 := fresh "R" in
      apply bind_ret_inv in H as (a & w1 & H1 & H); cbv beta in H
  end.

Tactic Notation "inverting" hyp(H) "as" ident(a) ident(w1) ident(R) :=
  apply bind_ret_inv in H as (a & w1 & R & H); cbv beta in H.
Tactic Notation "inverting" "try" hyp(H) "as" ident(a) ident(w1) ident(R) :=
  apply try_ret_inv in H as (a & w1 & R & H); cbv beta in H.

(** ** Programs on a part of the state

    [zoom get put inj m] runs [m] on the part [get] gives, with the answers and the
    clock of the whole; [put] puts the part back and [inj] embeds its effects. *)
Section zoom.
Context {S S' E E' R : Type} (get : S -> S') (put : S' -> S -> S) (inj : E' -> E).

Definition zoom_in (w : world S E R) : world S' E' R := World (get (w_state w)) (w_answers w) (w_clock w) [].
Definition zoom_out (w : world S E R) (w' : world S' E' R) : world S E R :=
  World (put (w_state w') (w_state w)) (w_answers w') (w_clock w') (w_out w ++ map inj (w_out w')).

Definition zoom {A} (m : M S' E' R A) : M S E R A := fun w =>
  match m (zoom_in w) with
  | Ret a w' => Ret a (zoom_out w w')
  | Panic w' => Panic (zoom_out w w')
  end.

Lemma rel_zoom {A} (P' : world S' E' R -> world S' E' R -> Prop) (P : world S E R -> world S E R -> Prop) (m : M S' E' R A) :
  rel P' m -> (forall w w', P' (zoom_in w) w' -> P w (zoom_out w w')) -> rel P (zoom m).
Proof.
  intros Hm HP w. specialize (Hm (zoom_in w)). unfold zoom. destruct (m (zoom_in w)); simpl in *; by apply HP.
Qed.

End zoom.

(** ** Programs that do not panic *)
Definition safe {S E R A} (m : M S E R A) : Prop := forall w, panicked (m w) = false.

Section safe.
Context {S E R : Type}.

Lemma safe_ret {A} (a : A) : safe (S := S) (E := E) (R := R) (mret a).
Proof. done. Qed.

Lemma safe_bind {A B} (m : M S E R A) (k : A -> M S E R B) : safe m -> (forall a, safe (k a)) -> safe (m ≫= k).
Proof.
  intros Hm Hk w. specialize (Hm w). rewrite bind_eq. destruct (m w) as [a w'|w']; [apply Hk|done].
Qed.

Lemma safe_try_bind {A B X} (m : M S E R (Result A X)) (k : A -> M S E R (Result B X)) :
  safe m -> (forall a, safe (k a)) -> safe (try_bind m k).
Proof. intros Hm Hk. apply safe_bind; [exact Hm|]. intros [a|e]; [apply Hk|apply safe_ret]. Qed.

Lemma safe_when c (m : M S E R unit) : safe m -> safe (when c m).
Proof. by destruct c. Qed.

Lemma safe_for_each {A} (l : list A) (body : A -> M S E R unit) :
  (forall x, x ∈ l -> safe (body x)) -> safe (for_each l body).
Proof.
  induction l as [|x l IH]; intros H; simpl; [apply safe_ret|].
  apply safe_bind; [apply H; left|]. intros _. apply IH. intros y Hy. apply H. by right.
Qed.

Lemma safe_modify (f : S -> S) : safe (E := E) (R := R) (modify f).
Proof. done. Qed.
Lemma safe_emit (e : E) : safe (S := S) (R := R) (emit e).
Proof. done. Qed.
Lemma safe_gets {A} (f : S -> A) : safe (E := E) (R := R) (gets f).
Proof. done. Qed.
Lemma safe_get_state : safe (E := E) (R := R) (get_state (S := S)).
Proof. done. Qed.
Lemma safe_next_answer : safe (S := S) (E := E) (R := R) next_answer.
Proof. intros w. unfold next_answer. by destruct (w_answers w). Qed.
Lemma safe_timestamp : safe (S := S) (E := E) (R := R) timestamp.
Proof. intros w. by rewrite timestamp_eq. Qed.

(** What a frame says of every run it says of the final world of a run that ends. *)
Lemma safe_rel {A} (P : world S E R -> world S E R -> Prop) (m : M S E R A) w :
  safe m -> rel P m -> exists a w', m w = Ret a w' /\ P w w'.
Proof.
  intros Hs Hr. specialize (Hs w). specialize (Hr w). destruct (m w) as [a w'|w']; [by exists a, w'|done].
Qed.
End safe.

Create HintDb safety discriminated.
#[export] Hint Resolve safe_ret safe_modify safe_emit safe_gets safe_get_state safe_next_answer
  safe_timestamp : safety.

(** [safely]: proves that a program does not panic by descending into it. *)
Ltac safe_step :=
  lazymatch goal with
  | |- forall _, _ => intros ?
  | |- safe (mbind _ _) => apply safe_bind; [|intros ?]
  | |- safe (try_bind _ _) => apply safe_try_bind; [|intros ?]
  | |- safe (when _ _) => apply safe_when
  | |- safe (for_each _ _) => apply safe_for_each; intros ? _
  | |- safe (if ?c then _ else _) => destruct c
  | |- safe (match ?x with _ => _ end) => destruct x
  | |- safe (let '_ := ?x in _) => destruct x
  | |- safe _ => solve [auto with safety nocore]
  end.
Ltac safely := repeat safe_step.

(** ** What a run leaves a projection of the state at *)
Definition sets {S E R A X} (f : S -> X) (v : X) (m : M S E R A) : Prop :=
  forall w a w', m w = Ret a w' -> f (w_state w') = v.

Section sets.
Context {S E R X : Type} (f : S -> X) (v : X).

Lemma sets_after {A B} (m : M S E R A) (k : A -> M S E R B) : (forall a, sets f v (k a)) -> sets f v (m ≫= k).
Proof. intros Hk w b w'. rewrite bind_eq. destruct (m w) as [a w1|w1]; [apply Hk|done]. Qed.

Lemma sets_then {A B} (m : M S E R A) (k : A -> M S E R B) :
  sets f v m -> (forall a, rel (same_proj f) (k a)) -> sets f v (m ≫= k).
Proof.
  intros Hm Hk w b w'. rewrite bind_eq. destruct (m w) as [a w1|w1] eqn:Em; [|done]. intros Hb.
  specialize (Hk a w1). unfold same_proj in Hk. rewrite Hb in Hk. simpl in Hk. rewrite Hk. by eapply Hm.
Qed.

Lemma sets_modify (g : S -> S) : (forall s, f (g s) = v) -> sets (E := E) (R := R) f v (modify g).
Proof. intros Hg w a w'. rewrite modify_eq. intros [= _ <-]. apply Hg. Qed.
End sets.

(** ** Partial correctness

    [ensures P m Q]: from a world satisfying [P], if [m] does not panic then its value
    and final world satisfy [Q].  What a thread leaves when it panics is not looked at. *)
Definition ensures {S E R A} (P : world S E R -> Prop) (m : M S E R A) (Q : A -> world S E R -> Prop) : Prop :=
  forall w, P w -> match m w with Ret a w' => Q a w' | Panic _ => True end.

Section ensures.
Context {S E R : Type}.
Implicit Types P : world S E R -> Prop.

Lemma ensures_ret {A} P (a : A) Q : (forall w, P w -> Q a w) -> ensures P (mret a) Q.
Proof. intros H w Hw. by apply H. Qed.

Lemma ensures_bind {A B} P (m : M S E R A) Q (k : A -> M S E R B) Q' :
  ensures P m Q -> (forall a, ensures (Q a) (k a) Q') -> ensures P (m ≫= k) Q'.
Proof.
  intros Hm Hk w Hw. specialize (Hm w Hw). rewrite bind_eq. destruct (m w) as [a w'|]; [by apply Hk|done].
Qed.

Lemma ensures_try_bind {A B X} P (m : M S E R (Result A X)) Q (k : A -> M S E R (Result B X)) Q' :
  ensures P m Q -> (forall a, ensures (Q (Ok a)) (k a) Q') -> (forall e w, Q (Err e) w -> Q' (Err e) w) ->
  ensures P (try_bind m k) Q'.
Proof.
  intros Hm Hk He. apply (ensures_bind _ _ Q); [exact Hm|]. intros [a|e]; [apply Hk|]. intros w Hw. by apply He.
Qed.

(** What holds of the value alone holds of it on a part of the state. *)
Lemma ensures_zoom {S' E' A} (get : S -> S') put (inj : E' -> E) (m : M S' E' R A) P (Q : A -> Prop) :
  ensures (fun _ => True) m (fun a _ => Q a) -> ensures P (zoom get put inj m) (fun a _ => Q a).
Proof. intros H w _. specialize (H (zoom_in get w) I). unfold zoom. by destruct (m (zoom_in get w)). Qed.

Lemma ensures_panic {A} P (Q : A -> world S E R -> Prop) : ensures P panic Q.
Proof. by intros w Hw. Qed.

Lemma ensures_expect {A} P (o : option A) (Q : A -> world S E R -> Prop) :
  (forall a w, o = Some a -> P w -> Q a w) -> ensures P (expect o) Q.
Proof. destruct o as [a|]; intros H; [|apply ensures_panic]. intros w Hw. by apply H. Qed.

Lemma ensures_modify P (f : S -> S) Q : (forall w, P w -> Q tt (upd f w)) -> ensures P (modify f) Q.
Proof. intros H w Hw. by apply H. Qed.

Lemma ensures_get P Q : (forall w, P w -> Q (w_state w) w) -> ensures P get_state Q.
Proof. intros H w Hw. by apply H. Qed.

(** A frame keeps a property of the states it relates. *)
Lemma ensures_rel {A} (R' : world S E R -> world S E R -> Prop) P (m : M S E R A) :
  rel R' m -> (forall w w', R' w w' -> P w -> P w') -> ensures P m (fun _ => P).
Proof. intros Hm HR w Hw. specialize (Hm w). destruct (m w) as [a w'|]; [|done]. by eapply HR. Qed.

Lemma rel_bind_ensures {A B} (R' : world S E R -> world S E R -> Prop) `{!PreOrder R'} (m : M S E R A) (Q : A -> Prop) (k : A -> M S E R B) :
  rel R' m -> ensures (fun _ => True) m (fun a _ => Q a) -> (forall a, Q a -> rel R' (k a)) -> rel R' (m ≫= k).
Proof.
  intros Hm HQ Hk w. specialize (Hm w). specialize (HQ w I). rewrite bind_eq. destruct (m w) as [a w'|w']; [|done].
  etrans; [exact Hm|]. by apply Hk.
Qed.

Lemma ensures_conseq {A} P P' (m : M S E R A) Q Q' :
  ensures P' m Q' -> (forall w, P w -> P' w) -> (forall a w, Q' a w -> Q a w) -> ensures P m Q.
Proof. intros Hm HP HQ w Hw. specialize (Hm w (HP w Hw)). destruct (m w); [by apply HQ|done]. Qed.

Lemma ensures_for_each {A} P (l : list A) body :
  (forall x, x ∈ l -> ensures P (body x) (fun _ => P)) -> ensures P (for_each l body) (fun _ => P).
Proof.
  induction l as [|x l IH]; intros H; simpl; [by apply ensures_ret|].
  apply (ensures_bind _ _ (fun _ => P)); [apply H; left|]. intros _. apply IH. intros y Hy. apply H. by right.
Qed.
End ensures.

(** ** Approximation

    [approx m m']: whatever [m] returns, [m'] returns; [m] may panic where [m'] does not. *)
Definition approx {S E R A} (m m' : M S E R A) : Prop := forall w a w', m w = Ret a w' -> m' w = Ret a w'.

Section approx.
Context {S E R : Type}.

Lemma approx_refl {A} (m : M S E R A) : approx m m.
Proof. by intros w a w'. Qed.

Lemma approx_panic {A} (m : M S E R A) : approx panic m.
Proof. intros w a w' H. discriminate H. Qed.

Lemma approx_bind {A B} (m m' : M S E R A) (k k' : A -> M S E R B) :
  approx m m' -> (forall a, approx (k a) (k' a)) -> approx (m ≫= k) (m' ≫= k').
Proof.
  intros Hm Hk w b w'. rewrite !bind_eq. destruct (m w) as [a w1|] eqn:Em; [|done]. rewrite (Hm _ _ _ Em). apply Hk.
Qed.

Lemma approx_try_bind {A B X} (m m' : M S E R (Result A X)) (k k' : A -> M S E R (Result B X)) :
  approx m m' -> (forall a, approx (k a) (k' a)) -> approx (try_bind m k) (try_bind m' k').
Proof. intros Hm Hk. apply approx_bind; [exact Hm|]. intros [a|e]; [apply Hk|apply approx_refl]. Qed.

Lemma approx_zoom {S' E' A} (get : S -> S') put (inj : E' -> E) (m m' : M S' E' R A) :
  approx m m' -> approx (zoom get put inj m) (zoom get put inj m').
Proof.
  intros H w a w'. unfold zoom. destruct (m (zoom_in get w)) as [b w1|] eqn:Em; [|done]. by rewrite (H _ _ _ Em).
Qed.
End approx.

Create HintDb approx discriminated.
Ltac approx_step :=
  lazymatch goal with
  | |- forall _, _ => intros ?
  | |- approx (mbind _ _) (mbind _ _) => apply approx_bind; [|intros ?]
  | |- approx (try_bind _ _) (try_bind _ _) => apply approx_try_bind; [|intros ?]
  | |- approx (zoom _ _ _ _) (zoom _ _ _ _) => apply approx_zoom
  | |- approx (if ?c then _ else _) _ => destruct c
  | |- approx (match ?x with _ => _ end) _ => destruct x
  | |- approx ?m ?m => apply approx_refl
  | |- approx _ _ => solve [auto with approx nocore]
  end.
Ltac approximates := repeat approx_step.
