(* ===== verification/Twins.v ===== *)
(** * Two runs side by side

    [twins P m m']: from worlds that get the same answers and the same clock and whose states are
    related by [P], the programs [m] and [m'] end alike: both panic, or both return the same value,
    have the same effects, consume the same answers, and leave states related by [P] again.  What
    [P] leaves open is what the runs do not depend on. *)

From stdpp Require Import base gmap strings list fin_maps.
From S2P Require Import Prelude.
From S2P Require Import Exec.

Section twins.
Context {S E R : Type}.

(** Worlds that a run cannot tell apart but for what [P] leaves open *)
Definition paired (P : S -> S -> Prop) (w v : world S E R) : Prop :=
  P (w_state w) (w_state v) /\ w_answers w = w_answers v /\ w_clock w = w_clock v.

(** The effects since then are the same. *)
Definition same_effects (w v w' v' : world S E R) : Prop := exists es, w_out w' = w_out w ++ es /\ w_out v' = w_out v ++ es.

Definition twins {A} (P : S -> S -> Prop) (m m' : M S E R A) : Prop :=
  forall w v, paired P w v ->
  match m w, m' v with
  | Ret a w', Ret b v' => a = b /\ paired P w' v' /\ same_effects w v w' v'
  | Panic w', Panic v' => same_effects w v w' v'
  | _, _ => False
  end.

Context (P : S -> S -> Prop).

Lemma same_effects_refl w v : same_effects w v w v.
Proof. exists []. by rewrite !app_nil_r. Qed.
Lemma same_effects_trans w v w1 v1 w2 v2 : same_effects w v w1 v1 -> same_effects w1 v1 w2 v2 -> same_effects w v w2 v2.
Proof. intros (es1 & H1 & H2) (es2 & H3 & H4). exists (es1 ++ es2). by rewrite H3, H4, H1, H2, !app_assoc. Qed.

Lemma twins_ret {A} (a : A) : twins P (mret a) (mret a).
Proof. intros w v H. split; [done|]. split; [done|apply same_effects_refl]. Qed.
Lemma twins_panic {A} : twins P (panic (A := A)) panic.
Proof. intros w v H. apply same_effects_refl. Qed.
Lemma twins_expect {A} (o : option A) : twins P (expect o) (expect o).
Proof. destruct o; [apply twins_ret|apply twins_panic]. Qed.

Lemma twins_bind {A B} (m m' : M S E R A) (k k' : A -> M S E R B) :
  twins P m m' -> (forall a, twins P (k a) (k' a)) -> twins P (m ≫= k) (m' ≫= k').
Proof.
  intros Hm Hk w v Hp. specialize (Hm w v Hp). rewrite !bind_eq. destruct (m w) as [a w1|w1], (m' v) as [b v1|v1]; try done.
  destruct Hm as (-> & Hp1 & He1). specialize (Hk b w1 v1 Hp1). destruct (k b w1) as [c w2|w2], (k' b v1) as [d v2|v2]; try done.
  - destruct Hk as (-> & Hp2 & He2). split; [done|]. split; [done|]. by eapply same_effects_trans.
  - by eapply same_effects_trans.
Qed.

Lemma twins_try_bind {A B X} (m m' : M S E R (Result A X)) (k k' : A -> M S E R (Result B X)) :
  twins P m m' -> (forall a, twins P (k a) (k' a)) -> twins P (try_bind m k) (try_bind m' k').
Proof. intros Hm Hk. apply twins_bind; [done|]. intros [a|e]; [apply Hk|apply twins_ret]. Qed.

Lemma twins_when c (m m' : M S E R unit) : twins P m m' -> twins P (when c m) (when c m').
Proof. intros H. destruct c; [done|apply twins_ret]. Qed.

Lemma twins_modify (f f' : S -> S) : (forall s s', P s s' -> P (f s) (f' s')) -> twins P (modify f) (modify f').
Proof.
  intros Hf w v (Hs & Ha & Hc). split; [done|]. split; [split_and!; [by apply Hf|done|done]|]. exists []. cbn. by rewrite !app_nil_r.
Qed.
Lemma twins_emit (e : E) : twins P (emit e) (emit e).
Proof. intros w v H. split; [done|]. split; [done|]. by exists [e]. Qed.
Lemma twins_next_answer : twins P next_answer next_answer.
Proof.
  intros w v (Hs & Ha & Hc). unfold next_answer. rewrite <- Ha. destruct (w_answers w) as [|a l] eqn:Hl.
  - split; [done|]. split; [split_and!; [done|by rewrite Hl|done]|apply same_effects_refl].
  - split; [done|]. split; [done|]. exists []. cbn. by rewrite !app_nil_r.
Qed.

Lemma twins_for_each {A} (l : list A) (body body' : A -> M S E R unit) :
  (forall x, x ∈ l -> twins P (body x) (body' x)) -> twins P (for_each l body) (for_each l body').
Proof.
  induction l as [|x l IH]; intros Hb; cbn [for_each]; [apply twins_ret|].
  apply twins_bind; [apply Hb; by left|]. intros _. apply IH. intros y Hy. apply Hb. by right.
Qed.

(** What is read is the same, or what follows does not depend on where it differs. *)
Lemma twins_gets {A} (f : S -> A) : (forall s s', P s s' -> f s = f s') -> twins P (gets f) (gets f).
Proof. intros Hf w v H. split; [by apply Hf, H|]. split; [done|apply same_effects_refl]. Qed.
Lemma twins_gets_bind {A B} (f : S -> A) (Q : A -> A -> Prop) (k k' : A -> M S E R B) :
  (forall s s', P s s' -> Q (f s) (f s')) -> (forall a b, Q a b -> twins P (k a) (k' b)) -> twins P (gets f ≫= k) (gets f ≫= k').
Proof. intros Hf Hk w v H. rewrite !bind_eq. cbn. by apply Hk; [apply Hf, H|]. Qed.

Lemma twins_get_bind {B} (k k' : S -> M S E R B) : (forall s s', P s s' -> twins P (k s) (k' s')) -> twins P (get_state ≫= k) (get_state ≫= k').
Proof. intros Hk w v H. rewrite !bind_eq. cbn. by apply Hk; [apply H|]. Qed.
End twins.

(** A program on a part of the state: two runs of it that are twins, or one that sees the same part *)
Section zoom.
Context {S S' E E' R : Type} (P : S -> S -> Prop) (get : S -> S') (put : S' -> S -> S) (inj : E' -> E).

Lemma twins_zoom (Q : S' -> S' -> Prop) {A} (m m' : M S' E' R A) :
  (forall s s', P s s' -> Q (get s) (get s')) -> (forall t t' s s', Q t t' -> P s s' -> P (put t s) (put t' s')) ->
  twins Q m m' -> twins P (zoom get put inj m) (zoom get put inj m').
Proof.
  intros Hg Hp Hm w v (Hs & Ha & Hc). specialize (Hm (zoom_in get w) (zoom_in get v)). unfold zoom.
  specialize (Hm (conj (Hg _ _ Hs) (conj Ha Hc))).
  assert (He : forall w' v' : world S' E' R, same_effects (zoom_in get w) (zoom_in get v) w' v' ->
    same_effects w v (zoom_out put inj w w') (zoom_out put inj v v')).
  { intros w' v' (es & H1 & H2). exists (map inj es). cbn in *. by rewrite H1, H2. }
  destruct (m (zoom_in get w)) as [a w'|w'], (m' (zoom_in get v)) as [b v'|v']; try done; [|by apply He].
  destruct Hm as (-> & (Hs' & Ha' & Hc') & Hes). split; [done|]. split; [split_and!; [by apply Hp|done|done]|by apply He].
Qed.

Lemma twins_zoom_same {A} (m : M S' E' R A) :
  (forall s s', P s s' -> get s = get s') -> (forall t s s', P s s' -> P (put t s) (put t s')) ->
  twins P (zoom get put inj m) (zoom get put inj m).
Proof.
  intros Hg Hp w v (Hs & Ha & Hc). unfold zoom.
  assert (zoom_in (E' := E') get v = zoom_in get w) as -> by (unfold zoom_in; by rewrite (Hg _ _ Hs), Ha, Hc).
  destruct (m (zoom_in get w)) as [a w'|w']; [|by exists (map inj (w_out w'))].
  split; [done|]. split; [split_and!; [by apply Hp|done|done]|by exists (map inj (w_out w'))].
Qed.
End zoom.

Create HintDb twins.

(** [twins_run]: descends into both programs at once. *)
Ltac twins_step :=
  lazymatch goal with
  | |- forall _, _ => intros ?
  | |- twins _ (mbind _ _) (mbind _ _) => apply twins_bind; [|intros ?]
  | |- twins _ (try_bind _ _) (try_bind _ _) => apply twins_try_bind; [|intros ?]
  | |- twins _ (mret _) _ => apply twins_ret
  | |- twins _ (when _ _) (when _ _) => apply twins_when
  | |- twins _ (expect _) _ => apply twins_expect
  | |- twins _ (emit _) _ => apply twins_emit
  | |- twins _ (for_each _ _) (for_each _ _) => apply twins_for_each; intros ? _
  | |- twins _ panic _ => apply twins_panic
  | |- twins _ (if ?c then _ else _) _ => destruct c
  | |- twins _ (match ?x with _ => _ end) _ => destruct x
  | |- twins _ _ _ => solve [auto with twins nocore]
  end.
Ltac twins_run := repeat twins_step.
