(* ===== verification/Hash.v ===== *)
(** * Multihashes ([trinci-core-new/src/crypto/hash.rs])

    A [Hash] is an array of 38 bytes: the algorithm, the length of the value, the
    value, and zeros.  The digest function of the [ring] crate is a parameter. *)

From S2P Require Import Prelude.
From stdpp Require Import base gmap strings list fin_maps.
Open Scope Z_scope.

(** [crate::consts] *)
Definition MULTIHASH_VALUE_LEN_MAX : Z := 36.
Definition MULTIHASH_BYTES_LEN_MAX : Z := 2 + MULTIHASH_VALUE_LEN_MAX.
Definition MULTIHASH_TYPE_IDENTITY : Z := 0x00.
Definition MULTIHASH_TYPE_SHA256 : Z := 0x12.

(** [crate::artifacts::errors::CryptoError]; the errors it wraps are opaque. *)
Inductive CryptoError : Type :=
| CryptoAlgKeyRejected
| CryptoAlgUnspecifiedError
| IoError
| MalformedData (msg : string).

Inductive HashAlgorithm : Type := Identity | Sha256.

Record Hash : Type := MkHash { hash_0 : list Z }.

#[export] Instance CryptoError_eq_dec : EqDecision CryptoError.
Proof. solve_decision. Defined.
#[export] Instance HashAlgorithm_eq_dec : EqDecision HashAlgorithm.
Proof. solve_decision. Defined.
#[export] Instance Hash_eq_dec : EqDecision Hash.
Proof. solve_decision. Defined.
#[export] Instance Hash_countable : Countable Hash.
Proof. by apply (inj_countable' hash_0 MkHash); intros []. Defined.

(** The digest of the [ring] crate: 32 bytes for any data. *)
Class Digest : Type := {
  sha256 : list Z -> list Z;
  sha256_length : forall data, length (sha256 data) = 32%nat;
  sha256_bytes : forall data, Forall is_u8 (sha256 data)
}.

Module Hashes.
Definition default : Hash :=
  MkHash (replicate (Z.to_nat MULTIHASH_BYTES_LEN_MAX) 0).

Definition err {A} (msg : string) : Result A CryptoError := Err (MalformedData msg).

(** [u8::try_from] of a length *)
Definition u8_try_from (n : Z) : Result Z CryptoError :=
  if (0 <=? n) && (n <=? u8_max) then Ok n
  else err "out of range integral type conversion attempted".

(** [a[i..i + s.len()].copy_from_slice(s)], in bounds *)
Definition copy_at (i : nat) (s a : list Z) : list Z :=
  take i a ++ s ++ drop (i + length s) a.

(** [&a[..n]], [None] when out of bounds (a panic) *)
Definition slice_to (a : list Z) (n : Z) : option (list Z) :=
  if n <=? len a then Some (take (Z.to_nat n) a) else None.

Definition hash_alg_byte (alg : HashAlgorithm) (hash_len : Z) : Result Z CryptoError :=
  match alg with
  | Identity => Ok MULTIHASH_TYPE_IDENTITY
  | Sha256 =>
      if 32 <? hash_len then err "Hash length greater than 32 for SHA256"
      else Ok MULTIHASH_TYPE_SHA256
  end.

(** [Hash::new] *)
Definition new (alg : HashAlgorithm) (bytes : list Z) : Result Hash CryptoError :=
  let hash_len := len bytes in
  if MULTIHASH_VALUE_LEN_MAX <? hash_len then err "Multihash length exceeded maximum (36)"
  else
    let? hash_alg := hash_alg_byte alg hash_len in
    let? hash_len8 := u8_try_from hash_len in
    Ok (MkHash (copy_at 2 bytes (<[1%nat := hash_len8]> (<[0%nat := hash_alg]> (hash_0 default))))).

(** [Hash::from_bytes] *)
Definition from_bytes (bytes : list Z) : Result Hash CryptoError :=
  let bytes_len := len bytes in
  if bytes_len <? 2 then err "Multihash length lower than 2"
  else
    let hash_len := nth 1 bytes 0 in
    if negb (hash_len =? bytes_len - 2) then err "Multihash length and hash value length error "
    else
      let? alg :=
        (if nth 0 bytes 0 =? MULTIHASH_TYPE_IDENTITY then Ok Identity
         else if nth 0 bytes 0 =? MULTIHASH_TYPE_SHA256 then Ok Sha256
         else err "Couldn't find hash algorithm from algorithm identifier byte") in
      new alg (drop 2 bytes).

Definition hash_size (h : Hash) : Z := nth 1 (hash_0 h) 0.
Definition size (h : Hash) : Z := 2 + hash_size h.
(** [Hash::as_bytes] slices the array, [None] when the slice is out of bounds. *)
Definition as_bytes (h : Hash) : option (list Z) := slice_to (hash_0 h) (size h).
Definition to_bytes (h : Hash) : option (list Z) := as_bytes h.
Definition hash_algorithm (h : Hash) : Result HashAlgorithm CryptoError :=
  if nth 0 (hash_0 h) 0 =? MULTIHASH_TYPE_IDENTITY then Ok Identity
  else if nth 0 (hash_0 h) 0 =? MULTIHASH_TYPE_SHA256 then Ok Sha256
  else err "Unexpected hash algorithm".
Definition hash_value (h : Hash) : list Z := drop 2 (hash_0 h).

(** [Hash::from_data] *)
Definition from_data `{Digest} (alg : HashAlgorithm) (data : list Z) : Result Hash CryptoError :=
  match alg with
  | Identity => new Identity data
  | Sha256 => new Sha256 (sha256 data)
  end.

(** [Hash::from_hex], over the [hex] crate's decoder *)
Definition from_hex (decode : string -> Result (list Z) string) (hex : string) :
    Result Hash CryptoError :=
  match decode hex with Ok buf => from_bytes buf | Err e => err e end.

(** [serde::Serialize] writes the multihash bytes; [visit_bytes], [visit_byte_buf]
    and [visit_seq] of the [Deserialize] visitor all read them. *)
Definition serialize (h : Hash) : option (list Z) := as_bytes h.
Definition visit_bytes (bytes : list Z) : Result Hash string :=
  match from_bytes bytes with Ok h => Ok h | Err _ => Err "Invalid multihash" end.

(** ** The type invariant *)
Record wf (h : Hash) : Prop := {
  wf_length : length (hash_0 h) = 38%nat;
  wf_bytes : Forall is_u8 (hash_0 h);
  wf_size : 0 <= hash_size h <= 36;
  wf_alg : nth 0 (hash_0 h) 0 = MULTIHASH_TYPE_IDENTITY \/
           nth 0 (hash_0 h) 0 = MULTIHASH_TYPE_SHA256 /\ hash_size h <= 32;
  wf_tail : drop (Z.to_nat (size h)) (hash_0 h) =
            replicate (Z.to_nat (36 - hash_size h)) 0
}.

(** What a successful [new] builds. *)
Definition layout (a : Z) (bytes : list Z) : list Z :=
  a :: len bytes :: bytes ++ replicate (36 - length bytes) 0.

Definition alg_byte (alg : HashAlgorithm) : Z :=
  match alg with Identity => MULTIHASH_TYPE_IDENTITY | Sha256 => MULTIHASH_TYPE_SHA256 end.

Definition max_len (alg : HashAlgorithm) : Z := match alg with Identity => 36 | Sha256 => 32 end.

Lemma new_fits alg bytes :
  len bytes <= max_len alg -> new alg bytes = Ok (MkHash (layout (alg_byte alg) bytes)).
Proof.
  intros H. pose proof (len_nonneg bytes) as Hn. unfold new, layout.
  assert (Hl : (length bytes <= 36)%nat).
  { unfold len in *. destruct alg; simpl in *; lia. }
  assert (Hdrop : drop (length bytes) (replicate 36 0) = replicate (36 - length bytes) 0).
  { by rewrite drop_replicate. }
  unfold MULTIHASH_VALUE_LEN_MAX, hash_alg_byte, u8_try_from, u8_max, copy_at.
  destruct (36 <? len bytes) eqn:E1; [unfold len in *; lia|].
  destruct alg; simpl in *.
  - replace ((0 <=? len bytes) && (len bytes <=? 255))%bool with true
      by (symmetry; apply andb_true_intro; unfold len in *; lia).
    simpl. by rewrite <- Hdrop.
  - destruct (32 <? len bytes) eqn:E2; [lia|]. simpl.
    replace ((0 <=? len bytes) && (len bytes <=? 255))%bool with true
      by (symmetry; apply andb_true_intro; unfold len in *; lia).
    simpl. by rewrite <- Hdrop.
Qed.

Lemma new_too_long alg bytes :
  max_len alg < len bytes -> is_err (new alg bytes) = true.
Proof.
  intros H. unfold new, MULTIHASH_VALUE_LEN_MAX, hash_alg_byte.
  destruct (36 <? len bytes) eqn:E1; [done|]. destruct alg; simpl in *; [lia|].
  by replace (32 <? len bytes) with true by lia.
Qed.

Lemma new_ok alg bytes h :
  new alg bytes = Ok h <-> len bytes <= max_len alg /\ h = MkHash (layout (alg_byte alg) bytes).
Proof.
  split.
  - intros H. destruct (decide (len bytes <= max_len alg)) as [Hl|Hl].
    + rewrite new_fits in H by done. by simplify_eq.
    + pose proof (new_too_long alg bytes ltac:(lia)) as Hn. by rewrite H in Hn.
  - intros [Hl ->]. by apply new_fits.
Qed.

Lemma max_len_36 alg : max_len alg <= 36.
Proof. destruct alg; simpl; lia. Qed.

Lemma length_layout a bytes : (length bytes <= 36)%nat -> length (layout a bytes) = 38%nat.
Proof. intros H. unfold layout. simpl. rewrite length_app, length_replicate. lia. Qed.

Lemma as_bytes_layout a bytes :
  (length bytes <= 36)%nat -> as_bytes (MkHash (layout a bytes)) = Some (a :: len bytes :: bytes).
Proof.
  intros H. unfold as_bytes, slice_to, size, hash_size. simpl nth. simpl hash_0.
  replace (2 + len bytes <=? len (layout a bytes)) with true.
  - replace (Z.to_nat (2 + len bytes)) with (2 + length bytes)%nat by (unfold len; lia).
    unfold layout. simpl. by rewrite take_app_length.
  - symmetry. apply Z.leb_le. unfold len at 2. rewrite length_layout by done. unfold len. lia.
Qed.

Lemma wf_layout alg bytes :
  Forall is_u8 bytes -> len bytes <= max_len alg -> wf (MkHash (layout (alg_byte alg) bytes)).
Proof.
  intros Hb Hl. pose proof (max_len_36 alg). pose proof (len_nonneg bytes).
  assert (length bytes <= 36)%nat by (unfold len in *; lia).
  split; unfold size, hash_size; simpl nth; simpl hash_0.
  - by apply length_layout.
  - unfold layout. repeat constructor; unfold u8_max.
    + by destruct alg.
    + by destruct alg.
    + lia.
    + lia.
    + apply Forall_app. split; [done|]. apply Forall_replicate. unfold is_u8, u8_max. lia.
  - lia.
  - destruct alg; simpl in *; [by left|right; split; [done|lia]].
  - replace (Z.to_nat (2 + len bytes)) with (2 + length bytes)%nat by (unfold len; lia).
    unfold layout. simpl. rewrite drop_app_length. f_equal. unfold len. lia.
Qed.

Lemma new_wf alg bytes h : Forall is_u8 bytes -> new alg bytes = Ok h -> wf h.
Proof. intros Hb [Hl ->]%new_ok. by apply wf_layout. Qed.

Lemma default_wf : wf default.
Proof. apply (wf_layout Identity []); [constructor|]. vm_compute. congruence. Qed.

(** A well-formed hash is laid out as [new] lays it out. *)
Lemma wf_is_layout h :
  wf h -> exists alg bytes, len bytes <= max_len alg /\ Forall is_u8 bytes /\
    h = MkHash (layout (alg_byte alg) bytes).
Proof.
  intros [Hlen Hb Hs Ha Ht]. destruct h as [l]. unfold size, hash_size in *. simpl in *.
  destruct l as [|a [|n l]]; [done|done|]. simpl in *.
  replace (Z.to_nat (2 + n)) with (2 + Z.to_nat n)%nat in Ht by lia. simpl in Ht.
  assert (Hn : len (take (Z.to_nat n) l) = n) by (unfold len; rewrite length_take; lia).
  exists (if a =? 0 then Identity else Sha256), (take (Z.to_nat n) l).
  rewrite Hn. inversion Hb as [|? ? Ha8 Hb']. inversion Hb' as [|? ? _ Hl8]. subst.
  unfold MULTIHASH_TYPE_IDENTITY, MULTIHASH_TYPE_SHA256 in *. split_and!.
  - destruct Ha as [->|[-> ?]]; simpl; lia.
  - by apply Forall_take.
  - f_equal. unfold layout. rewrite Hn. f_equal; [by destruct Ha as [->|[-> ?]]|]. f_equal.
    rewrite <- (take_drop (Z.to_nat n) l) at 1. f_equal. rewrite Ht. f_equal.
    unfold len in Hn. lia.
Qed.

Lemma as_bytes_total h : wf h -> exists bs, as_bytes h = Some bs /\ len bs = size h.
Proof.
  intros (alg & bytes & Hl & _ & ->)%wf_is_layout. pose proof (max_len_36 alg).
  rewrite as_bytes_layout by (unfold len in *; lia).
  eexists. split; [done|]. unfold size, hash_size. simpl. unfold len. simpl. lia.
Qed.

Lemma as_bytes_ok h : wf h -> exists bs, as_bytes h = Some bs /\ Forall is_u8 bs.
Proof.
  intros Hwf. destruct (as_bytes_total h Hwf) as (bs & Hbs & _). exists bs. split; [done|].
  revert Hbs. unfold as_bytes, slice_to. case_match; [|done]. intros [= <-].
  apply Forall_take, Hwf.
Qed.

Lemma from_bytes_layout alg bytes :
  len bytes <= max_len alg ->
  from_bytes (alg_byte alg :: len bytes :: bytes) = Ok (MkHash (layout (alg_byte alg) bytes)).
Proof.
  intros Hl. unfold from_bytes. simpl drop. simpl nth.
  replace (len (alg_byte alg :: len bytes :: bytes)) with (2 + len bytes)
    by (unfold len; simpl; lia).
  pose proof (len_nonneg bytes).
  replace (2 + len bytes <? 2) with false by lia.
  replace (len bytes =? 2 + len bytes - 2) with true by lia.
  destruct alg; simpl; by apply new_fits.
Qed.

Lemma from_bytes_inv bytes h :
  from_bytes bytes = Ok h ->
  exists alg v, len v <= max_len alg /\ bytes = alg_byte alg :: len v :: v /\
    h = MkHash (layout (alg_byte alg) v).
Proof.
  unfold from_bytes. destruct (len bytes <? 2) eqn:E1; [done|].
  destruct (nth 1 bytes 0 =? len bytes - 2) eqn:E2; simpl; [|done].
  destruct bytes as [|a [|n v]]; [done|done|].
  assert (Hn : n = len v).
  { apply Z.eqb_eq in E2. unfold len in E2. rewrite !length_cons in E2. simpl in E2.
    unfold len. lia. }
  clear E1 E2. subst n. simpl.
  unfold MULTIHASH_TYPE_IDENTITY, MULTIHASH_TYPE_SHA256.
  destruct (a =? 0) eqn:Ea; [|destruct (a =? 18) eqn:Ea'; [|done]]; simpl; intros [Hl ->]%new_ok.
  - exists Identity, v. split_and!; [done| |done]. f_equal. simpl. unfold MULTIHASH_TYPE_IDENTITY. lia.
  - exists Sha256, v. split_and!; [done| |done]. f_equal. simpl. unfold MULTIHASH_TYPE_SHA256. lia.
Qed.

Lemma from_data_wf `{Digest} alg data h : Forall is_u8 data -> from_data alg data = Ok h -> wf h.
Proof.
  intros Hd. destruct alg; simpl; apply new_wf; [done|apply sha256_bytes].
Qed.

(** SHA-256 hashing never fails: the digest is 32 bytes long. *)
Lemma from_data_sha256 `{Digest} data :
  from_data Sha256 data = Ok (MkHash (layout MULTIHASH_TYPE_SHA256 (sha256 data))).
Proof.
  simpl. change MULTIHASH_TYPE_SHA256 with (alg_byte Sha256). apply new_fits.
  unfold len. rewrite sha256_length. done.
Qed.

(** The ways the module makes a hash from bytes or text, over a decoder of hexadecimal text *)
Inductive made `{Digest} (decode : string -> Result (list Z) string) : Hash -> Prop :=
| made_default : made decode default
| made_new alg bytes h : Forall is_u8 bytes -> new alg bytes = Ok h -> made decode h
| made_from_bytes bytes h : Forall is_u8 bytes -> from_bytes bytes = Ok h -> made decode h
| made_from_data alg data h : Forall is_u8 data -> from_data alg data = Ok h -> made decode h
| made_from_hex hex h : from_hex decode hex = Ok h -> made decode h
| made_deserialized bytes h : Forall is_u8 bytes -> visit_bytes bytes = Ok h -> made decode h.

Lemma from_bytes_wf bytes h : Forall is_u8 bytes -> from_bytes bytes = Ok h -> wf h.
Proof.
  intros Hb (alg & v & Hl & -> & ->)%from_bytes_inv. apply wf_layout; [|done].
  by do 2 apply Forall_cons in Hb as [_ Hb].
Qed.

(** ** Theorems *)

(** C29: the hashes that can be made, with bytes of any provenance, are exactly the well-formed
    ones: 38 bytes, a known algorithm, a length that its algorithm allows, zeros after the value. *)
Theorem made_wf `{Digest} decode h :
  (forall hex bytes, decode hex = Ok bytes -> Forall is_u8 bytes) -> made decode h <-> wf h.
Proof.
  intros Hd. split.
  - intros [|alg bytes h' Hb E|bytes h' Hb E|alg data h' Hb E|hex h' E|bytes h' Hb E].
    + apply default_wf.
    + by eapply new_wf.
    + by eapply from_bytes_wf.
    + by eapply from_data_wf.
    + unfold from_hex in E. destruct (decode hex) as [bytes|e] eqn:Eh; [|done]. apply (from_bytes_wf bytes); [by eapply Hd|done].
    + unfold visit_bytes in E. destruct (from_bytes bytes) as [h2|] eqn:Eb; [|done]. simplify_eq. by eapply from_bytes_wf.
  - intros (alg & bytes & Hl & Hb & ->)%wf_is_layout. apply (made_new _ alg bytes); [done|]. by apply new_fits.
Qed.

(** Every hash the module can build is well formed, and its serialisation reads back:
    [from_bytes] after [as_bytes] is the identity on well-formed hashes (so the
    slice never panics and [as_bytes] is injective on them). *)
Theorem from_bytes_as_bytes h :
  wf h -> exists bs, as_bytes h = Some bs /\ from_bytes bs = Ok h /\ visit_bytes bs = Ok h.
Proof.
  intros (alg & bytes & Hl & _ & ->)%wf_is_layout. pose proof (max_len_36 alg).
  rewrite as_bytes_layout by (unfold len in *; lia). eexists. split; [done|].
  unfold visit_bytes. by rewrite from_bytes_layout.
Qed.

(** Conversely a byte string that parses is the serialisation of what it parses to:
    [from_bytes] accepts exactly one encoding of each hash. *)
Theorem as_bytes_from_bytes bs h :
  from_bytes bs = Ok h -> as_bytes h = Some bs.
Proof.
  intros (alg & v & Hl & -> & ->)%from_bytes_inv. pose proof (max_len_36 alg).
  apply as_bytes_layout. unfold len in *. lia.
Qed.
End Hashes.
