(* ===== verification/Crypto.v ===== *)
(** * Keys and account identifiers
    ([trinci-core-new/src/crypto/{ecdsa,ed25519,identity}.rs], [utils.rs])

    The signature schemes of the [ring] crate and the [bs58] encoding are
    parameters; what the crate itself does with them is defined here: the DER and
    protobuf headers put in front of a public key, the account identifier computed
    from it, and the dispatch on the algorithm.  A [u8::try_from(..).expect(..)]
    that fails is [None]. *)

From S2P Require Import Prelude Hash.
From stdpp Require Import base gmap strings list fin_maps.
Open Scope Z_scope.

(** [crate::artifacts::models::CurveId] *)
Inductive CurveId : Type := Secp256R1 | Secp384R1.

Inductive CryptoAlg : Type :=
| Ecdsa (curve_id : CurveId)
| Ed25519.

#[export] Instance CurveId_eq_dec : EqDecision CurveId.
Proof. solve_decision. Defined.
#[export] Instance CryptoAlg_eq_dec : EqDecision CryptoAlg.
Proof. solve_decision. Defined.

(** What the crate uses of [ring]: key pairs read from PKCS#8 documents, their
    public keys, signatures (ECDSA draws randomness, given as an argument) and
    verification with a raw public key. *)
Class Ring : Type := {
  RingEcdsaKeyPair : Type;
  RingEd25519KeyPair : Type;
  ecdsa_from_pkcs8 : CurveId -> list Z -> option RingEcdsaKeyPair;
  ecdsa_public_key : RingEcdsaKeyPair -> list Z;
  ecdsa_sign : RingEcdsaKeyPair -> Z -> list Z -> option (list Z);
  ecdsa_verify : CurveId -> list Z -> list Z -> list Z -> bool;
  ed25519_from_pkcs8 : list Z -> option RingEd25519KeyPair;
  ed25519_public_key : RingEd25519KeyPair -> list Z;
  ed25519_sign : RingEd25519KeyPair -> list Z -> list Z;
  ed25519_verify : list Z -> list Z -> list Z -> bool
}.

(** [bs58::encode(..).into_string()], which loses nothing. *)
Class Base58 : Type := {
  bs58_encode : list Z -> string;
  bs58_inj : forall a b, Forall is_u8 a -> Forall is_u8 b -> bs58_encode a = bs58_encode b -> a = b
}.

(** [u8::try_from(n).expect(..)] *)
Definition u8_expect (n : Z) : option Z := if (0 <=? n) && (n <=? u8_max) then Some n else None.

Module Keys.
(** ** Public keys *)
Record EcdsaPublicKey : Type := MkEcdsaPublicKey { curve_id : CurveId; value : list Z }.
Record Ed25519PublicKey : Type := MkEd25519PublicKey { ed_0 : list Z }.
Inductive TrinciPublicKey : Type :=
| PkEcdsa (k : EcdsaPublicKey)
| PkEd25519 (k : Ed25519PublicKey).

#[export] Instance EcdsaPublicKey_eq_dec : EqDecision EcdsaPublicKey.
Proof. solve_decision. Defined.
#[export] Instance Ed25519PublicKey_eq_dec : EqDecision Ed25519PublicKey.
Proof. solve_decision. Defined.
#[export] Instance TrinciPublicKey_eq_dec : EqDecision TrinciPublicKey.
Proof. solve_decision. Defined.

(** [add_protobuf_header] *)
Definition add_protobuf_header (buf : list Z) (alg : CryptoAlg) : option (list Z) :=
  let alg_byte := match alg with Ecdsa _ => 0x03 | Ed25519 => 0x01 end in
  n ← u8_expect (len buf);
  Some ([0x08; alg_byte; 0x12; n] ++ buf).

Definition get_curve_oid (c : CurveId) : list Z :=
  match c with
  | Secp256R1 => [0x06; 0x08; 0x2A; 0x86; 0x48; 0xCE; 0x3D; 0x03; 0x01; 0x07]
  | Secp384R1 => [0x06; 0x05; 0x2b; 0x81; 0x04; 0x00; 0x22]
  end.

(** [add_asn1_x509_header] *)
Definition add_asn1_x509_header (c : CurveId) (key_bytes : list Z) : option (list Z) :=
  let res := [0x30; 0x00; 0x30; 0x00] in
  let ec_oid := [0x06; 0x07; 0x2a; 0x86; 0x48; 0xce; 0x3d; 0x02; 0x01] in
  let curve_oid := get_curve_oid c in
  let oids_len := len ec_oid + len curve_oid in
  let res := res ++ ec_oid ++ curve_oid in
  oids_len8 ← u8_expect oids_len;
  let res := <[3%nat := oids_len8]> res in
  key_len8 ← u8_expect (len key_bytes + 1);
  let res := res ++ [0x03; key_len8; 0x00] ++ key_bytes in
  total8 ← u8_expect (len res - 2);
  Some (<[1%nat := total8]> res).

Section account_id.
Context `{Digest, Base58}.

Definition encode_hash (r : Result Hash CryptoError) : option (Result string CryptoError) :=
  match r with
  | Ok h => bs ← Hashes.as_bytes h; Some (Ok (bs58_encode bs))
  | Err e => Some (Err e)
  end.

Definition ecdsa_to_account_id (k : EcdsaPublicKey) : option (Result string CryptoError) :=
  bytes ← add_asn1_x509_header (curve_id k) (value k);
  bytes ← add_protobuf_header bytes (Ecdsa (curve_id k));
  encode_hash (Hashes.from_data Sha256 bytes).

Definition ed25519_to_account_id (k : Ed25519PublicKey) : option (Result string CryptoError) :=
  bytes ← add_protobuf_header (ed_0 k) Ed25519;
  encode_hash (Hashes.from_data Identity bytes).

Definition to_account_id (k : TrinciPublicKey) : option (Result string CryptoError) :=
  match k with
  | PkEcdsa key => ecdsa_to_account_id key
  | PkEd25519 pb => ed25519_to_account_id pb
  end.
End account_id.

(** [visit_bytes] of the [Deserialize] of an Ed25519 key: exactly 32 bytes *)
Definition ed25519_visit_bytes (bytes : list Z) : Result Ed25519PublicKey string :=
  if len bytes =? 32 then Ok (MkEd25519PublicKey bytes) else Err "bytes format invald".

(** ** Key pairs *)
Section keypairs.
Context `{Ring}.

Record EcdsaKeyPair : Type := MkEcdsaKeyPair { kp_curve_id : CurveId; imp : RingEcdsaKeyPair }.
Record Ed25519KeyPair : Type := MkEd25519KeyPair { kp_0 : RingEd25519KeyPair }.
Inductive TrinciKeyPair : Type :=
| KpEcdsa (k : EcdsaKeyPair)
| KpEd25519 (k : Ed25519KeyPair).

Record TrinciSignature : Type := MkTrinciSignature { alg : CryptoAlg; secret_key : list Z }.

Definition ecdsa_new (c : CurveId) (bytes : list Z) : Result EcdsaKeyPair CryptoError :=
  match ecdsa_from_pkcs8 c bytes with
  | Some imp => Ok (MkEcdsaKeyPair c imp)
  | None => Err CryptoAlgKeyRejected
  end.

(** The [KeyRejected] of [from_pkcs8] becomes [Unspecified] in [Ed25519KeyPair::new]. *)
Definition ed25519_new (bytes : list Z) : Result Ed25519KeyPair CryptoError :=
  match ed25519_from_pkcs8 bytes with
  | Some internal => Ok (MkEd25519KeyPair internal)
  | None => Err CryptoAlgUnspecifiedError
  end.

Definition get_keypair (s : TrinciSignature) : Result TrinciKeyPair CryptoError :=
  match alg s with
  | Ecdsa c => let? k := ecdsa_new c (secret_key s) in Ok (KpEcdsa k)
  | Ed25519 => let? k := ed25519_new (secret_key s) in Ok (KpEd25519 k)
  end.

Definition ecdsa_kp_public_key (k : EcdsaKeyPair) : EcdsaPublicKey :=
  MkEcdsaPublicKey (kp_curve_id k) (ecdsa_public_key (imp k)).
Definition ed25519_kp_public_key (k : Ed25519KeyPair) : Ed25519PublicKey :=
  MkEd25519PublicKey (ed25519_public_key (kp_0 k)).

Definition public_key (k : TrinciKeyPair) : TrinciPublicKey :=
  match k with
  | KpEcdsa keypair => PkEcdsa (ecdsa_kp_public_key keypair)
  | KpEd25519 keypair => PkEd25519 (ed25519_kp_public_key keypair)
  end.

(** [rnd]: what the random generator draws for an ECDSA signature *)
Definition ecdsa_kp_sign (rnd : Z) (k : EcdsaKeyPair) (data : list Z) : Result (list Z) CryptoError :=
  match ecdsa_sign (imp k) rnd data with
  | Some sig => Ok sig
  | None => Err CryptoAlgUnspecifiedError
  end.
Definition ed25519_kp_sign (k : Ed25519KeyPair) (data : list Z) : list Z := ed25519_sign (kp_0 k) data.

Definition sign (rnd : Z) (k : TrinciKeyPair) (data : list Z) : Result (list Z) CryptoError :=
  match k with
  | KpEcdsa keypair => ecdsa_kp_sign rnd keypair data
  | KpEd25519 keypair => Ok (ed25519_kp_sign keypair data)
  end.

Definition ecdsa_pk_verify (k : EcdsaPublicKey) (data sig : list Z) : bool := ecdsa_verify (curve_id k) (value k) data sig.
Definition ed25519_pk_verify (k : Ed25519PublicKey) (data sig : list Z) : bool := ed25519_verify (ed_0 k) data sig.

Definition verify (k : TrinciPublicKey) (data sig : list Z) : bool :=
  match k with
  | PkEcdsa key => ecdsa_pk_verify key data sig
  | PkEd25519 pb => ed25519_pk_verify pb data sig
  end.

(** Substring search ([str::contains]) *)
Fixpoint str_contains (pat s : string) : bool :=
  String.prefix pat s ||
  match s with EmptyString => false | String _ s' => str_contains pat s' end.

(** [TrinciKeyPair::load_keypair] without the [tpm2] feature: [path] is the path as
    a string (when it is one), [read] the file system.  [None] is a panic. *)
Definition load_keypair (path : option string) (read : string -> option (list Z)) :
    option (Result TrinciKeyPair CryptoError) :=
  match path with
  | None => Some (Err (MalformedData "Impossible to cast path to str during keypair loading"))
  | Some path_str =>
      if str_contains "/tpm" path_str then None
      else
        match read path_str with
        | None => Some (Err IoError)
        | Some bytes =>
            Some (if str_contains "ecdsa" path_str then
                    let? ecdsa := (match ecdsa_new Secp256R1 bytes with
                                   | Ok k => Ok k
                                   | Err _ => ecdsa_new Secp384R1 bytes
                                   end) in
                    Ok (KpEcdsa ecdsa)
                  else
                    let? ed25519 := ed25519_new bytes in
                    Ok (KpEd25519 ed25519))
        end
  end.
End keypairs.
Arguments TrinciKeyPair : clear implicits.
Arguments TrinciKeyPair {_}.

(** ** Lemmas *)

Lemma u8_expect_some n m : u8_expect n = Some m <-> m = n /\ 0 <= n <= 255.
Proof.
  unfold u8_expect, u8_max. destruct ((0 <=? n) && (n <=? 255)) eqn:E; split.
  - intros [= ->]. apply andb_prop in E. lia.
  - by intros [-> _].
  - done.
  - intros [_ Hn]. apply andb_false_iff in E. lia.
Qed.

Lemma add_protobuf_header_some buf a bytes :
  add_protobuf_header buf a = Some bytes <->
  len buf <= 255 /\
  bytes = [0x08; match a with Ecdsa _ => 0x03 | Ed25519 => 0x01 end; 0x12; len buf] ++ buf.
Proof.
  unfold add_protobuf_header. pose proof (len_nonneg buf). split.
  - intros (n & Hn & [= <-])%bind_Some. apply u8_expect_some in Hn as [-> ?]. split; [lia|done].
  - intros [Hl ->]. apply bind_Some. exists (len buf). split; [|done].
    apply u8_expect_some. lia.
Qed.

Lemma add_protobuf_header_fits buf a :
  len buf <= 255 ->
  add_protobuf_header buf a =
    Some ([0x08; match a with Ecdsa _ => 0x03 | Ed25519 => 0x01 end; 0x12; len buf] ++ buf).
Proof. intros H. by apply add_protobuf_header_some. Qed.

Definition oid_len (c : CurveId) : Z := match c with Secp256R1 => 19 | Secp384R1 => 16 end.

Lemma add_asn1_x509_header_some c key bytes :
  add_asn1_x509_header c key = Some bytes <->
  len key + oid_len c <= 250 /\
  bytes = [0x30; oid_len c + len key + 5; 0x30; oid_len c] ++
          [0x06; 0x07; 0x2a; 0x86; 0x48; 0xce; 0x3d; 0x02; 0x01] ++ get_curve_oid c ++
          [0x03; len key + 1; 0x00] ++ key.
Proof.
  pose proof (len_nonneg key) as Hk. unfold add_asn1_x509_header. split.
  - intros (o & [-> _]%u8_expect_some & H)%bind_Some.
    apply bind_Some in H as (n & [-> _]%u8_expect_some & H).
    apply bind_Some in H as (t & [-> Ht]%u8_expect_some & [= <-]).
    rewrite !len_app in *. destruct c; unfold len in *; simpl in *; (split; [lia|]);
      repeat f_equal; lia.
  - intros [Hl ->]. apply bind_Some. exists (oid_len c). split.
    { apply u8_expect_some. by destruct c. }
    apply bind_Some. exists (len key + 1). split.
    { apply u8_expect_some. destruct c; simpl in Hl; lia. }
    apply bind_Some. exists (oid_len c + len key + 5). split; [|by destruct c].
    apply u8_expect_some.
    rewrite len_app. destruct c; simpl in *; unfold len in *; simpl in *; lia.
Qed.

(** An Ed25519 account identifier is the identity multihash of the protobuf form. *)
Lemma ed25519_to_account_id_ok `{Digest, Base58} k :
  len (ed_0 k) <= 32 ->
  ed25519_to_account_id k =
    Some (Ok (bs58_encode (0x00 :: len (ed_0 k) + 4 :: 0x08 :: 0x01 :: 0x12 :: len (ed_0 k) :: ed_0 k))).
Proof.
  intros Hl. unfold ed25519_to_account_id.
  rewrite add_protobuf_header_fits by lia. simpl.
  rewrite (Hashes.new_fits Identity) by (unfold len in *; simpl; lia).
  unfold encode_hash. rewrite Hashes.as_bytes_layout by (unfold len in *; simpl; lia).
  simpl. replace (len (8 :: 1 :: 18 :: len (ed_0 k) :: ed_0 k)) with (len (ed_0 k) + 4)
    by (unfold len; simpl; lia). done.
Qed.

Lemma ed25519_to_account_id_err `{Digest, Base58} k :
  32 < len (ed_0 k) <= 255 -> exists e, ed25519_to_account_id k = Some (Err e).
Proof.
  intros Hl. unfold ed25519_to_account_id.
  rewrite add_protobuf_header_fits by lia. simpl.
  pose proof (Hashes.new_too_long Identity
    (8 :: 1 :: 18 :: len (ed_0 k) :: ed_0 k) ltac:(unfold len in *; simpl in *; lia)) as He.
  destruct (Hashes.new _ _) as [h|e]; [done|]. simpl. eauto.
Qed.
End Keys.
Export (hints) Keys.
