(* ===== verification/CoreModels.v ===== *)
(** * Core models ([trinci-core-new/src/artifacts/models.rs], [consts.rs])

    The traits of the generic parameters, as type classes; block proposals; the
    players and their weights; the seed source and the deterministic random
    number generator. *)

From S2P Require Import Prelude Hash Crypto.
From stdpp Require Import base gmap strings list fin_maps.
Open Scope Z_scope.

(** [crate::consts] *)
Module Consts.
Definition ALIGNMENT_STEP_TIMEOUT_S : Z := 30.
Definition CHECK_OLD_BLOCK_PROPOSALS_S : Z := 5.
Definition CHECK_OLD_TXS_S : Z := 30.
Definition DEFAULT_LEADER_TIMEOUT_MS : Z := 10000.
Definition DEFAULT_POLL_TIMEOUT_MS : Z := 10000.
Definition DEFAULT_TTB_MS : Z := 10000.
Definition MAX_REQ_ATTEMPTS : Z := 5.
Definition MAX_TIME_TO_PROPOSE_BLOCK_S : Z := 30.
Definition MAX_TXS_IN_BLOCK : Z := 500.
Definition MIN_TXS_TO_BUILD : Z := 3.
Definition REPROPAGATE_OLD_TXS_S : Z := 60.
Definition ROUND_CHECK_MISALIGNMENT : Z := 10.
Definition VERIFY_OLD_BLOCK_PROPOSALS_S : Z := 15.
Definition PRIMARY_HASH_ALGORITHM : HashAlgorithm := Sha256.
Definition BLOCK_MAX_SIZE_BYTES : Z := 524288 * 2.
Definition BLOCK_BASE_SIZE_BYTES : Z := 111.
End Consts.

(** ** Traits *)

(** [Executable]: the block type.  The two [get_mut_*] accessors are setters;
    [new] also reads the clock. *)
Class Executable `{Ring} (B : Type) : Type := {
  get_builder_id : B -> option string;
  get_builder_pub_key : B -> option Keys.TrinciPublicKey;
  get_hash : B -> Hash;
  get_height : B -> Z;
  get_prev_hash : B -> Hash;
  get_txs_hash : B -> Hash;
  get_rxs_hash : B -> Hash;
  set_state_hash : Hash -> B -> B;
  set_txs_hash : Hash -> B -> B;
  set_rxs_hash : Hash -> B -> B;
  block_new : Keys.TrinciPublicKey -> list Hash -> Z -> Hash -> Z -> B;
  block_sign : Keys.TrinciKeyPair -> B -> B;
  block_verify : B -> bool
}.

(** [Confirmable]: a vote for a block *)
Class Confirmable `{Ring} (C : Type) : Type := {
  get_block_hash : C -> Hash;
  get_block_height : C -> Z;
  get_block_round : C -> Z;
  get_player_id : C -> string;
  conf_new : Hash -> Z -> Z -> Keys.TrinciPublicKey -> C;
  conf_sign : Keys.TrinciKeyPair -> C -> C;
  conf_verify : C -> bool
}.

(** [Transactable] *)
Class Transactable (T : Type) : Type := {
  tx_get_hash : T -> Hash;
  tx_verify : T -> bool
}.

(** [Hashable], for the types serialised by [rmp_serialize]. *)
Class Serialize (T : Type) : Type := { rmp_serialize : T -> Result (list Z) string }.

Definition hashable_hash `{Digest} `{Serialize T} (alg : HashAlgorithm) (x : T) :
    Result Hash CryptoError :=
  match rmp_serialize x with
  | Ok buf => Hashes.from_data alg buf
  | Err e => Err (MalformedData e)
  end.
Definition primary_hash `{Digest} `{Serialize T} (x : T) : Result Hash CryptoError :=
  hashable_hash Consts.PRIMARY_HASH_ALGORITHM x.

(** What the services rely on of the implementations: signing changes none of what
    the getters return, and a new confirmation carries what it was made from. *)
Class ConfirmableLaws `{Ring} (C : Type) `{!Confirmable C} : Prop := {
  sign_block_hash : forall k c, get_block_hash (conf_sign k c) = get_block_hash c;
  sign_block_height : forall k c, get_block_height (conf_sign k c) = get_block_height c;
  sign_block_round : forall k c, get_block_round (conf_sign k c) = get_block_round c;
  new_block_hash : forall h n r k, get_block_hash (conf_new h n r k) = h;
  new_block_height : forall h n r k, get_block_height (conf_new h n r k) = n;
  new_block_round : forall h n r k, get_block_round (conf_new h n r k) = r
}.

Class ExecutableLaws `{Ring} (B : Type) `{!Executable B} : Prop := {
  block_sign_hash : forall k b, get_hash (block_sign k b) = get_hash b;
  block_sign_height : forall k b, get_height (block_sign k b) = get_height b;
  block_new_height : forall pk hs n p t, get_height (block_new pk hs n p t) = n;
  block_new_prev_hash : forall pk hs n p t, get_prev_hash (block_new pk hs n p t) = p
}.

#[export] Hint Rewrite @sign_block_hash @sign_block_height @sign_block_round @new_block_hash
  @new_block_height @new_block_round @block_sign_hash @block_sign_height @block_new_height
  @block_new_prev_hash using typeclasses eauto : trinci_rw.

(** ** Block proposals *)

Record BlockProposal (B C : Type) : Type := MkBlockProposal {
  p_block : option (B * list Hash);
  p_block_hash : Hash;
  p_block_height : Z;
  p_count : Z;
  p_received_confirmations : list C;
  p_round : Z;
  p_timestamp : Z
}.
Arguments MkBlockProposal {B C} _ _ _ _ _ _ _.
Arguments p_block {B C} _.
Arguments p_block_hash {B C} _.
Arguments p_block_height {B C} _.
Arguments p_count {B C} _.
Arguments p_received_confirmations {B C} _.
Arguments p_round {B C} _.
Arguments p_timestamp {B C} _.

Module BlockProposals.
Definition t (B C : Type) : Type := list (Z * list (BlockProposal B C)).

(** [BlockProposal::new] at the clock reading [now] *)
Definition new {B C} (block : option (B * list Hash)) (block_hash : Hash) (block_height : Z)
    (received_confirmations : list C) (round now : Z) : BlockProposal B C :=
  MkBlockProposal block block_hash block_height (len received_confirmations)
    received_confirmations round now.
End BlockProposals.

Record FullBlock (B C T : Type) : Type := MkFullBlock {
  fb_block : B;
  fb_confirmations : list C;
  fb_txs : list T
}.
Arguments MkFullBlock {B C T} _ _ _.
Arguments fb_block {B C T} _.
Arguments fb_confirmations {B C T} _.
Arguments fb_txs {B C T} _.

Record Player : Type := MkPlayer {
  account_id : string;
  units_in_stake : Z;
  life_points : Z
}.

(** ** Players *)

Module Players.
Record t : Type := Mk { players_ids : list string; weights : list Z }.

(** [iter().position(|x| x.eq(id))] *)
Fixpoint position (id : string) (l : list string) : option nat :=
  match l with
  | [] => None
  | x :: l => if bool_decide (x = id) then Some 0%nat else S <$> position id l
  end.

(** [None]: the indexing [self.weights[position]] is out of range. *)
Definition get_player_by_id (p : t) (id_to_find : string) : option (option (string * Z)) :=
  match position id_to_find (players_ids p) with
  | None => Some None
  | Some pos =>
      id ← players_ids p !! pos;
      w ← weights p !! pos;
      Some (Some (id, w))
  end.

(** [self.weights.iter().sum::<usize>()] *)
Definition total_weight (p : t) : Z := fold_left u64_add (weights p) 0.

(** The two loops of [get_weighted_player_ids], the inner one [0..weight] *)
Definition get_weighted_player_ids (p : t) : list string :=
  fold_left (fun acc '(player_id, weight) =>
               Nat.iter (Z.to_nat weight) (fun acc => acc ++ [player_id]) acc)
            (zip (players_ids p) (weights p)) [].

Definition push_player (p : t) (id : string) (weight : Z) : t :=
  if contains (players_ids p) id then p
  else Mk (players_ids p ++ [id]) (weights p ++ [weight]).

(** ** Lemmas *)
Definition wf (p : t) : Prop :=
  NoDup (players_ids p) /\ length (weights p) = length (players_ids p) /\
  Forall (fun w => 0 <= w) (weights p).

Lemma iter_push {A} (x : A) n acc : Nat.iter n (fun acc => acc ++ [x]) acc = acc ++ replicate n x.
Proof.
  induction n as [|n IH]; simpl; [by rewrite app_nil_r|].
  rewrite IH, <- app_assoc. f_equal. by rewrite <- replicate_cons_app.
Qed.

(** The list, written without an accumulator *)
Definition weighted (l : list (string * Z)) : list string :=
  concat (map (fun '(id, w) => replicate (Z.to_nat w) id) l).

Lemma get_weighted_player_ids_eq p :
  get_weighted_player_ids p = weighted (zip (players_ids p) (weights p)).
Proof.
  unfold get_weighted_player_ids, weighted.
  cut (forall (l : list (string * Z)) (acc : list string), fold_left (fun acc '(player_id, weight) =>
         Nat.iter (Z.to_nat weight) (fun acc => acc ++ [player_id]) acc) l acc =
       acc ++ concat (map (fun '(id, w) => replicate (Z.to_nat w) id) l)); [by intros ->|].
  induction l as [|[id w] l IH]; intros acc; simpl; [by rewrite app_nil_r|].
  by rewrite IH, iter_push, app_assoc.
Qed.

Lemma elem_of_weighted l id : id ∈ weighted l <-> exists w, (id, w) ∈ l /\ 0 < w.
Proof.
  unfold weighted. induction l as [|[id' w'] l IH]; simpl.
  - split; [by intros ?%not_elem_of_nil|by intros (w & ?%not_elem_of_nil & _)].
  - rewrite elem_of_app, IH, elem_of_replicate. split.
    + intros [[-> Hw]|(w & Hin & Hw)]; [exists w'; split; [left|lia]|exists w; split; [by right|done]].
    + intros (w & [[= -> ->]|Hin]%elem_of_cons & Hw); [left; split; [done|lia]|right; eauto].
Qed.

Lemma length_weighted l :
  Forall (fun '(_, w) => 0 <= w) l ->
  Z.of_nat (length (weighted l)) = fold_right Z.add 0 (map snd l).
Proof.
  unfold weighted. induction 1 as [|[id w] l Hw Hl IH]; simpl; [done|].
  rewrite length_app, length_replicate. lia.
Qed.

(** Without overflow the wrapping sum is the sum. *)
Lemma total_weight_sum p :
  Forall (fun w => 0 <= w) (weights p) -> fold_right Z.add 0 (weights p) <= u64_max ->
  total_weight p = fold_right Z.add 0 (weights p).
Proof.
  intros Hw Hs. unfold total_weight.
  assert (Hnn : forall l, Forall (fun w => 0 <= w) l -> 0 <= fold_right Z.add 0 l).
  { intros l. induction 1; simpl; lia. }
  cut (forall l acc, Forall (fun w => 0 <= w) l -> 0 <= acc -> acc + fold_right Z.add 0 l <= u64_max ->
         fold_left u64_add l acc = acc + fold_right Z.add 0 l).
  { intros Hc. rewrite (Hc _ 0); [lia|done|lia|lia]. }
  intros l acc Hl. revert acc. induction Hl as [|w l Hw' Hl IH]; intros acc Ha Hb; simpl in *; [lia|].
  pose proof (Hnn l Hl). rewrite u64_add_small by lia. rewrite IH; lia.
Qed.

Definition count_occ_string (l : list string) (id : string) : nat :=
  length (List.filter (fun x => bool_decide (x = id)) l).

Lemma count_occ_string_app l k id :
  count_occ_string (l ++ k) id = (count_occ_string l id + count_occ_string k id)%nat.
Proof. unfold count_occ_string. by rewrite List.filter_app, length_app. Qed.

Lemma count_occ_string_replicate n x id :
  count_occ_string (replicate n x) id = if bool_decide (x = id) then n else 0%nat.
Proof.
  unfold count_occ_string. induction n as [|n IH]; simpl; [by destruct (bool_decide _)|].
  destruct (bool_decide (x = id)); simpl; lia.
Qed.

Lemma count_occ_weighted_none ids ws id :
  id ∉ ids -> count_occ_string (weighted (zip ids ws)) id = 0%nat.
Proof.
  revert ws. induction ids as [|x ids IH]; intros ws Hni; [done|]. destruct ws as [|w ws]; [done|].
  apply not_elem_of_cons in Hni as [Hne Hni]. unfold weighted. simpl.
  rewrite count_occ_string_app, count_occ_string_replicate, bool_decide_false by congruence.
  by apply IH.
Qed.

(** With distinct ids each player occurs as many times as its weight. *)
Lemma count_occ_weighted ids ws i id w :
  NoDup ids -> ids !! i = Some id -> ws !! i = Some w ->
  count_occ_string (weighted (zip ids ws)) id = Z.to_nat w.
Proof.
  intros Hnd. revert ws i. induction Hnd as [|x ids Hx Hnd IH]; intros ws i Hi Hw; [done|].
  destruct ws as [|w' ws]; [done|]. unfold weighted. simpl.
  rewrite count_occ_string_app, count_occ_string_replicate. fold (weighted (zip ids ws)).
  destruct i as [|i]; simpl in *.
  - simplify_eq. rewrite bool_decide_true by done. rewrite count_occ_weighted_none by done. lia.
  - assert (x <> id) by (intros ->; apply Hx; by eapply list_elem_of_lookup_2).
    rewrite bool_decide_false by done. simpl. by eapply IH.
Qed.

Lemma position_some id l i : position id l = Some i -> l !! i = Some id.
Proof.
  revert i. induction l as [|x l IH]; intros i; simpl; [done|]. case_bool_decide as Hx.
  - intros [= <-]. by rewrite Hx.
  - intros (j & Hj & ->)%fmap_Some. by apply IH.
Qed.

Lemma position_none id l : position id l = None <-> id ∉ l.
Proof.
  induction l as [|x l IH]; simpl; [split; [by intros _ ?%not_elem_of_nil|done]|].
  rewrite not_elem_of_cons. case_bool_decide as Hx; [split; [done|by intros [? _]]|].
  rewrite fmap_None, IH. split; [by intros ?|tauto].
Qed.

Lemma push_player_wf p id w : wf p -> 0 <= w -> wf (push_player p id w).
Proof.
  intros (Hnd & Hl & Hw) Hw0. unfold push_player.
  destruct (contains (players_ids p) id) eqn:E; [done|]. apply contains_false in E.
  split_and!; simpl.
  - apply NoDup_app. split_and!; [done| |apply NoDup_singleton].
    intros x Hx ->%list_elem_of_singleton. done.
  - rewrite !length_app. simpl. lia.
  - apply Forall_app. split; [done|by constructor].
Qed.
End Players.
