(* ===== verification/DRand.v ===== *)
(** * The seed source and the deterministic random numbers
    ([SeedSource] and [DRand] of [trinci-core-new/src/artifacts/models.rs])

    The generator ([rand_pcg::Pcg32]) is a parameter: a state made from a [u64] seed
    and a step that draws a [u64]. *)

From S2P Require Import Prelude Hash.
From stdpp Require Import base gmap strings list fin_maps.
Open Scope Z_scope.

Class Pcg : Type := {
  Pcg32 : Type;
  seed_from_u64 : Z -> Pcg32;
  next_u64 : Pcg32 -> Z * Pcg32;
  next_u64_range : forall g, is_u64 (fst (next_u64 g))
}.

(** [String::into_bytes] *)
Definition into_bytes (s : string) : list Z :=
  map (fun a => Z.of_N (Ascii.N_of_ascii a)) (String.list_ascii_of_string s).

(** [u64::to_be_bytes] and [u64::from_be_bytes] *)
Fixpoint be_bytes (n : nat) (z : Z) : list Z :=
  match n with O => [] | S n => be_bytes n (Z.shiftr z 8) ++ [Z.land z 255] end.
Definition to_be_bytes (z : Z) : list Z := be_bytes 8 z.
Definition from_be_bytes (l : list Z) : Z :=
  fold_left (fun acc b => Z.lor (Z.shiftl acc 8) b) l 0.

(** [a.iter().zip(b.iter()).map(|(&x1, &x2)| x1 ^ x2).collect()] *)
Definition xor_bytes (a b : list Z) : list Z := zip_with Z.lxor a b.

(** A zeroed vector of [n] bytes that starts with [s] *)
Definition padded (n : nat) (s : list Z) : list Z := s ++ drop (length s) (replicate n 0).

(** [slice::chunks(8)]; the length of the slice is fuel enough. *)
Fixpoint chunks8 (fuel : nat) (l : list Z) : list (list Z) :=
  match fuel, l with
  | S fuel, _ :: _ => take 8 l :: chunks8 fuel (drop 8 l)
  | _, _ => []
  end.

Module SeedSource.
Record t : Type := Mk {
  nonce : list Z;
  nw_name : list Z;
  previous_seed : Z;
  previous_block_hash : Hash;
  txs_hash : Hash;
  rxs_hash : Hash
}.

Definition new (nonce : list Z) (nw_name : string) (previous_block_hash txs_hash rxs_hash : Hash) : t :=
  Mk nonce (into_bytes nw_name) 0 previous_block_hash txs_hash rxs_hash.

(** [SeedSource::get_seed]; [None] is a panic. *)
Definition get_seed (s : t) : option Z :=
  prev_bytes ← Hashes.as_bytes (previous_block_hash s);
  txs_bytes ← Hashes.as_bytes (txs_hash s);
  rxs_bytes ← Hashes.as_bytes (rxs_hash s);
  let size_vec := [length (nonce s); length (nw_name s); length prev_bytes;
                   length txs_bytes; length rxs_bytes] in
  let max_length := foldr Nat.max 0%nat size_vec in
  let nonce := padded max_length (nonce s) in
  let nw_name := padded max_length (nw_name s) in
  let prev_hash := padded max_length prev_bytes in
  let txs_hash := padded max_length txs_bytes in
  let rxs_hash := padded max_length rxs_bytes in
  let xor_result := xor_bytes nw_name nonce in
  let xor_result := xor_bytes xor_result prev_hash in
  let xor_result := xor_bytes xor_result txs_hash in
  let xor_result := xor_bytes xor_result rxs_hash in
  let reminder_of_u64 := (length xor_result mod 8)%nat in
  let xor_result :=
    if (0 <? reminder_of_u64)%nat then xor_result ++ replicate (8 - reminder_of_u64) 0
    else xor_result in
  let vec_u64 := fold_left xor_bytes (chunks8 (length xor_result) xor_result) (replicate 8 0) in
  let vec_u64 := xor_bytes vec_u64 (to_be_bytes (previous_seed s)) in
  if (length vec_u64 =? 8)%nat then Some (from_be_bytes vec_u64) else None.

Definition set_previous_seed (seed : Z) (s : t) : t :=
  Mk (nonce s) (nw_name s) seed (previous_block_hash s) (txs_hash s) (rxs_hash s).

(** ** Lemmas *)

Definition wf (s : t) : Prop :=
  Hashes.wf (previous_block_hash s) /\ Hashes.wf (txs_hash s) /\ Hashes.wf (rxs_hash s) /\
  Forall is_u8 (nonce s) /\ Forall is_u8 (nw_name s) /\ is_u64 (previous_seed s).
End SeedSource.

(** ** Byte strings and numbers *)

Lemma shift_xor x b : is_u8 b -> Z.lor (Z.shiftl x 8) b = Z.lxor (Z.shiftl x 8) b.
Proof.
  unfold is_u8, u8_max. intros Hb. symmetry. apply Z.lxor_lor.
  apply Z.bits_inj'. intros n Hn. rewrite Z.land_spec, Z.bits_0, Z.shiftl_spec by done.
  destruct (Z.lt_ge_cases n 8) as [Hlt|Hge].
  - rewrite Z.testbit_neg_r by lia. done.
  - replace (Z.testbit b n) with false; [by rewrite andb_false_r|].
    symmetry. destruct (Z.eq_dec b 0) as [->|]; [apply Z.bits_0|].
    apply Z.bits_above_log2; [lia|]. apply Z.log2_lt_pow2; [lia|].
    apply Z.lt_le_trans with (2 ^ 8); [lia|]. apply Z.pow_le_mono_r; lia.
Qed.

Lemma is_u8_lxor a b : is_u8 a -> is_u8 b -> is_u8 (Z.lxor a b).
Proof.
  unfold is_u8, u8_max. intros Ha Hb.
  assert (0 <= Z.lxor a b) by (apply Z.lxor_nonneg; lia). split; [done|].
  destruct (Z.eq_dec (Z.lxor a b) 0) as [->|]; [lia|].
  assert (Z.lxor a b < 2 ^ 8); [|lia]. apply Z.log2_lt_pow2; [lia|].
  apply Z.le_lt_trans with (Z.max (Z.log2 a) (Z.log2 b)); [apply Z.log2_lxor; lia|].
  apply Z.max_lub_lt.
  - destruct (Z.eq_dec a 0) as [->|]; [done|]. apply Z.log2_lt_pow2; lia.
  - destruct (Z.eq_dec b 0) as [->|]; [done|]. apply Z.log2_lt_pow2; lia.
Qed.

Lemma xor_bytes_u8 a b : Forall is_u8 a -> Forall is_u8 b -> Forall is_u8 (xor_bytes a b).
Proof.
  intros Ha. revert b. unfold xor_bytes. induction Ha as [|x a Hx Ha IH]; intros b Hb; simpl; [constructor|].
  destruct Hb as [|y b Hy Hb]; constructor; [by apply is_u8_lxor|by apply IH].
Qed.

Lemma length_xor_bytes a b : length (xor_bytes a b) = Nat.min (length a) (length b).
Proof. apply length_zip_with. Qed.

Lemma from_be_fold_xor a b x y :
  length a = length b -> Forall is_u8 a -> Forall is_u8 b ->
  fold_left (fun acc b => Z.lor (Z.shiftl acc 8) b) (xor_bytes a b) (Z.lxor x y) =
  Z.lxor (fold_left (fun acc b => Z.lor (Z.shiftl acc 8) b) a x)
         (fold_left (fun acc b => Z.lor (Z.shiftl acc 8) b) b y).
Proof.
  intros Hlen Ha. revert b x y Hlen. unfold xor_bytes.
  induction Ha as [|u a Hu Ha IH]; intros b x y Hlen Hb; destruct b as [|v b]; try done.
  apply Forall_cons in Hb as [Hv Hb]. simpl.
  rewrite <- IH by (simpl in Hlen; auto with lia). f_equal.
  rewrite !shift_xor by (try done; by apply is_u8_lxor).
  rewrite Z.shiftl_lxor, !Z.lxor_assoc. f_equal.
  rewrite <- !Z.lxor_assoc, (Z.lxor_comm (Z.shiftl y 8)). done.
Qed.

Lemma from_be_bytes_xor a b :
  length a = length b -> Forall is_u8 a -> Forall is_u8 b ->
  from_be_bytes (xor_bytes a b) = Z.lxor (from_be_bytes a) (from_be_bytes b).
Proof. intros Hl Ha Hb. unfold from_be_bytes. by rewrite <- from_be_fold_xor. Qed.

Lemma length_be_bytes n z : length (be_bytes n z) = n.
Proof. revert z. induction n as [|n IH]; intros z; simpl; [done|]. rewrite length_app, IH. simpl. lia. Qed.

Lemma land_255 z : Z.land z 255 = z mod 256.
Proof. apply (Z.land_ones z 8). lia. Qed.

Lemma be_bytes_u8 n z : Forall is_u8 (be_bytes n z).
Proof.
  revert z. induction n as [|n IH]; intros z; simpl; [constructor|].
  apply Forall_app. split; [done|]. constructor; [|constructor].
  rewrite land_255. pose proof (Z.mod_pos_bound z 256). unfold is_u8, u8_max. lia.
Qed.

Lemma from_be_be_bytes n z : 0 <= z < 256 ^ Z.of_nat n -> from_be_bytes (be_bytes n z) = z.
Proof.
  revert z. induction n as [|n IH]; intros z Hz; [simpl in *; cbn; lia|].
  unfold from_be_bytes in *. simpl be_bytes. rewrite fold_left_app. simpl.
  rewrite Z.shiftr_div_pow2 by lia. change (2 ^ 8) with 256.
  rewrite Nat2Z.inj_succ, Z.pow_succ_r in Hz by lia. rewrite IH.
  - rewrite land_255, shift_xor.
    + rewrite <- Z.add_nocarry_lxor.
      * rewrite Z.shiftl_mul_pow2 by lia. change (2 ^ 8) with 256. pose proof (Z.div_mod z 256). lia.
      * apply Z.bits_inj'. intros k Hk. rewrite Z.land_spec, Z.bits_0, Z.shiftl_spec by done.
        destruct (Z.lt_ge_cases k 8) as [Hlt|Hge]; [by rewrite Z.testbit_neg_r by lia|].
        change 256 with (2 ^ 8). rewrite Z.mod_pow2_bits_high by lia. apply andb_false_r.
    + pose proof (Z.mod_pos_bound z 256). unfold is_u8, u8_max. lia.
  - split; [apply Z.div_pos; lia|]. apply Z.div_lt_upper_bound; lia.
Qed.

Lemma from_to_be_bytes z : is_u64 z -> from_be_bytes (to_be_bytes z) = z.
Proof. intros Hz. apply from_be_be_bytes. unfold is_u64, u64_max in Hz. simpl. lia. Qed.

Lemma from_be_fold_range l x k :
  Forall is_u8 l -> 0 <= x < 2 ^ k -> 0 <= k ->
  0 <= fold_left (fun acc b => Z.lor (Z.shiftl acc 8) b) l x < 2 ^ (k + 8 * len l).
Proof.
  intros Hl. revert x k. induction Hl as [|b l Hb Hl IH]; intros x k Hx Hk; simpl.
  - unfold len. simpl. by rewrite Z.add_0_r.
  - replace (k + 8 * len (b :: l)) with ((k + 8) + 8 * len l) by (unfold len; simpl; lia).
    apply IH; [|lia]. rewrite shift_xor by done.
    rewrite <- Z.add_nocarry_lxor.
    + rewrite Z.shiftl_mul_pow2, Z.pow_add_r by lia. unfold is_u8, u8_max in Hb. lia.
    + apply Z.bits_inj'. intros n Hn. rewrite Z.land_spec, Z.bits_0, Z.shiftl_spec by done.
      destruct (Z.lt_ge_cases n 8) as [Hlt|Hge]; [by rewrite Z.testbit_neg_r by lia|].
      unfold is_u8, u8_max in Hb. rewrite <- (Z.mod_small b (2 ^ 8)) by lia.
      rewrite Z.mod_pow2_bits_high by lia. apply andb_false_r.
Qed.

Lemma from_be_bytes_u64 l : length l = 8%nat -> Forall is_u8 l -> is_u64 (from_be_bytes l).
Proof.
  intros Hlen Hl. pose proof (from_be_fold_range l 0 0 Hl ltac:(lia) ltac:(lia)) as H.
  unfold len in H. rewrite Hlen in H. unfold is_u64, u64_max, from_be_bytes. simpl in *. lia.
Qed.

Lemma padded_u8 n s : Forall is_u8 s -> Forall is_u8 (padded n s).
Proof.
  intros Hs. apply Forall_app. split; [done|]. apply Forall_drop, Forall_replicate.
  unfold is_u8, u8_max. lia.
Qed.

Lemma length_padded n s : (length s <= n)%nat -> length (padded n s) = n.
Proof. intros H. unfold padded. rewrite length_app, length_drop, length_replicate. lia. Qed.

Lemma chunks8_spec fuel l :
  (length l mod 8 = 0)%nat -> Forall is_u8 l ->
  Forall (fun c => length c = 8%nat /\ Forall is_u8 c) (chunks8 fuel l).
Proof.
  revert l. induction fuel as [|fuel IH]; intros l Hl Hb; simpl; [constructor|].
  destruct l as [|x l]; [constructor|].
  assert (8 <= length (x :: l))%nat.
  { destruct (Nat.lt_ge_cases (length (x :: l)) 8) as [Hlt|]; [|done].
    rewrite Nat.mod_small in Hl by done. done. }
  constructor.
  - split; [rewrite length_take; lia|by apply Forall_take].
  - apply IH; [|by apply Forall_drop]. rewrite length_drop.
    replace (length (x :: l)) with ((length (x :: l) - 8) + 1 * 8)%nat in Hl by lia.
    by rewrite Nat.Div0.mod_add in Hl.
Qed.

Lemma fold_xor_bytes cs acc :
  length acc = 8%nat -> Forall is_u8 acc ->
  Forall (fun c => length c = 8%nat /\ Forall is_u8 c) cs ->
  length (fold_left xor_bytes cs acc) = 8%nat /\ Forall is_u8 (fold_left xor_bytes cs acc).
Proof.
  intros Hlen Hacc Hcs. revert acc Hlen Hacc.
  induction Hcs as [|c cs [Hc Hcb] Hcs IH]; intros acc Hlen Hacc; simpl; [done|].
  apply IH; [rewrite length_xor_bytes; lia|by apply xor_bytes_u8].
Qed.

(** Padding to a multiple of eight *)
Lemma pad8 (l : list Z) :
  (length (if (0 <? length l mod 8)%nat then l ++ replicate (8 - length l mod 8) 0%Z else l) mod 8 = 0)%nat.
Proof.
  pose proof (Nat.mod_upper_bound (length l) 8 ltac:(lia)) as Hb.
  destruct (0 <? length l mod 8)%nat eqn:E; [|apply Nat.ltb_ge in E; lia].
  rewrite length_app, length_replicate.
  pose proof (Nat.div_mod_eq (length l) 8) as Hd.
  replace (length l + (8 - length l mod 8))%nat with (0 + (length l / 8 + 1) * 8)%nat by lia.
  by rewrite Nat.Div0.mod_add.
Qed.

Lemma get_seed_base s :
  SeedSource.wf s ->
  exists base, length base = 8%nat /\ Forall is_u8 base /\
    forall seed, SeedSource.get_seed (SeedSource.set_previous_seed seed s) =
                 Some (from_be_bytes (xor_bytes base (to_be_bytes seed))).
Proof.
  intros (Hp & Ht & Hr & Hn & Hw & _).
  destruct (Hashes.as_bytes_ok _ Hp) as (pb & Ep & Hpb).
  destruct (Hashes.as_bytes_ok _ Ht) as (tb & Et & Htb).
  destruct (Hashes.as_bytes_ok _ Hr) as (rb & Er & Hrb).
  unfold SeedSource.get_seed. simpl. rewrite Ep, Et, Er. simpl.
  set (m := Nat.max _ _).
  set (x := xor_bytes (xor_bytes (xor_bytes (xor_bytes (padded m (SeedSource.nw_name s))
    (padded m (SeedSource.nonce s))) (padded m pb)) (padded m tb)) (padded m rb)).
  assert (Hx : Forall is_u8 x) by (repeat apply xor_bytes_u8; by apply padded_u8).
  set (y := if (0 <? length x mod 8)%nat then x ++ replicate (8 - length x mod 8) 0 else x).
  assert (Hy : Forall is_u8 y).
  { subst y. case_match; [|done]. apply Forall_app. split; [done|].
    apply Forall_replicate. unfold is_u8, u8_max. lia. }
  destruct (fold_xor_bytes (chunks8 (length y) y) (replicate 8 0)) as [Hl Hb].
  - done.
  - apply Forall_replicate. unfold is_u8, u8_max. lia.
  - apply chunks8_spec; [apply (pad8 x)|done].
  - eexists. split_and!; [exact Hl|exact Hb|]. intros seed. cbv zeta.
    match goal with |- (if (length ?v =? 8)%nat then _ else _) = _ =>
      assert (E : length v = 8%nat) end.
    { rewrite length_xor_bytes. unfold to_be_bytes. rewrite length_be_bytes.
      exact (f_equal (fun n => Nat.min n 8) Hl). }
    by rewrite E.
Qed.

(** ** The seed *)
Module SeedTheorems.
Import SeedSource.

Lemma get_seed_split s :
  wf s ->
  exists v, get_seed (set_previous_seed 0 s) = Some v /\ is_u64 v /\
    get_seed s = Some (Z.lxor v (previous_seed s)).
Proof.
  intros Hs. destruct (get_seed_base s Hs) as (base & Hl & Hb & Hseed).
  exists (from_be_bytes base).
  assert (Hx : forall z, is_u64 z ->
    from_be_bytes (xor_bytes base (to_be_bytes z)) = Z.lxor (from_be_bytes base) z).
  { intros z Hz. rewrite from_be_bytes_xor, from_to_be_bytes; try done.
    apply be_bytes_u8. }
  split_and!.
  - rewrite Hseed, Hx; [by rewrite Z.lxor_0_r|]. unfold is_u64, u64_max. lia.
  - by apply from_be_bytes_u64.
  - assert (s = set_previous_seed (previous_seed s) s) as Es by by destruct s.
    rewrite Es at 1. rewrite Hseed, Hx; [done|]. by destruct Hs as (_ & _ & _ & _ & _ & ?).
Qed.

Lemma get_seed_wf s : wf s -> exists v, get_seed s = Some v /\ is_u64 v.
Proof.
  intros Hs. destruct (get_seed_base s Hs) as (base & Hl & Hb & Hseed).
  assert (s = set_previous_seed (previous_seed s) s) as Es by by destruct s.
  rewrite Es, Hseed. eexists. split; [done|]. apply from_be_bytes_u64.
  - rewrite length_xor_bytes, Hl. unfold to_be_bytes. by rewrite length_be_bytes.
  - apply xor_bytes_u8; [done|apply be_bytes_u8].
Qed.

(** The seed is computed without panicking, and the previously drawn number
    enters it by exclusive or: the seed is the one of a fresh source (previous seed 0)
    xor that number. *)
Theorem get_seed_xor s :
  wf s ->
  exists v, get_seed (set_previous_seed 0 s) = Some v /\ is_u64 v /\
    get_seed s = Some (Z.lxor v (previous_seed s)).
Proof. apply get_seed_split. Qed.
End SeedTheorems.

(** ** [DRand] *)
Module DRand.
Section drand.
Context `{Pcg}.

Record t : Type := Mk { drng : Pcg32; seed : SeedSource.t }.

(** [None] when computing the seed panics *)
Definition new (seed : SeedSource.t) : option t :=
  s ← SeedSource.get_seed seed;
  Some (Mk (seed_from_u64 s) seed).

Definition update_seed_source (previous_block_hash txs_hash rxs_hash : Hash) (d : t) : t :=
  Mk (drng d) (SeedSource.Mk (SeedSource.nonce (seed d)) (SeedSource.nw_name (seed d)) 0
                             previous_block_hash txs_hash rxs_hash).

Definition update_previous_seed (s : Z) (d : t) : t :=
  Mk (drng d) (SeedSource.set_previous_seed s (seed d)).

(** [DRand::rand]; [None] is the division by zero when [max + 1] wraps to 0. *)
Definition rand (max : Z) (d : t) : option (Z * t) :=
  let '(rand_number, drng') := next_u64 (drng d) in
  let d := update_previous_seed rand_number (Mk drng' (seed d)) in
  if max +u64 1 =? 0 then None else Some (rand_number mod (max +u64 1), d).
End drand.
Arguments t {_}.
End DRand.
