(* ===== verification/Samples.v ===== *)
(** * Concrete parameters

    Small executable instances of the parameters of the development (cryptography,
    generator, blocks, confirmations, transactions).  They are used only where a
    theorem is applied at a concrete input, to show that its hypotheses can hold. *)

From stdpp Require Import base gmap strings list fin_maps.
From S2P Require Import Prelude Hash Crypto CoreModels DRand.
Open Scope Z_scope.

Module Samples.
Definition byte_sum (l : list Z) : Z := fold_left (fun a b => (a * 31 + b) mod 256) l 7.

Lemma byte_sum_u8 l : is_u8 (byte_sum l).
Proof.
  unfold byte_sum. cut (forall (l : list Z) a, is_u8 a -> is_u8 (fold_left (fun a b => (a * 31 + b) mod 256) l a)).
  { intros H. apply H. by unfold is_u8, u8_max. }
  clear l. induction l as [|x l IH]; intros a Ha; simpl; [done|]. apply IH.
  pose proof (Z.mod_pos_bound (a * 31 + x) 256). unfold is_u8, u8_max. lia.
Qed.

Definition digest : Digest := {|
  sha256 := fun d => replicate 32 (byte_sum d);
  sha256_length := fun d => length_replicate 32 (byte_sum d);
  sha256_bytes := fun d => Forall_replicate is_u8 32 (byte_sum d) (byte_sum_u8 d)
|}.

Definition string_of_bytes (l : list Z) : string :=
  String.string_of_list_ascii (map (fun b => Ascii.ascii_of_N (Z.to_N b)) l).

Lemma string_of_bytes_inj a b :
  Forall is_u8 a -> Forall is_u8 b -> string_of_bytes a = string_of_bytes b -> a = b.
Proof.
  unfold string_of_bytes. intros Ha Hb H.
  apply (f_equal String.list_ascii_of_string) in H.
  rewrite !String.list_ascii_of_string_of_list_ascii in H.
  revert b Hb H. induction Ha as [|x a Hx Ha IH]; intros b Hb H; destruct Hb as [|y b Hy Hb]; try done.
  simpl in H. injection H as Hxy H. f_equal; [|by apply IH].
  apply (f_equal Ascii.N_of_ascii) in Hxy. unfold is_u8, u8_max in *.
  rewrite !Ascii.N_ascii_embedding in Hxy by lia. lia.
Qed.

Definition base58 : Base58 := {| bs58_encode := string_of_bytes; bs58_inj := string_of_bytes_inj |}.

Definition pcg : Pcg := {|
  Pcg32 := Z;
  seed_from_u64 := fun s => s;
  next_u64 := fun g => (u64_wrap (g * 6364136223846793005 + 1442695040888963407), g + 1);
  next_u64_range := fun g => u64_wrap_range _
|}.

Definition ring : Ring := {|
  RingEcdsaKeyPair := list Z;
  RingEd25519KeyPair := list Z;
  ecdsa_from_pkcs8 := fun _ b => Some b;
  ecdsa_public_key := fun k => k;
  ecdsa_sign := fun k _ d => Some (k ++ d);
  ecdsa_verify := fun _ k d s => bool_decide (s = k ++ d);
  ed25519_from_pkcs8 := fun b => Some b;
  ed25519_public_key := fun k => k;
  ed25519_sign := fun k d => k ++ d;
  ed25519_verify := fun k d s => bool_decide (s = k ++ d)
|}.
#[export] Existing Instance ring.

Definition keypair (id : string) : Keys.TrinciKeyPair := Keys.KpEd25519 (Keys.MkEd25519KeyPair (into_bytes id)).
Definition key_id (k : Keys.TrinciPublicKey) : string :=
  match k with Keys.PkEcdsa k => string_of_bytes (Keys.value k) | Keys.PkEd25519 k => string_of_bytes (Keys.ed_0 k) end.

(** The hash with the one-byte value [n] *)
Definition hash (n : Z) : Hash := MkHash (Hashes.layout 0 [n]).

Record block : Type := MkBlock {
  b_builder : option string; b_hash : Hash; b_height : Z; b_prev : Hash; b_txs : Hash; b_rxs : Hash; b_ok : bool
}.
#[export] Instance block_executable : Executable block := {
  get_builder_id := b_builder;
  get_builder_pub_key := fun b => (fun id => Keys.PkEd25519 (Keys.MkEd25519PublicKey (into_bytes id))) <$> b_builder b;
  get_hash := b_hash;
  get_height := b_height;
  get_prev_hash := b_prev;
  get_txs_hash := b_txs;
  get_rxs_hash := b_rxs;
  set_state_hash := fun _ b => b;
  set_txs_hash := fun h b => MkBlock (b_builder b) (b_hash b) (b_height b) (b_prev b) h (b_rxs b) (b_ok b);
  set_rxs_hash := fun h b => MkBlock (b_builder b) (b_hash b) (b_height b) (b_prev b) (b_txs b) h (b_ok b);
  block_new := fun k hs n p _ => MkBlock (Some (key_id k)) (hash n) n p (hash 0) (hash 0) true;
  block_sign := fun _ b => b;
  block_verify := b_ok
}.
#[export] Instance block_laws : ExecutableLaws block.
Proof. by split. Qed.

Record conf : Type := MkConf { c_hash : Hash; c_height : Z; c_round : Z; c_player : string; c_ok : bool }.
#[export] Instance conf_eq_dec : EqDecision conf.
Proof. solve_decision. Defined.
#[export] Instance conf_confirmable : Confirmable conf := {
  get_block_hash := c_hash;
  get_block_height := c_height;
  get_block_round := c_round;
  get_player_id := c_player;
  conf_new := fun h n r k => MkConf h n r (key_id k) true;
  conf_sign := fun _ c => c;
  conf_verify := c_ok
}.
#[export] Instance conf_laws : ConfirmableLaws conf.
Proof. by split. Qed.

Record tx : Type := MkTx { x_hash : Hash; x_ok : bool }.
#[export] Instance tx_transactable : Transactable tx := { tx_get_hash := x_hash; tx_verify := x_ok }.
#[export] Instance tx_serialize : Serialize tx := { rmp_serialize := fun t => Ok (hash_0 (x_hash t)) }.

(** A block of [builder] at [height] on top of the hash [prev], hashed to [n] *)
Definition blk (builder : string) (n height prev : Z) : block :=
  MkBlock (Some builder) (hash n) height (hash prev) (hash 0) (hash 0) true.
(** The vote of [player] for the block hashed to [n] *)
Definition vote (player : string) (n height round : Z) : conf :=
  MkConf (hash n) height round player true.
Definition mktx (n : Z) : tx := MkTx (hash n) true.

Lemma hash_wf n : is_u8 n -> Hashes.wf (hash n).
Proof.
  intros Hn. change (hash n) with (MkHash (Hashes.layout (Hashes.alg_byte Identity) [n])).
  apply Hashes.wf_layout; [by constructor|]. vm_compute. congruence.
Qed.

Definition seed_source : SeedSource.t :=
  SeedSource.new [1; 2; 3; 4; 5; 6; 7; 8] "trinci" (hash 1) (hash 2) (hash 3).

Lemma seed_source_wf : SeedSource.wf seed_source.
Proof.
  unfold SeedSource.wf. split_and!; try (apply hash_wf; by unfold is_u8, u8_max).
  - repeat constructor; vm_compute; congruence.
  - repeat constructor; vm_compute; congruence.
  - vm_compute; split; congruence.
Qed.

Lemma get_seed_xor_witness :
  exists v, SeedSource.get_seed (SeedSource.set_previous_seed 0 seed_source) = Some v /\ is_u64 v /\
    SeedSource.get_seed seed_source = Some (Z.lxor v (SeedSource.previous_seed seed_source)).
Proof. exact (SeedTheorems.get_seed_xor seed_source seed_source_wf). Defined.

Lemma from_bytes_as_bytes_witness :
  exists bs, Hashes.as_bytes (hash 7) = Some bs /\ Hashes.from_bytes bs = Ok (hash 7) /\ Hashes.visit_bytes bs = Ok (hash 7).
Proof. apply (Hashes.from_bytes_as_bytes (hash 7)), hash_wf. unfold is_u8, u8_max. lia. Defined.
End Samples.
