(* ===== verification/Messages.v ===== *)
(** * Messages between services
    ([trinci-core-new/src/artifacts/{messages,errors}.rs])

    [A], [B], [C] and [T] are the types of attachments, blocks, confirmations and
    transactions.  Sending on a channel, answering a request, spawning a thread and
    sleeping are effects; a request takes its answer from the world. *)

From S2P Require Import Prelude Exec Hash Crypto CoreModels.
From stdpp Require Import base gmap strings list fin_maps.
Open Scope Z_scope.

Record BlockInfo : Type := MkBlockInfo { bi_height : Z; bi_hash : Hash }.
#[export] Instance BlockInfo_eq_dec : EqDecision BlockInfo.
Proof. solve_decision. Defined.
#[export] Instance BlockInfo_countable : Countable BlockInfo.
Proof.
  apply (inj_countable' (fun b => (bi_height b, bi_hash b)) (fun '(n, h) => MkBlockInfo n h)).
  by intros [].
Defined.

Module Msg.
Inductive t (A B C T : Type) : Type :=
| AddTx (tx : T * Z * option (list A))
| AddTxs (txs : list (T * Z * option (list A)))
| AlignmentEnded
| AlignmentStarted
| BlockConfirmationFromPeer (c : C)
| BlockConsolidated (b : B) (txs_hashes : list Hash) (players : Players.t)
| BlockFromPeer (b : B) (c : C) (txs_hashes : list Hash)
| BuildBlock
| BlockExecutionEnded (b : B) (txs_hashes : list Hash)
| BuildBlockInPlaceOfLeader (height : Z)
| BuildBlockTimeout (height : Z)
| CheckOldBlockProposals
| CheckOldTxs
| CollectBlockTxs (b : B) (round : Z) (txs_hashes : list Hash)
| ConfirmBuildBlockInPlaceOfLeader (height round : Z)
| DetectedPossibleMisalignment
| ExecuteBlock (b : B) (round : Z) (txs : list T)
| HeightFromPeer (height : Z)
| BlockElectionFailed (height next_round : Z)
| NewHeight (height : Z)
| PropagateBlockToPeers (b : B) (c : C) (txs_hashes : list Hash)
| PropagateConfirmationToPeers (c : C)
| PropagateOldTxs (txs : list T)
| ProposalAfterBuild (b : B) (round : Z) (txs_hashes : list Hash)
| ProposalFromAlignmentBlock (cs : list C)
| RefreshRound (round : Z)
| RetrieveBlock (trusted_peers : list string)
| StartBlockConsolidation (b : B) (cs : list C) (txs_hashes : list Hash)
| StartTimerToBuildBlock
| UpdateSeedSource (last_block_hash txs_hash rxs_hash : Hash)
| VerifyConfirmations (block : option (B * list Hash)) (cs : list C)
| VerifyIfConsolidated (height round : Z).
Arguments AddTx {A B C T} _.
Arguments AddTxs {A B C T} _.
Arguments AlignmentEnded {A B C T}.
Arguments AlignmentStarted {A B C T}.
Arguments BlockConfirmationFromPeer {A B C T} _.
Arguments BlockConsolidated {A B C T} _ _ _.
Arguments BlockFromPeer {A B C T} _ _ _.
Arguments BuildBlock {A B C T}.
Arguments BlockExecutionEnded {A B C T} _ _.
Arguments BuildBlockInPlaceOfLeader {A B C T} _.
Arguments BuildBlockTimeout {A B C T} _.
Arguments CheckOldBlockProposals {A B C T}.
Arguments CheckOldTxs {A B C T}.
Arguments CollectBlockTxs {A B C T} _ _ _.
Arguments ConfirmBuildBlockInPlaceOfLeader {A B C T} _ _.
Arguments DetectedPossibleMisalignment {A B C T}.
Arguments ExecuteBlock {A B C T} _ _ _.
Arguments HeightFromPeer {A B C T} _.
Arguments BlockElectionFailed {A B C T} _ _.
Arguments NewHeight {A B C T} _.
Arguments PropagateBlockToPeers {A B C T} _ _ _.
Arguments PropagateConfirmationToPeers {A B C T} _.
Arguments PropagateOldTxs {A B C T} _.
Arguments ProposalAfterBuild {A B C T} _ _ _.
Arguments ProposalFromAlignmentBlock {A B C T} _.
Arguments RefreshRound {A B C T} _.
Arguments RetrieveBlock {A B C T} _.
Arguments StartBlockConsolidation {A B C T} _ _ _.
Arguments StartTimerToBuildBlock {A B C T}.
Arguments UpdateSeedSource {A B C T} _ _ _.
Arguments VerifyConfirmations {A B C T} _ _.
Arguments VerifyIfConsolidated {A B C T} _ _.
End Msg.

Module Req.
Inductive t : Type :=
| GetActualPlayers
| GetConfirmations (height : Z) (hash : Hash) (ask_for_block : bool)
| GetDRandNum (max : Z)
| GetFullBlock (height : Z) (trusted_peers : list string)
| GetLastBlockInfo (to_id : string)
| GetLeader
| GetNeighbors
| GetPoolLength
| GetTxs (hashes : list Hash)
| GetUnconfirmedHashes
| IsLeader (peer_id : string).
End Req.

Module Res.
Inductive t (A B C T : Type) : Type :=
| GetActualPlayers (ids : list string)
| GetConfirmations (cs : option (list C)) (block : option (B * list Hash))
| GetDRandNum (n : Z)
| GetFullBlock (block : option (FullBlock B C T)) (from_id : string)
| GetLastBlockInfo (info : BlockInfo)
| GetLeader (id : string)
| GetNeighbors (ids : list string)
| GetPoolLength (n : Z)
| GetTxs (txs : list (T * Z * option (list A)))
| GetUnconfirmedHashes (hashes : list (Hash * Z))
| IsLeader (b : bool).
Arguments GetActualPlayers {A B C T} _.
Arguments GetConfirmations {A B C T} _ _.
Arguments GetDRandNum {A B C T} _.
Arguments GetFullBlock {A B C T} _ _.
Arguments GetLastBlockInfo {A B C T} _.
Arguments GetLeader {A B C T} _.
Arguments GetNeighbors {A B C T} _.
Arguments GetPoolLength {A B C T} _.
Arguments GetTxs {A B C T} _.
Arguments GetUnconfirmedHashes {A B C T} _.
Arguments IsLeader {A B C T} _.
End Res.

(** The owners of the channels a [Comm] can be sent to: the four services of
    [Services] and the node ([node_interface]). *)
Inductive Service : Type :=
| BlockService | ConsensusService | DRandService | TransactionService | NodeInterface.
#[export] Instance Service_eq_dec : EqDecision Service.
Proof. solve_decision. Defined.

Inductive CommKind (A B C T : Type) : Type :=
| KMsg (m : Msg.t A B C T)
| KReq (r : Req.t).
Arguments KMsg {A B C T} _.
Arguments KReq {A B C T} _.

(** [Comm]: the response channel is named after the service that waits on it. *)
Record Comm (A B C T : Type) : Type := MkComm {
  kind : CommKind A B C T;
  res_chan : option Service
}.
Arguments MkComm {A B C T} _ _.
Arguments kind {A B C T} _.
Arguments res_chan {A B C T} _.

(** ** Errors *)

Inductive CommError (A B C T : Type) : Type :=
| InvalidComm
| RecvTimeoutError
| SendError (c : Comm A B C T).
Arguments InvalidComm {A B C T}.
Arguments RecvTimeoutError {A B C T}.
Arguments SendError {A B C T} _.

Inductive ChainError : Type :=
| AlignmentError (msg : string)
| BlockVerificationFault
| ConfirmationError
| InvalidBlockHeight (expected received : Z)
| InvalidBlockPlayer (node_id : string)
| InvalidBlockPreviousHash (expected received : Hash)
| MissingBlockBuilder
| MissingBlockError
| MissingTxsError.

Inductive CoreError (A B C T : Type) : Type :=
| EChain (e : ChainError)
| EComm (e : CommError A B C T).
Arguments EChain {A B C T} _.
Arguments EComm {A B C T} _.

(** ** Effects *)

(** The threads the services spawn; their bodies are defined with the services. *)
Inductive Thread (B C : Type) : Type :=
| CheckOldTxsLoop
| CheckOldBlockProposalsLoop
| BlockElectionFailedThread (height_to_build round : Z)
| RetrieveConfirmationsThread (proposal : BlockProposal B C)
| AlignmentThread (actual_height height : Z) (trusted_peers : list string)
| LeaderTimeoutThread (height : Z)
| BuildTimerThread (actual_height : Z).
Arguments CheckOldTxsLoop {B C}.
Arguments CheckOldBlockProposalsLoop {B C}.
Arguments BlockElectionFailedThread {B C} _ _.
Arguments RetrieveConfirmationsThread {B C} _.
Arguments AlignmentThread {B C} _ _ _.
Arguments LeaderTimeoutThread {B C} _.
Arguments BuildTimerThread {B C} _.

Inductive Effect (A B C T : Type) : Type :=
| Sent (to : Service) (c : Comm A B C T)
| SentAlignment (m : Msg.t A B C T)
| Replied (to : Service) (r : Res.t A B C T)
| Spawned (th : Thread B C)
| Slept (ms : Z).
Arguments Sent {A B C T} _ _.
Arguments SentAlignment {A B C T} _.
Arguments Replied {A B C T} _ _.
Arguments Spawned {A B C T} _.
Arguments Slept {A B C T} _.

(** What comes of a request: an answer, nothing in time, or a closed channel. *)
Inductive Answer (A B C T : Type) : Type :=
| Delivered (r : Res.t A B C T)
| TimedOut
| Disconnected.
Arguments Delivered {A B C T} _.
Arguments TimedOut {A B C T}.
Arguments Disconnected {A B C T}.

(** Handlers with state [S] *)
Abbreviation handler A B C T S := (M S (Effect A B C T) (Answer A B C T)).

Section sending.
Context {A B C T S : Type}.

(** [send_msg] of [Comm::new(CommKind::Msg(msg), None)]; a closed channel is logged *)
Definition send_msg (to : Service) (msg : Msg.t A B C T) : handler A B C T S unit :=
  emit (Sent to (MkComm (KMsg msg) None)).

(** [send_res] *)
Definition send_res (to : Service) (res : Res.t A B C T) : handler A B C T S unit :=
  emit (Replied to res).

(** [send_req] of a request made by the service [from] *)
Definition send_req (from to : Service) (req : Req.t) :
    handler A B C T S (Result (Res.t A B C T) (CommError A B C T)) :=
  let comm := MkComm (KReq req) (Some from) in
  a ← next_answer;
  match a with
  | Some (Delivered res) => emit (Sent to comm) ;; mret (Ok res)
  | Some TimedOut | None => emit (Sent to comm) ;; mret (Err RecvTimeoutError)
  | Some Disconnected => mret (Err (SendError comm))
  end.

Definition spawn (th : Thread B C) : handler A B C T S unit := emit (Spawned th).
Definition sleep_ms (ms : Z) : handler A B C T S unit := emit (Slept ms).
Definition sleep_s (s : Z) : handler A B C T S unit := emit (Slept (s * 1000)).

(** One turn of a service's [run]: the loop receives a [Comm] and dispatches it; a
    request without a response channel is logged and dropped. *)
Definition dispatch (handle_messages : Msg.t A B C T -> handler A B C T S unit)
    (handle_requests : Req.t -> Service -> handler A B C T S unit) (comm : Comm A B C T) :
    handler A B C T S unit :=
  match kind comm with
  | KMsg msg => handle_messages msg
  | KReq req =>
      match res_chan comm with
      | Some res_chan => handle_requests req res_chan
      | None => mret tt
      end
  end.

(** [run]: the communications received one after the other *)
Definition run_loop (step : Comm A B C T -> handler A B C T S unit) (comms : list (Comm A B C T)) :
    handler A B C T S unit :=
  for_each comms step.
End sending.

(** ** Frame lemmas *)
Section frames.
Context {A B C T S X : Type} (f : S -> X) (Q : Effect A B C T -> Prop).

Lemma send_msg_proj to m : rel (R := Answer A B C T) (same_proj f) (send_msg (A:=A) (B:=B) (C:=C) (T:=T) to m).
Proof. apply rel_emit_proj. Qed.

Lemma send_res_proj to r : rel (R := Answer A B C T) (same_proj f) (send_res (A:=A) (B:=B) (C:=C) (T:=T) to r).
Proof. apply rel_emit_proj. Qed.

Lemma spawn_proj th : rel (R := Answer A B C T) (same_proj f) (spawn (A:=A) (B:=B) (C:=C) (T:=T) th).
Proof. apply rel_emit_proj. Qed.

Lemma send_req_proj from to r :
  rel (same_proj f) (send_req (A:=A) (B:=B) (C:=C) (T:=T) from to r).
Proof.
  apply rel_bind; [typeclasses eauto|apply rel_next_answer_proj|].
  intros [[| |]|]; frames.
Qed.

Lemma send_req_adds from to r :
  Q (Sent to (MkComm (KReq r) (Some from))) ->
  rel (S := S) (adds Q) (send_req (A:=A) (B:=B) (C:=C) (T:=T) from to r).
Proof.
  intros HQ. apply rel_bind; [typeclasses eauto|apply rel_next_answer_adds|].
  intros [[| |]|]; frames; done.
Qed.

Lemma send_msg_adds to m :
  Q (Sent to (MkComm (KMsg m) None)) ->
  rel (S := S) (R := Answer A B C T) (adds Q) (send_msg (A:=A) (B:=B) (C:=C) (T:=T) to m).
Proof. apply rel_emit_adds. Qed.

Lemma spawn_adds th :
  Q (Spawned th) ->
  rel (S := S) (R := Answer A B C T) (adds Q) (spawn (A:=A) (B:=B) (C:=C) (T:=T) th).
Proof. apply rel_emit_adds. Qed.
End frames.

#[export] Hint Resolve send_msg_proj send_res_proj spawn_proj send_req_proj
  send_req_adds send_msg_adds spawn_adds : frames.
#[export] Hint Resolve rel_next_answer_proj rel_timestamp_proj rel_modify_adds
  rel_next_answer_adds rel_timestamp_adds : frames.
#[export] Hint Extern 1 (rel _ (gets _)) => apply rel_gets; typeclasses eauto : frames.
#[export] Hint Extern 1 (rel _ get_state) => apply rel_get_state; typeclasses eauto : frames.
#[export] Hint Extern 1 (rel _ panic) => apply rel_panic; typeclasses eauto : frames.
#[export] Hint Extern 1 (rel _ (expect _)) => apply rel_expect; typeclasses eauto : frames.

(** ** Nothing here panics *)
Section safety.
Context {A B C T S : Type}.

Lemma send_msg_safe to m : safe (S := S) (R := Answer A B C T) (send_msg (A:=A) (B:=B) (C:=C) (T:=T) to m).
Proof. apply safe_emit. Qed.
Lemma send_res_safe to r : safe (S := S) (R := Answer A B C T) (send_res (A:=A) (B:=B) (C:=C) (T:=T) to r).
Proof. apply safe_emit. Qed.
Lemma spawn_safe th : safe (S := S) (R := Answer A B C T) (spawn (A:=A) (B:=B) (C:=C) (T:=T) th).
Proof. apply safe_emit. Qed.
Lemma send_req_safe from to r : safe (S := S) (send_req (A:=A) (B:=B) (C:=C) (T:=T) from to r).
Proof. unfold send_req. safely. Qed.
End safety.

#[export] Hint Resolve send_msg_safe send_res_safe spawn_safe send_req_safe : safety.
