(* ===== verification/Utf8.v ===== *)
(** * Strings of bytes

    What the code uses of Rust's [str]: a [string] is the sequence of its bytes, which
    [from_utf8] checks to be UTF-8 and [from_utf8_lossy] makes so. *)

From stdpp Require Import base strings list pretty.
From S2P Require Import Prelude.
From S2P Require Import DRand.
Open Scope Z_scope.

Module Utf8.
Definition string_of_bytes (l : list Z) : string :=
  String.string_of_list_ascii (map (fun b => Ascii.ascii_of_N (Z.to_N b)) l).

(** The first character of a sequence of bytes: its length when it is well formed; the
    length of what is to be replaced when it is not, or when the sequence ends in it *)
Inductive first_char : Type :=
| Valid (n : nat)
| Invalid (n : nat)
| Incomplete (n : nat).

Definition within (lo hi b : Z) : bool := (lo <=? b) && (b <=? hi).

(** The length of a character with the first byte [b] *)
Definition width (b : Z) : nat :=
  if b <? 128 then 1 else if within 194 223 b then 2 else if within 224 239 b then 3
  else if within 240 244 b then 4 else 0.

(** The second bytes that can follow [b]: no overlong form, no surrogate, none above U+10FFFF *)
Definition second (b b1 : Z) : bool :=
  if b =? 224 then within 160 191 b1 else if b =? 237 then within 128 159 b1
  else if b =? 240 then within 144 191 b1 else if b =? 244 then within 128 143 b1
  else within 128 191 b1.

Definition first_of (l : list Z) : first_char :=
  match l with
  | [] => Incomplete 0
  | b :: l1 =>
      match width b with
      | O => Invalid 1
      | S O => Valid 1
      | w =>
          match l1 with
          | [] => Incomplete 1
          | b1 :: l2 =>
              if negb (second b b1) then Invalid 1 else if Nat.eqb w 2 then Valid 2
              else
                match l2 with
                | [] => Incomplete 2
                | b2 :: l3 =>
                    if negb (within 128 191 b2) then Invalid 2 else if Nat.eqb w 3 then Valid 3
                    else
                      match l3 with
                      | [] => Incomplete 3
                      | b3 :: _ => if negb (within 128 191 b3) then Invalid 3 else Valid 4
                      end
                end
          end
      end
  end.

(** [str::from_utf8], with the text of its error; [at_] is the number of bytes before [l].
    The length of [l] is fuel enough. *)
Fixpoint check_from (fuel : nat) (at_ : nat) (l : list Z) : Result unit string :=
  match fuel, l with
  | _, [] => Ok tt
  | O, _ => Ok tt
  | S fuel, _ =>
      match first_of l with
      | Valid n => check_from fuel (at_ + n) (drop n l)
      | Invalid n => Err ("invalid utf-8 sequence of " +:+ pretty n +:+ " bytes from index " +:+ pretty at_)
      | Incomplete _ => Err ("incomplete utf-8 byte sequence from index " +:+ pretty at_)
      end
  end.

Definition from_utf8 (l : list Z) : Result string string :=
  let? _ := check_from (length l) 0 l in Ok (string_of_bytes l).

(** [String::from_utf8_lossy]: U+FFFD in place of what is not UTF-8 *)
Definition replacement : list Z := [239; 191; 189].

Fixpoint lossy_from (fuel : nat) (l : list Z) : list Z :=
  match fuel, l with
  | _, [] => []
  | O, _ => []
  | S fuel, _ =>
      match first_of l with
      | Valid n => take n l ++ lossy_from fuel (drop n l)
      | Invalid n | Incomplete n => replacement ++ lossy_from fuel (drop n l)
      end
  end.

Definition from_utf8_lossy (l : list Z) : string := string_of_bytes (lossy_from (length l) l).

(** [str::replace], for a pattern that is not empty: the occurrences from left to right;
    [skip] characters belong to the last one. *)
Fixpoint replace_from (pat to : string) (skip : nat) (s : string) : string :=
  match s with
  | EmptyString => EmptyString
  | String c s' =>
      match skip with
      | S skip => replace_from pat to skip s'
      | O => if starts_with pat s then (to ++ replace_from pat to (String.length pat - 1) s')%string
             else String c (replace_from pat to 0 s')
      end
  end.
Definition replace (s pat to : string) : string := replace_from pat to 0 s.

Example first_of_euro : first_of [226; 130; 172; 65] = Valid 3. Proof. reflexivity. Qed.
Example lossy_overlong : lossy_from 3 [192; 128; 65] = replacement ++ replacement ++ [65]. Proof. reflexivity. Qed.
Example check_surrogate : is_err (from_utf8 [237; 160; 128]) = true. Proof. reflexivity. Qed.
Example replace_twice : replace "abcabab" "ab" "x" = "xcxx"%string. Proof. reflexivity. Qed.
Example replace_overlap : replace "aaa" "aa" "b" = "ba"%string. Proof. reflexivity. Qed.
End Utf8.
