(* ===== verification/DRandService.v ===== *)
(** * The DRand service ([trinci-core-new/src/services/drand_service.rs])

    It owns a [DRand], answers [GetDRandNum] with a number drawn from a generator
    seeded anew, and replaces the hashes of its seed source on [UpdateSeedSource]. *)

From stdpp Require Import base gmap strings list fin_maps.
From S2P Require Import Prelude Exec Hash Crypto CoreModels DRand Samples Messages.
Open Scope Z_scope.

Module DRandService.
Section service.
Context `{Pcg} {A B C T : Type}.

Record t : Type := Mk { drand : DRand.t; node_id : string }.

Abbreviation h := (handler A B C T t).

Definition set_drand (d : DRand.t) (s : t) : t := Mk d (node_id s).

(** The service that [start] runs; [None] when [DRand::new] panics. *)
Definition start (node_id : string) (seed_source : SeedSource.t) : option t :=
  d ← DRand.new seed_source;
  Some (Mk d node_id).

Definition handle_messages (msg : Msg.t A B C T) : h unit :=
  match msg with
  | Msg.UpdateSeedSource last_block_hash txs_hash rxs_hash =>
      modify (fun s => set_drand (DRand.update_seed_source last_block_hash txs_hash rxs_hash (drand s)) s)
  | _ => mret tt
  end.

Definition handle_requests (req : Req.t) (res_chan : Service) : h unit :=
  match req with
  | Req.GetDRandNum max =>
      d ← gets drand;
      d ← expect (DRand.new (DRand.seed d));
      modify (set_drand d) ;;
      '(drand_num, d) ← expect (DRand.rand max d);
      modify (set_drand d) ;;
      send_res res_chan (Res.GetDRandNum drand_num)
  | _ => mret tt
  end.

Definition step : Comm A B C T -> h unit := dispatch handle_messages handle_requests.
Definition run : list (Comm A B C T) -> h unit := run_loop step.

(** ** Invariant: the seed source is well formed *)
Definition inv (s : t) : Prop := SeedSource.wf (DRand.seed (drand s)).

Lemma start_inv node_id src :
  SeedSource.wf src -> exists s, start node_id src = Some s /\ inv s /\ DRand.seed (drand s) = src.
Proof.
  intros Hw. destruct (SeedTheorems.get_seed_wf src Hw) as (v & Hv & _).
  unfold start, DRand.new. rewrite Hv. simpl. eexists. split_and!; done.
Qed.

Lemma set_previous_seed_wf v src :
  SeedSource.wf src -> is_u64 v -> SeedSource.wf (SeedSource.set_previous_seed v src).
Proof. unfold SeedSource.wf. simpl. tauto. Qed.

(** A draw from a service in the invariant *)
Lemma get_drand_num_run s max res_chan ans clk out :
  inv s -> 0 <= max < u64_max ->
  exists seed n g',
    SeedSource.get_seed (DRand.seed (drand s)) = Some seed /\
    next_u64 (seed_from_u64 seed) = (n, g') /\
    handle_requests (Req.GetDRandNum max) res_chan (World s ans clk out) =
    Ret tt (World (set_drand (DRand.Mk g' (SeedSource.set_previous_seed n (DRand.seed (drand s)))) s)
                  ans clk (out ++ [Replied res_chan (Res.GetDRandNum (n mod (max + 1)))])).
Proof.
  intros Hs Hm. destruct (SeedTheorems.get_seed_wf _ Hs) as (v & Hv & _).
  destruct (next_u64 (seed_from_u64 v)) as [n g'] eqn:En. exists v, n, g'. split_and!; [done|done|].
  unfold handle_requests, DRand.new, DRand.rand. cbn. unfold mbind, M_bind. cbn.
  rewrite Hv. cbn. rewrite En. cbn.
  rewrite u64_add_small by (unfold u64_max in *; lia).
  destruct (max + 1 =? 0) eqn:E; [lia|]. done.
Qed.

Lemma handle_requests_inv req res_chan w :
  inv (w_state w) -> inv (w_state (exec_world (handle_requests req res_chan w))).
Proof.
  intros Hi. destruct w as [s ans clk out]. simpl in Hi.
  destruct (SeedTheorems.get_seed_wf _ Hi) as (v & Hv & _).
  destruct req; try done. unfold handle_requests, DRand.new, DRand.rand, mbind, M_bind. cbn.
  rewrite Hv. cbn. pose proof (next_u64_range (seed_from_u64 v)) as Hr.
  destruct (next_u64 (seed_from_u64 v)) as [n g']. simpl in Hr.
  destruct (max +u64 1 =? 0); cbn; [done|]. by apply set_previous_seed_wf.
Qed.

(** The hashes that reach the service are well formed. *)
Definition msg_ok (msg : Msg.t A B C T) : Prop :=
  match msg with
  | Msg.UpdateSeedSource a b c => Hashes.wf a /\ Hashes.wf b /\ Hashes.wf c
  | _ => True
  end.
Definition comm_ok (c : Comm A B C T) : Prop :=
  match kind c with KMsg m => msg_ok m | KReq _ => True end.

(** What no communication changes *)
Definition network (s : t) : list Z * list Z :=
  (SeedSource.nonce (DRand.seed (drand s)), SeedSource.nw_name (DRand.seed (drand s))).

Definition preserved (w w' : world t (Effect A B C T) (Answer A B C T)) : Prop :=
  inv (w_state w) -> inv (w_state w') /\ network (w_state w') = network (w_state w).

#[local] Instance preserved_preorder : PreOrder preserved.
Proof.
  split; unfold preserved; [done|]. intros x y z Hxy Hyz Hx.
  destruct (Hxy Hx) as [Hy Ey]. destruct (Hyz Hy) as [Hz Ez]. split; [done|congruence].
Qed.

Lemma handle_messages_preserved msg : msg_ok msg -> rel preserved (handle_messages msg).
Proof.
  intros Hm w Hi. destruct w as [s ans clk out]. simpl in *.
  destruct msg; try done. destruct Hm as (Ha & Hb & Hc). simpl. split; [|done].
  unfold inv, SeedSource.wf in *. simpl. destruct Hi as (_ & _ & _ & ? & ? & _).
  split_and!; try done; unfold is_u64, u64_max; lia.
Qed.

Lemma handle_requests_preserved req res_chan : rel preserved (handle_requests req res_chan).
Proof.
  intros w Hi. split; [by apply handle_requests_inv|].
  destruct w as [s ans clk out]. simpl in Hi.
  destruct (SeedTheorems.get_seed_wf _ Hi) as (v & Hv & _).
  destruct req; try done. unfold handle_requests, DRand.new, DRand.rand, mbind, M_bind. cbn.
  rewrite Hv. cbn. destruct (next_u64 (seed_from_u64 v)) as [n g].
  by destruct (max +u64 1 =? 0).
Qed.

Lemma step_preserved comm : comm_ok comm -> rel preserved (step comm).
Proof.
  destruct comm as [[m|r] rc]; unfold step, dispatch; simpl; intros Hc.
  - by apply handle_messages_preserved.
  - destruct rc; [apply handle_requests_preserved|apply rel_ret; typeclasses eauto].
Qed.

Lemma run_preserved comms : Forall comm_ok comms -> rel preserved (run comms).
Proof.
  rewrite Forall_forall. intros Hc. apply rel_for_each; [typeclasses eauto|].
  intros c Hin. by apply step_preserved, Hc.
Qed.

(** ** Leaders can be drawn alike

    The nodes of a network draw the same numbers: whatever two services have
    processed before (other draws included), if their seed sources share the nonce
    and the network name, then after the same [UpdateSeedSource] a [GetDRandNum] is
    answered by both, with the same number, in [0..=max]. *)
Theorem draws_agree id1 id2 src1 src2 s1 s2 hist1 hist2 w1 w2 a b c max from :
  SeedSource.wf src1 -> SeedSource.wf src2 ->
  SeedSource.nonce src1 = SeedSource.nonce src2 ->
  SeedSource.nw_name src1 = SeedSource.nw_name src2 ->
  start id1 src1 = Some s1 -> start id2 src2 = Some s2 ->
  Forall comm_ok hist1 -> Forall comm_ok hist2 ->
  run hist1 (World s1 [] (0, []) []) = Ret tt w1 ->
  run hist2 (World s2 [] (0, []) []) = Ret tt w2 ->
  Hashes.wf a -> Hashes.wf b -> Hashes.wf c -> 0 <= max < u64_max ->
  let last := [MkComm (KMsg (Msg.UpdateSeedSource a b c)) None;
               MkComm (KReq (Req.GetDRandNum max)) (Some from)] in
  exists n w1' w2', 0 <= n <= max /\
    run last w1 = Ret tt w1' /\ w_out w1' = w_out w1 ++ [Replied from (Res.GetDRandNum n)] /\
    run last w2 = Ret tt w2' /\ w_out w2' = w_out w2 ++ [Replied from (Res.GetDRandNum n)].
Proof.
  intros Hw1 Hw2 Hn Hnw Hs1 Hs2 Hh1 Hh2 Hr1 Hr2 Ha Hb Hc Hmax last.
  destruct (start_inv id1 src1 Hw1) as (s1' & Es1 & Hi1 & Hd1).
  rewrite Hs1 in Es1. injection Es1 as <-.
  destruct (start_inv id2 src2 Hw2) as (s2' & Es2 & Hi2 & Hd2).
  rewrite Hs2 in Es2. injection Es2 as <-.
  pose proof (run_preserved _ Hh1 (World s1 [] (0, []) []) Hi1) as [Hj1 Hk1].
  pose proof (run_preserved _ Hh2 (World s2 [] (0, []) []) Hi2) as [Hj2 Hk2].
  rewrite Hr1 in Hj1, Hk1. rewrite Hr2 in Hj2, Hk2. simpl in *.
  assert (Hnet : network (w_state w1) = network (w_state w2)).
  { rewrite Hk1, Hk2. unfold network. by rewrite Hd1, Hd2, Hn, Hnw. }
  clear Hr1 Hr2 Hk1 Hk2 Hi1 Hi2 Hs1 Hs2 Hn Hnw Hw1 Hw2 Hh1 Hh2 Hd1 Hd2.
  destruct w1 as [t1 ans1 clk1 out1], w2 as [t2 ans2 clk2 out2]. simpl in *.
  unfold last, run, run_loop, step, dispatch. simpl.
  set (u1 := set_drand (DRand.update_seed_source a b c (drand t1)) t1).
  set (u2 := set_drand (DRand.update_seed_source a b c (drand t2)) t2).
  assert (Hu : DRand.seed (drand u1) = DRand.seed (drand u2)).
  { unfold network in Hnet. injection Hnet as E1 E2. simpl. congruence. }
  assert (Hu1 : inv u1).
  { by destruct (handle_messages_preserved (Msg.UpdateSeedSource a b c) (conj Ha (conj Hb Hc))
                   (World t1 [] (0, []) []) Hj1). }
  assert (Hu2 : inv u2).
  { by destruct (handle_messages_preserved (Msg.UpdateSeedSource a b c) (conj Ha (conj Hb Hc))
                   (World t2 [] (0, []) []) Hj2). }
  destruct (get_drand_num_run u1 max from ans1 clk1 out1 Hu1 Hmax) as (v1 & n1 & g1 & Ev1 & En1 & R1).
  destruct (get_drand_num_run u2 max from ans2 clk2 out2 Hu2 Hmax) as (v2 & n2 & g2 & Ev2 & En2 & R2).
  rewrite Hu in Ev1. assert (v1 = v2) as -> by congruence.
  assert ((n1, g1) = (n2, g2)) as [= -> ->] by congruence.
  exists (n2 mod (max + 1)). unfold mbind, M_bind. simpl.
  fold u1 u2. unfold handle_requests, mbind, M_bind in R1, R2. simpl in R1, R2.
  rewrite R1, R2. do 2 eexists. split_and!; try done.
  - apply Z.mod_pos_bound. lia.
  - pose proof (Z.mod_pos_bound n2 (max + 1)). lia.
Qed.

(** The largest request does not draw: [max + 1] wraps around to 0 and the service
    panics on the division. *)
Theorem draw_max_panics s from w :
  inv s -> w_state w = s -> panicked (handle_requests (Req.GetDRandNum u64_max) from w) = true.
Proof.
  intros Hs <-. destruct w as [s ans clk out]. simpl in *.
  destruct (SeedTheorems.get_seed_wf _ Hs) as (v & Hv & _).
  unfold handle_requests, DRand.new, DRand.rand, mbind, M_bind. cbn. rewrite Hv. cbn.
  by destruct (next_u64 (seed_from_u64 v)).
Qed.
End service.

(** ** Witnesses *)
#[local] Existing Instance Samples.pcg.

Definition sample (id : string) : t :=
  match start id Samples.seed_source with
  | Some s => s
  | None => Mk (DRand.Mk (seed_from_u64 0) Samples.seed_source) id
  end.

Definition sample_run (id : string) (comms : list (Comm unit unit unit unit)) :
    world t (Effect unit unit unit unit) (Answer unit unit unit unit) :=
  exec_world (run comms (World (sample id) [] (0, []) [])).

(** Two nodes of the sample network, one of which has already drawn a number *)
Lemma draws_agree_witness :
  exists n (w1' w2' : world t (Effect unit unit unit unit) (Answer unit unit unit unit)),
    0 <= n <= 5 /\ w_out w1' = [Replied ConsensusService (Res.GetDRandNum n)] /\
    w_out w2' = [Replied NodeInterface (Res.GetDRandNum 0); Replied ConsensusService (Res.GetDRandNum n)].
Proof.
  destruct (draws_agree (A := unit) (B := unit) (C := unit) (T := unit) "a" "b"
    Samples.seed_source Samples.seed_source (sample "a") (sample "b")
    [] [MkComm (KReq (Req.GetDRandNum 0)) (Some NodeInterface)]
    (sample_run "a" []) (sample_run "b" [MkComm (KReq (Req.GetDRandNum 0)) (Some NodeInterface)])
    (Samples.hash 4) (Samples.hash 5) (Samples.hash 6) 5 ConsensusService)
    as (n & w1' & w2' & Hn & _ & H1 & _ & H2).
  all: try apply Samples.seed_source_wf; try reflexivity; try (apply Samples.hash_wf; by unfold is_u8, u8_max).
  - constructor.
  - by repeat constructor.
  - by unfold u64_max.
  - exists n, w1', w2'. split_and!; try lia; [exact H1|exact H2].
Defined.

Lemma draw_max_panics_witness :
  panicked (handle_requests (A := unit) (B := unit) (C := unit) (T := unit)
    (Req.GetDRandNum u64_max) ConsensusService (World (sample "a") [] (0, []) [])) = true.
Proof.
  apply (draw_max_panics (sample "a")); [|reflexivity]. exact Samples.seed_source_wf.
Defined.
End DRandService.
