(* ===== verification/TransactionService.v ===== *)
(** * The transaction service ([trinci-core-new/src/services/transaction_service.rs])

    It keeps the pool of unconfirmed transactions, tells the block service when
    there is something to build a block from, hands the transactions of a block to
    the node for execution and has old transactions propagated again. *)

From stdpp Require Import base gmap strings list fin_maps.
From S2P Require Import Prelude Exec Hash Crypto CoreModels Samples Messages.
Open Scope Z_scope.

Module TransactionService.
Section service.
Context `{Hring : Ring} {A B C T : Type} `{HcA : Countable A} `{!Executable B, !Transactable T}.
Context `{!HashMapIter Hash}.

Record t : Type := Mk {
  alignment_in_progress : bool;
  build_in_progress : bool;
  node_id : string;
  old_collector : list (Hash * Z);
  unconfirmed_pool : gmap Hash (T * Z * option (list A));
  unconfirmed_pool_attachments : gset A
}.

Abbreviation h := (handler A B C T t).

Definition set_alignment_in_progress (b : bool) (s : t) : t :=
  Mk b (build_in_progress s) (node_id s) (old_collector s) (unconfirmed_pool s) (unconfirmed_pool_attachments s).
Definition set_build_in_progress (b : bool) (s : t) : t :=
  Mk (alignment_in_progress s) b (node_id s) (old_collector s) (unconfirmed_pool s) (unconfirmed_pool_attachments s).
Definition set_old_collector (c : list (Hash * Z)) (s : t) : t :=
  Mk (alignment_in_progress s) (build_in_progress s) (node_id s) c (unconfirmed_pool s) (unconfirmed_pool_attachments s).
Definition set_unconfirmed_pool (p : gmap Hash (T * Z * option (list A))) (s : t) : t :=
  Mk (alignment_in_progress s) (build_in_progress s) (node_id s) (old_collector s) p (unconfirmed_pool_attachments s).
Definition set_attachments (a : gset A) (s : t) : t :=
  Mk (alignment_in_progress s) (build_in_progress s) (node_id s) (old_collector s) (unconfirmed_pool s) a.

(** ** Operations *)

Definition insert_in_pool (tx : T) (tx_size : Z) (attachments : option (list A)) :
    h (option (T * Z * option (list A))) :=
  let tx_hash := tx_get_hash tx in
  match attachments with
  | Some attachments =>
      for_each attachments (fun a =>
        modify (fun s => set_attachments ({[a]} ∪ unconfirmed_pool_attachments s) s))
  | None => mret tt
  end ;;
  pool ← gets unconfirmed_pool;
  modify (set_unconfirmed_pool (<[tx_hash := (tx, tx_size, attachments)]> pool)) ;;
  mret (pool !! tx_hash).

Definition remove_from_pool (tx_hash : Hash) : h (option (T * Z * option (list A))) :=
  pool ← gets unconfirmed_pool;
  let removed := pool !! tx_hash in
  modify (set_unconfirmed_pool (delete tx_hash pool)) ;;
  match removed with
  | Some (_, _, Some attachments) =>
      for_each attachments (fun a =>
        modify (fun s => set_attachments (unconfirmed_pool_attachments s ∖ {[a]}) s))
  | _ => mret tt
  end ;;
  mret removed.

Definition check_whether_to_build_block : h unit :=
  aligning ← gets alignment_in_progress;
  if (aligning : bool) then mret tt
  else
    pool ← gets unconfirmed_pool;
    when (map_len pool =? 1) (send_msg BlockService Msg.StartTimerToBuildBlock) ;;
    building ← gets build_in_progress;
    when ((Consts.MIN_TXS_TO_BUILD <=? map_len pool) && negb building)
      (modify (set_build_in_progress true) ;; send_msg BlockService Msg.BuildBlock).

(** ** [handle_messages], an arm at a time *)

(** [AddTx], and the body of the loop of [AddTxs] *)
Definition on_add_tx (entry : T * Z * option (list A)) : h unit :=
  let '(tx, tx_size, attachments) := entry in
  if negb (tx_verify tx) then mret tt
  else
    let tx_hash := tx_get_hash tx in
    old ← insert_in_pool tx tx_size attachments;
    match old with
    | None =>
        now ← timestamp;
        modify (fun s => set_old_collector (old_collector s ++ [(tx_hash, now)]) s) ;;
        check_whether_to_build_block
    | Some _ => mret tt
    end.

Definition on_add_txs (txs : list (T * Z * option (list A))) : h unit := for_each txs on_add_tx.

Definition on_block_consolidated (txs_hashes : list Hash) : h unit :=
  for_each txs_hashes (fun tx_hash =>
    remove_from_pool tx_hash ;;
    modify (fun s => set_old_collector
      (List.filter (fun '(hash, _) => negb (bool_decide (hash = tx_hash))) (old_collector s)) s)) ;;
  modify (set_build_in_progress false) ;;
  pool ← gets unconfirmed_pool;
  if negb (map_len pool =? 0) && (map_len pool <? Consts.MIN_TXS_TO_BUILD) then
    send_msg BlockService Msg.StartTimerToBuildBlock
  else check_whether_to_build_block.

(** The loop that collects the transactions of a block; a missing one is a panic. *)
Fixpoint collect_txs (pool : gmap Hash (T * Z * option (list A))) (txs_hashes : list Hash)
    (txs_collector : list T) : h (list T) :=
  match txs_hashes with
  | [] => mret txs_collector
  | tx_hash :: txs_hashes =>
      tx ← expect ((fun e => fst (fst e)) <$> pool !! tx_hash);
      collect_txs pool txs_hashes (txs_collector ++ [tx])
  end.

Definition on_collect_block_txs (block : B) (round : Z) (txs_hashes : list Hash) : h unit :=
  pool ← gets unconfirmed_pool;
  txs_collector ← collect_txs pool txs_hashes [];
  send_msg NodeInterface (Msg.ExecuteBlock block round txs_collector).

(** The first [filter_map] of [CheckOldTxs]: the entries that are due, and the collector
    with their ages refreshed *)
Definition is_due (now : Z) (entry : Hash * Z) : bool :=
  Consts.REPROPAGATE_OLD_TXS_S <=? now -u64 snd entry.
Definition due_hashes (now : Z) (c : list (Hash * Z)) : list Hash := map fst (List.filter (is_due now) c).
Definition refresh (now : Z) (c : list (Hash * Z)) : list (Hash * Z) :=
  map (fun entry => if is_due now entry then (fst entry, now) else entry) c.

Definition on_check_old_txs : h unit :=
  aligning ← gets alignment_in_progress;
  if (aligning : bool) then mret tt
  else
    now ← timestamp;
    s ← get_state;
    let txs := omap (fun hash => (fun e => fst (fst e)) <$> unconfirmed_pool s !! hash)
                    (due_hashes now (old_collector s)) in
    modify (set_old_collector (refresh now (old_collector s))) ;;
    match txs with
    | [] => mret tt
    | _ => send_msg NodeInterface (Msg.PropagateOldTxs txs)
    end.

Definition handle_messages (msg : Msg.t A B C T) : h unit :=
  match msg with
  | Msg.AddTx entry => on_add_tx entry
  | Msg.AddTxs txs => on_add_txs txs
  | Msg.AlignmentEnded => modify (set_alignment_in_progress false)
  | Msg.AlignmentStarted => modify (set_alignment_in_progress true)
  | Msg.BlockConsolidated _ txs_hashes _ => on_block_consolidated txs_hashes
  | Msg.CollectBlockTxs block round txs_hashes => on_collect_block_txs block round txs_hashes
  | Msg.CheckOldTxs => on_check_old_txs
  | _ => mret tt
  end.

(** ** [handle_requests] *)
Definition handle_requests (req : Req.t) (res_chan : Service) : h unit :=
  match req with
  | Req.GetPoolLength =>
      pool ← gets unconfirmed_pool;
      send_res res_chan (Res.GetPoolLength (map_len pool))
  | Req.GetTxs txs_hashes =>
      pool ← gets unconfirmed_pool;
      send_res res_chan (Res.GetTxs (omap (fun tx_hash => pool !! tx_hash) txs_hashes))
  | Req.GetUnconfirmedHashes =>
      pool ← gets unconfirmed_pool;
      send_res res_chan (Res.GetUnconfirmedHashes
        (map (fun '(hash, (_, size, _)) => (hash, size)) (map_iter pool)))
  | _ => mret tt
  end.

Definition step : Comm A B C T -> h unit := dispatch handle_messages handle_requests.
Definition run : list (Comm A B C T) -> h unit := run_loop step.

(** One turn of the endless loop of the thread that [start] spawns *)
Definition check_old_txs_loop : h unit :=
  sleep_s Consts.CHECK_OLD_TXS_S ;; send_msg TransactionService Msg.CheckOldTxs.

Definition initial (node_id : string) : t := Mk false false node_id [] ∅ ∅.

(** [start], then the communications it receives *)
Definition start (comms : list (Comm A B C T)) : h unit := spawn CheckOldTxsLoop ;; run comms.

(** ** What the operations do, as state transformers *)

Definition inserted (entry : T * Z * option (list A)) (s : t) : t :=
  let '(tx, tx_size, attachments) := entry in
  Mk (alignment_in_progress s) (build_in_progress s) (node_id s) (old_collector s)
     (<[tx_get_hash tx := (tx, tx_size, attachments)]> (unconfirmed_pool s))
     (fold_left (fun set a => {[a]} ∪ set) (from_option id [] attachments) (unconfirmed_pool_attachments s)).

Definition removed (tx_hash : Hash) (s : t) : t :=
  Mk (alignment_in_progress s) (build_in_progress s) (node_id s) (old_collector s)
     (delete tx_hash (unconfirmed_pool s))
     (fold_left (fun set a => set ∖ {[a]})
        (match unconfirmed_pool s !! tx_hash with Some (_, _, Some l) => l | _ => [] end)
        (unconfirmed_pool_attachments s)).

Definition forgotten (tx_hash : Hash) (s : t) : t :=
  set_old_collector
    (List.filter (fun '(hash, _) => negb (bool_decide (hash = tx_hash))) (old_collector s)) (removed tx_hash s).

Lemma fold_attachments (op : gset A -> A -> gset A) l s :
  fold_left (fun s a => set_attachments (op (unconfirmed_pool_attachments s) a) s) l s =
  set_attachments (fold_left op l (unconfirmed_pool_attachments s)) s.
Proof. revert s. induction l as [|a l IH]; intros s; simpl; [by destruct s|]. by rewrite IH. Qed.

Lemma insert_in_pool_eq tx sz att (w : world t (Effect A B C T) (Answer A B C T)) :
  insert_in_pool tx sz att w =
  Ret (unconfirmed_pool (w_state w) !! tx_get_hash tx) (upd (inserted (tx, sz, att)) w).
Proof.
  destruct w as [s ans clk out]. unfold insert_in_pool. rewrite bind_eq.
  destruct att as [l|]; simpl.
  - rewrite for_each_modify. unfold upd at 1. simpl.
    by rewrite (fold_attachments (fun set a => {[a]} ∪ set)).
  - by destruct s.
Qed.

Lemma remove_from_pool_eq tx_hash (w : world t (Effect A B C T) (Answer A B C T)) :
  remove_from_pool tx_hash w =
  Ret (unconfirmed_pool (w_state w) !! tx_hash) (upd (removed tx_hash) w).
Proof.
  destruct w as [s ans clk out]. unfold remove_from_pool. rewrite bind_eq. simpl. rewrite bind_eq. simpl.
  unfold removed, upd. simpl.
  destruct (unconfirmed_pool s !! tx_hash) as [[[tx sz] [l|]]|]; rewrite bind_eq; simpl; [|done|done].
  rewrite for_each_modify. unfold upd. simpl.
  by rewrite (fold_attachments (fun set a => set ∖ {[a]})).
Qed.

Definition wants_timer (s : t) : bool :=
  negb (alignment_in_progress s) && (map_len (unconfirmed_pool s) =? 1).
Definition wants_build (s : t) : bool :=
  negb (alignment_in_progress s) && (Consts.MIN_TXS_TO_BUILD <=? map_len (unconfirmed_pool s)) &&
  negb (build_in_progress s).

Definition timer_msg : Effect A B C T := Sent BlockService (MkComm (KMsg Msg.StartTimerToBuildBlock) None).
Definition build_msg : Effect A B C T := Sent BlockService (MkComm (KMsg Msg.BuildBlock) None).

Lemma check_whether_to_build_block_eq (w : world t (Effect A B C T) (Answer A B C T)) :
  check_whether_to_build_block w =
  Ret tt (outs ((if wants_timer (w_state w) then [timer_msg] else []) ++
                (if wants_build (w_state w) then [build_msg] else []))
               (upd (fun s => if wants_build s then set_build_in_progress true s else s) w)).
Proof.
  destruct w as [s ans clk out]. unfold check_whether_to_build_block, wants_timer, wants_build, outs, upd.
  rewrite bind_eq. simpl. destruct (alignment_in_progress s); simpl; [by rewrite app_nil_r|].
  unfold mbind, M_bind, send_msg, emit. simpl. destruct (map_len (unconfirmed_pool s) =? 1); simpl.
  - destruct ((Consts.MIN_TXS_TO_BUILD <=? map_len (unconfirmed_pool s)) && negb (build_in_progress s));
      simpl; [by rewrite <- app_assoc|done].
  - by destruct ((Consts.MIN_TXS_TO_BUILD <=? map_len (unconfirmed_pool s)) && negb (build_in_progress s));
      simpl; rewrite ?app_nil_r.
Qed.

Lemma on_add_tx_eq tx sz att (w : world t (Effect A B C T) (Answer A B C T)) :
  on_add_tx (tx, sz, att) w =
  if negb (tx_verify tx) then Ret tt w
  else
    match unconfirmed_pool (w_state w) !! tx_get_hash tx with
    | Some _ => Ret tt (upd (inserted (tx, sz, att)) w)
    | None => check_whether_to_build_block
        (upd (fun s => set_old_collector (old_collector s ++ [(tx_get_hash tx, now w)]) s)
             (tick (upd (inserted (tx, sz, att)) w)))
    end.
Proof.
  unfold on_add_tx. destruct (negb (tx_verify tx)); [done|].
  rewrite bind_eq, insert_in_pool_eq. destruct (_ !! _); [done|].
  by rewrite bind_eq, timestamp_eq, bind_eq, modify_eq.
Qed.

Lemma forget_eq tx_hash (w : world t (Effect A B C T) (Answer A B C T)) :
  (remove_from_pool tx_hash ;;
   modify (fun s => set_old_collector
     (List.filter (fun '(hash, _) => negb (bool_decide (hash = tx_hash))) (old_collector s)) s)) w =
  Ret tt (upd (forgotten tx_hash) w).
Proof. by rewrite bind_eq, remove_from_pool_eq. Qed.

Lemma on_block_consolidated_eq hashes (w : world t (Effect A B C T) (Answer A B C T)) :
  on_block_consolidated hashes w =
  let w' := upd (fun s => set_build_in_progress false (fold_left (fun s x => forgotten x s) hashes s)) w in
  if negb (map_len (unconfirmed_pool (w_state w')) =? 0) &&
     (map_len (unconfirmed_pool (w_state w')) <? Consts.MIN_TXS_TO_BUILD)
  then Ret tt (outs [timer_msg] w')
  else check_whether_to_build_block w'.
Proof.
  unfold on_block_consolidated.
  rewrite bind_eq, (for_each_upd _ _ forgotten) by (intros; apply forget_eq).
  rewrite bind_eq, modify_eq, bind_eq. simpl. by destruct (_ && _).
Qed.

Lemma collect_txs_eq pool hashes acc (w : world t (Effect A B C T) (Answer A B C T)) :
  collect_txs pool hashes acc w =
  match mapM (fun x => (fun e => fst (fst e)) <$> pool !! x) hashes with
  | Some txs => Ret (acc ++ txs) w
  | None => Panic w
  end.
Proof.
  revert acc. induction hashes as [|x hashes IH]; intros acc; simpl; [by rewrite app_nil_r|].
  rewrite bind_eq. destruct (pool !! x) as [e|]; simpl; [|done]. rewrite IH.
  destruct (mapM _ hashes); simpl; [by rewrite <- app_assoc|done].
Qed.

(** ** The invariant

    The pool is keyed by the hashes of verified transactions, and the collector of old
    transactions lists exactly those of the pool, once each. *)
Record inv (s : t) : Prop := {
  inv_pool : forall x e, unconfirmed_pool s !! x = Some e ->
    tx_get_hash (fst (fst e)) = x /\ tx_verify (fst (fst e)) = true;
  inv_collector : forall x, x ∈ map fst (old_collector s) <-> is_Some (unconfirmed_pool s !! x);
  inv_nodup : NoDup (map fst (old_collector s))
}.

Lemma inserted_again_inv tx sz att s :
  inv s -> tx_verify tx = true -> is_Some (unconfirmed_pool s !! tx_get_hash tx) ->
  inv (inserted (tx, sz, att) s).
Proof.
  intros [Hp Hc Hn] Hv Hin. split; simpl; [|intros x|done].
  - intros x e [[<- <-]|[_ He]]%lookup_insert_Some; [done|by apply Hp].
  - rewrite Hc, lookup_insert_is_Some'. split; [by right|]. by intros [<-|?].
Qed.

Lemma inserted_new_inv tx sz att s n :
  inv s -> tx_verify tx = true -> unconfirmed_pool s !! tx_get_hash tx = None ->
  inv (set_old_collector (old_collector s ++ [(tx_get_hash tx, n)]) (inserted (tx, sz, att) s)).
Proof.
  intros [Hp Hc Hn] Hv Hni. split; simpl.
  - intros x e [[<- <-]|[_ He]]%lookup_insert_Some; [done|by apply Hp].
  - intros x. rewrite map_app, elem_of_app, Hc, lookup_insert_is_Some'. simpl.
    rewrite list_elem_of_singleton. split; (intros [?|?]; [by right|by left]).
  - rewrite map_app. apply NoDup_app. split_and!; [done| |apply NoDup_singleton].
    intros x Hx ->%list_elem_of_singleton. apply Hc in Hx as [e He]. simpl in He. congruence.
Qed.

Lemma map_fst_filter_ne x (c : list (Hash * Z)) :
  map fst (List.filter (fun '(hash, _) => negb (bool_decide (hash = x))) c) =
  List.filter (fun hash => negb (bool_decide (hash = x))) (map fst c).
Proof.
  induction c as [|[y n] c IH]; simpl; [done|]. rewrite <- IH. by destruct (bool_decide (y = x)).
Qed.

Lemma forgotten_inv x s : inv s -> inv (forgotten x s).
Proof.
  intros [Hp Hc Hn]. split; simpl.
  - intros y e [_ He]%lookup_delete_Some. by apply Hp.
  - intros y. rewrite map_fst_filter_ne, elem_of_filter_list, Hc, lookup_delete_is_Some.
    rewrite negb_true_iff, bool_decide_eq_false. split; intros [? ?]; auto.
  - rewrite map_fst_filter_ne. by apply NoDup_ListNoDup, List.NoDup_filter, NoDup_ListNoDup.
Qed.

Lemma forgotten_all_inv hashes s : inv s -> inv (fold_left (fun s x => forgotten x s) hashes s).
Proof.
  revert s. induction hashes as [|x l IH]; intros s Hs; simpl; [done|]. by apply IH, forgotten_inv.
Qed.

Lemma set_build_inv b s : inv s -> inv (set_build_in_progress b s).
Proof. by intros []. Qed.

Lemma map_fst_refresh n c : map fst (refresh n c) = map fst c.
Proof. unfold refresh. induction c as [|e c IH]; simpl; [done|]. rewrite IH. by destruct (is_due n e). Qed.

Lemma check_whether_keeps : rel (E := Effect A B C T) (R := Answer A B C T) (keeps inv) check_whether_to_build_block.
Proof.
  intros w Hw. rewrite check_whether_to_build_block_eq. simpl.
  destruct (wants_build (w_state w)); [by apply set_build_inv|done].
Qed.

Lemma on_add_tx_keeps entry : rel (E := Effect A B C T) (R := Answer A B C T) (keeps inv) (on_add_tx entry).
Proof.
  destruct entry as [[tx sz] att]. intros w Hw. rewrite on_add_tx_eq.
  destruct (tx_verify tx) eqn:Hv; simpl; [|done].
  destruct (unconfirmed_pool (w_state w) !! tx_get_hash tx) eqn:Hl.
  - simpl. apply inserted_again_inv; eauto.
  - apply check_whether_keeps. simpl. by apply inserted_new_inv.
Qed.

Lemma collect_txs_state pool hashes acc :
  rel (E := Effect A B C T) (R := Answer A B C T) (same_proj (fun s : t => s)) (collect_txs pool hashes acc).
Proof. intros w. rewrite collect_txs_eq. by destruct (mapM _ hashes). Qed.

Lemma on_check_old_txs_keeps : rel (E := Effect A B C T) (R := Answer A B C T) (keeps inv) on_check_old_txs.
Proof.
  intros w Hw. unfold on_check_old_txs. rewrite bind_eq. simpl.
  destruct (alignment_in_progress (w_state w)); [done|].
  rewrite bind_eq, timestamp_eq, bind_eq. simpl. rewrite bind_eq, modify_eq.
  assert (Hi : inv (set_old_collector (refresh (now w) (old_collector (w_state w))) (w_state w))).
  { destruct Hw as [Hp Hc Hn]. split; simpl; [done| |by rewrite map_fst_refresh].
    intros x. by rewrite map_fst_refresh. }
  by destruct (omap _ _).
Qed.

Lemma handle_messages_keeps msg : rel (keeps inv) (handle_messages msg).
Proof.
  destruct msg; simpl; try (apply rel_ret; typeclasses eauto).
  - apply on_add_tx_keeps.
  - apply rel_for_each; [typeclasses eauto|]. intros ? _. apply on_add_tx_keeps.
  - intros w [Hp Hc Hn]. by split.
  - intros w [Hp Hc Hn]. by split.
  - intros w Hw. rewrite on_block_consolidated_eq. cbv zeta. destruct (_ && _).
    + simpl. by apply set_build_inv, forgotten_all_inv.
    + apply check_whether_keeps. simpl. by apply set_build_inv, forgotten_all_inv.
  - apply on_check_old_txs_keeps.
  - apply rel_same_keeps. unfold on_collect_block_txs. apply rel_bind; [typeclasses eauto|frames|].
    intros pool. apply rel_bind; [typeclasses eauto|apply collect_txs_state|]. intros. frames.
Qed.

Lemma handle_requests_same req res_chan :
  rel (same_proj (fun s => s)) (handle_requests req res_chan).
Proof. unfold handle_requests. destruct req; frames. Qed.

Lemma step_keeps comm : rel (keeps inv) (step comm).
Proof.
  unfold step, dispatch. destruct (kind comm); [apply handle_messages_keeps|].
  destruct (res_chan comm); [apply rel_same_keeps, handle_requests_same|apply rel_ret; typeclasses eauto].
Qed.

Lemma initial_inv id : inv (initial id).
Proof. split; simpl; [done| |constructor]. intros x. split; [by intros ?%not_elem_of_nil|by intros []]. Qed.

(** ** At most one [BuildBlock] per block *)

Definition is_build (e : Effect A B C T) : bool :=
  match e with Sent BlockService (MkComm (KMsg Msg.BuildBlock) None) => true | _ => false end.
Definition builds (es : list (Effect A B C T)) : Z := len (List.filter is_build es).
(** The right to send one *)
Definition token (s : t) : Z := if build_in_progress s then 0 else 1.

Definition conserves (w w' : world t (Effect A B C T) (Answer A B C T)) : Prop :=
  builds (w_out w') + token (w_state w') = builds (w_out w) + token (w_state w).

#[local] Instance conserves_preorder : PreOrder conserves.
Proof. split; unfold conserves; [by intros x|]. intros x y z. congruence. Qed.

Lemma builds_app es es' : builds (es ++ es') = builds es + builds es'.
Proof. unfold builds. by rewrite List.filter_app, len_app. Qed.

Lemma emit_conserves e : is_build e = false -> rel conserves (emit e).
Proof.
  intros He w. unfold conserves. simpl. rewrite builds_app. unfold builds at 2. simpl. rewrite He.
  unfold len. simpl. lia.
Qed.

Lemma modify_conserves f : (forall s, build_in_progress (f s) = build_in_progress s) -> rel conserves (modify f).
Proof. intros Hf w. unfold conserves, token. simpl. by rewrite Hf. Qed.

Lemma check_whether_conserves : rel conserves check_whether_to_build_block.
Proof.
  intros w. rewrite check_whether_to_build_block_eq. unfold conserves. simpl.
  rewrite !builds_app.
  assert (Ht : builds (if wants_timer (w_state w) then [timer_msg] else []) = 0) by by case_match.
  rewrite Ht. destruct (wants_build (w_state w)) eqn:Hw; simpl.
  - unfold wants_build in Hw. apply andb_prop in Hw as [_ Hw].
    unfold token. simpl. destruct (build_in_progress (w_state w)); [done|].
    unfold builds, len. simpl. lia.
  - unfold builds, len. simpl. lia.
Qed.

Lemma on_add_tx_conserves entry : rel conserves (on_add_tx entry).
Proof.
  destruct entry as [[tx sz] att]. intros w. rewrite on_add_tx_eq.
  destruct (negb (tx_verify tx)); [done|]. destruct (_ !! _); [by destruct w|].
  pose proof (check_whether_conserves
    (upd (fun s => set_old_collector (old_collector s ++ [(tx_get_hash tx, now w)]) s)
       (tick (upd (inserted (tx, sz, att)) w)))) as H. exact H.
Qed.

Definition is_block_consolidated (c : Comm A B C T) : bool :=
  match kind c with KMsg (Msg.BlockConsolidated _ _ _) => true | _ => false end.

Lemma step_conserves comm : is_block_consolidated comm = false -> rel conserves (step comm).
Proof.
  unfold is_block_consolidated, step, dispatch. destruct (kind comm) as [m|r]; intros Hc.
  - destruct m; try discriminate; simpl; try (apply rel_ret; typeclasses eauto);
      try by apply modify_conserves.
    + apply on_add_tx_conserves.
    + apply rel_for_each; [typeclasses eauto|]. intros ? _. apply on_add_tx_conserves.
    + intros w. unfold on_check_old_txs. rewrite bind_eq. simpl.
      destruct (alignment_in_progress (w_state w)); [done|].
      rewrite bind_eq, timestamp_eq, bind_eq. simpl. rewrite bind_eq, modify_eq.
      destruct (omap _ _) as [|x l]; [done|].
      exact (emit_conserves (Sent NodeInterface (MkComm (KMsg (Msg.PropagateOldTxs (x :: l))) None)) eq_refl
        (upd (set_old_collector (refresh (now w) (old_collector (w_state w)))) (tick w))).
    + intros w. unfold on_collect_block_txs. rewrite bind_eq. simpl. rewrite bind_eq, collect_txs_eq.
      destruct (mapM _ _); [by apply emit_conserves|done].
  - destruct (res_chan comm); [|apply rel_ret; typeclasses eauto].
    destruct r; simpl; try (apply rel_ret; typeclasses eauto);
      (apply rel_bind; [typeclasses eauto|apply rel_gets; typeclasses eauto|]); intros ?;
      by apply emit_conserves.
Qed.

(** ** Theorems *)

Lemma start_pool_invariant_aux id comms ans clk out :
  inv (w_state (exec_world (start comms (World (initial id) ans clk out)))).
Proof.
  assert (Hk : rel (keeps inv) (start comms)).
  { apply rel_bind; [typeclasses eauto|apply rel_same_keeps; frames|]. intros _.
    apply rel_for_each; [typeclasses eauto|]. intros c _. apply step_keeps. }
  apply Hk, initial_inv.
Qed.

(** C10: from its start, whatever the service receives, its pool is keyed by the hashes
    of verified transactions and the collector of old transactions holds exactly the
    hashes of the pool, once each. *)
Theorem start_pool_invariant id comms ans clk out :
  inv (w_state (exec_world (start comms (World (initial id) ans clk out)))).
Proof. apply start_pool_invariant_aux. Qed.

(** C11: between two consolidated blocks the service tells the block service to build at
    most once: whatever it receives, the [BuildBlock] messages sent and the right to
    send one add up to the same. *)
Theorem build_block_once comms w :
  forallb (fun c => negb (is_block_consolidated c)) comms = true ->
  builds (w_out (exec_world (run comms w))) + token (w_state (exec_world (run comms w))) =
  builds (w_out w) + token (w_state w).
Proof.
  intros Hc. rewrite forallb_elem in Hc.
  assert (H : rel conserves (run comms)); [|exact (H w)].
  apply rel_for_each; [typeclasses eauto|]. intros c Hin.
  apply step_conserves. by apply negb_true_iff, Hc.
Qed.

Lemma mapM_lookup_some (pool : gmap Hash (T * Z * option (list A))) hashes :
  (forall x, x ∈ hashes -> is_Some (pool !! x)) ->
  exists es, mapM (fun x => (fun e => fst (fst e)) <$> pool !! x) hashes = Some (map (fun e => fst (fst e)) es) /\
    Forall2 (fun x e => pool !! x = Some e) hashes es.
Proof.
  induction hashes as [|x hashes IH]; intros H; simpl; [by exists []|].
  destruct (H x) as [e He]; [left|]. destruct IH as (es & Hes & Hf); [by intros y Hy; apply H; right|].
  exists (e :: es). rewrite He. simpl. rewrite Hes. simpl. split; [done|by constructor].
Qed.

Lemma mapM_lookup_none (pool : gmap Hash (T * Z * option (list A))) hashes x :
  x ∈ hashes -> pool !! x = None ->
  mapM (fun x => (fun e => fst (fst e)) <$> pool !! x) hashes = None.
Proof.
  intros Hx Hp. induction Hx as [x hashes|x y hashes _ IH]; simpl.
  - by rewrite Hp.
  - rewrite IH by done. by destruct (pool !! y).
Qed.

Lemma Forall2_pool_hashes s hashes es :
  inv s -> Forall2 (fun x e => unconfirmed_pool s !! x = Some e) hashes es ->
  map tx_get_hash (map (fun e => fst (fst e)) es) = hashes /\
  Forall (fun tx => tx_verify tx = true) (map (fun e => fst (fst e)) es).
Proof.
  intros Hi. induction 1 as [|x e hashes es He _ [IH1 IH2]]; simpl; [done|].
  destruct (inv_pool s Hi x e He) as [E1 E2]. split; [by rewrite E1, IH1|by constructor].
Qed.

(** [CollectBlockTxs] with the hashes of pooled transactions has the node execute the
    block with exactly these transactions, in the order of the hashes, all verified; with
    a hash that is not pooled the service panics. *)
Theorem collect_block_txs_spec block round hashes w :
  inv (w_state w) ->
  ((forall x, x ∈ hashes -> is_Some (unconfirmed_pool (w_state w) !! x)) ->
   exists txs, on_collect_block_txs block round hashes w =
       Ret tt (outs [Sent NodeInterface (MkComm (KMsg (Msg.ExecuteBlock block round txs)) None)] w) /\
     map tx_get_hash txs = hashes /\ Forall (fun tx => tx_verify tx = true) txs) /\
  (forall x, x ∈ hashes -> unconfirmed_pool (w_state w) !! x = None ->
   on_collect_block_txs block round hashes w = Panic w).
Proof.
  intros Hi. unfold on_collect_block_txs. rewrite bind_eq. simpl. rewrite bind_eq, collect_txs_eq. split.
  - intros Hall. destruct (mapM_lookup_some _ _ Hall) as (es & -> & Hes). simpl.
    destruct (Forall2_pool_hashes _ _ _ Hi Hes) as [E1 E2]. eexists. split_and!; done.
  - intros x Hx Hn. by rewrite (mapM_lookup_none _ _ _ Hx Hn).
Qed.

Lemma omap_due_hashes s n :
  inv s ->
  exists txs, omap (fun hash => (fun e => fst (fst e)) <$> unconfirmed_pool s !! hash)
                   (due_hashes n (old_collector s)) = txs /\
    map tx_get_hash txs = due_hashes n (old_collector s).
Proof.
  intros Hi. eexists. split; [done|].
  assert (Hall : forall x, x ∈ due_hashes n (old_collector s) -> is_Some (unconfirmed_pool s !! x)).
  { intros x Hx. apply (inv_collector s Hi). unfold due_hashes in Hx.
    apply list_elem_of_In, in_map_iff in Hx as (e & <- & He). apply filter_In in He as [He _].
    apply list_elem_of_In. by apply in_map. }
  induction (due_hashes n (old_collector s)) as [|x l IH]; simpl; [done|].
  destruct (Hall x) as [e He]; [left|]. rewrite He. simpl.
  f_equal; [by apply (inv_pool s Hi)|]. apply IH. intros y Hy. apply Hall. by right.
Qed.

Lemma due_hashes_refresh n c : due_hashes n (refresh n c) = [].
Proof.
  unfold due_hashes, refresh. induction c as [|[x age] c IH]; simpl; [done|].
  destruct (is_due n (x, age)) eqn:E; simpl.
  - unfold is_due at 1. simpl. rewrite u64_sub_small, Z.sub_diag by (unfold u64_max; lia). done.
  - by rewrite E.
Qed.

(** Out of an alignment, [CheckOldTxs] has the transactions that have waited sixty
    seconds or more propagated again, all of them and no other, in the order they
    came, and restarts their wait: checked again at the same time, nothing is sent. *)
Theorem check_old_txs_spec w :
  inv (w_state w) -> alignment_in_progress (w_state w) = false ->
  exists txs w', on_check_old_txs w = Ret tt w' /\
    map tx_get_hash txs = due_hashes (now w) (old_collector (w_state w)) /\
    w_out w' = w_out w ++
      match txs with [] => [] | _ => [Sent NodeInterface (MkComm (KMsg (Msg.PropagateOldTxs txs)) None)] end /\
    w_state w' = set_old_collector (refresh (now w) (old_collector (w_state w))) (w_state w) /\
    (now w' = now w -> w_out (exec_world (on_check_old_txs w')) = w_out w').
Proof.
  intros Hi Ha. destruct (omap_due_hashes _ (now w) Hi) as (txs & Ho & Hh).
  assert (Hrun : on_check_old_txs w = Ret tt (outs
      match txs with [] => [] | _ => [Sent NodeInterface (MkComm (KMsg (Msg.PropagateOldTxs txs)) None)] end
      (upd (set_old_collector (refresh (now w) (old_collector (w_state w)))) (tick w)))).
  { unfold on_check_old_txs. rewrite bind_eq. simpl. rewrite Ha, bind_eq, timestamp_eq, bind_eq. simpl.
    rewrite bind_eq, modify_eq, Ho. destruct txs; [|done]. unfold outs, upd. simpl. by rewrite app_nil_r. }
  exists txs. eexists. split_and!; [exact Hrun|done|done|done|]. intros Hn.
  unfold on_check_old_txs at 1. rewrite bind_eq. simpl. rewrite Ha, bind_eq, timestamp_eq, Hn, bind_eq. simpl.
  rewrite bind_eq, modify_eq, due_hashes_refresh. done.
Qed.

Lemma forgotten_pool x s : unconfirmed_pool (forgotten x s) = delete x (unconfirmed_pool s).
Proof. done. Qed.

Lemma forgotten_all_pool hashes s x :
  unconfirmed_pool (fold_left (fun s x => forgotten x s) hashes s) !! x =
  if bool_decide (x ∈ hashes) then None else unconfirmed_pool s !! x.
Proof.
  revert s. induction hashes as [|y l IH]; intros s; cbn [fold_left].
  { by rewrite bool_decide_false by apply not_elem_of_nil. }
  rewrite IH, forgotten_pool. case_bool_decide as Hl.
  - by rewrite bool_decide_true by by right.
  - destruct (decide (x = y)) as [->|Hne].
    + rewrite bool_decide_true by left. by rewrite lookup_delete_eq.
    + rewrite bool_decide_false by (by intros [?|?]%elem_of_cons). by rewrite lookup_delete_ne.
Qed.

Lemma forgotten_all_aligning hashes s :
  alignment_in_progress (fold_left (fun s x => forgotten x s) hashes s) = alignment_in_progress s.
Proof. revert s. induction hashes as [|y l IH]; intros s; simpl; [done|]. by rewrite IH. Qed.

(** [BlockConsolidated] takes exactly the transactions of the block out of the pool and
    out of the collector, and gives the next block its start: a timer when one or two
    transactions remain, a [BuildBlock] when three or more do and the node is not
    aligning, nothing otherwise. *)
Theorem block_consolidated_spec hashes w :
  let s := w_state w in
  let pool' := unconfirmed_pool (fold_left (fun s x => forgotten x s) hashes s) in
  (forall x, pool' !! x = if bool_decide (x ∈ hashes) then None else unconfirmed_pool s !! x) /\
  exists w', on_block_consolidated hashes w = Ret tt w' /\
    unconfirmed_pool (w_state w') = pool' /\
    w_out w' = w_out w ++
      (if map_len pool' =? 0 then []
       else if map_len pool' <? 3 then [timer_msg]
       else if alignment_in_progress s then [] else [build_msg]) /\
    build_in_progress (w_state w') = (3 <=? map_len pool') && negb (alignment_in_progress s).
Proof.
  intros s pool'. split; [intros x; apply forgotten_all_pool|].
  pose proof (forgotten_all_aligning hashes s) as Hal.
  rewrite on_block_consolidated_eq. cbv zeta. simpl. fold s pool'.
  unfold Consts.MIN_TXS_TO_BUILD. assert (0 <= map_len pool') by (unfold map_len; lia).
  destruct (map_len pool' =? 0) eqn:E0; simpl.
  - rewrite check_whether_to_build_block_eq. eexists. split; [done|]. simpl.
    unfold wants_build, wants_timer, Consts.MIN_TXS_TO_BUILD. simpl. fold s pool'.
    replace (map_len pool' =? 1) with false by lia. replace (3 <=? map_len pool') with false by lia.
    rewrite !andb_false_r. simpl. by rewrite app_nil_r.
  - destruct (map_len pool' <? 3) eqn:E3.
    + eexists. split_and!; [done|done|done|]. simpl. by replace (3 <=? map_len pool') with false by lia.
    + rewrite check_whether_to_build_block_eq. eexists. split; [done|]. simpl.
      unfold wants_build, wants_timer, Consts.MIN_TXS_TO_BUILD. simpl. fold s pool'. rewrite Hal.
      replace (map_len pool' =? 1) with false by lia. replace (3 <=? map_len pool') with true by lia.
      rewrite andb_false_r. simpl. by destruct (alignment_in_progress s).
Qed.
End service.

(** ** Witnesses *)
#[local] Existing Instances Samples.ring Samples.block_executable Samples.conf_confirmable
  Samples.tx_transactable.
#[local] Existing Instance gmap_iter.

Abbreviation sample_world := (world (t (A := Z) (T := Samples.tx))
  (Effect Z Samples.block Samples.conf Samples.tx) (Answer Z Samples.block Samples.conf Samples.tx)).

Definition add (n : Z) : Comm Z Samples.block Samples.conf Samples.tx :=
  MkComm (KMsg (Msg.AddTx (Samples.mktx n, 100, None))) None.

(** Four transactions received at the times 100, 101, 102 and 103; the clock then reads 165. *)
Definition sample : sample_world :=
  exec_world (start [add 1; add 2; add 3; add 4] (World (initial "node") [] (100, [101; 102; 103; 165; 165]) [])).

Lemma build_block_once_witness :
  builds (w_out (exec_world (run [add 1; add 2; add 3; add 4; add 5]
    (World (initial "node") [] (0, []) [] : sample_world)))) + 0 = 0 + 1.
Proof.
  exact (build_block_once [add 1; add 2; add 3; add 4; add 5] (World (initial "node") [] (0, []) []) eq_refl).
Defined.

Lemma collect_block_txs_spec_witness :
  let block := Samples.blk "node" 9 1 0 in
  exists txs, on_collect_block_txs block 0 [Samples.hash 3; Samples.hash 1] sample =
      Ret tt (outs [Sent NodeInterface (MkComm (KMsg (Msg.ExecuteBlock block 0 txs)) None)] sample) /\
    map tx_get_hash txs = [Samples.hash 3; Samples.hash 1] /\
    on_collect_block_txs block 0 [Samples.hash 3; Samples.hash 7] sample = Panic sample.
Proof.
  intros block.
  assert (Hi : inv (w_state sample)) by apply start_pool_invariant_aux.
  destruct (proj1 (collect_block_txs_spec block 0 [Samples.hash 3; Samples.hash 1] sample Hi))
    as (txs & Hr & Hh & _).
  - intros x Hx. apply list_elem_of_In in Hx. destruct Hx as [<-|[<-|[]]]; vm_compute; eauto.
  - exists txs. split_and!; [exact Hr|exact Hh|].
    apply (proj2 (collect_block_txs_spec block 0 [Samples.hash 3; Samples.hash 7] sample Hi) (Samples.hash 7)).
    + right. left.
    + vm_compute. reflexivity.
Defined.

Lemma check_old_txs_spec_witness :
  exists (txs : list Samples.tx) (w' : sample_world), on_check_old_txs sample = Ret tt w' /\
    map tx_get_hash txs = [Samples.hash 1; Samples.hash 2; Samples.hash 3; Samples.hash 4] /\
    w_out (exec_world (on_check_old_txs w')) = w_out w'.
Proof.
  destruct (check_old_txs_spec sample) as (txs & w' & Hr & Hh & _ & _ & Hn).
  - apply start_pool_invariant_aux.
  - vm_compute. reflexivity.
  - exists txs, w'. split_and!; [exact Hr|rewrite Hh; vm_compute; reflexivity|].
    apply Hn. assert (Hw : w' = exec_world (on_check_old_txs sample)) by by rewrite Hr.
    rewrite Hw. vm_compute. reflexivity.
Defined.
End TransactionService.
