(* ===== verification/ConsensusService.v ===== *)
(** * The consensus service ([trinci-core-new/src/services/consensus_service.rs])

    It gathers the proposals for the next block and the confirmations (votes) of the
    players, votes itself when the node is a player, starts the consolidation of a
    block when a proposal reaches the quorum, and draws the leader of the next block. *)

From stdpp Require Import base gmap strings list fin_maps.
From S2P Require Import Prelude Exec Hash Crypto CoreModels Samples Messages.
Open Scope Z_scope.

Module ConsensusService.
Section service.
Context `{Hring : Ring} {A B C T : Type} `{HeqC : EqDecision C} `{!Executable B, !Confirmable C}.

(** ** State *)

Record t : Type := Mk {
  actual_round : Z;
  blocks_collector : gmap Z (list (B * C * list Hash));
  block_proposals : BlockProposals.t B C;
  consolidation_in_progress : option Z;
  height : Z;
  keypair : Keys.TrinciKeyPair;
  last_block_hash : Hash;
  leader : string;
  node_id : string;
  players : Players.t;
  proposal_exit_poll : list (Z * Z)
}.

Abbreviation h := (handler A B C T t).
Abbreviation proposal := (BlockProposal B C).

Definition set_actual_round (x : Z) (s : t) : t :=
  Mk x (blocks_collector s) (block_proposals s) (consolidation_in_progress s) (height s) (keypair s)
     (last_block_hash s) (leader s) (node_id s) (players s) (proposal_exit_poll s).
Definition set_blocks_collector (x : gmap Z (list (B * C * list Hash))) (s : t) : t :=
  Mk (actual_round s) x (block_proposals s) (consolidation_in_progress s) (height s) (keypair s)
     (last_block_hash s) (leader s) (node_id s) (players s) (proposal_exit_poll s).
Definition set_block_proposals (x : BlockProposals.t B C) (s : t) : t :=
  Mk (actual_round s) (blocks_collector s) x (consolidation_in_progress s) (height s) (keypair s)
     (last_block_hash s) (leader s) (node_id s) (players s) (proposal_exit_poll s).
Definition set_consolidation_in_progress (x : option Z) (s : t) : t :=
  Mk (actual_round s) (blocks_collector s) (block_proposals s) x (height s) (keypair s)
     (last_block_hash s) (leader s) (node_id s) (players s) (proposal_exit_poll s).
Definition set_height (x : Z) (s : t) : t :=
  Mk (actual_round s) (blocks_collector s) (block_proposals s) (consolidation_in_progress s) x (keypair s)
     (last_block_hash s) (leader s) (node_id s) (players s) (proposal_exit_poll s).
Definition set_last_block_hash (x : Hash) (s : t) : t :=
  Mk (actual_round s) (blocks_collector s) (block_proposals s) (consolidation_in_progress s) (height s) (keypair s)
     x (leader s) (node_id s) (players s) (proposal_exit_poll s).
Definition set_leader (x : string) (s : t) : t :=
  Mk (actual_round s) (blocks_collector s) (block_proposals s) (consolidation_in_progress s) (height s) (keypair s)
     (last_block_hash s) x (node_id s) (players s) (proposal_exit_poll s).
Definition set_players (x : Players.t) (s : t) : t :=
  Mk (actual_round s) (blocks_collector s) (block_proposals s) (consolidation_in_progress s) (height s) (keypair s)
     (last_block_hash s) (leader s) (node_id s) x (proposal_exit_poll s).
Definition set_proposal_exit_poll (x : list (Z * Z)) (s : t) : t :=
  Mk (actual_round s) (blocks_collector s) (block_proposals s) (consolidation_in_progress s) (height s) (keypair s)
     (last_block_hash s) (leader s) (node_id s) (players s) x.

(** ** Proposals *)

Definition set_p_block (b : option (B * list Hash)) (p : proposal) : proposal :=
  MkBlockProposal b (p_block_hash p) (p_block_height p) (p_count p) (p_received_confirmations p)
    (p_round p) (p_timestamp p).
Definition set_p_timestamp (now : Z) (p : proposal) : proposal :=
  MkBlockProposal (p_block p) (p_block_hash p) (p_block_height p) (p_count p)
    (p_received_confirmations p) (p_round p) now.
(** [received_confirmations.push(c); count += 1]; the count is a length, it cannot overflow. *)
Definition push_confirmation (c : C) (p : proposal) : proposal :=
  MkBlockProposal (p_block p) (p_block_hash p) (p_block_height p) (p_count p + 1)
    (p_received_confirmations p ++ [c]) (p_round p) (p_timestamp p).

Definition at_height (n : Z) (entry : Z * list proposal) : bool := fst entry =? n.
Definition same_proposal (block_hash : Hash) (round : Z) (p : proposal) : bool :=
  bool_decide (p_block_hash p = block_hash) && (p_round p =? round).

(** [block_proposals.iter().find(height).and_then(find hash and round)] *)
Definition find_proposal (bp : BlockProposals.t B C) (n : Z) (block_hash : Hash) (round : Z) : option proposal :=
  entry ← find (at_height n) bp;
  find (same_proposal block_hash round) (snd entry).

(** The body of the loop of [update_proposals] over the confirmations *)
Definition add_confirmation (block : option (B * list Hash)) (p : proposal) (c : C) : proposal :=
  let p := if contains (p_received_confirmations p) c then p else push_confirmation c p in
  match block, p_block p with
  | Some _, None => set_p_block block p
  | _, _ => p
  end.

Definition at_height_update (n : Z) (f : list proposal -> list proposal) (bp : BlockProposals.t B C) :
    BlockProposals.t B C :=
  update_first (at_height n) (fun entry => (fst entry, f (snd entry))) bp.

Definition update_proposals (confirmations : list C) (block : option (B * list Hash)) : h unit :=
  first_confirmation ← expect (hd_error confirmations);
  let block_hash := get_block_hash first_confirmation in
  let block_height := get_block_height first_confirmation in
  let block_round := get_block_round first_confirmation in
  s ← get_state;
  match find (at_height block_height) (block_proposals s) with
  | Some (_, proposals_at_height) =>
      match find (same_proposal block_hash block_round) proposals_at_height with
      | Some _ =>
          modify (fun s => set_block_proposals
            (at_height_update block_height
               (update_first (same_proposal block_hash block_round)
                  (fun p => fold_left (add_confirmation block) confirmations p))
               (block_proposals s)) s)
      | None =>
          now ← timestamp;
          modify (fun s => set_block_proposals
            (at_height_update block_height
               (fun ps => ps ++ [BlockProposals.new block block_hash block_height confirmations block_round now])
               (block_proposals s)) s)
      end
  | None =>
      now ← timestamp;
      modify (fun s => set_block_proposals
        (block_proposals s ++
          [(block_height, [BlockProposals.new block block_hash block_height confirmations block_round now])]) s)
  end.

Definition is_leader (s : t) (id : string) : bool := bool_decide (leader s = id).
Definition is_player (s : t) : bool := contains (Players.players_ids (players s)) (node_id s).

Definition verify_block_proposal_quorum (block_hash : Hash) (block_height block_round : Z) : h bool :=
  s ← get_state;
  p ← expect (find_proposal (block_proposals s) block_height block_hash block_round);
  match (block_height =? height s +u64 1), p_block p with
  | true, Some (block, txs_hashes) =>
      if negb (forallb (fun c => contains (Players.players_ids (players s)) (get_player_id c))
                 (p_received_confirmations p)) then mret false
      else
        let quorum := len (Players.players_ids (players s)) / 2 + 1 in
        if quorum <=? p_count p then
          modify (set_consolidation_in_progress (Some block_height)) ;;
          send_msg NodeInterface
            (Msg.StartBlockConsolidation block (p_received_confirmations p) txs_hashes) ;;
          mret true
        else mret false
  | _, _ => mret false
  end.

Definition already_voted (s : t) (n round : Z) : bool :=
  existsb (fun '(height, r) => (height =? n) && (r =? round)) (proposal_exit_poll s).

Definition should_player_vote (s : t) (block : option (B * list Hash)) (block_round : Z) : bool :=
  match block with
  | None => false
  | Some (b, _) =>
      if negb (is_player s) then false
      else if already_voted s (get_height b) block_round then false
      else if match get_builder_id b with
              | None => true
              | Some id => negb (contains (Players.players_ids (players s)) id)
              end then false
      else if negb (block_round =? actual_round s) then false
      else if negb (get_height b =? height s +u64 1) then false
      else if negb (bool_decide (get_prev_hash b = last_block_hash s)) then false
      else true
  end.

Definition vote_proposal (block : B) (block_round : Z) : h C :=
  modify (fun s => set_proposal_exit_poll (proposal_exit_poll s ++ [(get_height block, block_round)]) s) ;;
  kp ← gets keypair;
  let confirmation := conf_sign kp
    (conf_new (get_hash block) (get_height block) block_round (Keys.public_key kp)) in
  send_msg NodeInterface (Msg.PropagateConfirmationToPeers confirmation) ;;
  mret confirmation.

(** ** Rounds, leaders and old proposals *)

Definition block_election_failed (height_to_build round : Z) : h unit :=
  s ← get_state;
  when (is_player s) (spawn (BlockElectionFailedThread height_to_build round)).

(** The thread it spawns; [random] is the number drawn in [0..=MAX_TIME_TO_PROPOSE_BLOCK_S]. *)
Definition block_election_failed_thread (height_to_build round random : Z) : handler A B C T unit unit :=
  sleep_s random ;;
  send_msg ConsensusService (Msg.ConfirmBuildBlockInPlaceOfLeader height_to_build round) ;;
  sleep_ms Consts.DEFAULT_POLL_TIMEOUT_MS ;;
  send_msg NodeInterface (Msg.VerifyIfConsolidated height_to_build round).

(** The block of a proposal among those collected at its height *)
Definition collected (s : t) (n : Z) (block_hash : Hash) : option (B * C * list Hash) :=
  blocks_at_height ← blocks_collector s !! n;
  find (fun '(block, _, _) => bool_decide (get_hash block = block_hash)) blocks_at_height.

Definition block_consolidated (n : Z) : h unit :=
  s ← get_state;
  match find (at_height (n +u64 1)) (block_proposals s) with
  | None => mret tt
  | Some (_, ps) =>
      let ps := sort_desc p_count (List.filter (fun p => actual_round s <=? p_round p) ps) in
      for_each ps (fun p =>
        match collected s (n +u64 1) (p_block_hash p) with
        | Some (block, confirmation, txs_hashes) =>
            send_msg BlockService (Msg.BlockFromPeer block confirmation txs_hashes)
        | None => mret tt
        end)
  end.

(** The [find_map] of [check_next_round_proposals], which sorts what it goes through *)
Fixpoint find_round (n round : Z) (bp : BlockProposals.t B C) : BlockProposals.t B C * option proposal :=
  match bp with
  | [] => ([], None)
  | (height, ps) :: bp =>
      if height =? n then
        let ps := sort_desc p_count ps in
        match find (fun p => p_round p =? round) ps with
        | Some p => ((height, ps) :: bp, Some p)
        | None => let '(bp, r) := find_round n round bp in ((height, ps) :: bp, r)
        end
      else let '(bp, r) := find_round n round bp in ((height, ps) :: bp, r)
  end.

Definition check_next_round_proposals (block_height block_round : Z) : h bool :=
  s ← get_state;
  let '(bp, found) := find_round block_height block_round (block_proposals s) in
  modify (set_block_proposals bp) ;;
  match found with
  | None => mret false
  | Some p =>
      match p_block p with
      | None => mret false
      | Some block =>
          s ← get_state;
          when (should_player_vote s (Some block) block_round)
            (c ← vote_proposal (fst block) block_round;
             update_proposals [c] (Some block)) ;;
          _ ← verify_block_proposal_quorum (get_hash (fst block)) block_height block_round;
          mret true
      end
  end.

(** The body of the loop of [check_old_block_proposals]: the proposal with its new timestamp *)
Definition check_old_proposal (now : Z) (p : proposal) : h proposal :=
  if Consts.VERIFY_OLD_BLOCK_PROPOSALS_S <=? now -u64 p_timestamp p then
    let p := set_p_timestamp now p in
    s ← get_state;
    match p_block p, collected s (p_block_height p) (p_block_hash p) with
    | None, Some (block, confirmation, txs_hashes) =>
        when (bool_decide (consolidation_in_progress s = None))
          (send_msg BlockService (Msg.BlockFromPeer block confirmation txs_hashes)) ;;
        mret p
    | _, _ => spawn (RetrieveConfirmationsThread p) ;; mret p
    end
  else mret p.

Fixpoint check_old_proposals (now : Z) (ps : list proposal) : h (list proposal) :=
  match ps with
  | [] => mret []
  | p :: ps => p ← check_old_proposal now p; ps ← check_old_proposals now ps; mret (p :: ps)
  end.

Definition check_old_block_proposals : h unit :=
  s ← get_state;
  let next := height s +u64 1 in
  match find (at_height next) (block_proposals s) with
  | None =>
      when (existsb (fun '(height, _) => next <? height) (block_proposals s))
        (send_msg BlockService Msg.DetectedPossibleMisalignment)
  | Some (_, ps) =>
      let ps := sort_desc p_count (List.filter (fun p => actual_round s <=? p_round p) ps) in
      modify (fun s => set_block_proposals (at_height_update next (fun _ => ps) (block_proposals s)) s) ;;
      now ← timestamp;
      ps ← check_old_proposals now ps;
      modify (fun s => set_block_proposals (at_height_update next (fun _ => ps) (block_proposals s)) s)
  end.

Definition confirm_build_block_in_place_of_leader (height_to_build round : Z) : h unit :=
  s ← get_state;
  misaligned ←
    (if round mod Consts.ROUND_CHECK_MISALIGNMENT =? 0 then
       r ← send_req ConsensusService NodeInterface (Req.GetLastBlockInfo (leader s));
       match r with
       | Ok (Res.GetLastBlockInfo block_info) => mret (height_to_build +u64 2 <=? bi_height block_info)
       | _ => mret false
       end
     else mret false);
  if (misaligned : bool) then send_msg BlockService Msg.DetectedPossibleMisalignment
  else
    when (negb (existsb (fun '(height, ps) =>
                   (height =? height_to_build) && existsb (fun p => p_round p =? round) ps)
                 (block_proposals s)))
      (send_msg BlockService (Msg.BuildBlockInPlaceOfLeader height_to_build)).

Definition draw_new_leader (block : B) : h unit :=
  send_msg DRandService
    (Msg.UpdateSeedSource (get_hash block) (get_txs_hash block) (get_rxs_hash block)) ;;
  ps ← gets players;
  if 1 <? len (Players.players_ids ps) then
    r ← send_req ConsensusService DRandService (Req.GetDRandNum (Players.total_weight ps -u64 1));
    match r with
    | Ok (Res.GetDRandNum drand_num) =>
        new_leader ← expect (Players.get_weighted_player_ids ps !! Z.to_nat drand_num);
        modify (set_leader new_leader)
    | _ => mret tt
    end
  else
    new_leader ← expect (Players.players_ids ps !! 0%nat);
    modify (set_leader new_leader).

Definition reset_proposals (block_hash : Hash) (block_height : Z) : h unit :=
  modify (set_actual_round 0) ;;
  modify (set_height block_height) ;;
  modify (set_last_block_hash block_hash) ;;
  s ← get_state;
  when (is_player s)
    (modify (fun s => set_proposal_exit_poll
       (List.filter (fun '(height, _) => height <=? block_height) (proposal_exit_poll s)) s)) ;;
  modify (fun s => set_block_proposals
    (List.filter (fun '(height, _) => negb (height <=? block_height)) (block_proposals s)) s).

Definition verify_confirmations_from_peer (confirmations : list C) (block : option (B * list Hash)) : h unit :=
  first_confirmation ← expect (hd_error confirmations);
  let block_hash := get_block_hash first_confirmation in
  let block_height := get_block_height first_confirmation in
  let block_round := get_block_round first_confirmation in
  s ← get_state;
  if existsb (fun c => negb (contains (Players.players_ids (players s)) (get_player_id c)) ||
                       negb (conf_verify c)) confirmations
     || negb (block_height =? height s +u64 1) || (block_round <? actual_round s)
  then mret tt
  else
    update_proposals confirmations block ;;
    match block with
    | Some (block, txs_hashes) =>
        send_msg BlockService (Msg.BlockFromPeer block first_confirmation txs_hashes)
    | None =>
        s ← get_state;
        when (bool_decide (consolidation_in_progress s = None))
          (_ ← verify_block_proposal_quorum block_hash block_height block_round; mret tt)
    end.

(** ** [handle_messages], an arm at a time *)

Definition on_block_election_failed (height_to_build new_round : Z) : h unit :=
  s ← get_state;
  if bool_decide (consolidation_in_progress s = Some height_to_build) then mret tt
  else
    modify (set_actual_round new_round) ;;
    send_msg BlockService (Msg.RefreshRound new_round) ;;
    s ← get_state;
    checked ← check_next_round_proposals height_to_build (actual_round s);
    if (checked : bool) then mret tt else block_election_failed height_to_build new_round.

Definition on_block_confirmation_from_peer (c : C) : h unit :=
  s ← get_state;
  when (((actual_round s <=? get_block_round c) || (height s <? get_block_height c)) && conf_verify c)
    (update_proposals [c] None ;;
     s ← get_state;
     when (bool_decide (consolidation_in_progress s = None))
       (_ ← verify_block_proposal_quorum (get_block_hash c) (get_block_height c) (get_block_round c);
        mret tt)).

Definition on_block_consolidated (block : B) (players : Players.t) : h unit :=
  let block_hash := get_hash block in
  let block_height := get_height block in
  modify (set_players players) ;;
  modify (fun s => set_blocks_collector (delete block_height (blocks_collector s)) s) ;;
  reset_proposals block_hash block_height ;;
  draw_new_leader block ;;
  modify (set_consolidation_in_progress None) ;;
  block_consolidated block_height.

Definition on_block_execution_ended (block : B) (txs_hashes : list Hash) : h unit :=
  let block_hash := get_hash block in
  let block_height := get_height block in
  s ← get_state;
  p ← expect (find_proposal (block_proposals s) block_height block_hash (actual_round s));
  let confirmations := p_received_confirmations p in
  confirmations ←
    (if should_player_vote s (Some (block, txs_hashes)) (actual_round s) then
       c ← vote_proposal block (actual_round s);
       mret (confirmations ++ [c])
     else mret confirmations);
  update_proposals confirmations (Some (block, txs_hashes)) ;;
  s ← get_state;
  when (bool_decide (consolidation_in_progress s = None))
    (_ ← verify_block_proposal_quorum block_hash block_height (actual_round s); mret tt).

Definition on_block_from_peer (block : B) (confirmation : C) (txs_hashes : list Hash) : h unit :=
  let block_height := get_height block in
  s ← get_state;
  if bool_decide (consolidation_in_progress s = Some block_height) then mret tt
  else
    when (block_verify block)
      (when ((actual_round s <=? get_block_round confirmation) && (height s <? block_height))
         (modify (fun s => set_blocks_collector
            (<[block_height := default [] (blocks_collector s !! block_height) ++
                               [(block, confirmation, txs_hashes)]]> (blocks_collector s)) s) ;;
          update_proposals [confirmation] None ;;
          s ← get_state;
          when ((block_height =? height s +u64 1) ||
                ((block_height =? height s +u64 2) &&
                 bool_decide (consolidation_in_progress s = Some (block_height -u64 1))))
            (send_msg BlockService (Msg.BlockFromPeer block confirmation txs_hashes)))).

Definition on_check_old_block_proposals : h unit :=
  s ← get_state;
  when (bool_decide (consolidation_in_progress s = None)) check_old_block_proposals.

Definition on_proposal_after_build (block : B) (block_round : Z) (txs_hashes : list Hash) : h unit :=
  s ← get_state;
  when (negb (already_voted s (get_height block) block_round))
    (let block := block_sign (keypair s) block in
     modify (fun s => set_proposal_exit_poll (proposal_exit_poll s ++ [(get_height block, block_round)]) s) ;;
     let confirmation := conf_sign (keypair s)
       (conf_new (get_hash block) (get_height block) block_round (Keys.public_key (keypair s))) in
     update_proposals [confirmation] (Some (block, txs_hashes)) ;;
     when (len (Players.players_ids (players s)) =? 1)
       (_ ← verify_block_proposal_quorum (get_hash block) (get_height block) block_round; mret tt) ;;
     send_msg NodeInterface (Msg.PropagateBlockToPeers block confirmation txs_hashes)).

Definition on_proposal_from_alignment_block (confirmations : list C) : h unit :=
  first ← expect (hd_error confirmations);
  modify (set_actual_round (get_block_round first)) ;;
  update_proposals confirmations None.

Definition handle_messages (msg : Msg.t A B C T) : h unit :=
  match msg with
  | Msg.BlockElectionFailed height_to_build new_round => on_block_election_failed height_to_build new_round
  | Msg.BlockConfirmationFromPeer confirmation => on_block_confirmation_from_peer confirmation
  | Msg.BlockConsolidated block _ players => on_block_consolidated block players
  | Msg.BlockExecutionEnded block txs_hashes => on_block_execution_ended block txs_hashes
  | Msg.BlockFromPeer block confirmation txs_hashes => on_block_from_peer block confirmation txs_hashes
  | Msg.CheckOldBlockProposals => on_check_old_block_proposals
  | Msg.ConfirmBuildBlockInPlaceOfLeader height_to_build round =>
      confirm_build_block_in_place_of_leader height_to_build round
  | Msg.ProposalAfterBuild block block_round txs_hashes => on_proposal_after_build block block_round txs_hashes
  | Msg.ProposalFromAlignmentBlock confirmations => on_proposal_from_alignment_block confirmations
  | Msg.VerifyConfirmations block confirmations => verify_confirmations_from_peer confirmations block
  | _ => mret tt
  end.

Definition handle_requests (req : Req.t) (res_chan : Service) : h unit :=
  s ← get_state;
  match req with
  | Req.GetActualPlayers => send_res res_chan (Res.GetActualPlayers (Players.players_ids (players s)))
  | Req.GetLeader => send_res res_chan (Res.GetLeader (leader s))
  | Req.IsLeader node_id => send_res res_chan (Res.IsLeader (is_leader s node_id))
  | _ => mret tt
  end.

Definition step : Comm A B C T -> h unit := dispatch handle_messages handle_requests.
Definition run : list (Comm A B C T) -> h unit := run_loop step.

(** ** Start and threads *)

(** The state [start] builds; [None]: there is no first player. *)
Definition initial (keypair : Keys.TrinciKeyPair) (node_id : string) (players : Players.t) (block : option B) :
    option t :=
  first ← Players.players_ids players !! 0%nat;
  let '(height, last_block_hash) :=
    match block with Some block => (get_height block, get_hash block) | None => (0, Hashes.default) end in
  Some (Mk 0 ∅ [] None height keypair last_block_hash first node_id players []).

Definition start (block : option B) (comms : list (Comm A B C T)) : h unit :=
  height ← gets height;
  when (0 <? height) (block ← expect block; draw_new_leader block) ;;
  spawn CheckOldBlockProposalsLoop ;;
  run comms.

(** One turn of the endless loop of that thread *)
Definition check_old_block_proposals_loop : handler A B C T unit unit :=
  sleep_s Consts.CHECK_OLD_BLOCK_PROPOSALS_S ;;
  send_msg ConsensusService Msg.CheckOldBlockProposals.

(** [retrieve_confirmations]; the recursion ends on the attempts, out of fuel is a panic
    (shown not to happen with [attempts_fuel]). *)
Fixpoint retrieve_confirmations (fuel : nat) (attempt : Z) (p : proposal) :
    handler A B C T unit (option (list C * option (B * list Hash))) :=
  match fuel with
  | O => panic
  | S fuel =>
      if Consts.MAX_REQ_ATTEMPTS <? attempt then mret None
      else
        let ask_for_block := bool_decide (p_block p = None) in
        r ← send_req ConsensusService NodeInterface
              (Req.GetConfirmations (p_block_height p) (p_block_hash p) ask_for_block);
        match r with
        | Ok (Res.GetConfirmations (Some confirmations) block) => mret (Some (confirmations, block))
        | _ => retrieve_confirmations fuel (attempt +u8 1) p
        end
  end.

(** Attempts 0 to [MAX_REQ_ATTEMPTS], and the call that gives up *)
Definition attempts_fuel : nat := 7.

(** The thread spawned for an old proposal *)
Definition retrieve_confirmations_thread (p : proposal) : handler A B C T unit unit :=
  r ← retrieve_confirmations attempts_fuel 0 p;
  match r with
  | None => mret tt
  | Some (confirmations, block) =>
      if match block with
         | Some b => negb (bool_decide (get_hash (fst b) = p_block_hash p))
         | None => false
         end
      then send_msg BlockService Msg.DetectedPossibleMisalignment
      else send_msg ConsensusService (Msg.VerifyConfirmations block confirmations)
  end.

(** ** What the operations leave alone *)

Section frames.
Context {X : Type} (f : t -> X).

Lemma update_proposals_frame cs block :
  (forall bp s, f (set_block_proposals bp s) = f s) -> rel (same_proj f) (update_proposals cs block).
Proof. intros Hf. unfold update_proposals. frames; apply Hf. Qed.

Lemma verify_block_proposal_quorum_frame hash n r :
  (forall x s, f (set_consolidation_in_progress x s) = f s) ->
  rel (same_proj f) (verify_block_proposal_quorum hash n r).
Proof. intros Hf. unfold verify_block_proposal_quorum. frames; apply Hf. Qed.

Lemma vote_proposal_frame block r :
  (forall x s, f (set_proposal_exit_poll x s) = f s) -> rel (same_proj f) (vote_proposal block r).
Proof. intros Hf. unfold vote_proposal. frames; apply Hf. Qed.

Lemma block_election_failed_frame n r : rel (same_proj f) (block_election_failed n r).
Proof. unfold block_election_failed. frames. Qed.

Lemma block_consolidated_frame n : rel (same_proj f) (block_consolidated n).
Proof. unfold block_consolidated. frames. Qed.

Lemma check_old_proposal_frame now p : rel (same_proj f) (check_old_proposal now p).
Proof. unfold check_old_proposal. frames. Qed.

Lemma check_old_proposals_frame now ps : rel (same_proj f) (check_old_proposals now ps).
Proof.
  induction ps as [|p ps IH]; simpl; frames. apply check_old_proposal_frame.
Qed.

Lemma check_old_block_proposals_frame :
  (forall bp s, f (set_block_proposals bp s) = f s) -> rel (same_proj f) check_old_block_proposals.
Proof.
  intros Hf. unfold check_old_block_proposals. frames; try apply Hf. apply check_old_proposals_frame.
Qed.

Lemma confirm_build_frame n r : rel (same_proj f) (confirm_build_block_in_place_of_leader n r).
Proof. unfold confirm_build_block_in_place_of_leader. frames. Qed.

Lemma draw_new_leader_frame block :
  (forall x s, f (set_leader x s) = f s) -> rel (same_proj f) (draw_new_leader block).
Proof. intros Hf. unfold draw_new_leader. frames; apply Hf. Qed.

Lemma handle_requests_frame req res_chan : rel (same_proj f) (handle_requests req res_chan).
Proof. unfold handle_requests. frames. Qed.
End frames.

(** ** The proposals are well formed *)

Definition key (p : proposal) : Hash * Z := (p_block_hash p, p_round p).

(** Whether the first of the confirmations is for this block *)
Definition headed (hash : Hash) (n r : Z) (cs : list C) : Prop :=
  exists c rest, cs = c :: rest /\ get_block_hash c = hash /\ get_block_height c = n /\ get_block_round c = r.

Definition proposal_wf (n : Z) (p : proposal) : Prop :=
  p_block_height p = n /\ p_count p = len (p_received_confirmations p) /\
  headed (p_block_hash p) n (p_round p) (p_received_confirmations p).

Definition entry_wf (n : Z) (ps : list proposal) : Prop :=
  Forall (proposal_wf n) ps /\ NoDup (map key ps).

(** One entry per height; at each height one proposal per hash and round, counting the
    confirmations it holds *)
Definition bp_wf (bp : BlockProposals.t B C) : Prop :=
  NoDup (map fst bp) /\ Forall (fun entry => entry_wf (fst entry) (snd entry)) bp.

Definition proposals_wf (s : t) : Prop := bp_wf (block_proposals s).

Lemma entry_wf_perm n ps ps' : ps ≡ₚ ps' -> entry_wf n ps -> entry_wf n ps'.
Proof.
  intros Hp [Hf Hn]. split; [by rewrite <- Hp|].
  eapply (@NoDup_Permutation_proper _ (map key ps)); [|done]. symmetry. by apply Permutation_map.
Qed.

Lemma map_filter_sublist {X Y} (g : X -> Y) q (l : list X) : sublist (map g (List.filter q l)) (map g l).
Proof. induction l as [|x l IH]; simpl; [constructor|]. destruct (q x); simpl; by constructor. Qed.

Lemma entry_wf_filter n q ps : entry_wf n ps -> entry_wf n (List.filter q ps).
Proof.
  intros [Hf Hn]. split; [by apply Forall_filter_list|].
  eapply sublist_NoDup; [exact Hn|apply map_filter_sublist].
Qed.

Lemma entry_wf_sort n k ps : entry_wf n ps -> entry_wf n (sort_desc k ps).
Proof. apply entry_wf_perm. by rewrite sort_desc_perm. Qed.

Lemma bp_wf_filter q bp : bp_wf bp -> bp_wf (List.filter q bp).
Proof.
  intros [Hn Hf]. split; [|by apply Forall_filter_list].
  eapply sublist_NoDup; [exact Hn|apply map_filter_sublist].
Qed.

Lemma bp_wf_find bp n e : bp_wf bp -> find (at_height n) bp = Some e -> fst e = n /\ entry_wf n (snd e).
Proof.
  intros [_ Hf] [Hin He]%find_elem. unfold at_height in He. rewrite Forall_forall in Hf.
  apply Z.eqb_eq in He. subst n. split; [done|]. by apply Hf.
Qed.

Lemma map_fst_at_height_update n f (bp : BlockProposals.t B C) :
  map fst (at_height_update n f bp) = map fst bp.
Proof. by apply map_update_first. Qed.

Lemma bp_wf_update n f bp e :
  bp_wf bp -> find (at_height n) bp = Some e -> entry_wf n (f (snd e)) -> bp_wf (at_height_update n f bp).
Proof.
  intros [Hn Hf] He Hw. split; [by rewrite map_fst_at_height_update|].
  clear Hn. unfold at_height_update. induction Hf as [|e' bp Hx Hf IH]; simpl in *; [constructor|].
  destruct (at_height n e') eqn:E.
  - injection He as ->. unfold at_height in E. apply Z.eqb_eq in E. subst n. by constructor.
  - constructor; [done|]. by apply IH.
Qed.

Lemma add_confirmation_key block p c : key (add_confirmation block p c) = key p.
Proof.
  unfold add_confirmation, key. destruct (contains _ c); simpl; by repeat case_match.
Qed.

Lemma add_confirmations_key block cs p : key (fold_left (add_confirmation block) cs p) = key p.
Proof.
  revert p. induction cs as [|c cs IH]; intros p; simpl; [done|]. by rewrite IH, add_confirmation_key.
Qed.

Lemma add_confirmation_wf n block p c : proposal_wf n p -> proposal_wf n (add_confirmation block p c).
Proof.
  intros (Hh & Hc & Hr).
  assert (Hp : proposal_wf n (if contains (p_received_confirmations p) c then p else push_confirmation c p)).
  { destruct (contains _ c); [done|]. split_and!; simpl; [done| |].
    - rewrite len_app, Hc. done.
    - destruct Hr as (c0 & rest & -> & ? & ? & ?). by exists c0, (rest ++ [c]). }
  unfold add_confirmation. destruct Hp as (? & ? & ?). by repeat case_match.
Qed.

Lemma add_confirmations_wf n block cs p :
  proposal_wf n p -> proposal_wf n (fold_left (add_confirmation block) cs p).
Proof.
  revert p. induction cs as [|c cs IH]; intros p Hp; simpl; [done|]. by apply IH, add_confirmation_wf.
Qed.

Lemma same_proposal_key hash r p : same_proposal hash r p = true <-> key p = (hash, r).
Proof.
  unfold same_proposal, key. rewrite andb_true_iff, bool_decide_eq_true, Z.eqb_eq.
  split; [by intros [-> ->]|by intros [= -> ->]].
Qed.

Lemma entry_wf_add n hash r block cs ps :
  entry_wf n ps ->
  entry_wf n (update_first (same_proposal hash r) (fun p => fold_left (add_confirmation block) cs p) ps).
Proof.
  intros [Hf Hn]. split.
  - apply Forall_update_first; [done|]. intros p _ Hp. by apply add_confirmations_wf.
  - replace (map key _) with (map key ps); [done|]. clear Hn.
    induction Hf as [|p ps Hp Hf IH]; simpl; [done|].
    destruct (same_proposal hash r p); simpl; [|by rewrite IH].
    by rewrite add_confirmations_key.
Qed.

Lemma entry_wf_push n hash r block cs ps now :
  entry_wf n ps -> find (same_proposal hash r) ps = None -> headed hash n r cs ->
  entry_wf n (ps ++ [BlockProposals.new block hash n cs r now]).
Proof.
  intros [Hf Hn] Hnone Hcs. split.
  - apply Forall_app. split; [done|]. by constructor.
  - rewrite map_app. apply NoDup_app. split_and!; [done| |apply NoDup_singleton].
    intros k Hk ->%list_elem_of_singleton. apply list_elem_of_fmap in Hk as (p & Ek & Hp).
    rewrite find_None_elem in Hnone. specialize (Hnone p Hp).
    assert (same_proposal hash r p = true) by by apply same_proposal_key. congruence.
Qed.

Lemma entry_wf_new n hash r block (cs : list C) now :
  headed hash n r cs -> entry_wf n [BlockProposals.new block hash n cs r now].
Proof. intros Hcs. split; [by repeat constructor|]. apply NoDup_singleton. Qed.

Lemma bp_wf_push n hash r block cs now bp :
  bp_wf bp -> find (at_height n) bp = None -> headed hash n r cs ->
  bp_wf (bp ++ [(n, [BlockProposals.new block hash n cs r now])]).
Proof.
  intros [Hn Hf] Hnone Hcs. split.
  - rewrite map_app. apply NoDup_app. split_and!; [done| |apply NoDup_singleton].
    intros k Hk ->%list_elem_of_singleton. apply list_elem_of_fmap in Hk as (e & Ek & He).
    rewrite find_None_elem in Hnone. specialize (Hnone e He). unfold at_height in Hnone. simpl in Ek. lia.
  - apply Forall_app. split; [done|]. constructor; [|done]. by apply entry_wf_new.
Qed.

(** What [update_proposals] makes of the proposals, as a function of the clock *)
Definition updated (cs : list C) (block : option (B * list Hash)) (now : Z) (bp : BlockProposals.t B C) :
    option (BlockProposals.t B C) :=
  c ← hd_error cs;
  let '(hash, n, r) := (get_block_hash c, get_block_height c, get_block_round c) in
  Some match find (at_height n) bp with
       | Some (_, ps) =>
           match find (same_proposal hash r) ps with
           | Some _ => at_height_update n (update_first (same_proposal hash r)
                         (fun p => fold_left (add_confirmation block) cs p)) bp
           | None => at_height_update n (fun ps => ps ++ [BlockProposals.new block hash n cs r now]) bp
           end
       | None => bp ++ [(n, [BlockProposals.new block hash n cs r now])]
       end.

Lemma update_proposals_eq cs block (w : world t (Effect A B C T) (Answer A B C T)) :
  match updated cs block (now w) (block_proposals (w_state w)) with
  | Some bp => exists w0, update_proposals cs block w = Ret tt (upd (set_block_proposals bp) w0) /\
      (w0 = w \/ w0 = tick w)
  | None => update_proposals cs block w = Panic w
  end.
Proof.
  unfold updated, update_proposals. destruct cs as [|c cs]; [done|]. simpl.
  rewrite bind_eq. simpl. rewrite bind_eq. simpl.
  destruct (find (at_height _) _) as [[n ps]|] eqn:En.
  - destruct (find (same_proposal _ _) ps) as [p|] eqn:Ep.
    + exists w. split; [|by left]. by destruct w.
    + exists (tick w). split; [|by right]. rewrite bind_eq, timestamp_eq. by destruct w.
  - exists (tick w). split; [|by right]. rewrite bind_eq, timestamp_eq. by destruct w.
Qed.

Lemma updated_wf cs block now bp bp' : bp_wf bp -> updated cs block now bp = Some bp' -> bp_wf bp'.
Proof.
  intros Hw. unfold updated. destruct cs as [|c cs]; [done|]. simpl. intros [= <-].
  assert (Hc : headed (get_block_hash c) (get_block_height c) (get_block_round c) (c :: cs)) by by exists c, cs.
  destruct (find (at_height _) bp) as [e|] eqn:En.
  - destruct (bp_wf_find _ _ _ Hw En) as [He1 He2]. destruct e as [n ps]. simpl in *.
    destruct (find (same_proposal _ _) ps) as [p|] eqn:Ep.
    + eapply bp_wf_update; [done|done|]. by apply (entry_wf_add _ _ _ block (c :: cs)).
    + eapply bp_wf_update; [done|done|]. by apply entry_wf_push.
  - by apply bp_wf_push.
Qed.

Abbreviation keeps_wf := (keeps (E := Effect A B C T) (R := Answer A B C T) proposals_wf).

Lemma update_proposals_wf cs block : rel keeps_wf (update_proposals cs block).
Proof.
  intros w Hw. pose proof (update_proposals_eq cs block w) as He.
  destruct (updated cs block (now w) (block_proposals (w_state w))) as [bp|] eqn:E.
  - destruct He as (w0 & -> & _). simpl. by eapply updated_wf.
  - by rewrite He.
Qed.

Lemma find_round_wf n r bp : bp_wf bp -> bp_wf (fst (find_round n r bp)).
Proof.
  intros [Hn Hf]. split.
  - replace (map fst (fst (find_round n r bp))) with (map fst bp); [done|]. clear Hn Hf.
    induction bp as [|[m ps] bp IH]; simpl; [done|]. destruct (m =? n).
    + destruct (find _ _); [done|]. destruct (find_round n r bp). simpl in *. by rewrite IH.
    + destruct (find_round n r bp). simpl in *. by rewrite IH.
  - clear Hn. induction Hf as [|[m ps] bp Hx Hf IH]; simpl; [constructor|].
    destruct (m =? n).
    + destruct (find _ _); [by constructor; [apply entry_wf_sort|]|].
      destruct (find_round n r bp). constructor; [by apply entry_wf_sort|done].
    + destruct (find_round n r bp). by constructor.
Qed.

Lemma check_old_proposal_ret now p w p' w' :
  check_old_proposal now p w = Ret p' w' -> p' = p \/ p' = set_p_timestamp now p.
Proof.
  unfold check_old_proposal. destruct (_ <=? _); [|by intros [= <- _]; left].
  unfold mbind, M_bind, mret, M_ret, when. simpl. intros E1. right.
  repeat (case_match; simplify_eq; try done).
Qed.

Lemma check_old_proposals_wf n now ps w ps' w' :
  entry_wf n ps -> check_old_proposals now ps w = Ret ps' w' -> entry_wf n ps'.
Proof.
  intros [Hf Hn] Hrun. enough (Forall (proposal_wf n) ps' /\ map key ps' = map key ps) as [H1 H2].
  { split; [done|by rewrite H2]. }
  clear Hn. revert w ps' w' Hrun. induction Hf as [|p ps Hp Hf IH]; intros w ps' w'; simpl.
  { by intros [= <- _]. }
  rewrite bind_eq. destruct (check_old_proposal now p w) as [p' w1|] eqn:E1; [|done].
  rewrite bind_eq. destruct (check_old_proposals now ps w1) as [ps1 w2|] eqn:E2; [|done].
  intros [= <- <-]. destruct (IH _ _ _ E2) as [H1 H2]. pose proof (check_old_proposal_ret _ _ _ _ _ E1) as Hp'.
  split.
  - constructor; [|done]. by destruct Hp' as [->| ->].
  - simpl. rewrite H2. f_equal. by destruct Hp' as [->| ->].
Qed.

(** Programs that do not touch the proposals *)
Lemma quiet_wf {X} (m : h X) : rel (same_proj block_proposals) m -> rel keeps_wf m.
Proof. apply (rel_proj_keeps block_proposals bp_wf). Qed.

Lemma quorum_wf hash n r : rel keeps_wf (verify_block_proposal_quorum hash n r).
Proof. by apply quiet_wf, verify_block_proposal_quorum_frame. Qed.

Lemma vote_wf block r : rel keeps_wf (vote_proposal block r).
Proof. by apply quiet_wf, vote_proposal_frame. Qed.

Lemma send_msg_wf to m : rel keeps_wf (send_msg to m).
Proof. apply quiet_wf, send_msg_proj. Qed.

#[local] Hint Resolve update_proposals_wf quorum_wf vote_wf send_msg_wf : frames.

Lemma check_old_proposals_bp now ps w :
  block_proposals (w_state (exec_world (check_old_proposals now ps w))) = block_proposals (w_state w).
Proof. exact (check_old_proposals_frame block_proposals now ps w). Qed.

Lemma check_old_block_proposals_wf : rel keeps_wf check_old_block_proposals.
Proof.
  intros w Hw. unfold check_old_block_proposals. rewrite bind_eq. simpl.
  destruct (find (at_height _) _) as [e|] eqn:En; [|by unfold when; case_match].
  destruct (bp_wf_find _ _ _ Hw En) as [He1 He2]. destruct e as [n ps]. simpl in *. subst n.
  set (n := height (w_state w) +u64 1) in *.
  set (ps1 := sort_desc p_count (List.filter (fun p => actual_round (w_state w) <=? p_round p) ps)).
  assert (Hps1 : entry_wf n ps1) by by apply entry_wf_sort, entry_wf_filter.
  assert (H1 : bp_wf (at_height_update n (fun _ => ps1) (block_proposals (w_state w))))
    by by eapply bp_wf_update.
  rewrite bind_eq, modify_eq, bind_eq, timestamp_eq, bind_eq.
  set (w1 := tick _).
  assert (Hw1 : find (at_height n) (block_proposals (w_state w1)) = Some (n, ps1)).
  { simpl. unfold at_height_update. rewrite (find_update_first _ _ _ _ En); [done|].
    intros y. done. }
  destruct (check_old_proposals _ ps1 w1) as [ps2 w2|w2] eqn:E;
    pose proof (f_equal (fun r => block_proposals (w_state (exec_world r))) E) as Hs;
    cbv beta in Hs; rewrite check_old_proposals_bp in Hs; cbn [exec_world] in Hs.
  - rewrite modify_eq. unfold proposals_wf. simpl. rewrite <- Hs.
    eapply bp_wf_update; [exact H1|exact Hw1|]. by eapply check_old_proposals_wf.
  - unfold proposals_wf. simpl. by rewrite <- Hs.
Qed.

Lemma check_next_round_proposals_wf n r : rel keeps_wf (check_next_round_proposals n r).
Proof.
  unfold check_next_round_proposals. intros w Hw. rewrite bind_eq. simpl.
  pose proof (find_round_wf n r _ Hw) as Hf.
  destruct (find_round n r (block_proposals (w_state w))) as [bp found]. rewrite bind_eq, modify_eq.
  set (w1 := upd _ w). assert (Hw1 : proposals_wf (w_state w1)) by exact Hf.
  revert Hw1. generalize w1. clear w1 w Hw Hf.
  change (rel keeps_wf (match found with None => mret false | Some p =>
      match p_block p with None => mret false | Some block =>
          s ← get_state;
          when (should_player_vote s (Some block) r)
            (c ← vote_proposal (fst block) r; update_proposals [c] (Some block)) ;;
          _ ← verify_block_proposal_quorum (get_hash (fst block)) n r; mret true end end)).
  frames.
Qed.

Lemma reset_proposals_wf hash n : rel keeps_wf (reset_proposals hash n).
Proof.
  unfold reset_proposals. repeat (apply rel_bind; [typeclasses eauto| |intros]); frames;
    try (apply rel_modify_keeps; intros s Hs; try exact Hs; by apply bp_wf_filter).
Qed.

Lemma handle_messages_wf msg : rel keeps_wf (handle_messages msg).
Proof.
  destruct msg; simpl; try (apply rel_ret; typeclasses eauto).
  - unfold on_block_confirmation_from_peer. frames.
  - unfold on_block_consolidated. frames.
    + by apply rel_modify_keeps.
    + by apply rel_modify_keeps.
    + apply reset_proposals_wf.
    + by apply quiet_wf, draw_new_leader_frame.
    + by apply rel_modify_keeps.
    + apply quiet_wf, block_consolidated_frame.
  - unfold on_block_from_peer. frames. by apply rel_modify_keeps.
  - unfold on_block_execution_ended. frames.
  - unfold on_check_old_block_proposals. frames. apply check_old_block_proposals_wf.
  - apply quiet_wf, confirm_build_frame.
  - unfold on_block_election_failed. frames.
    + by apply rel_modify_keeps.
    + apply check_next_round_proposals_wf.
    + apply quiet_wf, block_election_failed_frame.
  - unfold on_proposal_after_build. frames. by apply rel_modify_keeps.
  - unfold on_proposal_from_alignment_block. frames. by apply rel_modify_keeps.
  - unfold verify_confirmations_from_peer. frames.
Qed.

Lemma step_wf comm : rel keeps_wf (step comm).
Proof.
  unfold step, dispatch. destruct (kind comm); [apply handle_messages_wf|].
  destruct (res_chan comm); [apply quiet_wf, handle_requests_frame|apply rel_ret; typeclasses eauto].
Qed.

Lemma run_wf comms : rel keeps_wf (run comms).
Proof. apply rel_for_each; [typeclasses eauto|]. intros c _. apply step_wf. Qed.

Lemma start_wf block comms : rel keeps_wf (start block comms).
Proof.
  unfold start. frames.
  - by apply quiet_wf, draw_new_leader_frame.
  - apply quiet_wf. frames.
  - apply run_wf.
Qed.
End service.
End ConsensusService.
