(* ===== verification/ConsensusTheorems.v ===== *)
(** * The consensus service: what its operations do

    Functional specifications of the operations of [ConsensusService], on every
    branch, and the behaviours of its handlers that depend on the proposals. *)

From stdpp Require Import base gmap strings list fin_maps.
From S2P Require Import Prelude Exec Hash Crypto CoreModels Samples Messages ConsensusService.
Open Scope Z_scope.
Import ConsensusService.

#[local] Arguments should_player_vote : simpl never.

Section theorems.
Context `{Hring : Ring} {A B C T : Type} `{HeqC : EqDecision C} `{!Executable B, !Confirmable C}.

Abbreviation cworld := (world (t (B := B) (C := C)) (Effect A B C T) (Answer A B C T)).
Implicit Types (w : cworld) (s : t (B := B) (C := C)) (p : BlockProposal B C).

(** ** Proposals *)

(** C12: from its start, whatever the service receives, it keeps one entry per height and at
    each height one proposal per block hash and round, whose count is the number of
    confirmations it holds (and at least one). *)
Theorem start_proposals_wf kp id ps block s comms ans clk out :
  initial kp id ps block = Some s ->
  proposals_wf (w_state (exec_world (start (A := A) (T := T) block comms (World s ans clk out)))).
Proof.
  intros Hs. apply start_wf. unfold initial in Hs. simpl.
  destruct (Players.players_ids ps !! 0%nat); [|done]. simpl in Hs.
  destruct (match block with Some _ => _ | None => _ end) as [n hash]. injection Hs as <-.
  split; constructor.
Qed.

Lemma find_proposal_wf s n hash r p :
  proposals_wf s -> find_proposal (block_proposals s) n hash r = Some p -> proposal_wf n p /\ key p = (hash, r).
Proof.
  intros Hw (e & He & Hp)%bind_Some. destruct (bp_wf_find _ _ _ Hw He) as [_ [Hf _]].
  apply find_elem in Hp as [Hin Hk]. rewrite Forall_forall in Hf.
  split; [by apply Hf|by apply same_proposal_key].
Qed.

Definition is_a_player s (c : C) : Prop := get_player_id c ∈ Players.players_ids (players s).

Lemma quorum_eq hash n r w p :
  find_proposal (block_proposals (w_state w)) n hash r = Some p ->
  verify_block_proposal_quorum hash n r w =
  match p_block p with
  | Some (block, txs_hashes) =>
      if (n =? height (w_state w) +u64 1) &&
         forallb (fun c => contains (Players.players_ids (players (w_state w))) (get_player_id c))
           (p_received_confirmations p) &&
         (len (Players.players_ids (players (w_state w))) / 2 + 1 <=? p_count p)
      then Ret true (outs [Sent NodeInterface (MkComm (KMsg
             (Msg.StartBlockConsolidation block (p_received_confirmations p) txs_hashes)) None)]
             (upd (set_consolidation_in_progress (Some n)) w))
      else Ret false w
  | None => Ret false w
  end.
Proof.
  intros Hp. unfold verify_block_proposal_quorum. rewrite bind_eq. simpl. rewrite Hp, bind_eq. simpl.
  destruct (n =? _); [|by destruct (p_block p) as [[? ?]|]]. destruct (p_block p) as [[block hs]|]; [|done].
  destruct (forallb _ _); [|done]. cbn [negb andb]. by destruct (_ <=? _).
Qed.

(** C7: the quorum check panics when there is no such proposal; otherwise it starts the
    consolidation, once, with the block and all the confirmations of the proposal,
    exactly when the proposal is for the next height, has its block, is confirmed by
    current players only, and by more than half as many confirmations as players; in
    every other case it changes nothing. *)
Theorem quorum_spec hash n r w :
  proposals_wf (w_state w) ->
  let ids := Players.players_ids (players (w_state w)) in
  match find_proposal (block_proposals (w_state w)) n hash r with
  | None => verify_block_proposal_quorum hash n r w = Panic w
  | Some p =>
      (forall block txs_hashes,
         p_block p = Some (block, txs_hashes) -> n = height (w_state w) +u64 1 ->
         Forall (is_a_player (w_state w)) (p_received_confirmations p) ->
         len ids < 2 * len (p_received_confirmations p) ->
         verify_block_proposal_quorum hash n r w =
         Ret true (outs [Sent NodeInterface (MkComm (KMsg
           (Msg.StartBlockConsolidation block (p_received_confirmations p) txs_hashes)) None)]
           (upd (set_consolidation_in_progress (Some n)) w))) /\
      (p_block p = None \/ n <> height (w_state w) +u64 1 \/
       ~ Forall (is_a_player (w_state w)) (p_received_confirmations p) \/
       2 * len (p_received_confirmations p) <= len ids ->
       verify_block_proposal_quorum hash n r w = Ret false w)
  end.
Proof.
  intros Hw ids. destruct (find_proposal _ n hash r) as [p|] eqn:Hp.
  2:{ unfold verify_block_proposal_quorum. rewrite bind_eq. simpl. by rewrite Hp. }
  destruct (find_proposal_wf _ _ _ _ _ Hw Hp) as [(_ & Hc & _) _].
  rewrite (quorum_eq _ _ _ _ _ Hp), Hc. fold ids.
  assert (Hids : forallb (fun c => contains ids (get_player_id c)) (p_received_confirmations p) = true <->
                 Forall (is_a_player (w_state w)) (p_received_confirmations p)).
  { rewrite forallb_elem, Forall_forall. by setoid_rewrite contains_true. }
  assert (Hq : forall x y, x / 2 + 1 <= y <-> x < 2 * y) by (intros; pose proof (Z.div_mod x 2); pose proof (Z.mod_pos_bound x 2); lia).
  split.
  - intros block hs -> -> Hf Hl. apply Hids in Hf. rewrite Hf, Z.eqb_refl.
    by replace (len ids / 2 + 1 <=? len (p_received_confirmations p)) with true by (symmetry; apply Z.leb_le, Hq; lia).
  - destruct (p_block p) as [[block hs]|]; [|done]. intros [?|[Hn|[Hf|Hl]]]; [done| | |].
    + by replace (n =? height (w_state w) +u64 1) with false by lia.
    + replace (forallb _ _) with false; [by rewrite andb_false_r|].
      symmetry. apply not_true_iff_false. by rewrite Hids.
    + replace (len ids / 2 + 1 <=? len (p_received_confirmations p)) with false; [by rewrite andb_false_r|].
      symmetry. apply Z.leb_gt. apply Z.nle_gt. rewrite Hq. lia.
Qed.

(** ** [update_proposals] *)

Lemma find_update_other {X} (q q' : X -> bool) f l :
  (forall x, q x = true -> q' x = false) -> (forall x, q x = true -> q' (f x) = false) ->
  find q' (update_first q f l) = find q' l.
Proof.
  intros H1 H2. induction l as [|x l IH]; simpl; [done|]. destruct (q x) eqn:E; simpl.
  - by rewrite (H1 x E), (H2 x E).
  - by rewrite IH.
Qed.

Lemma at_height_false n m (e : Z * list (BlockProposal B C)) : at_height n e = true -> n <> m -> at_height m e = false.
Proof. unfold at_height. intros ?%Z.eqb_eq Hne. apply Z.eqb_neq. congruence. Qed.

Lemma add_confirmations_received block cs p :
  forall c, c ∈ p_received_confirmations (fold_left (add_confirmation block) cs p) <->
            c ∈ p_received_confirmations p \/ c ∈ cs.
Proof.
  revert p. induction cs as [|c0 cs IH]; intros p c; simpl.
  { split; [by left|]. by intros [?|?%not_elem_of_nil]. }
  rewrite IH.
  assert (Hr : p_received_confirmations (add_confirmation block p c0) =
               if contains (p_received_confirmations p) c0 then p_received_confirmations p
               else p_received_confirmations p ++ [c0]).
  { unfold add_confirmation. by destruct (contains _ c0); repeat case_match. }
  rewrite Hr, elem_of_cons. destruct (contains _ c0) eqn:Ec.
  - apply contains_true in Ec. split; [intros [?|?]|intros [?|[->|?]]]; auto.
  - rewrite elem_of_app, list_elem_of_singleton. tauto.
Qed.

Lemma add_confirmations_nodup block cs p :
  NoDup (p_received_confirmations p) ->
  NoDup (p_received_confirmations (fold_left (add_confirmation block) cs p)).
Proof.
  revert p. induction cs as [|c0 cs IH]; intros p Hn; simpl; [done|]. apply IH.
  assert (Hr : p_received_confirmations (add_confirmation block p c0) =
               if contains (p_received_confirmations p) c0 then p_received_confirmations p
               else p_received_confirmations p ++ [c0]).
  { unfold add_confirmation. by destruct (contains _ c0); repeat case_match. }
  rewrite Hr. destruct (contains _ c0) eqn:Ec; [done|]. apply contains_false in Ec.
  apply NoDup_app. split_and!; [done| |apply NoDup_singleton].
  by intros x Hx ->%list_elem_of_singleton.
Qed.

(** The proposal of a hash and round at a height, after an update *)
Definition new_or_extended (cs : list C) (block : option (B * list Hash)) (hash : Hash) (n r now : Z)
    (o : option (BlockProposal B C)) : BlockProposal B C :=
  match o with
  | Some p => fold_left (add_confirmation block) cs p
  | None => BlockProposals.new block hash n cs r now
  end.

Lemma updated_find cs block now bp bp' c :
  bp_wf bp -> hd_error cs = Some c -> updated cs block now bp = Some bp' ->
  let '(hash, n, r) := (get_block_hash c, get_block_height c, get_block_round c) in
  find_proposal bp' n hash r = Some (new_or_extended cs block hash n r now (find_proposal bp n hash r)) /\
  (forall n' hash' r', (n', hash', r') <> (n, hash, r) ->
     find_proposal bp' n' hash' r' = find_proposal bp n' hash' r').
Proof.
  intros Hw Hc. unfold updated. rewrite Hc. simpl. intros [= <-].
  set (hash := get_block_hash c). set (n := get_block_height c). set (r := get_block_round c).
  unfold find_proposal at 2. destruct (find (at_height n) bp) as [[m ps]|] eqn:En; simpl.
  - destruct (bp_wf_find _ _ _ Hw En) as [Hm [Hps _]]. simpl in Hm. subst m.
    destruct (find (same_proposal hash r) ps) as [p|] eqn:Ep; simpl.
    + assert (Hp : proposal_wf n p). { apply find_elem in Ep as [? _]. rewrite Forall_forall in Hps. by apply Hps. }
      split.
      * unfold find_proposal, at_height_update. rewrite (find_update_first _ _ _ _ En) by done. simpl.
        rewrite (find_update_first _ _ _ _ Ep); [done|]. intros y.
        apply eq_iff_eq_true. rewrite !same_proposal_key. split; intros Hk.
        -- rewrite <- Hk. symmetry. apply add_confirmations_key.
        -- rewrite <- Hk. apply add_confirmations_key.
      * intros n' hash' r' Hne. unfold find_proposal, at_height_update.
        destruct (decide (n' = n)) as [->|Hn].
        -- rewrite (find_update_first _ _ _ _ En) by done. rewrite En. simpl.
           apply find_update_other.
           ++ intros x Hx%same_proposal_key. apply not_true_iff_false. rewrite same_proposal_key. congruence.
           ++ intros x Hx%same_proposal_key. apply not_true_iff_false.
              rewrite same_proposal_key, add_confirmations_key. congruence.
        -- rewrite find_update_other; [done| |]; intros x Hx; by eapply at_height_false.
    + split.
      * unfold find_proposal, at_height_update. rewrite (find_update_first _ _ _ _ En) by done. simpl.
        rewrite find_app, Ep. simpl. unfold same_proposal. simpl. by rewrite bool_decide_true, Z.eqb_refl.
      * intros n' hash' r' Hne. unfold find_proposal, at_height_update.
        destruct (decide (n' = n)) as [->|Hn].
        -- rewrite (find_update_first _ _ _ _ En) by done. rewrite En. simpl.
           rewrite find_app. destruct (find (same_proposal hash' r') ps) eqn:Ef; [reflexivity|]. simpl.
           replace (same_proposal hash' r' _) with false; [done|]. symmetry.
           apply not_true_iff_false. rewrite same_proposal_key. unfold key. simpl. congruence.
        -- rewrite find_update_other; [done| |]; intros x Hx; by eapply at_height_false.
  - split.
    + unfold find_proposal. rewrite find_app, En. simpl. unfold at_height. simpl. rewrite Z.eqb_refl. simpl.
      unfold same_proposal. simpl. by rewrite bool_decide_true, Z.eqb_refl.
    + intros n' hash' r' Hne. unfold find_proposal. rewrite find_app.
      destruct (find (at_height n') bp) as [e|] eqn:En'; [done|]. simpl. unfold at_height at 1. simpl.
      destruct (n =? n') eqn:Enn; [|done]. apply Z.eqb_eq in Enn. subst n'. simpl.
      replace (same_proposal hash' r' _) with false; [done|]. symmetry.
      apply not_true_iff_false. rewrite same_proposal_key. unfold key. simpl. congruence.
Qed.

(** Confirmations for a block (their first one tells which) are recorded in one
    proposal: an existing one gains those it lacks, and never holds one twice; else one
    is made of them. No other proposal changes, and nothing is sent. *)
Theorem update_proposals_spec c cs block w :
  proposals_wf (w_state w) ->
  let '(hash, n, r) := (get_block_hash c, get_block_height c, get_block_round c) in
  let old := find_proposal (block_proposals (w_state w)) n hash r in
  exists w' p', update_proposals (c :: cs) block w = Ret tt w' /\ w_out w' = w_out w /\
    find_proposal (block_proposals (w_state w')) n hash r = Some p' /\
    (forall x, x ∈ p_received_confirmations p' <->
       x ∈ c :: cs \/ exists p, old = Some p /\ x ∈ p_received_confirmations p) /\
    (forall p, old = Some p -> NoDup (p_received_confirmations p) -> NoDup (p_received_confirmations p')) /\
    (forall n' hash' r', (n', hash', r') <> (n, hash, r) ->
       find_proposal (block_proposals (w_state w')) n' hash' r' =
       find_proposal (block_proposals (w_state w)) n' hash' r').
Proof.
  intros Hw. cbv zeta beta.
  pose proof (update_proposals_eq (c :: cs) block w) as He.
  destruct (updated (c :: cs) block (now w) (block_proposals (w_state w))) as [bp|] eqn:E; [|done].
  pose proof (updated_find (c :: cs) block (now w) _ bp c Hw eq_refl E) as [Hf Ho].
  set (old := find_proposal (block_proposals (w_state w)) _ _ _) in *. clearbody old.
  destruct He as (w0 & He & Hw0). rewrite He. eexists _, _. split; [done|]. simpl.
  split; [by destruct Hw0 as [->| ->]|]. split; [exact Hf|]. split_and!; [| |exact Ho].
  - intros x. destruct old as [p|]; simpl.
    + etrans; [exact (add_confirmations_received block (c :: cs) p x)|]. split.
      * intros [?|?]; [right; eauto|by left].
      * intros [?|(p0 & [= ->] & ?)]; [by right|by left].
    + split; [by left|]. by intros [?|(p0 & [=] & _)].
  - intros p -> Hn. by apply (add_confirmations_nodup block (c :: cs) p).
Qed.

Lemma update_proposals_run cs c block w :
  proposals_wf (w_state w) -> hd_error cs = Some c ->
  exists w', update_proposals cs block w = Ret tt w' /\ proposals_wf (w_state w') /\
    is_Some (find_proposal (block_proposals (w_state w')) (get_block_height c) (get_block_hash c) (get_block_round c)) /\
    set_block_proposals [] (w_state w') = set_block_proposals [] (w_state w).
Proof.
  intros Hw Hc. pose proof (update_proposals_eq cs block w) as He.
  destruct (updated cs block (now w) (block_proposals (w_state w))) as [bp|] eqn:E.
  2:{ unfold updated in E. by rewrite Hc in E. }
  pose proof (updated_find cs block (now w) _ bp c Hw Hc E) as [Hf _].
  destruct He as (w0 & He & Hw0). rewrite He. eexists. split; [done|]. simpl. split_and!.
  - by eapply updated_wf.
  - rewrite Hf. eauto.
  - by destruct Hw0 as [->| ->].
Qed.

(** The quorum check panics only when there is no such proposal. *)
Lemma quorum_runs hash n r w :
  is_Some (find_proposal (block_proposals (w_state w)) n hash r) ->
  exists b w', verify_block_proposal_quorum hash n r w = Ret b w'.
Proof.
  intros [p Hp]. rewrite (quorum_eq _ _ _ _ _ Hp). destruct (p_block p) as [[block hs]|]; [|eauto].
  destruct (_ && _); eauto.
Qed.

(** A block that comes back from execution is handled without panic when the service
    still holds its proposal in the present round, and panics otherwise: a change of
    round while the block is executed ends the service. *)
Theorem execution_ended_panics block txs_hashes w :
  proposals_wf (w_state w) ->
  panicked (on_block_execution_ended (A := A) (T := T) block txs_hashes w) =
  match find_proposal (block_proposals (w_state w)) (get_height block) (get_hash block)
          (actual_round (w_state w)) with Some _ => false | None => true end.
Proof.
  intros Hw. unfold on_block_execution_ended. rewrite bind_eq. simpl.
  destruct (find_proposal _ _ _ _) as [p|] eqn:Hp; rewrite bind_eq; [|done]. cbn [expect mret M_ret].
  destruct (find_proposal_wf _ _ _ _ _ Hw Hp) as [(_ & _ & Hhd) Hk]. injection Hk as Hk1 Hk2.
  destruct Hhd as (c & rest & Hr & Eh & En & Er). rewrite Hk1 in Eh. rewrite Hk2 in Er.
  rewrite bind_eq.
  match goal with |- context [if should_player_vote ?a ?b ?r then ?x else ?y] =>
    set (vote := if should_player_vote a b r then x else y) end.
  assert (Hvote : exists cs w1, vote w = Ret cs w1 /\ hd_error cs = Some c /\ proposals_wf (w_state w1) /\
            actual_round (w_state w1) = actual_round (w_state w)).
  { subst vote. destruct (should_player_vote _ _ _); [|exists (p_received_confirmations p), w; by rewrite Hr].
    rewrite bind_eq. unfold vote_proposal. rewrite bind_eq, modify_eq, bind_eq. simpl. eexists _, _.
    split; [done|]. rewrite Hr. by split_and!. }
  destruct Hvote as (cs & w1 & -> & Hcs & Hw1 & Hround). rewrite bind_eq.
  destruct (update_proposals_run cs c (Some (block, txs_hashes)) w1 Hw1 Hcs) as (w2 & -> & _ & Hfind & Hrest).
  rewrite bind_eq. simpl. unfold when. case_bool_decide; [|done]. rewrite bind_eq.
  assert (Hr2 : actual_round (w_state w2) = actual_round (w_state w)).
  { rewrite <- Hround. by injection Hrest. }
  rewrite Eh, En, Er, <- Hr2 in Hfind.
  destruct (quorum_runs _ _ _ _ Hfind) as (b & w3 & Eq). by rewrite Eq.
Qed.

(** ** Confirmations from a peer *)

(** Confirmations from a peer are dropped, with no effect, when any of them is not signed
    by its player or not from a current player, or when they are not for the next height
    or for a past round; and then nothing at all has changed. *)
Theorem verify_confirmations_rejects c cs block w :
  let s := w_state w in
  (Exists (fun x => ~ is_a_player s x \/ conf_verify x = false) (c :: cs) \/
   get_block_height c <> height s +u64 1 \/ get_block_round c < actual_round s) ->
  verify_confirmations_from_peer (c :: cs) block w = Ret tt w.
Proof.
  intros s Hbad. unfold verify_confirmations_from_peer. rewrite bind_eq. simpl hd_error. cbn [expect mret M_ret].
  rewrite bind_eq. cbn [get_state]. fold s. replace (existsb _ _ || _ || _) with true; [done|]. symmetry.
  rewrite !orb_true_iff. destruct Hbad as [Hex|[Hn|Hr]].
  - left. left. apply existsb_elem. apply Exists_exists in Hex as (x & Hx & Hb). exists x. split; [done|].
    rewrite orb_true_iff, !negb_true_iff, contains_false. unfold is_a_player in Hb. tauto.
  - left. right. apply negb_true_iff. lia.
  - right. lia.
Qed.

Lemma retrieve_confirmations_S fuel attempt p :
  retrieve_confirmations (A := A) (T := T) (S fuel) attempt p =
  if Consts.MAX_REQ_ATTEMPTS <? attempt then mret None
  else
    r ← send_req ConsensusService NodeInterface
          (Req.GetConfirmations (p_block_height p) (p_block_hash p) (bool_decide (p_block p = None)));
    match r with
    | Ok (Res.GetConfirmations (Some confirmations) block) => mret (Some (confirmations, block))
    | _ => retrieve_confirmations fuel (attempt +u8 1) p
    end.
Proof. reflexivity. Qed.

(** A message of confirmations that holds none ends the service. It can come from a peer:
    the thread that asks for missing confirmations passes an empty answer on, and the
    confirmations of an alignment block are passed on without a check that there are
    any. *)
Theorem no_confirmations_panic p w ans clk out :
  (exists v, retrieve_confirmations_thread (A := A) (T := T) p
      (World tt (Delivered (Res.GetConfirmations (Some []) None) :: ans) clk out) = Ret tt v /\
    w_out v = out ++ [Sent NodeInterface (MkComm (KReq (Req.GetConfirmations (p_block_height p) (p_block_hash p)
                                                 (bool_decide (p_block p = None)))) (Some ConsensusService));
                      Sent ConsensusService (MkComm (KMsg (Msg.VerifyConfirmations (A := A) (T := T) None [])) None)]) /\
  handle_messages (Msg.VerifyConfirmations None []) w = Panic w /\
  handle_messages (Msg.ProposalFromAlignmentBlock []) w = Panic w.
Proof.
  split; [|done]. unfold retrieve_confirmations_thread, attempts_fuel.
  rewrite retrieve_confirmations_S. replace (Consts.MAX_REQ_ATTEMPTS <? 0) with false by done.
  unfold mbind, M_bind, send_req, send_msg, emit. simpl.
  eexists. split; [reflexivity|]. simpl. by rewrite <- app_assoc.
Qed.

(** ** Rounds *)

Lemma find_round_found n r bp p :
  bp_wf bp -> snd (find_round n r bp) = Some p ->
  p_round p = r /\ exists ps, find (at_height n) bp = Some (n, ps) /\ p ∈ ps /\
    forall q, q ∈ ps -> p_round q = r -> p_count q <= p_count p.
Proof.
  intros [Hnd _]. revert Hnd. induction bp as [|[m ps] bp IH]; simpl; [done|]. intros Hnd.
  apply NoDup_cons in Hnd as [Hm Hnd]. unfold at_height at 1. simpl.
  destruct (m =? n) eqn:E.
  - apply Z.eqb_eq in E. subst m.
    destruct (find (fun p => p_round p =? r) (sort_desc p_count ps)) as [p0|] eqn:Ep; simpl.
    + intros [= ->]. pose proof (find_elem _ _ _ Ep) as [Hin Hr]. split; [by apply Z.eqb_eq|].
      exists ps. split; [done|]. rewrite sort_desc_perm in Hin. split; [done|].
      intros q Hq Hqr. eapply (find_sorted_max p_count); [apply sort_desc_sorted|exact Ep| |by apply Z.eqb_eq].
      by rewrite sort_desc_perm.
    + destruct (find_round n r bp) as [bp' o] eqn:Ef. simpl. intros ->.
      destruct (IH Hnd eq_refl) as (Hr & ps' & Hf & _). apply find_elem in Hf as [Hin _].
      destruct Hm. apply list_elem_of_fmap. by exists (n, ps').
  - destruct (find_round n r bp) as [bp' o] eqn:Ef. simpl. intros ->. by apply IH.
Qed.

(** Entering a round, the service looks at the proposal of that height and round with the
    most confirmations: none of them has more than the one it takes. *)
Theorem check_next_round_best n r w p :
  proposals_wf (w_state w) -> snd (find_round n r (block_proposals (w_state w))) = Some p ->
  p_round p = r /\
  forall hash q, find_proposal (block_proposals (w_state w)) n hash r = Some q ->
    len (p_received_confirmations q) <= len (p_received_confirmations p).
Proof.
  intros Hw Hp. destruct (find_round_found _ _ _ _ Hw Hp) as (Hr & ps & Hf & Hin & Hmax). split; [done|].
  intros hash q Hq. destruct (find_proposal_wf _ _ _ _ _ Hw Hq) as [(_ & Hc & _) Hk].
  destruct (bp_wf_find _ _ _ Hw Hf) as [_ [Hps _]]. rewrite Forall_forall in Hps.
  destruct (Hps p Hin) as (_ & Hcp & _). rewrite <- Hc, <- Hcp. apply Hmax.
  - unfold find_proposal in Hq. rewrite Hf in Hq. simpl in Hq. by apply find_elem in Hq as [? _].
  - by injection Hk.
Qed.

(** ** A consolidated block *)

(** When a block is consolidated the service restarts at round 0 on top of it, with no
    consolidation in progress and no proposal or collected block for its height or
    lower. *)
Theorem block_consolidated_resets block ps w :
  let w' := exec_world (on_block_consolidated (A := A) (T := T) block ps w) in
  actual_round (w_state w') = 0 /\ height (w_state w') = get_height block /\
  last_block_hash (w_state w') = get_hash block /\ players (w_state w') = ps /\
  Forall (fun entry => get_height block < fst entry) (block_proposals (w_state w')) /\
  blocks_collector (w_state w') !! get_height block = None /\
  (panicked (on_block_consolidated (A := A) (T := T) block ps w) = false ->
   consolidation_in_progress (w_state w') = None).
Proof.
  unfold on_block_consolidated. rewrite bind_eq, modify_eq, bind_eq, modify_eq, bind_eq.
  set (n := get_height block). set (w1 := upd _ (upd _ w)).
  assert (Hreset : exists w2, reset_proposals (A := A) (T := T) (get_hash block) n w1 = Ret tt w2 /\
    actual_round (w_state w2) = 0 /\ height (w_state w2) = n /\ last_block_hash (w_state w2) = get_hash block /\
    players (w_state w2) = ps /\ Forall (fun entry => n < fst entry) (block_proposals (w_state w2)) /\
    blocks_collector (w_state w2) !! n = None).
  { unfold reset_proposals. rewrite bind_eq, modify_eq, bind_eq, modify_eq, bind_eq, modify_eq, bind_eq. simpl.
    rewrite bind_eq. unfold when.
    assert (Hf : Forall (fun entry => n < fst entry)
      (List.filter (fun '(height, _) => negb (height <=? n)) (block_proposals (w_state w)))).
    { apply Forall_forall. intros [m x] [_ Hm]%elem_of_filter_list. simpl. lia. }
    destruct (is_player _); eexists; (split; [done|]); simpl; split_and!; try done; by rewrite lookup_delete_eq. }
  destruct Hreset as (w2 & -> & H1 & H2 & H3 & H4 & H5 & H6). rewrite bind_eq.
  set (core := fun s => (actual_round s, height s, last_block_hash s, players s, block_proposals s, blocks_collector s)).
  assert (Hd : same_proj core w2 (exec_world (draw_new_leader (A := A) (T := T) block w2))) by by apply draw_new_leader_frame.
  unfold same_proj, core in Hd.
  destruct (draw_new_leader block w2) as [[] w3|w3] eqn:Ed; simpl in Hd; injection Hd as D1 D2 D3 D4 D5 D6.
  - rewrite bind_eq, modify_eq. set (w4 := upd _ w3).
    pose proof (block_consolidated_frame (A := A) (T := T) (fun s => (core s, consolidation_in_progress s)) n w4) as Hc.
    unfold same_proj, core in Hc. simpl in Hc. injection Hc as C1 C2 C3 C4 C5 C6 C7.
    split_and!; congruence.
  - simpl. split_and!; congruence.
Qed.

(** The votes cast are pruned the wrong way: when a block is consolidated a player keeps
    the record of its votes up to that height, for ever, and forgets those for later
    heights. *)
Theorem exit_poll_after_reset hash n w :
  is_player (w_state w) = true ->
  proposal_exit_poll (w_state (exec_world (reset_proposals (A := A) (T := T) hash n w))) =
  List.filter (fun '(m, _) => m <=? n) (proposal_exit_poll (w_state w)).
Proof.
  intros Hp. unfold reset_proposals. rewrite bind_eq, modify_eq, bind_eq, modify_eq, bind_eq, modify_eq, bind_eq. simpl.
  rewrite bind_eq. unfold is_player in *. simpl. by rewrite Hp.
Qed.

(** ** Asking for confirmations *)

Definition confirmations_req p : Effect A B C T :=
  Sent NodeInterface (MkComm (KReq (Req.GetConfirmations (p_block_height p) (p_block_hash p)
    (bool_decide (p_block p = None)))) (Some ConsensusService)).

Lemma retrieve_confirmations_run fuel attempt p (v : world unit (Effect A B C T) (Answer A B C T)) :
  0 <= attempt <= 6 -> 7 - attempt <= Z.of_nat fuel ->
  exists r v' es, retrieve_confirmations fuel attempt p v = Ret r v' /\ w_out v' = w_out v ++ es /\
    len es <= 6 - attempt /\ Forall (fun e => e = confirmations_req p) es /\
    (forall cs block, r = Some (cs, block) -> Delivered (Res.GetConfirmations (Some cs) block) ∈ w_answers v).
Proof.
  revert attempt v. induction fuel as [|fuel IH]; intros attempt v Ha Hf; [lia|].
  rewrite retrieve_confirmations_S. unfold Consts.MAX_REQ_ATTEMPTS.
  destruct (5 <? attempt) eqn:E.
  { eexists _, v, []. rewrite app_nil_r. split_and!; try done. unfold len; simpl; lia. }
  assert (Hn : u8_add attempt 1 = attempt + 1) by (unfold u8_add, u8_wrap; apply Z.mod_small; lia).
  destruct v as [st ans clk out]. rewrite bind_eq. unfold send_req. rewrite bind_eq.
  assert (Hretry : forall ans' out', (forall x, x ∈ ans' -> x ∈ ans) -> (out' = out \/ out' = out ++ [confirmations_req p]) ->
    exists r v' es, retrieve_confirmations fuel (attempt +u8 1) p (World st ans' clk out') = Ret r v' /\
      w_out v' = out ++ es /\ len es <= 6 - attempt /\ Forall (fun e => e = confirmations_req p) es /\
      (forall cs block, r = Some (cs, block) -> Delivered (Res.GetConfirmations (Some cs) block) ∈ ans)).
  { intros ans' out' Hans Hout. rewrite Hn.
    destruct (IH (attempt + 1) (World st ans' clk out') ltac:(lia) ltac:(lia)) as (r & v' & es & H1 & H2 & H3 & H4 & H5).
    simpl in *. destruct Hout as [->| ->].
    - exists r, v', es. split_and!; eauto. lia.
    - exists r, v', (confirmations_req p :: es). rewrite H2, <- app_assoc.
      split_and!; eauto; [unfold len in *; simpl in *; lia]. }
  unfold next_answer. simpl w_answers. destruct ans as [|[res| |] ans'].
  - apply Hretry; [done|by right].
  - assert (Hsub : forall x, x ∈ ans' -> x ∈ Delivered res :: ans') by (intros; by right).
    destruct res; try (apply Hretry; [done|by right]). destruct cs as [cs|]; [|apply Hretry; [done|by right]].
    eexists (Some (cs, block)), _, [confirmations_req p]. split; [reflexivity|]. split_and!; [done| | |].
    + unfold len; simpl; lia.
    + by constructor.
    + intros ? ? [= <- <-]. left.
  - apply Hretry; [by intros; right|by right].
  - apply Hretry; [by intros; right|by left].
Qed.

(** Asking a peer for the confirmations of an old proposal ends, after at most six
    requests, all the same; what it returns is an answer it received. *)
Theorem retrieve_confirmations_ends p (v : world unit (Effect A B C T) (Answer A B C T)) :
  exists r v' es, retrieve_confirmations attempts_fuel 0 p v = Ret r v' /\
    w_out v' = w_out v ++ es /\ len es <= 6 /\ Forall (fun e => e = confirmations_req p) es /\
    (forall cs block, r = Some (cs, block) -> Delivered (Res.GetConfirmations (Some cs) block) ∈ w_answers v).
Proof.
  destruct (retrieve_confirmations_run attempts_fuel 0 p v ltac:(lia) ltac:(unfold attempts_fuel; simpl; lia))
    as (r & v' & es & H). exists r, v', es. exact H.
Qed.

(** ** The leader *)

Lemma zip_wf_weights (ps : Players.t) :
  Players.wf ps -> map snd (zip (Players.players_ids ps) (Players.weights ps)) = Players.weights ps.
Proof.
  intros (_ & Hl & _). revert Hl. generalize (Players.players_ids ps) as ids. generalize (Players.weights ps) as ws.
  induction ws as [|x ws IH]; intros [|id ids] Hl; simpl in *; try done. f_equal. apply IH. lia.
Qed.

Lemma zip_weights_nonneg (ps : Players.t) :
  Players.wf ps -> Forall (fun '(_, x) => 0 <= x) (zip (Players.players_ids ps) (Players.weights ps)).
Proof.
  intros (_ & _ & Hw). apply Forall_forall. intros [id x] Hin.
  rewrite Forall_forall in Hw. apply Hw. by eapply elem_of_zip_r.
Qed.

(** With several players, any number the DRand service can answer draws a leader: a player
    of positive weight. The request asks for a number below the total weight. *)
Theorem draw_new_leader_spec block w n ans :
  let ps := players (w_state w) in
  let total := fold_right Z.add 0 (Players.weights ps) in
  Players.wf ps -> 1 < len (Players.players_ids ps) -> total <= u64_max ->
  w_answers w = Delivered (Res.GetDRandNum n) :: ans -> 0 <= n <= total - 1 ->
  exists w' x, draw_new_leader (A := A) (T := T) block w = Ret tt w' /\
    (leader (w_state w'), x) ∈ zip (Players.players_ids ps) (Players.weights ps) /\ 0 < x /\
    w_out w' = w_out w ++
      [Sent DRandService (MkComm (KMsg (Msg.UpdateSeedSource (get_hash block) (get_txs_hash block) (get_rxs_hash block))) None);
       Sent DRandService (MkComm (KReq (Req.GetDRandNum (total - 1))) (Some ConsensusService))].
Proof.
  intros ps total Hwf Hlen Htot Hans Hn. pose proof Hwf as (Hnd & Hl & Hw).
  assert (Ht : Players.total_weight ps = total) by by apply Players.total_weight_sum.
  pose proof (Players.length_weighted _ (zip_weights_nonneg ps Hwf)) as Hlw.
  rewrite (zip_wf_weights ps Hwf) in Hlw. fold total in Hlw.
  destruct (lookup_lt_is_Some_2 (Players.weighted (zip (Players.players_ids ps) (Players.weights ps))) (Z.to_nat n))
    as [id Hid]; [lia|].
  pose proof (list_elem_of_lookup_2 _ _ _ Hid) as Hin. apply Players.elem_of_weighted in Hin as (x & Hx & Hpos).
  destruct w as [s ans0 clk out]. simpl in Hans, Hlen. subst ans0. unfold draw_new_leader.
  unfold send_req, send_msg, emit, gets, mbind, M_bind. simpl. change (players s) with ps.
  replace (1 <? len (Players.players_ids ps)) with true by (symmetry; by apply Z.ltb_lt). simpl.
  rewrite Players.get_weighted_player_ids_eq, Hid. simpl.
  rewrite Ht, u64_sub_small by lia.
  eexists _, x. split; [reflexivity|]. simpl. split_and!; [done|done|]. by rewrite <- app_assoc.
Qed.

(** A player stands in the weighted list, from which the leader is drawn, as many times as
    its weight, and the list is as long as the total weight. *)
Theorem weighted_ids_spec (ps : Players.t) i id x :
  Players.wf ps -> Players.players_ids ps !! i = Some id -> Players.weights ps !! i = Some x ->
  Players.count_occ_string (Players.get_weighted_player_ids ps) id = Z.to_nat x /\
  len (Players.get_weighted_player_ids ps) = fold_right Z.add 0 (Players.weights ps).
Proof.
  intros Hwf Hi Hx. rewrite Players.get_weighted_player_ids_eq. split.
  - destruct Hwf as (Hnd & _). by eapply Players.count_occ_weighted.
  - unfold len. rewrite Players.length_weighted by by apply zip_weights_nonneg. by rewrite zip_wf_weights.
Qed.

(** When the weights of several players sum to zero, the service asks for a number up to
    the largest 64-bit one, which the DRand service cannot draw. *)
Theorem zero_weights_request block w :
  let ps := players (w_state w) in
  1 < len (Players.players_ids ps) -> Forall (fun x => x = 0) (Players.weights ps) ->
  Sent DRandService (MkComm (KReq (Req.GetDRandNum u64_max)) (Some ConsensusService)) ∈
    w_out (exec_world (draw_new_leader (A := A) (T := T) block w)) \/
  head (w_answers w) = Some Disconnected.
Proof.
  intros ps Hlen Hz.
  assert (Ht : Players.total_weight ps = 0).
  { unfold Players.total_weight. clear Hlen. induction Hz as [|x l -> _ IH]; simpl; [done|]. exact IH. }
  destruct w as [s ans clk out]. simpl in *. unfold draw_new_leader.
  unfold send_req, send_msg, emit, gets, next_answer, mbind, M_bind. simpl. change (players s) with ps.
  replace (1 <? len (Players.players_ids ps)) with true by (symmetry; by apply Z.ltb_lt). simpl.
  rewrite Ht. change (0 -u64 1) with u64_max.
  destruct ans as [|[res| |] ans]; simpl; [left|left|left|by right];
    [|destruct res; simpl; [| |destruct (_ !! _)|..]|]; simpl; rewrite !elem_of_app; right; left.
Qed.
End theorems.

(** ** Witnesses *)

Module ConsensusSample.
#[local] Existing Instances Samples.ring Samples.block_executable Samples.conf_confirmable Samples.conf_eq_dec.

Abbreviation sworld :=
  (world (t (B := Samples.block) (C := Samples.conf))
     (Effect Z Samples.block Samples.conf Samples.tx) (Answer Z Samples.block Samples.conf Samples.tx)).

(** Three players, the node being the first; height 0 *)
Definition abc : Players.t := Players.Mk ["a"; "b"; "c"] [1; 2; 3].
Definition state : t (B := Samples.block) (C := Samples.conf) := Mk 0 ∅ [] None 0 (Samples.keypair "a") (Samples.hash 0) "a" "a" abc [].
Definition b1 : Samples.block := Samples.blk "b" 7 1 0.
Definition after (msgs : list (Msg.t Z Samples.block Samples.conf Samples.tx)) : sworld :=
  exec_world (run (map (fun m => MkComm (KMsg m) None) msgs) (World state [] (10, []) [])).
(** The block of b received, with its vote, and executed: the node has voted too. *)
Definition proposed : sworld := after [Msg.BlockFromPeer b1 (Samples.vote "b" 7 1 0) [Samples.hash 3]].

Lemma after_wf msgs : proposals_wf (w_state (after msgs)).
Proof. apply (run_wf _ (World state [] (10, []) [])). split; constructor. Qed.

Lemma start_proposals_wf_witness :
  proposals_wf (w_state (exec_world (start (A := Z) (T := Samples.tx) None
    [MkComm (KMsg (Msg.BlockFromPeer b1 (Samples.vote "b" 7 1 0) [Samples.hash 3])) None]
    (World (Mk 0 ∅ [] None 0 (Samples.keypair "a") Hashes.default "a" "a" abc []) [] (10, []) [])))).
Proof. apply (start_proposals_wf (Samples.keypair "a") "a" abc None). reflexivity. Defined.

(** Two of three players are a quorum: the executed block is consolidated. *)
Lemma quorum_spec_witness :
  exists w', verify_block_proposal_quorum (A := Z) (T := Samples.tx) (Samples.hash 7) 1 0
    (upd (set_consolidation_in_progress None)
       (after [Msg.BlockFromPeer b1 (Samples.vote "b" 7 1 0) [Samples.hash 3];
               Msg.BlockExecutionEnded b1 [Samples.hash 3]])) = Ret true w'.
Proof.
  set (w := upd _ _).
  pose proof (quorum_spec (A := Z) (T := Samples.tx) (Samples.hash 7) 1 0 w
    (after_wf [Msg.BlockFromPeer b1 (Samples.vote "b" 7 1 0) [Samples.hash 3];
               Msg.BlockExecutionEnded b1 [Samples.hash 3]])) as H.
  destruct (find_proposal (block_proposals (w_state w)) 1 (Samples.hash 7) 0) as [p|] eqn:E.
  - vm_compute in E. injection E as <-. eexists. apply (proj1 H b1 [Samples.hash 3]).
    + reflexivity.
    + vm_compute. reflexivity.
    + apply Forall_forall. intros c Hc. apply list_elem_of_In in Hc. unfold is_a_player.
      apply list_elem_of_In. destruct Hc as [<-|[<-|[]]]; vm_compute; auto.
    + vm_compute. reflexivity.
  - vm_compute in E. discriminate.
Defined.

Lemma update_proposals_spec_witness :
  exists (w' : sworld) p', update_proposals [Samples.vote "c" 7 1 0; Samples.vote "b" 7 1 0] None proposed = Ret tt w' /\
    find_proposal (block_proposals (w_state w')) 1 (Samples.hash 7) 0 = Some p' /\
    Samples.vote "c" 7 1 0 ∈ p_received_confirmations p'.
Proof.
  destruct (update_proposals_spec (A := Z) (T := Samples.tx) (Samples.vote "c" 7 1 0) [Samples.vote "b" 7 1 0] None proposed)
    as (w' & p' & Hr & _ & Hf & Hc & _).
  - apply after_wf.
  - exists w', p'. split_and!; [exact Hr|exact Hf|]. apply Hc. left. left.
Defined.

(** The round has changed while the block was executed. *)
Lemma execution_ended_panics_witness :
  panicked (on_block_execution_ended (A := Z) (T := Samples.tx) b1 [Samples.hash 3]
    (after [Msg.BlockFromPeer b1 (Samples.vote "b" 7 1 0) [Samples.hash 3]; Msg.BlockElectionFailed 1 1])) = true /\
  panicked (on_block_execution_ended (A := Z) (T := Samples.tx) b1 [Samples.hash 3] proposed) = false.
Proof.
  split.
  - rewrite (execution_ended_panics b1 [Samples.hash 3]) by apply after_wf. vm_compute. reflexivity.
  - rewrite (execution_ended_panics b1 [Samples.hash 3]) by apply after_wf. vm_compute. reflexivity.
Defined.

Lemma verify_confirmations_rejects_witness :
  verify_confirmations_from_peer [Samples.vote "d" 7 1 0] None proposed = Ret tt proposed.
Proof.
  apply verify_confirmations_rejects. left. constructor. left. unfold is_a_player.
  intros H. apply list_elem_of_In in H. vm_compute in H. destruct H as [H|[H|[H|[]]]]; discriminate.
Defined.

Lemma check_next_round_best_witness :
  exists p, snd (find_round 1 0 (block_proposals (w_state proposed))) = Some p /\ p_round p = 0.
Proof.
  destruct (snd (find_round 1 0 (block_proposals (w_state proposed)))) as [p|] eqn:E.
  - exists p. split; [reflexivity|].
    exact (proj1 (check_next_round_best (A := Z) (T := Samples.tx) 1 0 proposed p (after_wf _) E)).
  - vm_compute in E. discriminate.
Defined.

Lemma exit_poll_after_reset_witness :
  proposal_exit_poll (w_state (exec_world (reset_proposals (A := Z) (T := Samples.tx) (Samples.hash 7) 1
    (upd (set_proposal_exit_poll [(1, 0); (2, 0)]) proposed)))) = [(1, 0)].
Proof. rewrite (exit_poll_after_reset (Samples.hash 7) 1); [reflexivity|]. vm_compute. reflexivity. Defined.

Lemma draw_new_leader_spec_witness :
  exists (w' : sworld) x, draw_new_leader b1 (World state [Delivered (Res.GetDRandNum 4)] (10, []) []) = Ret tt w' /\
    (leader (w_state w'), x) ∈ [("a", 1); ("b", 2); ("c", 3)] /\ 0 < x.
Proof.
  destruct (draw_new_leader_spec (A := Z) (T := Samples.tx) b1
    (World state [Delivered (Res.GetDRandNum 4)] (10, []) []) 4 []) as (w' & x & H1 & H2 & H3 & _).
  - split_and!; [|reflexivity|].
    + apply NoDup_ListNoDup. repeat constructor; simpl; intuition discriminate.
    + repeat constructor; lia.
  - vm_compute. reflexivity.
  - vm_compute. discriminate.
  - reflexivity.
  - vm_compute. split; discriminate.
  - by exists w', x.
Defined.

Lemma weighted_ids_spec_witness :
  Players.count_occ_string (Players.get_weighted_player_ids abc) "c" = 3%nat.
Proof.
  apply (weighted_ids_spec abc 2 "c" 3); [|reflexivity|reflexivity]. split_and!; [|reflexivity|].
  - apply NoDup_ListNoDup. repeat constructor; simpl; intuition discriminate.
  - repeat constructor; lia.
Defined.

Lemma zero_weights_request_witness :
  Sent DRandService (MkComm (KReq (Req.GetDRandNum u64_max)) (Some ConsensusService)) ∈
    w_out (exec_world (draw_new_leader (A := Z) (T := Samples.tx) b1
      (World (set_players (Players.Mk ["a"; "b"] [0; 0]) state) [] (10, []) []))) \/
  head (w_answers (World (set_players (Players.Mk ["a"; "b"] [0; 0]) state) [] (10, []) [] : sworld)) = Some Disconnected.
Proof.
  apply (zero_weights_request b1); [vm_compute; reflexivity|]. repeat constructor.
Defined.
End ConsensusSample.
