(* ===== verification/ConsensusSafety.v ===== *)
(** * The consensus service: votes and quorums

    A player does not vote twice for the same height and round; two majorities share a
    player ([pigeonhole]); and what breaks when the code's assumptions on confirmations and on the
    record of votes do not hold. *)

From stdpp Require Import base gmap strings list fin_maps.
From S2P Require Import Prelude Exec Hash Crypto CoreModels Samples Messages ConsensusService ConsensusTheorems.
Open Scope Z_scope.
Import ConsensusService.

#[local] Arguments should_player_vote : simpl never.
#[local] Arguments already_voted : simpl never.

Section safety.
Context `{Hring : Ring} {A B C T : Type} `{HeqC : EqDecision C}
  `{!Executable B, !Confirmable C, !ExecutableLaws B, !ConfirmableLaws C}.

Abbreviation cworld := (world (t (B := B) (C := C)) (Effect A B C T) (Answer A B C T)).
Implicit Types w : cworld.

(** ** The votes of the node *)

(** The height and the round of a confirmation that the service sends out as its own: with
    [PropagateConfirmationToPeers], or with the block it has built *)
Definition vote_of (e : Effect A B C T) : option (Z * Z) :=
  match e with
  | Sent NodeInterface (MkComm (KMsg (Msg.PropagateConfirmationToPeers c)) _) =>
      Some (get_block_height c, get_block_round c)
  | Sent NodeInterface (MkComm (KMsg (Msg.PropagateBlockToPeers _ c _)) _) =>
      Some (get_block_height c, get_block_round c)
  | _ => None
  end.
Definition votes (es : list (Effect A B C T)) : list (Z * Z) := omap vote_of es.

Lemma votes_app es es' : votes (es ++ es') = votes es ++ votes es'.
Proof. apply omap_app. Qed.

(** Each vote sent is recorded, and no two are alike. *)
Definition honest w : Prop :=
  NoDup (votes (w_out w)) /\ forall v, v ∈ votes (w_out w) -> v ∈ proposal_exit_poll (w_state w).

Definition safe (w w' : cworld) : Prop := honest w -> honest w'.
#[local] Instance safe_preorder : PreOrder safe.
Proof. split; unfold safe; [by intros x|]. intros x y z Hxy Hyz Hx. auto. Qed.

Definition quiet (w w' : cworld) : Prop :=
  proposal_exit_poll (w_state w') = proposal_exit_poll (w_state w) /\ votes (w_out w') = votes (w_out w).
#[local] Instance quiet_preorder : PreOrder quiet.
Proof. split; unfold quiet; [by intros x|]. intros x y z [? ?] [? ?]. split; congruence. Qed.

Lemma quiet_honest w w' : quiet w w' -> honest w -> honest w'.
Proof. intros [H1 H2] [Hn Hp]. unfold honest. by rewrite H1, H2. Qed.

Lemma quiet_safe {X} (m : handler A B C T t X) : rel quiet m -> rel safe m.
Proof. intros Hm w. exact (quiet_honest _ _ (Hm w)). Qed.

Lemma quiet_modify f : (forall s, proposal_exit_poll (f s) = proposal_exit_poll s) -> rel quiet (modify f).
Proof. intros Hf w. split; [apply Hf|done]. Qed.

Lemma quiet_emit e : vote_of e = None -> rel quiet (emit e).
Proof. intros He w. split; [done|]. simpl. rewrite votes_app. simpl. rewrite He. by rewrite app_nil_r. Qed.

Lemma quiet_send_msg to m :
  vote_of (Sent to (MkComm (KMsg m) None)) = None -> rel quiet (send_msg (A:=A) (B:=B) (C:=C) (T:=T) to m).
Proof. apply quiet_emit. Qed.

Lemma quiet_send_res to r : rel quiet (send_res (A:=A) (B:=B) (C:=C) (T:=T) to r).
Proof. by apply quiet_emit. Qed.

Lemma quiet_spawn th : rel quiet (spawn (A:=A) (B:=B) (C:=C) (T:=T) th).
Proof. by apply quiet_emit. Qed.

Lemma quiet_next_answer : rel quiet next_answer.
Proof. intros w. unfold next_answer. by destruct (w_answers w). Qed.

Lemma quiet_timestamp : rel quiet timestamp.
Proof. intros w. by rewrite timestamp_eq. Qed.

Lemma quiet_send_req from to r : rel quiet (send_req (A:=A) (B:=B) (C:=C) (T:=T) from to r).
Proof.
  unfold send_req. apply rel_bind; [typeclasses eauto|apply quiet_next_answer|].
  intros [[| |]|]; try (apply rel_ret; typeclasses eauto);
    (apply rel_bind; [typeclasses eauto|apply quiet_emit; by destruct to|]); intros _; apply rel_ret; typeclasses eauto.
Qed.

#[local] Hint Resolve quiet_send_res quiet_spawn quiet_next_answer quiet_timestamp quiet_send_req : frames.
#[local] Hint Extern 1 (rel quiet (modify _)) => apply quiet_modify; intros; reflexivity : frames.
#[local] Hint Extern 1 (rel quiet (send_msg _ _)) => apply quiet_send_msg; reflexivity : frames.

Lemma update_proposals_quiet cs block : rel quiet (update_proposals cs block).
Proof. unfold update_proposals. frames. Qed.

Lemma quorum_quiet hash n r : rel quiet (verify_block_proposal_quorum hash n r).
Proof. unfold verify_block_proposal_quorum. frames. Qed.

#[local] Hint Resolve update_proposals_quiet quorum_quiet : frames.

Lemma check_old_proposal_quiet now p : rel quiet (check_old_proposal now p).
Proof. unfold check_old_proposal. frames. Qed.
#[local] Hint Resolve check_old_proposal_quiet : frames.

Lemma check_old_proposals_quiet now ps : rel quiet (check_old_proposals now ps).
Proof. induction ps as [|p ps IH]; simpl; frames. Qed.
#[local] Hint Resolve check_old_proposals_quiet : frames.

Lemma check_old_block_proposals_quiet : rel quiet check_old_block_proposals.
Proof. unfold check_old_block_proposals. frames. Qed.

Lemma draw_new_leader_quiet block : rel quiet (draw_new_leader block).
Proof. unfold draw_new_leader. frames. Qed.

Lemma block_consolidated_quiet n : rel quiet (block_consolidated n).
Proof. unfold block_consolidated. frames. Qed.

Lemma handle_requests_quiet req res_chan : rel quiet (handle_requests req res_chan).
Proof. unfold handle_requests. frames. Qed.

(** Voting where no vote is recorded yet *)
Lemma vote_proposal_honest block r w :
  honest w -> (get_height block, r) ∉ proposal_exit_poll (w_state w) ->
  honest (exec_world (vote_proposal block r w)).
Proof.
  intros [Hn Hp] Hv. unfold vote_proposal, honest.
  rewrite bind_eq, modify_eq, bind_eq. simpl. rewrite votes_app. simpl.
  rewrite sign_block_height, sign_block_round, new_block_height, new_block_round. split.
  - apply NoDup_app. split_and!; [done| |apply NoDup_singleton].
    intros v Hin ->%list_elem_of_singleton. by apply Hv, Hp.
  - intros v [Hin|Hin]%elem_of_app; apply elem_of_app; [left; by apply Hp|by right].
Qed.

Lemma already_voted_false s n r :
  already_voted (B := B) (C := C) s n r = false -> (n, r) ∉ proposal_exit_poll s.
Proof.
  unfold already_voted. rewrite existsb_false_elem. intros Hf Hin. specialize (Hf _ Hin). simpl in Hf.
  rewrite !Z.eqb_refl in Hf. done.
Qed.

Lemma should_player_vote_fresh s block hs r :
  should_player_vote (C := C) s (Some (block, hs)) r = true -> (get_height block, r) ∉ proposal_exit_poll s.
Proof.
  unfold should_player_vote. destruct (negb (is_player s)); [done|].
  destruct (already_voted s (get_height block) r) eqn:E; [done|]. intros _. by apply already_voted_false.
Qed.

Lemma rel_run {X} P (m : handler A B C T t X) w a w' : rel P m -> m w = Ret a w' -> P w w'.
Proof. intros Hm Hr. specialize (Hm w). by rewrite Hr in Hm. Qed.

Lemma on_block_execution_ended_safe block hs : rel safe (on_block_execution_ended block hs).
Proof.
  intros w Hw. unfold on_block_execution_ended. rewrite bind_eq. simpl.
  destruct (find_proposal _ _ _ _) as [p|]; rewrite bind_eq; [|done]. cbn [expect mret M_ret].
  rewrite bind_eq.
  match goal with |- context [if should_player_vote ?a ?b ?r then ?x else ?y] =>
    set (vote := if should_player_vote a b r then x else y);
    assert (Hv : honest (exec_world (vote w))) end.
  { subst vote. destruct (should_player_vote _ _ _) eqn:Ev; [|done]. rewrite bind_eq.
    pose proof (vote_proposal_honest block (actual_round (w_state w)) w Hw
      (should_player_vote_fresh _ _ _ _ Ev)) as Hh.
    by destruct (vote_proposal block (actual_round (w_state w)) w). }
  destruct (vote w) as [cs w1|w1]; [|done]. simpl in Hv. revert Hv. apply quiet_safe. frames.
Qed.

Lemma check_next_round_proposals_safe n r : rel safe (check_next_round_proposals n r).
Proof.
  intros w Hw. unfold check_next_round_proposals. rewrite bind_eq. simpl.
  destruct (find_round n r (block_proposals (w_state w))) as [bp found]. rewrite bind_eq, modify_eq.
  set (w1 := upd _ w). assert (Hw1 : honest w1) by done. clearbody w1. clear Hw.
  destruct found as [p|]; [|done]. destruct (p_block p) as [[block hs]|]; [|done].
  rewrite bind_eq. simpl. rewrite bind_eq.
  match goal with |- context [when ?c ?m w1] =>
    assert (Hv : honest (exec_world (when c m w1))); [|destruct (when c m w1) as [[] w2|w2]] end.
  - unfold when. destruct (should_player_vote _ _ _) eqn:Ev; [|done]. rewrite bind_eq.
    pose proof (vote_proposal_honest block r w1 Hw1 (should_player_vote_fresh _ _ _ _ Ev)) as Hh.
    destruct (vote_proposal block r w1) as [c w2|w2]; [|done]. simpl in Hh. revert Hh.
    apply quiet_safe. frames.
  - simpl in Hv. revert Hv. apply quiet_safe. frames.
  - exact Hv.
Qed.

Lemma on_proposal_after_build_safe block r hs : rel safe (on_proposal_after_build block r hs).
Proof.
  intros w [Hn Hp]. unfold on_proposal_after_build. rewrite bind_eq. simpl.
  unfold when at 1. destruct (already_voted _ _ _) eqn:Ev; [done|]. simpl.
  apply already_voted_false in Ev. set (b := block_sign (keypair (w_state w)) block).
  assert (Hb : get_height b = get_height block) by apply block_sign_height.
  set (c := conf_sign _ _). rewrite bind_eq, modify_eq. set (w1 := upd _ w).
  assert (Hk : (get_height block, r) ∈ proposal_exit_poll (w_state w1)).
  { simpl. rewrite Hb. apply elem_of_app. right. left. }
  assert (Hw1 : honest w1).
  { split; [done|]. intros v Hv. apply elem_of_app. left. by apply Hp. }
  assert (Hnew : (get_height block, r) ∉ votes (w_out w1)). { intros Hin. by apply Ev, Hp. }
  assert (Hq : rel quiet (update_proposals [c] (Some (b, hs)) ;;
    when (len (Players.players_ids (players (w_state w))) =? 1)
      (_ ← verify_block_proposal_quorum (get_hash b) (get_height b) r; mret tt))) by frames.
  specialize (Hq w1). rewrite bind_eq in *.
  destruct (update_proposals [c] (Some (b, hs)) w1) as [[] w2|w2];
    [|by apply (quiet_honest w1)].
  rewrite bind_eq. destruct (when _ _ w2) as [[] w3|w3]; simpl in Hq; destruct Hq as [Q1 Q2].
  - unfold honest. simpl. rewrite votes_app. simpl. subst c.
    rewrite sign_block_height, sign_block_round, new_block_height, new_block_round, Hb, Q1, Q2.
    destruct Hw1 as [H1 H2]. split.
    + apply NoDup_app. split_and!; [done| |apply NoDup_singleton].
      by intros v Hin ->%list_elem_of_singleton.
    + intros v [Hin|Hin]%elem_of_app; [by apply H2|]. apply list_elem_of_singleton in Hin as ->. exact Hk.
  - exact (quiet_honest w1 w3 (conj Q1 Q2) Hw1).
Qed.

(** A reset forgets no vote when there is none for a later height. *)
Lemma reset_proposals_safe hash n w :
  Forall (fun v => fst v <= n) (proposal_exit_poll (w_state w)) -> safe w (exec_world (reset_proposals hash n w)).
Proof.
  intros Hf [Hn Hp]. unfold reset_proposals.
  rewrite bind_eq, modify_eq, bind_eq, modify_eq, bind_eq, modify_eq, bind_eq. simpl.
  rewrite bind_eq. unfold when. destruct (is_player _); unfold honest; simpl; (split; [done|]); [|done].
  intros v Hv. apply elem_of_filter_list. split; [by apply Hp|].
  rewrite Forall_forall in Hf. specialize (Hf v (Hp v Hv)). destruct v. simpl in *. lia.
Qed.

Lemma on_block_consolidated_safe block ps w :
  Forall (fun v => fst v <= get_height block) (proposal_exit_poll (w_state w)) ->
  safe w (exec_world (on_block_consolidated block ps w)).
Proof.
  intros Hf Hw. unfold on_block_consolidated. rewrite bind_eq, modify_eq, bind_eq, modify_eq, bind_eq.
  set (w1 := upd _ (upd _ w)). assert (Hw1 : honest w1) by done.
  pose proof (reset_proposals_safe (get_hash block) (get_height block) w1 Hf Hw1) as H2.
  destruct (reset_proposals _ _ w1) as [[] w2|w2]; [|done]. simpl in H2. revert H2. apply quiet_safe.
  frames; [apply draw_new_leader_quiet|apply block_consolidated_quiet].
Qed.

(** No block is consolidated below a height the node has voted at. *)
Definition no_rollback_step (comm : Comm A B C T) w : Prop :=
  match kind comm with
  | KMsg (Msg.BlockConsolidated block _ _) =>
      Forall (fun v => fst v <= get_height block) (proposal_exit_poll (w_state w))
  | _ => True
  end.

Fixpoint no_rollback (comms : list (Comm A B C T)) w : Prop :=
  match comms with
  | [] => True
  | comm :: comms =>
      no_rollback_step comm w /\
      match step comm w with Ret _ w' => no_rollback comms w' | Panic _ => True end
  end.

Lemma step_safe comm w : no_rollback_step comm w -> safe w (exec_world (step comm w)).
Proof.
  unfold no_rollback_step, step, dispatch. destruct (kind comm) as [m|r]; intros Hs.
  - destruct m; simpl; try (intros Hw; exact Hw);
      lazymatch goal with
      | |- safe w (exec_world (on_block_consolidated _ _ w)) => idtac
      | |- safe w (exec_world (?m w)) => clear Hs; revert w; change (rel safe m)
      end.
    + apply quiet_safe. unfold on_block_confirmation_from_peer. frames.
    + by apply on_block_consolidated_safe.
    + apply quiet_safe. unfold on_block_from_peer. frames.
    + apply on_block_execution_ended_safe.
    + apply quiet_safe. unfold on_check_old_block_proposals. frames. apply check_old_block_proposals_quiet.
    + apply quiet_safe. unfold confirm_build_block_in_place_of_leader. frames.
    + unfold on_block_election_failed. frames.
      * by apply quiet_safe, quiet_modify.
      * by apply quiet_safe, quiet_send_msg.
      * apply check_next_round_proposals_safe.
      * apply quiet_safe. unfold block_election_failed. frames.
    + apply on_proposal_after_build_safe.
    + apply quiet_safe. unfold on_proposal_from_alignment_block. frames.
    + apply quiet_safe. unfold verify_confirmations_from_peer. frames.
  - destruct (res_chan comm); [by apply quiet_safe, handle_requests_quiet|by intros Hw].
Qed.

Lemma run_safe comms w : no_rollback comms w -> safe w (exec_world (run comms w)).
Proof.
  revert w. induction comms as [|comm comms IH]; intros w Hr Hw; [done|].
  destruct Hr as [Hs Hr]. pose proof (step_safe comm w Hs Hw) as H1.
  unfold run, run_loop. simpl. rewrite bind_eq.
  destruct (step comm w) as [[] w1|w1]; [|done]. by apply IH.
Qed.

(** C2: a player does not vote twice in a round: as long as no block is consolidated below a
    height it has voted at, the confirmations the service sends out as its own are for
    distinct pairs of a height and a round. *)
Theorem no_double_vote s comms ans clk :
  no_rollback comms (World s ans clk []) ->
  NoDup (votes (w_out (exec_world (run comms (World s ans clk []))))).
Proof.
  intros Hr. apply (run_safe comms (World s ans clk []) Hr). split; [constructor|].
  by intros v ?%not_elem_of_nil.
Qed.

(** ** Quorums *)

Lemma pigeonhole (l1 l2 ids : list string) :
  NoDup l1 -> NoDup l2 -> (forall x, x ∈ l1 -> x ∈ ids) -> (forall x, x ∈ l2 -> x ∈ ids) ->
  len ids < len l1 + len l2 -> exists x, x ∈ l1 /\ x ∈ l2.
Proof.
  intros H1 H2 Hi1 Hi2 Hl.
  destruct (decide (Exists (fun x => x ∈ l2) l1)) as [He|Hne].
  - apply Exists_exists in He as (x & ? & ?). eauto.
  - exfalso. assert (Hnd : NoDup (l1 ++ l2)).
    { apply NoDup_app. split_and!; [done| |done]. intros x Hx Hx2. apply Hne, Exists_exists. eauto. }
    assert (Hle : (length (l1 ++ l2) <= length ids)%nat).
    { apply NoDup_incl_length; [by apply NoDup_ListNoDup|]. intros x Hx. apply list_elem_of_In.
      apply list_elem_of_In, elem_of_app in Hx as [?|?]; auto. }
    rewrite length_app in Hle. unfold len in Hl. lia.
Qed.

(** ** A single player can make a quorum *)

Lemma update_known c w p :
  proposals_wf (w_state w) ->
  find_proposal (block_proposals (w_state w)) (get_block_height c) (get_block_hash c) (get_block_round c) = Some p ->
  c ∈ p_received_confirmations p ->
  exists w', update_proposals [c] None w = Ret tt w' /\
    find_proposal (block_proposals (w_state w')) (get_block_height c) (get_block_hash c) (get_block_round c) = Some p /\
    set_block_proposals [] (w_state w') = set_block_proposals [] (w_state w) /\ w_out w' = w_out w.
Proof.
  intros Hw Hp Hc. pose proof (update_proposals_eq [c] None w) as He.
  destruct (updated [c] None (now w) (block_proposals (w_state w))) as [bp|] eqn:E; [|done].
  pose proof (updated_find [c] None (now w) _ bp c Hw eq_refl E) as [Hf _].
  destruct He as (w0 & He & Hw0). eexists. split; [exact He|]. simpl. split_and!.
  - rewrite Hf, Hp. simpl. f_equal. unfold add_confirmation.
    replace (contains _ c) with true by by symmetry; apply contains_true. done.
  - by destruct Hw0 as [->| ->].
  - by destruct Hw0 as [->| ->].
Qed.

(** The confirmations a peer sends at once are not checked to be distinct: the one
    confirmation of a single player, sent as many times as the quorum wants, with the
    block, makes a proposal that is consolidated when that player's confirmation is
    received once more. *)
Theorem duplicates_reach_quorum c block hs w :
  let ids := Players.players_ids (players (w_state w)) in
  let cs := replicate (Z.to_nat (len ids / 2 + 1)) c in
  proposals_wf (w_state w) -> consolidation_in_progress (w_state w) = None ->
  find_proposal (block_proposals (w_state w)) (get_block_height c) (get_block_hash c) (get_block_round c) = None ->
  get_player_id c ∈ ids -> conf_verify c = true ->
  get_block_height c = height (w_state w) +u64 1 -> actual_round (w_state w) <= get_block_round c ->
  Sent NodeInterface (MkComm (KMsg (Msg.StartBlockConsolidation block cs hs)) None) ∈
    w_out (exec_world (run [MkComm (KMsg (Msg.VerifyConfirmations (Some (block, hs)) cs)) None;
                            MkComm (KMsg (Msg.BlockConfirmationFromPeer c)) None] w)).
Proof.
  intros ids cs Hw Hcons Hnone Hpl Hv Hn Hr.
  assert (Hlen : len cs = len ids / 2 + 1).
  { unfold cs. unfold len at 1. rewrite length_replicate. pose proof (len_nonneg ids).
    pose proof (Z.div_pos (len ids) 2). lia. }
  assert (Hhd : hd_error cs = Some c).
  { unfold cs. destruct (Z.to_nat _) as [|k] eqn:Ek; [|done]. pose proof (len_nonneg ids).
    pose proof (Z.div_pos (len ids) 2). lia. }
  assert (Hall : forall x, x ∈ cs -> x = c) by (intros x Hx; by apply elem_of_replicate_inv in Hx).
  unfold run, run_loop. simpl for_each. rewrite bind_eq.
  change (step (MkComm (KMsg (Msg.VerifyConfirmations (Some (block, hs)) cs)) None))
    with (verify_confirmations_from_peer (A := A) (T := T) cs (Some (block, hs))).
  unfold verify_confirmations_from_peer. rewrite bind_eq, Hhd. cbn [expect mret M_ret].
  rewrite bind_eq. cbn [get_state]. fold ids.
  replace (existsb _ cs || _ || _) with false.
  2:{ symmetry. rewrite !orb_false_iff. split_and!; [|by rewrite Hn, Z.eqb_refl|lia].
      apply existsb_false_elem. intros x ->%Hall. rewrite orb_false_iff, !negb_false_iff, contains_true. done. }
  pose proof (update_proposals_eq cs (Some (block, hs)) w) as He.
  destruct (updated cs (Some (block, hs)) (now w) (block_proposals (w_state w))) as [bp|] eqn:E.
  2:{ unfold updated in E. by rewrite Hhd in E. }
  pose proof (updated_find cs (Some (block, hs)) (now w) _ bp c Hw Hhd E) as [Hf _].
  rewrite Hnone in Hf. simpl in Hf. destruct He as (w0 & He & Hw0).
  rewrite bind_eq, He. cbn [send_msg emit]. set (w1 := World _ _ _ _).
  assert (Hs1 : w_state w1 = set_block_proposals bp (w_state w)) by by destruct Hw0 as [->| ->].
  clearbody w1. rewrite bind_eq.
  change (step (MkComm (KMsg (Msg.BlockConfirmationFromPeer c)) None))
    with (on_block_confirmation_from_peer (A := A) (B := B) (T := T) c).
  unfold on_block_confirmation_from_peer. rewrite bind_eq. cbn [get_state]. rewrite Hs1. simpl.
  replace (actual_round (w_state w) <=? get_block_round c) with true by lia. rewrite Hv. cbn [orb andb when].
  assert (Hw1 : proposals_wf (w_state w1)) by (rewrite Hs1; by eapply updated_wf).
  destruct (update_known c w1 (BlockProposals.new (Some (block, hs)) (get_block_hash c) (get_block_height c) cs (get_block_round c) (now w)))
    as (w2 & Hu & Hf2 & Hs2 & _); [done|by rewrite Hs1| |].
  { simpl. unfold cs. apply elem_of_replicate. split; [done|]. pose proof (len_nonneg ids).
    pose proof (Z.div_pos (len ids) 2). lia. }
  rewrite bind_eq, Hu, bind_eq. cbn [get_state]. rewrite Hs1 in Hs2. injection Hs2 as E1 E2 E3 E4 E5 E6 E7 E8 E9 E10.
  rewrite E3, Hcons, bool_decide_true by done. cbn [when]. rewrite bind_eq, (quorum_eq _ _ _ _ _ Hf2). simpl.
  rewrite E4, E9, Hn, Z.eqb_refl. fold ids. cbn [andb].
  replace (forallb _ cs) with true.
  2:{ symmetry. apply forallb_elem. intros x ->%Hall. by apply contains_true. }
  rewrite <- Hlen, Z.leb_refl. simpl. apply elem_of_app. right. left.
Qed.
End safety.

(** ** Witnesses and counterexamples *)

Module SafetySample.
Import ConsensusSample.
#[local] Existing Instances Samples.ring Samples.block_executable Samples.conf_confirmable Samples.conf_eq_dec
  Samples.block_laws Samples.conf_laws.

Definition comms (msgs : list (Msg.t Z Samples.block Samples.conf Samples.tx)) :
    list (Comm Z Samples.block Samples.conf Samples.tx) := map (fun m => MkComm (KMsg m) None) msgs.

(** The node votes for the block of b, then, in the next round, for one of its own. *)
Lemma no_double_vote_witness :
  NoDup (votes (w_out (exec_world (run (comms
    [Msg.BlockFromPeer b1 (Samples.vote "b" 7 1 0) [Samples.hash 3];
     Msg.BlockExecutionEnded b1 [Samples.hash 3];
     Msg.BlockConsolidated b1 [Samples.hash 3] abc;
     Msg.ProposalAfterBuild (Samples.blk "a" 8 2 7) 0 []])
    (World state [] (10, []) []))))).
Proof.
  apply no_double_vote. vm_compute. repeat split; repeat constructor; discriminate.
Defined.

(** Without that assumption it does: the vote of a node for a later height is forgotten
    when a block of a lower height is consolidated, and cast again for another block. *)
Theorem forgotten_vote_cast_again :
  votes (w_out (exec_world (run (comms
    [Msg.ProposalAfterBuild (Samples.blk "a" 8 2 7) 0 [];
     Msg.BlockConsolidated b1 [Samples.hash 3] abc;
     Msg.ProposalAfterBuild (Samples.blk "a" 9 2 7) 0 []])
    (World state [] (10, []) [])))) = [(2, 0); (2, 0)].
Proof. vm_compute. reflexivity. Qed.

Lemma duplicates_reach_quorum_witness :
  Sent NodeInterface (MkComm (KMsg (Msg.StartBlockConsolidation b1
      [Samples.vote "b" 7 1 0; Samples.vote "b" 7 1 0] [Samples.hash 3])) None) ∈
    w_out (exec_world (run (comms
      [Msg.VerifyConfirmations (Some (b1, [Samples.hash 3])) [Samples.vote "b" 7 1 0; Samples.vote "b" 7 1 0];
       Msg.BlockConfirmationFromPeer (Samples.vote "b" 7 1 0)]) (World state [] (10, []) []))).
Proof.
  apply (duplicates_reach_quorum (Samples.vote "b" 7 1 0) b1 [Samples.hash 3] (World state [] (10, []) [])).
  - split; constructor.
  - reflexivity.
  - reflexivity.
  - right. left.
  - reflexivity.
  - vm_compute. reflexivity.
  - vm_compute. discriminate.
Defined.
End SafetySample.
