(* ===== verification/ConsensusNetwork.v ===== *)
(** * The consensus of a network of nodes

    The consensus services of several nodes, each with its own state and key, that
    receive messages in any order. What a node receives from its peers are
    confirmations that some node has cast. Within a round no two nodes start the
    consolidation of different blocks of a height; across rounds they can. *)

From stdpp Require Import base gmap strings list fin_maps relations.
From S2P Require Import Prelude Exec Hash Crypto CoreModels Samples Messages ConsensusService ConsensusTheorems ConsensusSafety.
Open Scope Z_scope.
Import ConsensusService.

#[local] Arguments should_player_vote : simpl never.
#[local] Arguments already_voted : simpl never.

Section network.
Context `{Hring : Ring} {A B C T : Type} `{HeqC : EqDecision C}
  `{!Executable B, !Confirmable C, !ExecutableLaws B, !ConfirmableLaws C}.

Abbreviation cworld := (world (t (B := B) (C := C)) (Effect A B C T) (Answer A B C T)).
Implicit Types (w : cworld) (ws : list cworld) (s : t (B := B) (C := C)) (p : BlockProposal B C) (K : C -> Prop).

(** The players while the chain has a height: the same on every node, as the WASM
    services of the nodes tell them (the database decides them). *)
Variable players_at : Z -> list string.

(** ** What a node has sent *)

(** The confirmations the service sends out as its own *)
Definition cast_of (e : Effect A B C T) : option C :=
  match e with
  | Sent NodeInterface (MkComm (KMsg (Msg.PropagateConfirmationToPeers c)) _) => Some c
  | Sent NodeInterface (MkComm (KMsg (Msg.PropagateBlockToPeers _ c _)) _) => Some c
  | _ => None
  end.
Definition casts (es : list (Effect A B C T)) : list C := omap cast_of es.

(** The consolidations it starts, with the confirmations *)
Definition consolidation_of (e : Effect A B C T) : option (B * list C) :=
  match e with
  | Sent NodeInterface (MkComm (KMsg (Msg.StartBlockConsolidation b cs _)) _) => Some (b, cs)
  | _ => None
  end.
Definition consolidations (es : list (Effect A B C T)) : list (B * list C) := omap consolidation_of es.

Lemma casts_app es es' : casts (es ++ es') = casts es ++ casts es'.
Proof. apply omap_app. Qed.

Lemma consolidations_app es es' : consolidations (es ++ es') = consolidations es ++ consolidations es'.
Proof. apply omap_app. Qed.

Lemma votes_casts es : votes es = map (fun c => (get_block_height c, get_block_round c)) (casts es).
Proof.
  induction es as [|e es IH]; [done|]. change (e :: es) with ([e] ++ es).
  rewrite votes_app, casts_app, map_app, IH. f_equal. clear IH.
  destruct e as [to [k rc]| | | |]; try done. destruct to; try done. destruct k as [m|]; [|done]. by destruct m.
Qed.

(** ** A sound node

    [K] tells which confirmations have been cast by the nodes. *)

Definition about (hash : Hash) (n r : Z) (c : C) : Prop :=
  get_block_hash c = hash /\ get_block_height c = n /\ get_block_round c = r.

(** A proposal holds distinct confirmations, cast for it, and its own block. *)
Definition sound_proposal K (n : Z) (p : BlockProposal B C) : Prop :=
  Forall (fun c => about (p_block_hash p) n (p_round p) c /\ K c) (p_received_confirmations p) /\
  NoDup (p_received_confirmations p) /\
  match p_block p with Some (b, _) => get_hash b = p_block_hash p | None => True end.

Definition sound_proposals K (bp : BlockProposals.t B C) : Prop :=
  Forall (fun entry => Forall (sound_proposal K (fst entry)) (snd entry)) bp.

(** What stands behind a consolidation: distinct confirmations of the block, for its height
    and one round, cast by the players of the height below, more than half as many as they *)
Definition certificate K (e : B * list C) : Prop :=
  exists h r, is_u64 h /\ NoDup (snd e) /\
    Forall (fun c => about (get_hash (fst e)) (h +u64 1) r c /\ K c /\ get_player_id c ∈ players_at h) (snd e) /\
    len (players_at h) < 2 * len (snd e).

Definition players_known s : Prop :=
  Players.players_ids (players s) = players_at (height s) /\ is_u64 (height s).

(** The confirmations the node signs carry its own id. *)
Definition identified s : Prop :=
  forall hash n r,
    get_player_id (conf_sign (keypair s) (conf_new hash n r (Keys.public_key (keypair s)))) = node_id s.

Record good K w : Prop := {
  g_wf : proposals_wf (w_state w);
  g_props : sound_proposals K (block_proposals (w_state w));
  g_certs : Forall (certificate K) (consolidations (w_out w));
  g_players : players_known (w_state w);
  g_id : identified (w_state w);
  g_casts : Forall (fun c => get_player_id c = node_id (w_state w)) (casts (w_out w))
}.

(** What a run of a sound node does: nothing cast is undone, and the node stays sound, if
    [K] holds of what it has cast in the end. *)
Definition later w w' : Prop :=
  node_id (w_state w') = node_id (w_state w) /\ forall c, c ∈ casts (w_out w) -> c ∈ casts (w_out w').
Definition vouched K w w' : Prop :=
  later w w' /\ (Forall K (casts (w_out w')) -> good K w -> good K w').

#[local] Instance vouched_preorder K : PreOrder (vouched K).
Proof.
  split; unfold vouched, later; [by intros x|].
  intros x y z ((? & Hxy) & Gxy) ((? & Hyz) & Gyz). split; [split; [congruence|auto]|].
  intros Hk Hx. apply Gyz; [done|]. apply Gxy; [|done].
  rewrite Forall_forall in Hk |- *. auto.
Qed.

(** Runs that touch nothing of this but the proposals, or nothing at all *)
Definition apart w w' : Prop :=
  players (w_state w') = players (w_state w) /\ height (w_state w') = height (w_state w) /\
  keypair (w_state w') = keypair (w_state w) /\ node_id (w_state w') = node_id (w_state w) /\
  casts (w_out w') = casts (w_out w) /\ consolidations (w_out w') = consolidations (w_out w).
Definition unmoved w w' : Prop := block_proposals (w_state w') = block_proposals (w_state w) /\ apart w w'.

#[local] Instance apart_preorder : PreOrder apart.
Proof.
  split; unfold apart; [by intros x|]. intros x y z ? ?. destruct_and!. split_and!; congruence.
Qed.

#[local] Instance unmoved_preorder : PreOrder unmoved.
Proof.
  split; unfold unmoved; [by intros x|]. intros x y z [? ?] [? ?]. split; [congruence|by etrans].
Qed.

Lemma apart_vouched K w w' :
  (proposals_wf (w_state w) -> proposals_wf (w_state w')) ->
  (sound_proposals K (block_proposals (w_state w)) -> sound_proposals K (block_proposals (w_state w'))) ->
  apart w w' -> vouched K w w'.
Proof.
  intros Hw Hb (Hp & Hh & Hk & Hi & Hc & Hs). split; [split; [done|by rewrite Hc]|].
  intros _ [G1 G2 G3 G4 G5 G6]. unfold players_known, identified in *.
  split; unfold players_known, identified; rewrite ?Hp, ?Hh, ?Hk, ?Hi, ?Hc, ?Hs; auto.
Qed.

Lemma unmoved_vouched K w w' : unmoved w w' -> vouched K w w'.
Proof. intros [Hb Ha]. apply apart_vouched; [..|done]; unfold proposals_wf; by rewrite Hb. Qed.

Lemma unmoved_apart {X} (m : handler A B C T t X) : rel unmoved m -> rel apart m.
Proof. intros Hm w. apply Hm. Qed.

Lemma unmoved_rel K {X} (m : handler A B C T t X) : rel unmoved m -> rel (vouched K) m.
Proof. intros Hm w. apply unmoved_vouched, Hm. Qed.

Lemma unmoved_emit e : cast_of e = None -> consolidation_of e = None -> rel unmoved (emit e).
Proof.
  intros H1 H2 w. unfold unmoved, apart. cbn. rewrite casts_app, consolidations_app. cbn. rewrite H1, H2, !app_nil_r. done.
Qed.

Lemma unmoved_next_answer : rel unmoved next_answer.
Proof. intros w. unfold next_answer. by destruct (w_answers w). Qed.

Lemma unmoved_timestamp : rel unmoved timestamp.
Proof. intros w. by rewrite timestamp_eq. Qed.

Lemma unmoved_send_msg to m :
  cast_of (Sent to (MkComm (KMsg m) None)) = None -> consolidation_of (Sent to (MkComm (KMsg m) None)) = None ->
  rel unmoved (send_msg (A:=A) (B:=B) (C:=C) (T:=T) to m).
Proof. apply unmoved_emit. Qed.

Lemma unmoved_send_res to r : rel unmoved (send_res (A:=A) (B:=B) (C:=C) (T:=T) to r).
Proof. by apply unmoved_emit. Qed.

Lemma unmoved_spawn th : rel unmoved (spawn (A:=A) (B:=B) (C:=C) (T:=T) th).
Proof. by apply unmoved_emit. Qed.

Lemma unmoved_send_req from to r : rel unmoved (send_req (A:=A) (B:=B) (C:=C) (T:=T) from to r).
Proof.
  unfold send_req. apply rel_bind; [typeclasses eauto|apply unmoved_next_answer|].
  intros [[| |]|]; try (apply rel_ret; typeclasses eauto);
    (apply rel_bind; [typeclasses eauto|apply unmoved_emit; by destruct to|]); intros _; apply rel_ret; typeclasses eauto.
Qed.

#[local] Hint Resolve unmoved_next_answer unmoved_timestamp unmoved_send_res unmoved_spawn unmoved_send_req : frames.
#[local] Hint Extern 1 (rel unmoved (send_msg _ _)) => apply unmoved_send_msg; reflexivity : frames.
#[local] Hint Extern 1 (rel unmoved (modify _)) => intros ?; repeat split; reflexivity : frames.

Lemma check_old_proposal_unmoved now p : rel unmoved (check_old_proposal now p).
Proof. unfold check_old_proposal. frames. Qed.
#[local] Hint Resolve check_old_proposal_unmoved : frames.

Lemma check_old_proposals_unmoved now ps : rel unmoved (check_old_proposals now ps).
Proof. induction ps as [|p ps IH]; simpl; frames. Qed.

Lemma draw_new_leader_unmoved block : rel unmoved (draw_new_leader block).
Proof. unfold draw_new_leader. frames. Qed.

Lemma block_consolidated_unmoved n : rel unmoved (block_consolidated n).
Proof. unfold block_consolidated. frames. Qed.

Lemma confirm_build_unmoved n r : rel unmoved (confirm_build_block_in_place_of_leader n r).
Proof. unfold confirm_build_block_in_place_of_leader. frames. Qed.

Lemma block_election_failed_unmoved n r : rel unmoved (block_election_failed n r).
Proof. unfold block_election_failed. frames. Qed.

Lemma handle_requests_unmoved req res_chan : rel unmoved (handle_requests req res_chan).
Proof. unfold handle_requests. frames. Qed.

(** ** The proposals stay sound *)

Lemma sound_filter K q bp : sound_proposals K bp -> sound_proposals K (List.filter q bp).
Proof. apply Forall_filter_list. Qed.

Lemma sound_find K bp n e :
  sound_proposals K bp -> find (at_height n) bp = Some e -> Forall (sound_proposal K n) (snd e).
Proof.
  intros Hs [He Hn]%find_elem. unfold sound_proposals in Hs. rewrite Forall_forall in Hs.
  apply Z.eqb_eq in Hn. rewrite <- Hn. by apply Hs.
Qed.

Lemma sound_find_proposal K bp n hash r p :
  sound_proposals K bp -> find_proposal bp n hash r = Some p -> sound_proposal K n p /\ key p = (hash, r).
Proof.
  intros Hs. unfold find_proposal. destruct (find (at_height n) bp) as [e|] eqn:En; [|done]. simpl.
  intros [Hp Hk]%find_elem. split; [|by apply same_proposal_key].
  pose proof (sound_find _ _ _ _ Hs En) as He. rewrite Forall_forall in He. by apply He.
Qed.

(** The proposals of a height replaced by sound ones *)
Lemma sound_update K n f bp :
  sound_proposals K bp ->
  (forall ps, Forall (sound_proposal K n) ps -> Forall (sound_proposal K n) (f ps)) ->
  sound_proposals K (at_height_update n f bp).
Proof.
  intros Hs Hf. apply Forall_update_first; [exact Hs|]. intros [m ps] Hm Hp. simpl in *.
  apply Z.eqb_eq in Hm. simpl in Hm. subst m. by apply Hf.
Qed.

Lemma sound_find_round K n r bp : sound_proposals K bp -> sound_proposals K (fst (find_round n r bp)).
Proof.
  unfold sound_proposals. induction 1 as [|[m ps] bp Hx Hf IH]; simpl; [constructor|].
  destruct (m =? n); [|destruct (find_round n r bp); by constructor].
  destruct (find _ _); [|destruct (find_round n r bp)]; (constructor; [|done]); simpl; by rewrite sort_desc_perm.
Qed.

Lemma check_old_proposals_sound K n now ps w ps' w' :
  Forall (sound_proposal K n) ps -> check_old_proposals now ps w = Ret ps' w' -> Forall (sound_proposal K n) ps'.
Proof.
  intros Hf. revert w ps' w'. induction Hf as [|p ps Hp Hf IH]; intros w ps' w'; simpl; [by intros [= <- _]|].
  intros (p1 & w1 & E1 & Hr)%bind_ret_inv. apply bind_ret_inv in Hr as (ps1 & w2 & E2 & [= <- <-]).
  constructor; [|by eapply IH]. by destruct (check_old_proposal_ret _ _ _ _ _ E1) as [->| ->].
Qed.

Lemma check_old_block_proposals_sound K :
  rel (keeps (fun s => sound_proposals K (block_proposals s))) (check_old_block_proposals (A := A) (T := T)).
Proof.
  intros w Hw. unfold check_old_block_proposals. rewrite bind_eq. simpl.
  destruct (find (at_height _) _) as [[m ps]|] eqn:En; [|by unfold when; case_match].
  set (n := height (w_state w) +u64 1) in *. pose proof (sound_find _ _ _ _ Hw En) as Hps. simpl in Hps.
  set (ps1 := sort_desc p_count (List.filter (fun p => actual_round (w_state w) <=? p_round p) ps)).
  assert (H1 : Forall (sound_proposal K n) ps1) by (subst ps1; rewrite sort_desc_perm; by apply Forall_filter_list).
  rewrite bind_eq, modify_eq, bind_eq, timestamp_eq, bind_eq. set (w1 := tick _).
  assert (Hw1 : sound_proposals K (block_proposals (w_state w1))) by by apply sound_update.
  destruct (check_old_proposals _ ps1 w1) as [ps2 w2|w2] eqn:E;
    pose proof (f_equal (fun r => block_proposals (w_state (exec_world r))) E) as Hs;
    cbv beta in Hs; rewrite check_old_proposals_bp in Hs; cbn [exec_world] in *; [|by rewrite <- Hs].
  rewrite modify_eq. simpl. rewrite <- Hs. apply sound_update; [done|]. intros _ _.
  by eapply check_old_proposals_sound.
Qed.

#[local] Hint Extern 1 (rel apart (modify _)) => intros ?; repeat split; reflexivity : frames.
#[local] Hint Extern 2 (rel apart _) => apply unmoved_apart; solve [auto with frames nocore] : frames.
#[local] Hint Resolve check_old_proposals_unmoved : frames.

Lemma check_old_block_proposals_vouched K : rel (vouched K) (check_old_block_proposals (A := A) (T := T)).
Proof.
  intros w. apply apart_vouched; [apply check_old_block_proposals_wf|apply check_old_block_proposals_sound|].
  revert w. change (rel apart (check_old_block_proposals (A := A) (T := T))). unfold check_old_block_proposals. frames.
Qed.

Lemma add_confirmations_block cs b p :
  p_block (fold_left (add_confirmation b) cs p) = p_block p \/ p_block (fold_left (add_confirmation b) cs p) = b.
Proof.
  revert p. induction cs as [|c cs IH]; intros p; simpl; [by left|].
  destruct (IH (add_confirmation b p c)) as [->|?]; [|by right].
  unfold add_confirmation. destruct (contains _ c), b, p as [[|] ? ? ? ? ? ?]; simpl; auto.
Qed.

(** Confirmations to be recorded with a block: for one proposal, cast for it, distinct when
    they make a new one *)
Definition recordable K (hash : Hash) (n r : Z) (cs : list C) (block : option (B * list Hash))
    (bp : BlockProposals.t B C) : Prop :=
  Forall (fun c => about hash n r c /\ K c) cs /\
  (find_proposal bp n hash r = None -> NoDup cs) /\
  match block with Some (b, _) => get_hash b = hash | None => True end.

Lemma sound_add K hash n r cs block p :
  Forall (fun c => about hash n r c /\ K c) cs -> match block with Some (b, _) => get_hash b = hash | None => True end ->
  key p = (hash, r) -> sound_proposal K n p -> sound_proposal K n (fold_left (add_confirmation block) cs p).
Proof.
  intros Hcs Hb Hk (Hr & Hn & Hp). pose proof (add_confirmations_key block cs p) as Hk'. rewrite Hk in Hk'.
  unfold sound_proposal. injection Hk as K1 K2. injection Hk' as K3 K4. rewrite K3, K4. rewrite K1 in *. rewrite K2 in *.
  split_and!.
  - rewrite Forall_forall in Hr, Hcs |- *. intros c [?|?]%add_confirmations_received; auto.
  - by apply add_confirmations_nodup.
  - by destruct (add_confirmations_block cs block p) as [->| ->].
Qed.

Lemma updated_sound K hash n r cs block now bp bp' :
  sound_proposals K bp -> recordable K hash n r cs block bp -> updated cs block now bp = Some bp' ->
  sound_proposals K bp'.
Proof.
  intros Hs (Hcs & Hn & Hb). unfold updated. destruct cs as [|c cs]; [done|]. simpl. intros [= <-].
  destruct (Forall_inv Hcs) as [(-> & -> & ->) _]. unfold find_proposal in Hn.
  assert (Hnew : NoDup (c :: cs) -> sound_proposal K n (BlockProposals.new block hash n (c :: cs) r now)) by done.
  destruct (find (at_height n) bp) as [[m ps]|] eqn:En; simpl in Hn.
  - destruct (find (same_proposal hash r) ps) as [p|] eqn:Ep.
    + apply sound_update; [done|]. intros ps' Hps. apply Forall_update_first; [done|].
      intros p' Hp'%same_proposal_key. exact (sound_add K hash n r (c :: cs) block p' Hcs Hb Hp').
    + apply sound_update; [done|]. intros ps' Hps. apply Forall_app. split; [done|]. constructor; [|done]. auto.
  - apply Forall_app. split; [done|]. constructor; [|done]. constructor; [|done]. auto.
Qed.

Lemma update_proposals_vouched K hash n r cs block w :
  (good K w -> recordable K hash n r cs block (block_proposals (w_state w))) ->
  vouched K w (exec_world (update_proposals cs block w)).
Proof.
  intros H. assert (Ha : apart w (exec_world (update_proposals cs block w))).
  { revert w H. intros w _. revert w. change (rel apart (update_proposals (A := A) (T := T) cs block)).
    unfold update_proposals. frames. }
  split; [destruct Ha as (_ & _ & _ & Hi & Hc & _); split; [done|by rewrite Hc]|]. intros Hk Hg.
  apply (apart_vouched K w); [|intros Hs|done|done|done].
  - apply update_proposals_wf.
  - pose proof (update_proposals_eq cs block w) as He.
    destruct (updated cs block (now w) (block_proposals (w_state w))) as [bp|] eqn:E; [|by rewrite He].
    destruct He as (w0 & -> & _). simpl. by eapply updated_sound; [|apply H|].
Qed.

(** ** The quorum and the votes *)

Lemma quorum_vouched K hash n r : rel (vouched K) (verify_block_proposal_quorum (A := A) (T := T) hash n r).
Proof.
  intros w. destruct (find_proposal (block_proposals (w_state w)) n hash r) as [p|] eqn:Hp.
  2:{ unfold verify_block_proposal_quorum. rewrite bind_eq. simpl. by rewrite Hp. }
  rewrite (quorum_eq _ _ _ _ _ Hp). destruct (p_block p) as [[b hs]|] eqn:Eb; [|done].
  destruct (_ && _) eqn:E; [|done]. simpl. split.
  { split; [done|]. simpl. intros c Hc. rewrite casts_app. simpl. by rewrite app_nil_r. }
  intros _ [G1 G2 G3 [Hids Hh] G5 G6]. split; try done; simpl.
  - rewrite consolidations_app. apply Forall_app. split; [done|]. simpl. constructor; [|done].
    destruct (sound_find_proposal _ _ _ _ _ _ G2 Hp) as [(Hr & Hn & Hb) [= K1 K2]]. rewrite Eb in Hb.
    destruct (find_proposal_wf _ _ _ _ _ G1 Hp) as [(_ & Hc & _) _].
    apply andb_prop in E as [[E1 E2]%andb_prop E3]. exists (height (w_state w)), r. split_and!; [apply Hh..|done| |].
    + rewrite Forall_forall in Hr |- *. rewrite forallb_elem in E2. intros c Hin.
      destruct (Hr c Hin) as [Ha Hk]. simpl. rewrite Hb. apply Z.eqb_eq in E1. rewrite <- E1, <- K2, <- Hids.
      split_and!; [apply Ha..|done|]. by apply contains_true, E2.
    + simpl. rewrite <- Hids. rewrite Hc in E3.
      pose proof (Z.div_mod (len (Players.players_ids (players (w_state w)))) 2).
      pose proof (Z.mod_pos_bound (len (Players.players_ids (players (w_state w)))) 2). lia.
  - rewrite casts_app. simpl. by rewrite app_nil_r.
Qed.

(** What follows a confirmation that has been sent can rely on its having been cast. *)
Lemma vouched_cast K c w w1 w2 :
  vouched K w w1 -> c ∈ casts (w_out w1) -> (forall K', K' c -> vouched K' w1 w2) -> vouched K w w2.
Proof.
  intros [L1 G1] Hc H2. destruct (H2 (fun _ => True) I) as [L2 _]. split.
  { destruct L1 as [? L1], L2 as [? L2]. split; [congruence|auto]. }
  intros Hk Hg. rewrite Forall_forall in Hk. destruct (H2 K) as [_ G2].
  - apply Hk, L2, Hc.
  - rewrite <- Forall_forall in Hk. apply G2; [done|]. apply G1; [|done].
    rewrite Forall_forall in Hk |- *. intros x Hx. apply Hk, L2, Hx.
Qed.

Lemma cast_vouched K c m w :
  (good K w -> get_player_id c = node_id (w_state w)) ->
  cast_of (Sent NodeInterface (MkComm (KMsg m) None)) = Some c ->
  consolidation_of (Sent NodeInterface (MkComm (KMsg m) None)) = None ->
  vouched K w (outs [Sent NodeInterface (MkComm (KMsg m) None)] w).
Proof.
  intros Hc H1 H2. set (e := Sent _ _) in *. clearbody e. split.
  { split; [done|]. intros x Hx. simpl. rewrite casts_app. apply elem_of_app. by left. }
  intros _ Hg. pose proof (Hc Hg) as Hid. destruct Hg. split; try done; cbn [outs w_out w_state].
  - rewrite consolidations_app. simpl. by rewrite H2, app_nil_r.
  - rewrite casts_app. simpl. rewrite H1. apply Forall_app. split; [done|]. by constructor.
Qed.

Lemma vote_proposal_cast block r w :
  exists c w', vote_proposal block r w = Ret c w' /\ about (get_hash block) (get_height block) r c /\
    c ∈ casts (w_out w') /\ block_proposals (w_state w') = block_proposals (w_state w) /\
    forall K, vouched K w w'.
Proof.
  unfold vote_proposal. rewrite bind_eq, modify_eq, bind_eq. cbn [gets w_state upd]. rewrite bind_eq.
  set (c := conf_sign _ _). eexists c, _. split; [reflexivity|]. split_and!; try done.
  - unfold about. subst c. by rewrite sign_block_hash, sign_block_height, sign_block_round, new_block_hash, new_block_height, new_block_round.
  - cbn. rewrite casts_app. apply elem_of_app. right. left.
  - intros K. set (w1 := upd _ w). transitivity w1; [by apply unmoved_vouched|].
    apply (cast_vouched K c (Msg.PropagateConfirmationToPeers c) w1); [|done..]. intros Hg. apply (g_id _ _ Hg).
Qed.

(** ** The handlers *)

#[local] Hint Resolve quorum_vouched check_old_block_proposals_vouched : frames.
#[local] Hint Extern 2 (rel (vouched _) _) => apply unmoved_rel; solve [auto with frames nocore] : frames.

Lemma single_recordable K hash n r c block bp :
  about hash n r c -> K c -> match block with Some (b, _) => get_hash b = hash | None => True end ->
  recordable K hash n r [c] block bp.
Proof. intros. split_and!; [by constructor|intros _; apply NoDup_singleton|done]. Qed.

(** A confirmation received alone *)
Lemma record_one_vouched K c : K c -> rel (vouched K) (update_proposals (A := A) (B := B) (T := T) [c] None).
Proof.
  intros Hk w. apply (update_proposals_vouched K (get_block_hash c) (get_block_height c) (get_block_round c)).
  intros _. by apply single_recordable.
Qed.

(** Confirmations recorded, and what follows *)
Lemma record_then_vouched K hash n r cs block (k : handler A B C T t unit) w :
  (good K w -> recordable K hash n r cs block (block_proposals (w_state w))) -> rel (vouched K) k ->
  vouched K w (exec_world ((update_proposals cs block ;; k) w)).
Proof.
  intros Hr Hk. pose proof (update_proposals_vouched K hash n r cs block w Hr) as Hu. rewrite bind_eq.
  destruct (update_proposals cs block w) as [[] w1|w1]; [|done]. etrans; [exact Hu|apply Hk].
Qed.

Lemma on_block_execution_ended_vouched K block hs : rel (vouched K) (on_block_execution_ended (A := A) (T := T) block hs).
Proof.
  intros w. unfold on_block_execution_ended. rewrite bind_eq. cbn [get_state].
  set (r := actual_round (w_state w)).
  destruct (find_proposal _ _ _ _) as [p|] eqn:Ep; rewrite bind_eq; [|done]. cbn [expect mret M_ret].
  assert (Hp : forall K', good K' w ->
    Forall (fun c => about (get_hash block) (get_height block) r c /\ K' c) (p_received_confirmations p)).
  { intros K' Hg. by destruct (sound_find_proposal _ _ _ _ _ _ (g_props _ _ Hg) Ep) as [(? & _) [= <- <-]]. }
  rewrite bind_eq. destruct (should_player_vote _ _ _).
  - rewrite bind_eq. destruct (vote_proposal_cast block r w) as (c & w1 & -> & Ha & Hc & Hb & Hv).
    cbn [mret M_ret]. apply (vouched_cast K c w w1); [apply Hv|done|]. intros K' Hk.
    apply (record_then_vouched K' (get_hash block) (get_height block) r); [|frames].
    intros Hg. split_and!; [|by rewrite Hb, Ep|done]. apply Forall_app. split; [|by constructor].
    rewrite <- Hb in Ep. by destruct (sound_find_proposal _ _ _ _ _ _ (g_props _ _ Hg) Ep) as [(? & _) [= <- <-]].
  - cbn [mret M_ret]. apply (record_then_vouched K (get_hash block) (get_height block) r); [|frames].
    intros Hg. split_and!; [by apply Hp|by rewrite Ep|done].
Qed.

Lemma check_next_round_proposals_vouched K n r : rel (vouched K) (check_next_round_proposals (A := A) (T := T) n r).
Proof.
  intros w. unfold check_next_round_proposals. rewrite bind_eq. cbn [get_state].
  pose proof (find_round_wf n r (block_proposals (w_state w))) as Hf.
  pose proof (sound_find_round K n r (block_proposals (w_state w))) as Hs.
  destruct (find_round n r (block_proposals (w_state w))) as [bp found]. rewrite bind_eq, modify_eq.
  set (w1 := upd _ w). assert (H1 : vouched K w w1) by by apply apart_vouched. clearbody w1. clear Hf Hs.
  etrans; [exact H1|]. clear H1 w. destruct found as [p|]; [|done]. destruct (p_block p) as [[block hs]|]; [|done].
  rewrite bind_eq. cbn [get_state fst].
  assert (Hq : rel (vouched K) (_ ← verify_block_proposal_quorum (A := A) (T := T) (get_hash block) n r; mret true)) by frames.
  rewrite bind_eq. unfold when. destruct (should_player_vote _ _ _); [|apply Hq].
  rewrite bind_eq. destruct (vote_proposal_cast block r w1) as (c & w2 & -> & Ha & Hc & Hb & Hv).
  assert (Hu : vouched K w1 (exec_world (update_proposals [c] (Some (block, hs)) w2))).
  { apply (vouched_cast K c w1 w2); [apply Hv|done|]. intros K' Hk.
    apply (update_proposals_vouched K' (get_hash block) (get_height block) r). intros _. by apply single_recordable. }
  destruct (update_proposals [c] (Some (block, hs)) w2) as [[] w3|w3]; [|done].
  etrans; [exact Hu|apply Hq].
Qed.

Lemma vouched_known K c w w' :
  (forall K', K' c -> vouched K' w w') -> c ∈ casts (w_out w') -> vouched K w w'.
Proof.
  intros H Hc. split; [by destruct (H (fun _ => True) I)|]. intros Hk Hg.
  destruct (H K) as [_ G]; [|by apply G]. rewrite Forall_forall in Hk. auto.
Qed.

(** The service records its confirmation of the block it has built before it sends both;
    nothing in between fails. *)
Lemma on_proposal_after_build_vouched K block r hs :
  rel (vouched K) (on_proposal_after_build (A := A) (T := T) block r hs).
Proof.
  intros w. unfold on_proposal_after_build. rewrite bind_eq. cbn [get_state].
  unfold when at 1. destruct (negb _); [|done]. set (b := block_sign (keypair (w_state w)) block).
  set (c := conf_sign _ _). rewrite bind_eq, modify_eq. set (w1 := upd _ w).
  assert (Ha : about (get_hash b) (get_height b) r c).
  { unfold about. subst c. by rewrite sign_block_hash, sign_block_height, sign_block_round, new_block_hash, new_block_height, new_block_round. }
  assert (Hu : forall K', K' c -> vouched K' w (exec_world (update_proposals [c] (Some (b, hs)) w1))).
  { intros K' Hk. transitivity w1; [by apply unmoved_vouched|].
    apply (update_proposals_vouched K' (get_hash b) (get_height b) r). intros _. by apply single_recordable. }
  pose proof (update_proposals_frame keypair [c] (Some (b, hs)) ltac:(done) w1) as Fu.
  assert (Hrun : good K w -> exists w2, update_proposals [c] (Some (b, hs)) w1 = Ret tt w2 /\
    is_Some (find_proposal (block_proposals (w_state w2)) (get_height b) (get_hash b) r)).
  { intros Hg. destruct (update_proposals_run [c] c (Some (b, hs)) w1 (g_wf _ _ Hg) eq_refl) as (w2 & -> & _ & Hf & _).
    exists w2. split; [done|]. destruct Ha as (A1 & A2 & A3). by rewrite A1, A2, A3 in Hf. }
  rewrite bind_eq. destruct (update_proposals [c] (Some (b, hs)) w1) as [[] w2|w2]; simpl in Hu, Fu.
  2:{ split; [apply (Hu (fun _ => True) I)|]. intros _ (w2' & [=] & _)%Hrun. }
  set (q := when _ _).
  assert (Hq : forall K', rel (vouched K') q) by (intros K'; subst q; frames).
  assert (Fq : rel (same_proj keypair) q).
  { subst q. frames. by apply verify_block_proposal_quorum_frame. }
  specialize (Fq w2). rewrite bind_eq. pose proof (fun K' => Hq K' w2) as Hq2.
  destruct (q w2) as [[] w3|w3] eqn:Eq; simpl in Hq2, Fq.
  - apply (vouched_known K c); [|simpl; rewrite casts_app; apply elem_of_app; right; left].
    intros K' Hk. etrans; [by apply Hu|]. etrans; [apply Hq2|].
    apply (cast_vouched K' c (Msg.PropagateBlockToPeers b c hs) w3); [|done..]. intros Hg.
    pose proof (g_id _ _ Hg (get_hash b) (get_height b) r) as Hid. unfold same_proj in Fu, Fq. by rewrite Fq, Fu in Hid.
  - split; [destruct (Hu (fun _ => True) I) as [[? L1] _], (Hq2 K) as [[? L2] _]; simpl in *; split; [simpl; congruence|auto]|].
    intros _ Hg. exfalso. destruct (Hrun Hg) as (w2' & [= <-] & Hf).
    destruct (quorum_runs _ _ _ _ Hf) as (x & w4 & Hx). revert Eq. unfold q, when.
    destruct (_ =? 1); [rewrite bind_eq, Hx|]; discriminate.
Qed.

Lemma on_block_consolidated_vouched K block ps :
  Players.players_ids ps = players_at (get_height block) -> is_u64 (get_height block) ->
  rel (vouched K) (on_block_consolidated (A := A) (T := T) block ps).
Proof.
  intros Hps Hh w. unfold on_block_consolidated. rewrite bind_eq, modify_eq, bind_eq, modify_eq, bind_eq.
  set (w1 := upd _ (upd _ w)).
  assert (H2 : exists w2, reset_proposals (get_hash block) (get_height block) w1 = Ret tt w2 /\ vouched K w w2).
  { unfold reset_proposals. rewrite bind_eq, modify_eq, bind_eq, modify_eq, bind_eq, modify_eq, bind_eq.
    cbn [get_state]. rewrite bind_eq. unfold when.
    destruct (is_player _); (eexists; split; [reflexivity|]; split; [done|]; intros _ [G1 G2 G3 G4 G5 G6];
      split; [by apply bp_wf_filter|by apply sound_filter|done..]). }
  destruct H2 as (w2 & -> & H2). etrans; [exact H2|]. clear H2 w1 w. revert w2.
  change (rel (vouched K) (draw_new_leader (A := A) (T := T) block ;;
    modify (set_consolidation_in_progress None) ;; block_consolidated (get_height block))).
  apply unmoved_rel. frames; [apply draw_new_leader_unmoved|apply block_consolidated_unmoved].
Qed.

(** The confirmations of a peer, for a block that it may come with *)
Definition answered K (cs : list C) (block : option (B * list Hash)) : Prop :=
  NoDup cs /\ exists hash n r, Forall (fun c => about hash n r c /\ K c) cs /\
    match block with Some (b, _) => get_hash b = hash | None => True end.

Lemma record_answered_vouched K cs block :
  answered K cs block -> rel (vouched K) (update_proposals (A := A) (T := T) cs block).
Proof.
  intros (Hn & hash & n & r & Hcs & Hb) w. apply (update_proposals_vouched K hash n r). by intros _.
Qed.

Lemma verify_confirmations_vouched K cs block :
  answered (fun c => conf_verify c = true -> K c) cs block ->
  rel (vouched K) (verify_confirmations_from_peer (A := A) (T := T) cs block).
Proof.
  intros (Hn & hash & n & r & Hcs & Hb) w. unfold verify_confirmations_from_peer. rewrite bind_eq.
  destruct cs as [|c0 cs]; [done|]. cbn [hd_error expect mret M_ret]. rewrite bind_eq. cbn [get_state].
  destruct (existsb _ _ || _ || _) eqn:E; [done|].
  apply orb_false_iff in E as [[E _]%orb_false_iff _].
  apply (record_then_vouched K hash n r); [|frames].
  intros _. split_and!; [|done|done]. rewrite existsb_false_elem in E. rewrite Forall_forall in Hcs |- *.
  intros c Hc. destruct (Hcs c Hc) as [Ha Hk]. split; [done|]. apply Hk.
  specialize (E c Hc). apply orb_false_iff in E as [_ E]. by apply negb_false_iff in E.
Qed.

(** What a node of the network may receive: from peers, confirmations that verify, which
    can only have been cast, and the confirmation of a block, which this service does not
    check; of the nodes' own services, the blocks the chain gained and its players *)
Definition admissible K (comm : Comm A B C T) : Prop :=
  match kind comm with
  | KMsg (Msg.BlockConfirmationFromPeer c) => conf_verify c = true -> K c
  | KMsg (Msg.BlockFromPeer _ c _) => K c
  | KMsg (Msg.VerifyConfirmations block cs) => answered (fun c => conf_verify c = true -> K c) cs block
  | KMsg (Msg.ProposalFromAlignmentBlock cs) => answered K cs None
  | KMsg (Msg.BlockConsolidated block _ ps) =>
      Players.players_ids ps = players_at (get_height block) /\ is_u64 (get_height block)
  | _ => True
  end.

Lemma step_vouched K comm : admissible K comm -> rel (vouched K) (step comm).
Proof.
  unfold admissible, step, dispatch. destruct (kind comm) as [m|q].
  - destruct m; simpl; intros Ha; try (apply rel_ret; typeclasses eauto).
    + intros w. unfold on_block_confirmation_from_peer. rewrite bind_eq. cbn [get_state]. unfold when at 1.
      destruct (_ && conf_verify _) eqn:E; [|done]. apply andb_prop in E as [_ E]. apply (record_then_vouched K (get_block_hash c) (get_block_height c) (get_block_round c)); [|frames].
      intros _. by apply single_recordable; auto.
    + destruct Ha. by apply on_block_consolidated_vouched.
    + pose proof (record_one_vouched _ _ Ha). unfold on_block_from_peer. frames.
    + apply on_block_execution_ended_vouched.
    + unfold on_check_old_block_proposals. frames.
    + apply unmoved_rel, confirm_build_unmoved.
    + unfold on_block_election_failed. frames.
      * apply check_next_round_proposals_vouched.
      * apply unmoved_rel, block_election_failed_unmoved.
    + apply on_proposal_after_build_vouched.
    + pose proof (record_answered_vouched _ _ _ Ha). unfold on_proposal_from_alignment_block. frames.
    + by apply verify_confirmations_vouched.
  - intros _. destruct (res_chan comm); [apply unmoved_rel, handle_requests_unmoved|apply rel_ret; typeclasses eauto].
Qed.

(** ** The network *)

Definition cast_in ws (c : C) : Prop := exists w, w ∈ ws /\ c ∈ casts (w_out w).

(** A node with other answers to come and another time on its clock *)
Definition awaiting (ans : list (Answer A B C T)) (clk : Z * list Z) w : cworld :=
  World (w_state w) ans clk (w_out w).

(** A node receives a message: what the other services of the node and the clock answer is
    arbitrary. A node whose service panics is taken to go on, which adds behaviours only. *)
Inductive net_step : list cworld -> list cworld -> Prop :=
| Receives i w comm ans clk ws :
    ws !! i = Some w -> admissible (cast_in ws) comm -> no_rollback_step comm w ->
    net_step ws (<[i := exec_world (step comm (awaiting ans clk w))]> ws).

(** The nodes before they have received anything *)
Definition fresh w : Prop :=
  block_proposals (w_state w) = [] /\ casts (w_out w) = [] /\ consolidations (w_out w) = [] /\
  players_known (w_state w) /\ identified (w_state w).

Definition own_id w : string := node_id (w_state w).

Record network_ok ws : Prop := {
  n_ids : NoDup (map own_id ws);
  n_honest : Forall honest ws;
  n_good : Forall (good (cast_in ws)) ws
}.

Lemma sound_mono K K' bp : (forall c, K c -> K' c) -> sound_proposals K bp -> sound_proposals K' bp.
Proof.
  intros HK Hs. apply (Forall_impl _ _ _ Hs). intros [n ps] Hps. apply (Forall_impl _ _ _ Hps).
  intros p (Hr & Hn & Hb). split_and!; [|done|done]. apply (Forall_impl _ _ _ Hr). intros c [? ?]. auto.
Qed.

Lemma good_mono K K' w : (forall c, K c -> K' c) -> good K w -> good K' w.
Proof.
  intros HK [G1 G2 G3 G4 G5 G6]. split; try done; [by eapply sound_mono|]. apply (Forall_impl _ _ _ G3).
  intros [b cs] (h & r & Hh & Hn & Hc & Hq). exists h, r. split_and!; [apply Hh..|done| |done].
  apply (Forall_impl _ _ _ Hc). intros c (? & ? & ?). auto.
Qed.

Lemma answered_mono K K' cs block : (forall c, K c -> K' c) -> answered K cs block -> answered K' cs block.
Proof.
  intros HK (Hn & hash & n & r & Hc & Hb). split; [done|]. exists hash, n, r. split; [|done].
  apply (Forall_impl _ _ _ Hc). intros c (? & ?). auto.
Qed.

Lemma admissible_mono K K' comm : (forall c, K c -> K' c) -> admissible K comm -> admissible K' comm.
Proof.
  intros HK. unfold admissible. destruct (kind comm) as [m|]; [|done]. destruct m; auto; by apply answered_mono; auto.
Qed.

Lemma cast_in_update ws i w w' :
  ws !! i = Some w -> later w w' -> forall c, cast_in ws c -> cast_in (<[i := w']> ws) c.
Proof.
  intros Hi [_ Hl] c (v & Hv & Hc). apply list_elem_of_lookup in Hv as [j Hj].
  pose proof (lookup_lt_Some _ _ _ Hi) as Hlt. destruct (decide (j = i)) as [->|Hne].
  - exists w'. split; [|apply Hl; congruence]. apply list_elem_of_lookup. exists i. by apply list_lookup_insert_eq.
  - exists v. split; [|done]. apply list_elem_of_lookup. exists j. by rewrite list_lookup_insert_ne.
Qed.

Lemma map_own_id ws i w w' : ws !! i = Some w -> own_id w' = own_id w -> map own_id (<[i := w']> ws) = map own_id ws.
Proof.
  intros Hi He. change (map own_id) with (fmap (M := list) own_id). rewrite list_fmap_insert, He.
  apply list_insert_id. by rewrite list_lookup_fmap, Hi.
Qed.

Lemma net_step_ok ws ws' : net_step ws ws' -> network_ok ws -> network_ok ws'.
Proof.
  intros [i w comm ans clk ws0 Hi Ha Hr] [N1 N2 N3]. set (w0 := awaiting ans clk w). set (w' := exec_world _).
  assert (Hw' : forall K, admissible K comm -> vouched K w0 w') by (intros K HK; by apply step_vouched).
  destruct (Hw' _ Ha) as [Hl _]. change (later w w') in Hl.
  pose proof (cast_in_update _ _ _ _ Hi Hl) as HK.
  split.
  - rewrite (map_own_id _ _ w); [done|done|apply Hl].
  - apply Forall_insert; [done|]. apply step_safe; [done|]. rewrite Forall_lookup in N2. exact (N2 _ _ Hi).
  - destruct (Hw' (cast_in (<[i:=w']> ws0)) (admissible_mono _ _ _ HK Ha)) as [_ Hg].
    apply Forall_insert.
    + apply (Forall_impl _ _ _ N3). intros v. by apply good_mono.
    + apply Hg.
      * apply Forall_forall. intros c Hc. exists w'. split; [|done]. apply list_elem_of_lookup. exists i.
        apply list_lookup_insert_eq. by eapply lookup_lt_Some.
      * rewrite Forall_lookup in N3. apply (good_mono (cast_in ws0)); [done|]. by destruct (N3 _ _ Hi).
Qed.

Lemma network_reached ws ws' : network_ok ws -> rtc net_step ws ws' -> network_ok ws'.
Proof. intros Hok Hr. induction Hr as [ws|ws1 ws2 ws3 Hs _ IH]; [done|]. by eapply IH, net_step_ok. Qed.

Lemma fresh_ok ws : Forall fresh ws -> NoDup (map own_id ws) -> network_ok ws.
Proof.
  intros Hf Hn. split; [done|..]; apply (Forall_impl _ _ _ Hf); intros w (Hb & Hc & Hs & Hp & Hi).
  - unfold honest. rewrite votes_casts, Hc. split; [constructor|]. by intros v ?%not_elem_of_nil.
  - split; try done; unfold proposals_wf; rewrite ?Hb, ?Hc, ?Hs; try constructor; constructor.
Qed.

(** ** One block in a round *)

Lemma nodup_map_inj {X Y} (f : X -> Y) (l : list X) x y :
  NoDup (map f l) -> x ∈ l -> y ∈ l -> f x = f y -> x = y.
Proof.
  intros Hn Hx Hy He. apply list_elem_of_lookup in Hx as [i Hi], Hy as [j Hj].
  assert (i = j) as ->; [|congruence]. apply (NoDup_lookup (f <$> l) i j (f x)); [done|..];
    rewrite list_lookup_fmap; [by rewrite Hi|by rewrite Hj, He].
Qed.

(** A player casts one confirmation in a round. *)
Lemma cast_once ws c c' :
  network_ok ws -> cast_in ws c -> cast_in ws c' -> get_player_id c = get_player_id c' ->
  get_block_height c = get_block_height c' -> get_block_round c = get_block_round c' -> c = c'.
Proof.
  intros [N1 N2 N3] (w & Hw & Hc) (w' & Hw' & Hc') Hp Hh Hr. rewrite Forall_forall in N2, N3.
  pose proof (g_casts _ _ (N3 _ Hw)) as G. pose proof (g_casts _ _ (N3 _ Hw')) as G'. rewrite Forall_forall in G, G'.
  assert (w = w') as <-.
  { apply (nodup_map_inj own_id ws); try done. unfold own_id. by rewrite <- (G c Hc), <- (G' c' Hc'). }
  destruct (N2 _ Hw) as [Hn _]. rewrite votes_casts in Hn. apply (nodup_map_inj _ _ _ _ Hn Hc Hc'). by rewrite Hh, Hr.
Qed.

Lemma next_height_inj h h' : is_u64 h -> is_u64 h' -> h +u64 1 = h' +u64 1 -> h = h'.
Proof.
  unfold is_u64, u64_add, u64_wrap, u64_max. intros Hh Hh' He.
  destruct (decide (h = 18446744073709551615)) as [->|?], (decide (h' = 18446744073709551615)) as [->|?]; [done|..].
  - change ((18446744073709551615 + 1) mod 2 ^ 64) with 0 in He. rewrite Z.mod_small in He; lia.
  - change ((18446744073709551615 + 1) mod 2 ^ 64) with 0 in He. rewrite Z.mod_small in He; lia.
  - rewrite !Z.mod_small in He; lia.
Qed.

(** Distinct confirmations of one round come from distinct players. *)
Lemma certificate_players ws b cs h r :
  network_ok ws -> NoDup cs ->
  Forall (fun c => about (get_hash b) (h +u64 1) r c /\ cast_in ws c /\ get_player_id c ∈ players_at h) cs ->
  NoDup (map get_player_id cs).
Proof.
  intros Hok Hn Hc. rewrite Forall_forall in Hc. apply NoDup_fmap_2_strong; [|done]. intros x y Hx Hy He.
  destruct (Hc x Hx) as ((_ & X1 & X2) & Kx & _), (Hc y Hy) as ((_ & Y1 & Y2) & Ky & _).
  apply (cast_once ws); congruence.
Qed.

(** Two consolidations of a round in a network whose invariant holds are of the same block. *)
Lemma network_agrees ws w1 w2 b1 b2 cs1 cs2 c1 c2 :
  network_ok ws -> w1 ∈ ws -> w2 ∈ ws ->
  (b1, cs1) ∈ consolidations (w_out w1) -> (b2, cs2) ∈ consolidations (w_out w2) ->
  c1 ∈ cs1 -> c2 ∈ cs2 ->
  get_block_height c1 = get_block_height c2 -> get_block_round c1 = get_block_round c2 ->
  get_hash b1 = get_hash b2.
Proof.
  intros Hok Hw1 Hw2 Hb1 Hb2 Hc1 Hc2 Hh Hround.
  pose proof (n_good _ Hok) as Hg. rewrite Forall_forall in Hg.
  pose proof (g_certs _ _ (Hg _ Hw1)) as G1. pose proof (g_certs _ _ (Hg _ Hw2)) as G2. rewrite Forall_forall in G1, G2.
  destruct (G1 _ Hb1) as (h1 & r1 & U1 & N1 & F1 & L1), (G2 _ Hb2) as (h2 & r2 & U2 & N2 & F2 & L2). simpl in *.
  pose proof (certificate_players _ _ _ _ _ Hok N1 F1) as P1.
  pose proof (certificate_players _ _ _ _ _ Hok N2 F2) as P2.
  rewrite Forall_forall in F1, F2.
  destruct (F1 _ Hc1) as ((_ & A1 & A2) & _), (F2 _ Hc2) as ((_ & B1 & B2) & _).
  assert (h1 = h2) as <- by (apply next_height_inj; congruence). assert (r1 = r2) as <- by congruence.
  destruct (pigeonhole _ _ (players_at h1) P1 P2) as (x & X1 & X2).
  - intros x (c & -> & Hc)%list_elem_of_fmap. by apply F1.
  - intros x (c & -> & Hc)%list_elem_of_fmap. by apply F2.
  - unfold len in *. rewrite !length_map. lia.
  - apply list_elem_of_fmap in X1 as (c & -> & X1), X2 as (c' & He & X2).
    destruct (F1 _ X1) as ((<- & E1 & E2) & K1 & _), (F2 _ X2) as ((<- & E3 & E4) & K2 & _).
    f_equal. apply (cast_once ws); congruence.
Qed.

(** Agreement within a round. However the messages of the consensus services of a network are
    ordered, lost and repeated, whatever the other services answer and the clocks show:
    when two nodes start the consolidation of a block each, and the confirmations they hold
    are for the same height and round, the blocks have the same hash. The nodes follow the
    code, receive no confirmation that none of them has cast, are told the same players
    for a height, and consolidate no block below a height they have voted at. *)
Theorem rounds_agree ws ws' w1 w2 b1 b2 cs1 cs2 c1 c2 :
  Forall fresh ws -> NoDup (map own_id ws) -> rtc net_step ws ws' ->
  w1 ∈ ws' -> w2 ∈ ws' ->
  (b1, cs1) ∈ consolidations (w_out w1) -> (b2, cs2) ∈ consolidations (w_out w2) ->
  c1 ∈ cs1 -> c2 ∈ cs2 ->
  get_block_height c1 = get_block_height c2 -> get_block_round c1 = get_block_round c2 ->
  get_hash b1 = get_hash b2.
Proof.
  intros Hf Hids Hr. apply network_agrees. eapply network_reached, Hr. by apply fresh_ok.
Qed.
End network.

(** ** Witnesses, and two rounds *)

Module NetworkSample.
Import ConsensusSample.
#[local] Existing Instances Samples.ring Samples.block_executable Samples.conf_confirmable Samples.conf_eq_dec
  Samples.block_laws Samples.conf_laws.

Definition abc_at (h : Z) : list string := ["a"; "b"; "c"].
(** The three players, before they have received anything *)
Definition node (id : string) : sworld :=
  World (Mk 0 ∅ [] None 0 (Samples.keypair id) (Samples.hash 0) "a" id abc []) [] (10, []) [].
Definition nodes : list sworld := map node ["a"; "b"; "c"].

Definition msg (m : Msg.t Z Samples.block Samples.conf Samples.tx) : Comm Z Samples.block Samples.conf Samples.tx :=
  MkComm (KMsg m) None.
(** The node at place [i] receives a message. *)
Definition receive (ws : list sworld) '(i, m) : list sworld :=
  match ws !! i with Some w => <[i := exec_world (step (msg m) (awaiting [] (10, []) w))]> ws | None => ws end.
Definition receives (ms : list (nat * Msg.t Z Samples.block Samples.conf Samples.tx)) : list sworld :=
  fold_left receive ms nodes.

Definition may_receive (ws : list sworld) '(i, m) : Prop :=
  match ws !! i with
  | Some w => admissible abc_at (fun c => c ∈ mjoin (map (fun w => casts (w_out w)) ws)) (msg m) /\ no_rollback_step (msg m) w
  | None => True
  end.
Fixpoint may_all_receive (ws : list sworld) (ms : list (nat * Msg.t Z Samples.block Samples.conf Samples.tx)) : Prop :=
  match ms with [] => True | m :: ms => may_receive ws m /\ may_all_receive (receive ws m) ms end.

Lemma receives_reached ms : may_all_receive nodes ms -> rtc (net_step abc_at) nodes (receives ms).
Proof.
  unfold receives. generalize nodes. induction ms as [|[i m] ms IH]; intros ws H; [done|]. destruct H as [Hm H].
  transitivity (receive ws (i, m)); [|by apply IH]. clear IH H. simpl. unfold may_receive in Hm.
  destruct (ws !! i) as [w|] eqn:Hi; [|done]. destruct Hm as [Ha Hr]. apply rtc_once, Receives; [done| |done].
  revert Ha. apply admissible_mono. intros c (l & Hc & Hl)%list_elem_of_join.
  apply list_elem_of_fmap in Hl as (v & -> & Hv). by exists v.
Qed.

(** In the first round b builds a block and a votes for it; c too. *)
Definition block_b : Samples.block := Samples.blk "b" 7 1 0.
Definition vote_b : Samples.conf := Samples.vote "b" 7 1 0.
Definition first_round : list (nat * Msg.t Z Samples.block Samples.conf Samples.tx) :=
  [(1%nat, Msg.ProposalAfterBuild block_b 0 [Samples.hash 3]);
   (0%nat, Msg.BlockFromPeer block_b vote_b [Samples.hash 3]);
   (0%nat, Msg.BlockExecutionEnded block_b [Samples.hash 3])].
Definition agreed := receives (first_round ++
  [(2%nat, Msg.BlockFromPeer block_b vote_b [Samples.hash 3]); (2%nat, Msg.BlockExecutionEnded block_b [Samples.hash 3])]).


Lemma nodes_fresh : Forall (fresh abc_at) nodes.
Proof. repeat constructor; vm_compute; congruence. Qed.

Lemma nodes_distinct : NoDup (map own_id nodes).
Proof. apply (bool_decide_unpack _). vm_compute. exact I. Qed.

Definition at_place (ws : list sworld) (i : nat) : sworld := default (node "") (ws !! i).
(** The first consolidation the node at a place starts *)
Definition started (ws : list sworld) (i : nat) : Samples.block * list Samples.conf :=
  default (block_b, []) (head (consolidations (w_out (at_place ws i)))).

(** a and c start one each, on two of the three votes. *)
Lemma rounds_agree_witness : get_hash (fst (started agreed 0)) = get_hash (fst (started agreed 2)).
Proof.
  apply (rounds_agree abc_at nodes agreed (at_place agreed 0) (at_place agreed 2) _ _
    (snd (started agreed 0)) (snd (started agreed 2)) (Samples.vote "a" 7 1 0) (Samples.vote "c" 7 1 0)).
  - exact nodes_fresh.
  - exact nodes_distinct.
  - apply receives_reached. vm_compute. repeat split; repeat constructor.
  - vm_compute. repeat constructor.
  - vm_compute. repeat constructor.
  - vm_compute. repeat constructor.
  - vm_compute. repeat constructor.
  - vm_compute. repeat constructor.
  - vm_compute. repeat constructor.
  - reflexivity.
  - reflexivity.
Defined.

(** The vote of a is late: b and c hold the election failed, c builds another block, and b,
    which has voted for its own, votes for that one in the second round. *)
Definition block_c : Samples.block := Samples.blk "c" 8 1 0.
Definition vote_c : Samples.conf := Samples.vote "c" 8 1 1.
Definition forked := receives (first_round ++
  [(1%nat, Msg.BlockElectionFailed 1 1); (2%nat, Msg.BlockElectionFailed 1 1);
   (2%nat, Msg.ProposalAfterBuild block_c 1 [Samples.hash 3]);
   (1%nat, Msg.BlockFromPeer block_c vote_c [Samples.hash 3]);
   (1%nat, Msg.BlockExecutionEnded block_c [Samples.hash 3])]).

(** Across rounds two nodes can start the consolidation of different blocks of the same
    height on top of the same block, with honest players and messages that are only late: a
    player that has voted in a round votes for another block of the height in the next one. *)
Theorem rounds_fork :
  rtc (net_step abc_at) nodes forked /\
  exists w1 w2 b1 b2 cs1 cs2, w1 ∈ forked /\ w2 ∈ forked /\
    (b1, cs1) ∈ consolidations (w_out w1) /\ (b2, cs2) ∈ consolidations (w_out w2) /\
    get_height b1 = get_height b2 /\ get_prev_hash b1 = get_prev_hash b2 /\ get_hash b1 <> get_hash b2.
Proof.
  split; [apply receives_reached; vm_compute; repeat split; repeat constructor|].
  exists (at_place forked 0), (at_place forked 1), block_b, block_c,
    [vote_b; Samples.vote "a" 7 1 0], [vote_c; Samples.vote "b" 8 1 1].
  split_and!; try reflexivity; try discriminate; vm_compute; repeat constructor.
Qed.
End NetworkSample.
