(* ===== verification/BlockService.v ===== *)
(** * The block service ([trinci-core-new/src/services/block_service.rs])

    It builds blocks from the pooled transactions, checks the blocks that come from
    peers, gathers the transactions they need before their execution, follows the
    consolidated height, and aligns the node when it is behind the network. *)

From stdpp Require Import base gmap strings list fin_maps.
From S2P Require Import Prelude Exec Hash Crypto CoreModels Samples Messages.
Open Scope Z_scope.

(** [Iterator::max_by_key]: of several greatest elements, the last *)
Definition max_by {X} (le : X -> X -> bool) (l : list X) : option X :=
  fold_left (fun best x => match best with
                           | None => Some x
                           | Some b => if le b x then Some x else Some b
                           end) l None.

Module BlockService.
Section service.
Context `{Hring : Ring} {A B C T : Type}
  `{!Executable B, !Confirmable C, !Transactable T, !Serialize T} `{!HashMapIter BlockInfo}.

(** [alignment_sender] is [Some] while there is a channel to the alignment thread. *)
Record t : Type := Mk {
  actual_round : Z;
  alignment_sender : option unit;
  build_in_progress : bool;
  height : Z;
  keypair : Keys.TrinciKeyPair;
  last_block_hash : Hash;
  node_id : string
}.

Abbreviation h := (handler A B C T t).
Abbreviation CoreErr := (CoreError A B C T).

Definition set_actual_round (x : Z) (s : t) : t :=
  Mk x (alignment_sender s) (build_in_progress s) (height s) (keypair s) (last_block_hash s) (node_id s).
Definition set_alignment_sender (x : option unit) (s : t) : t :=
  Mk (actual_round s) x (build_in_progress s) (height s) (keypair s) (last_block_hash s) (node_id s).
Definition set_build_in_progress (x : bool) (s : t) : t :=
  Mk (actual_round s) (alignment_sender s) x (height s) (keypair s) (last_block_hash s) (node_id s).
Definition set_height (x : Z) (s : t) : t :=
  Mk (actual_round s) (alignment_sender s) (build_in_progress s) x (keypair s) (last_block_hash s) (node_id s).
Definition set_last_block_hash (x : Hash) (s : t) : t :=
  Mk (actual_round s) (alignment_sender s) (build_in_progress s) (height s) (keypair s) x (node_id s).

(** [send_req(..).map_err(..)?] *)
Definition ask (to : Service) (req : Req.t) : h (Result (Res.t A B C T) CoreErr) :=
  r ← send_req BlockService to req;
  mret (match r with Ok res => Ok res | Err e => Err (EComm e) end).

(** ** Execution of a block *)

(** [collect_missing_txs]; out of fuel is a panic, shown not to happen with [attempts_fuel]. *)
Fixpoint collect_missing_txs (fuel : nat) (attempt : Z) (missing_txs_hashes : list Hash) : h (Result unit CoreErr) :=
  match fuel with
  | O => panic
  | S fuel =>
      if Consts.MAX_REQ_ATTEMPTS <? attempt then mret (Err (EChain MissingTxsError))
      else
        r ← send_req BlockService NodeInterface (Req.GetTxs missing_txs_hashes);
        match r with
        | Ok (Res.GetTxs missing_txs) =>
            if existsb (fun '(missing_tx, _, _) =>
                 negb (tx_verify missing_tx) || negb (contains missing_txs_hashes (tx_get_hash missing_tx)))
                 missing_txs
               || negb (len missing_txs =? len missing_txs_hashes)
            then collect_missing_txs fuel (attempt +u8 1) missing_txs_hashes
            else send_msg TransactionService (Msg.AddTxs missing_txs) ;; mret (Ok tt)
        | _ => collect_missing_txs fuel (attempt +u8 1) missing_txs_hashes
        end
  end.

(** Attempts 0 to [MAX_REQ_ATTEMPTS], and the call that gives up *)
Definition attempts_fuel : nat := 7.

Definition missing (unconfirmed : list (Hash * Z)) (txs_hashes : list Hash) : list Hash :=
  let unconfirmed_txs_hashes := map fst unconfirmed in
  List.filter (fun hash => negb (contains unconfirmed_txs_hashes hash)) txs_hashes.

Definition begin_execution (block : B) (txs_hashes : list Hash) : h (Result unit CoreErr) :=
  res <-? ask TransactionService Req.GetUnconfirmedHashes;
  match res with
  | Res.GetUnconfirmedHashes unconfirmed =>
      let missing_txs := missing unconfirmed txs_hashes in
      _ <-? (match missing_txs with
             | [] => mret (Ok tt)
             | _ => collect_missing_txs attempts_fuel 0 missing_txs
             end);
      s ← get_state;
      send_msg TransactionService (Msg.CollectBlockTxs block (actual_round s) txs_hashes) ;;
      mret (Ok tt)
  | _ => mret (Ok tt)
  end.

(** ** Building *)

(** The loop that pops transactions while they fit; [popped] is the order of the pops. *)
Fixpoint pack (limit block_size : Z) (popped : list (Hash * Z)) : list Hash :=
  match popped with
  | [] => []
  | (tx_hash, tx_size) :: popped =>
      if block_size +u64 tx_size <? limit then tx_hash :: pack limit (block_size +u64 tx_size) popped
      else []
  end.

Definition block_size_limit : Z := Consts.BLOCK_MAX_SIZE_BYTES - Consts.BLOCK_BASE_SIZE_BYTES.

Definition block_txs (txs_hashes : list (Hash * Z)) : list Hash :=
  let block_txs := pack block_size_limit 0 (reverse txs_hashes) in
  take (Z.to_nat (Z.min (len block_txs) Consts.MAX_TXS_IN_BLOCK)) block_txs.

Definition build_block : h (Result unit CoreErr) :=
  modify (set_build_in_progress true) ;;
  res <-? ask TransactionService Req.GetUnconfirmedHashes;
  match res with
  | Res.GetUnconfirmedHashes txs_hashes =>
      let block_txs_slice := block_txs txs_hashes in
      s ← get_state;
      now ← timestamp;
      let block := block_new (Keys.public_key (keypair s)) block_txs_slice (height s +u64 1) (last_block_hash s) now in
      _ <-? begin_execution block block_txs_slice;
      mret (Ok tt)
  | _ => mret (Err (EComm InvalidComm))
  end.

Definition verify_if_leader_and_build (n : Z) : h unit :=
  s ← get_state;
  r ← send_req BlockService ConsensusService (Req.IsLeader (node_id s));
  match r with
  | Ok (Res.IsLeader true) =>
      built ← build_block;
      when (is_err built) (modify (set_build_in_progress false))
  | _ => mret tt
  end ;;
  spawn (LeaderTimeoutThread n).

(** The thread it spawns *)
Definition leader_timeout_thread (n : Z) : handler A B C T unit unit :=
  sleep_ms Consts.DEFAULT_LEADER_TIMEOUT_MS ;;
  send_msg NodeInterface (Msg.VerifyIfConsolidated (n +u64 1) 0).

(** ** Checking a block from a peer *)

Definition actual_players : h (Result (list string) CoreErr) :=
  res <-? ask ConsensusService Req.GetActualPlayers;
  match res with
  | Res.GetActualPlayers ids => mret (Ok ids)
  | _ => mret (Err (EComm InvalidComm))
  end.

Definition verify_ext_block (block : B) (txs_hashes : list Hash) (confirmations : list C) : h (Result unit CoreErr) :=
  if negb (block_verify block) then mret (Err (EChain BlockVerificationFault))
  else
    match get_builder_id block with
    | None => mret (Err (EChain MissingBlockBuilder))
    | Some builder_id =>
        s ← get_state;
        if negb (get_height block =? height s +u64 1) then
          mret (Err (EChain (InvalidBlockHeight (height s +u64 1) (get_height block))))
        else if negb (bool_decide (get_prev_hash block = last_block_hash s)) then
          mret (Err (EChain (InvalidBlockPreviousHash (last_block_hash s) (get_prev_hash block))))
        else
          players <-? actual_players;
          if negb (contains players builder_id) then mret (Err (EChain (InvalidBlockPlayer builder_id)))
          else
            players <-? actual_players;
            if negb (contains players builder_id) then mret (Err (EChain (InvalidBlockPlayer builder_id)))
            else if existsb (fun confirmation =>
                      negb (contains players (get_player_id confirmation)) &&
                      (actual_round s <=? get_block_round confirmation)) confirmations then
              mret (Err (EChain ConfirmationError))
            else begin_execution block txs_hashes
    end.

(** ** Consolidation and alignment *)

Definition finalize_consolidation (block : B) (txs_hashes : list Hash) (players : Players.t) : h unit :=
  modify (set_actual_round 0) ;;
  modify (set_build_in_progress false) ;;
  modify (set_height (get_height block)) ;;
  modify (set_last_block_hash (get_hash block)) ;;
  s ← get_state;
  match alignment_sender s with
  | Some _ => emit (SentAlignment (Msg.NewHeight (height s)))
  | None => mret tt
  end ;;
  send_msg ConsensusService (Msg.BlockConsolidated block txs_hashes players) ;;
  send_msg TransactionService (Msg.BlockConsolidated block txs_hashes players).

Definition candidate : Type := BlockInfo * list string.

(** The loop of [best_last_block] over the neighbors *)
Fixpoint ask_neighbors (neighbors : list string) (candidates : gmap BlockInfo (list string)) :
    h (Result (gmap BlockInfo (list string)) CoreErr) :=
  match neighbors with
  | [] => mret (Ok candidates)
  | neighbor :: neighbors =>
      res <-? ask NodeInterface (Req.GetLastBlockInfo neighbor);
      match res with
      | Res.GetLastBlockInfo block_info =>
          ask_neighbors neighbors
            (<[block_info := default [] (candidates !! block_info) ++ [neighbor]]> candidates)
      | _ => ask_neighbors neighbors candidates
      end
  end.

(** The key of [max_by_key] is the pair of the number of neighbors and the height. *)
Definition candidate_le (x y : candidate) : bool :=
  (len (snd x) <? len (snd y)) ||
  ((len (snd x) =? len (snd y)) && (bi_height (fst x) <=? bi_height (fst y))).

Definition best_last_block : h (Result (Z * list string) CoreErr) :=
  res <-? ask NodeInterface Req.GetNeighbors;
  candidates <-? (match res with
                  | Res.GetNeighbors neighbors => ask_neighbors neighbors ∅
                  | _ => mret (Ok ∅)
                  end);
  match max_by candidate_le (map_iter candidates) with
  | Some (info, peers) => mret (Ok (bi_height info, peers))
  | None => mret (Err (EChain (AlignmentError "failed to find best last block")))
  end.

Definition spawn_alignment_thread (n : Z) (trusted_peers : list string) : h unit :=
  modify (set_alignment_sender (Some tt)) ;;
  s ← get_state;
  send_msg TransactionService Msg.AlignmentStarted ;;
  spawn (AlignmentThread (height s) n trusted_peers).

(** The alignment thread: its state is [actual_height], it waits for the messages of its
    channel.  Out of fuel is a panic. *)
Abbreviation alignment := (M Z (Effect A B C T) (Msg.t A B C T)).

Fixpoint alignment_loop (fuel : nat) (n : Z) (trusted_peers : list string) : alignment unit :=
  match fuel with
  | O => panic
  | S fuel =>
      actual_height ← get_state;
      if actual_height <? n then
        emit (Sent BlockService (MkComm (KMsg (Msg.RetrieveBlock trusted_peers)) None)) ;;
        m ← next_answer;
        match m with
        | Some (Msg.NewHeight new_height) =>
            modify (fun _ => new_height) ;; alignment_loop fuel n trusted_peers
        | _ => mret tt
        end
      else mret tt
  end.

Definition alignment_thread (fuel : nat) (n : Z) (trusted_peers : list string) : alignment unit :=
  alignment_loop fuel n trusted_peers ;;
  emit (Sent BlockService (MkComm (KMsg Msg.AlignmentEnded) None)) ;;
  emit (Sent TransactionService (MkComm (KMsg Msg.AlignmentEnded) None)).

Definition align : h (Result unit CoreErr) :=
  s ← get_state;
  match alignment_sender s with
  | Some _ => mret (Ok tt)
  | None =>
      best <-? best_last_block;
      let '(n, trusted_peers) := best in
      s ← get_state;
      when (height s <? n) (spawn_alignment_thread n trusted_peers) ;;
      mret (Ok tt)
  end.

(** The sizes of the transactions of an alignment block; [None]: one is not serializable. *)
Definition sized_txs (txs : list T) : option (list (T * Z * option (list A))) :=
  mapM (fun tx => match rmp_serialize tx with Ok bytes => Some (tx, len bytes, None) | Err _ => None end) txs.

Fixpoint retrieve_alignment_block (fuel : nat) (attempt : Z) (trusted_peers : list string) : h (Result unit CoreErr) :=
  match fuel with
  | O => panic
  | S fuel =>
      if Consts.MAX_REQ_ATTEMPTS <? attempt then mret (Err (EChain MissingBlockError))
      else
        s ← get_state;
        r ← send_req BlockService NodeInterface (Req.GetFullBlock (height s +u64 1) trusted_peers);
        match r with
        | Ok (Res.GetFullBlock (Some full_block) _) =>
            if block_verify (fb_block full_block) && forallb conf_verify (fb_confirmations full_block) then
              send_msg ConsensusService (Msg.ProposalFromAlignmentBlock (fb_confirmations full_block)) ;;
              txs ← expect (sized_txs (fb_txs full_block));
              send_msg TransactionService (Msg.AddTxs txs) ;;
              verify_ext_block (fb_block full_block) (map tx_get_hash (fb_txs full_block))
                (fb_confirmations full_block)
            else mret (Err (EChain BlockVerificationFault))
        | _ => retrieve_alignment_block fuel (attempt +u8 1) trusted_peers
        end
  end.

(** ** [handle_messages], an arm at a time *)

Definition on_build_block : h unit :=
  s ← get_state;
  when (negb (build_in_progress s)) (verify_if_leader_and_build (height s)).

Definition on_build_block_timeout (n : Z) : h unit :=
  s ← get_state;
  when (negb (build_in_progress s) && (n =? height s)) (verify_if_leader_and_build n).

Definition on_build_block_in_place_of_leader (height_to_build : Z) : h unit :=
  s ← get_state;
  when (height s <? height_to_build)
    (built ← build_block; when (is_err built) (modify (set_build_in_progress false))).

Definition on_height_from_peer (n : Z) : h unit :=
  s ← get_state;
  when (height s +u64 1 <? n) (_ ← align; mret tt).

Definition on_refresh_round (new_round : Z) : h unit :=
  s ← get_state;
  when (actual_round s <? new_round) (modify (set_actual_round new_round)).

Definition on_retrieve_block (trusted_peers : list string) : h unit :=
  r ← retrieve_alignment_block attempts_fuel 0 trusted_peers;
  when (is_err r) (modify (set_alignment_sender None)).

Definition on_start_timer_to_build_block : h unit :=
  s ← get_state;
  spawn (BuildTimerThread (height s)).

(** The thread it spawns *)
Definition build_timer_thread (actual_height : Z) : handler A B C T unit unit :=
  sleep_ms Consts.DEFAULT_TTB_MS ;; send_msg BlockService (Msg.BuildBlockTimeout actual_height).

Definition handle_messages (msg : Msg.t A B C T) : h unit :=
  match msg with
  | Msg.AlignmentEnded => modify (set_alignment_sender None)
  | Msg.BlockConsolidated block txs_hashes players => finalize_consolidation block txs_hashes players
  | Msg.BlockFromPeer block confirmation txs_hashes =>
      _ ← verify_ext_block block txs_hashes [confirmation]; mret tt
  | Msg.BuildBlock => on_build_block
  | Msg.BuildBlockTimeout n => on_build_block_timeout n
  | Msg.BuildBlockInPlaceOfLeader height_to_build => on_build_block_in_place_of_leader height_to_build
  | Msg.DetectedPossibleMisalignment => _ ← align; mret tt
  | Msg.HeightFromPeer n => on_height_from_peer n
  | Msg.RefreshRound new_round => on_refresh_round new_round
  | Msg.RetrieveBlock trusted_peers => on_retrieve_block trusted_peers
  | Msg.StartTimerToBuildBlock => on_start_timer_to_build_block
  | _ => mret tt
  end.

(** [run]: this service answers no request. *)
Definition step : Comm A B C T -> h unit := dispatch handle_messages (fun _ _ => mret tt).
Definition run : list (Comm A B C T) -> h unit := run_loop step.

(** [start] *)
Definition initial (keypair : Keys.TrinciKeyPair) (node_id : string) (block : option B) : t :=
  let '(height, last_block_hash) :=
    match block with Some block => (get_height block, get_hash block) | None => (0, Hashes.default) end in
  Mk 0 None false height keypair last_block_hash node_id.
End service.
End BlockService.
