(* ===== verification/BlockTheorems.v ===== *)
(** * The block service: what its operations do

    The transactions a built block takes from the pool, the requests for missing ones,
    the checks on a block from a peer, the height that only consolidations move, and
    the alignment. *)

From stdpp Require Import base gmap strings list fin_maps.
From S2P Require Import Prelude Exec Hash Crypto CoreModels Samples Messages TransactionService BlockService.
Open Scope Z_scope.
Import BlockService.

(** [max_by]: the element found is in the list and no other exceeds it. *)
Section max_by.
Context {X : Type} (le : X -> X -> bool).
Hypothesis le_total : forall x y, le x y = true \/ le y x = true.
Hypothesis le_trans : forall x y z, le x y = true -> le y z = true -> le x z = true.

Lemma max_by_from (l : list X) b :
  exists m, fold_left (fun best x => match best with
                | None => Some x
                | Some b => if le b x then Some x else Some b
                end) l (Some b) = Some m /\ (m = b \/ m ∈ l) /\ le b m = true /\ forall x, x ∈ l -> le x m = true.
Proof.
  assert (Hrefl : forall x, le x x = true) by (intros x; by destruct (le_total x x)).
  revert b. induction l as [|y l IH]; intros b; simpl.
  { exists b. split_and!; [done|by left|done|by intros x ?%not_elem_of_nil]. }
  destruct (le b y) eqn:E.
  - destruct (IH y) as (m & -> & Hin & Hle & Hmax). exists m. split_and!; [done| |by eapply le_trans|].
    + destruct Hin as [->|Hin]; right; [left|by right].
    + intros x [->|Hx]%elem_of_cons; auto.
  - destruct (IH b) as (m & -> & Hin & Hle & Hmax). exists m. split_and!; [done| |done|].
    + destruct Hin as [->|Hin]; [by left|right; by right].
    + intros x [->|Hx]%elem_of_cons; [|auto]. destruct (le_total b y); [congruence|]. by eapply le_trans.
Qed.

Lemma max_by_spec (l : list X) m : max_by le l = Some m -> m ∈ l /\ forall x, x ∈ l -> le x m = true.
Proof.
  destruct l as [|y l]; [done|]. unfold max_by. simpl.
  destruct (max_by_from l y) as (m' & -> & Hin & Hle & Hmax). intros [= <-]. split.
  - destruct Hin as [->|Hin]; [left|by right].
  - intros x [->|Hx]%elem_of_cons; auto.
Qed.

Lemma max_by_none (l : list X) : max_by le l = None <-> l = [].
Proof.
  destruct l as [|y l]; [done|]. unfold max_by. simpl.
  destruct (max_by_from l y) as (m' & -> & _). done.
Qed.
End max_by.

Section theorems.
Context `{Hring : Ring} {A B C T : Type}
  `{!Executable B, !Confirmable C, !Transactable T, !Serialize T} `{!HashMapIter BlockInfo}.

Abbreviation bworld := (world t (Effect A B C T) (Answer A B C T)).
Implicit Types (w : bworld) (s : t).

(** ** The transactions of a built block *)

Definition total_size (l : list (Hash * Z)) : Z := fold_right Z.add 0 (map snd l).

Lemma total_size_app l k : total_size (l ++ k) = total_size l + total_size k.
Proof. unfold total_size. induction l as [|x l IH]; simpl; [done|]. rewrite IH. lia. Qed.

Lemma total_size_nonneg l : Forall (fun e => 0 <= snd e) l -> 0 <= total_size l.
Proof. unfold total_size. induction 1; simpl; lia. Qed.

Lemma total_size_reverse l : total_size (reverse l) = total_size l.
Proof.
  induction l as [|e l IH]; [done|]. rewrite reverse_cons, total_size_app, IH. unfold total_size. simpl. lia.
Qed.

(** A size of an object in memory *)
Definition is_size (x : Z) : Prop := 0 <= x < 2 ^ 63.

Lemma pack_spec limit size popped :
  0 <= size < limit -> limit <= 2 ^ 63 -> Forall (fun e => is_size (snd e)) popped ->
  exists taken rest, popped = taken ++ rest /\ pack limit size popped = map fst taken /\
    size + total_size taken < limit /\
    match rest with [] => True | e :: _ => limit <= size + total_size taken + snd e end.
Proof.
  intros Hs Hl Hp. revert size Hs. induction Hp as [|[x sz] popped Hx Hp IH]; intros size Hs; simpl.
  { exists [], []. unfold total_size. simpl. split_and!; [done|done|lia|done]. }
  unfold is_size in Hx. simpl in Hx. rewrite u64_add_small by (unfold u64_max; lia).
  destruct (size + sz <? limit) eqn:E.
  - apply Z.ltb_lt in E. destruct (IH (size + sz)) as (taken & rest & -> & -> & H1 & H2); [lia|].
    exists ((x, sz) :: taken), rest. unfold total_size in *. simpl.
    split_and!; [done|done|lia|]. destruct rest; [done|lia].
  - apply Z.ltb_ge in E. exists [], ((x, sz) :: popped). unfold total_size. simpl.
    split_and!; [done|done|lia|lia].
Qed.

(** A built block takes the newest pooled transactions, without gaps: at most five
    hundred, of a total size below the limit of a block; and it leaves the next one in
    the pool only if it would not fit or the block has five hundred. *)
Theorem block_txs_spec pool :
  Forall (fun e => is_size (snd e)) pool ->
  exists taken rest, pool = rest ++ taken /\ block_txs pool = reverse (map fst taken) /\
    (length taken <= 500)%nat /\ total_size taken < block_size_limit /\
    forall older e, rest = older ++ [e] ->
      block_size_limit <= total_size taken + snd e \/ length taken = 500%nat.
Proof.
  intros Hp. destruct (pack_spec block_size_limit 0 (reverse pool)) as (taken & rest & Hpool & Hpack & Hs & Hr).
  { unfold block_size_limit, Consts.BLOCK_MAX_SIZE_BYTES, Consts.BLOCK_BASE_SIZE_BYTES. lia. }
  { unfold block_size_limit, Consts.BLOCK_MAX_SIZE_BYTES, Consts.BLOCK_BASE_SIZE_BYTES. lia. }
  { by rewrite Forall_reverse. }
  unfold block_txs. rewrite Hpack.
  replace (Z.to_nat _) with (Nat.min (length taken) 500)
    by (unfold len, Consts.MAX_TXS_IN_BLOCK; rewrite length_map; lia).
  set (k := Nat.min (length taken) 500). rewrite <- (take_drop k taken) in Hpool.
  assert (Hsz : Forall (fun e => 0 <= snd e) taken).
  { apply Forall_reverse in Hp. rewrite Hpool, take_drop in Hp. apply Forall_app in Hp as [Hp _].
    eapply Forall_impl; [exact Hp|]. unfold is_size. lia. }
  exists (reverse (take k taken)), (reverse (drop k taken ++ rest)). split_and!.
  - rewrite <- reverse_app, app_assoc, <- Hpool. by rewrite reverse_involutive.
  - change (@map ?a ?b) with (@fmap list _ a b). by rewrite fmap_reverse, reverse_involutive, fmap_take.
  - rewrite length_reverse, length_take. lia.
  - rewrite <- (take_drop k taken), total_size_app in Hs.
    rewrite <- (take_drop k taken), Forall_app in Hsz. destruct Hsz as [_ Hd%total_size_nonneg].
    rewrite total_size_reverse. lia.
  - intros older e He. apply (f_equal reverse) in He.
    rewrite reverse_involutive, reverse_app in He. simpl in He.
    rewrite length_reverse, length_take. destruct (decide (500 <= length taken)%nat); [right; lia|left].
    rewrite drop_ge, take_ge in * by lia. simpl in He. rewrite He in Hr.
    rewrite total_size_reverse. lia.
Qed.

(** ** Missing transactions *)

(** The transactions an answer to [GetTxs] brings, when the service takes it *)
Definition accepted (hashes : list Hash) (a : option (Answer A B C T)) : option (list (T * Z * option (list A))) :=
  match a with
  | Some (Delivered (Res.GetTxs txs)) =>
      if forallb (fun '(tx, _, _) => tx_verify tx && contains hashes (tx_get_hash tx)) txs &&
         (len txs =? len hashes)
      then Some txs else None
  | _ => None
  end.

(** The effect of asking for them *)
Definition asked (hashes : list Hash) (a : option (Answer A B C T)) : list (Effect A B C T) :=
  match a with
  | Some Disconnected => []
  | _ => [Sent NodeInterface (MkComm (KReq (Req.GetTxs hashes)) (Some BlockService))]
  end.

(** [collect_missing_txs] in one equation: what [n] more attempts make of the answers *)
Fixpoint collected (n : nat) (hashes : list Hash) (answers : list (Answer A B C T)) :
    option (list (T * Z * option (list A))) * list (Answer A B C T) * list (Effect A B C T) :=
  match n with
  | O => (None, answers, [])
  | S n =>
      match accepted hashes (head answers) with
      | Some txs => (Some txs, tail answers, asked hashes (head answers))
      | None =>
          let '(r, rest, es) := collected n hashes (tail answers) in
          (r, rest, asked hashes (head answers) ++ es)
      end
  end.

Lemma accepted_negb hashes (txs : list (T * Z * option (list A))) :
  existsb (fun '(missing_tx, _, _) =>
     negb (tx_verify missing_tx) || negb (contains hashes (tx_get_hash missing_tx))) txs =
  negb (forallb (fun '(tx, _, _) => tx_verify tx && contains hashes (tx_get_hash tx)) txs).
Proof.
  induction txs as [|[[tx ?] ?] txs IH]; simpl; [done|].
  by rewrite IH, !negb_andb.
Qed.

(** Asking takes one answer, and gives the one that counts. *)
Lemma get_txs_eq hashes (w : bworld) :
  send_req BlockService NodeInterface (Req.GetTxs hashes) w =
  Ret (match head (w_answers w) with
       | Some (Delivered res) => Ok res
       | Some Disconnected => Err (SendError (MkComm (KReq (Req.GetTxs hashes)) (Some BlockService)))
       | _ => Err RecvTimeoutError
       end)
      (World (w_state w) (tail (w_answers w)) (w_clock w) (w_out w ++ asked hashes (head (w_answers w)))).
Proof.
  destruct w as [s [|[r| |] ans] clk out]; try reflexivity. unfold asked. simpl. by rewrite app_nil_r.
Qed.

Lemma collect_missing_txs_eq n k hashes (w : bworld) :
  (n <= 6)%nat -> k = 6 - Z.of_nat n ->
  collect_missing_txs (S n) k hashes w =
    let '(r, rest, es) := collected n hashes (w_answers w) in
    match r with
    | Some txs => Ret (Ok tt) (World (w_state w) rest (w_clock w)
        (w_out w ++ es ++ [Sent TransactionService (MkComm (KMsg (Msg.AddTxs txs)) None)]))
    | None => Ret (Err (EChain MissingTxsError)) (World (w_state w) rest (w_clock w) (w_out w ++ es))
    end.
Proof.
  revert k w. induction n as [|n IH]; intros k w Hn ->.
  { simpl. destruct w. simpl. by rewrite app_nil_r. }
  assert (Ek : (Consts.MAX_REQ_ATTEMPTS <? 6 - Z.of_nat (S n)) = false) by (apply Z.ltb_ge; unfold Consts.MAX_REQ_ATTEMPTS; lia).
  cbn [collect_missing_txs collected]. rewrite Ek.
  rewrite bind_eq, get_txs_eq.
  assert (Hretry : forall r, accepted hashes (head (w_answers w)) = None -> r =
      collect_missing_txs (S n) (6 - Z.of_nat (S n) +u8 1) hashes
        (World (w_state w) (tail (w_answers w)) (w_clock w) (w_out w ++ asked hashes (head (w_answers w)))) ->
      r = let '(r, rest, es) :=
            match accepted hashes (head (w_answers w)) with
            | Some txs => (Some txs, tail (w_answers w), asked hashes (head (w_answers w)))
            | None => let '(r, rest, es) := collected n hashes (tail (w_answers w)) in
                      (r, rest, asked hashes (head (w_answers w)) ++ es)
            end in
          match r with
          | Some txs => Ret (Ok tt) (World (w_state w) rest (w_clock w)
              (w_out w ++ es ++ [Sent TransactionService (MkComm (KMsg (Msg.AddTxs txs)) None)]))
          | None => Ret (Err (EChain MissingTxsError)) (World (w_state w) rest (w_clock w) (w_out w ++ es))
          end).
  { intros r -> ->. rewrite IH; [|lia|unfold u8_add, u8_wrap; rewrite Z.mod_small; lia].
    simpl. destruct (collected n hashes (tail (w_answers w))) as [[[txs|] rest] es]; by rewrite <- !app_assoc. }
  destruct (head (w_answers w)) as [[[]| |]|] eqn:Eh; simpl; try (apply Hretry; reflexivity).
  rewrite accepted_negb. unfold accepted in *.
  destruct (forallb _ txs && _) eqn:Ea.
  - apply andb_prop in Ea as [-> ->]. simpl. unfold send_msg, emit, mbind, M_bind. simpl. by rewrite <- app_assoc.
  - assert (Hor : negb (forallb (fun '(tx, _, _) => tx_verify tx && contains hashes (tx_get_hash tx)) txs)
       || negb (len txs =? len hashes) = true) by (rewrite <- negb_andb; by rewrite Ea).
    rewrite Hor. by apply Hretry.
Qed.

#[local] Arguments collect_missing_txs : simpl never.

Lemma asked_shift hashes answers i n :
  flat_map (fun j => asked hashes (tail answers !! j)) (seq i n) =
  flat_map (fun j => asked hashes (answers !! j)) (seq (S i) n).
Proof. revert i. induction n as [|n IH]; intros i; simpl; [done|]. by rewrite IH, lookup_tail. Qed.

(** What the attempts make of the answers, in terms of the first that is accepted *)
Lemma collected_some n hashes answers txs rest es :
  collected n hashes answers = (Some txs, rest, es) ->
  exists k, (k < n)%nat /\ accepted hashes (answers !! k) = Some txs /\
    (forall j, (j < k)%nat -> accepted hashes (answers !! j) = None) /\
    rest = drop (S k) answers /\ es = flat_map (fun j => asked hashes (answers !! j)) (seq 0 (S k)).
Proof.
  revert answers es. induction n as [|n IH]; intros answers es; [done|]. cbn [collected].
  rewrite head_lookup. destruct (accepted hashes (answers !! 0%nat)) as [txs'|] eqn:E.
  - intros [= <- <- <-]. exists 0%nat. split_and!; [lia|done|lia|by destruct answers|].
    simpl. by rewrite app_nil_r.
  - destruct (collected n hashes (tail answers)) as [[r rest'] es'] eqn:Ec. intros [= -> <- <-].
    destruct (IH _ _ Ec) as (k & Hk & Ha & Hj & -> & ->). exists (S k).
    rewrite lookup_tail in Ha. split_and!; [lia|done| |by destruct answers|].
    + intros [|j] Hlt; [done|]. specialize (Hj j). rewrite lookup_tail in Hj. apply Hj. lia.
    + by rewrite asked_shift.
Qed.

Lemma collected_none n hashes answers rest es :
  collected n hashes answers = (None, rest, es) ->
  (forall j, (j < n)%nat -> accepted hashes (answers !! j) = None) /\ rest = drop n answers /\
  es = flat_map (fun j => asked hashes (answers !! j)) (seq 0 n).
Proof.
  revert answers es. induction n as [|n IH]; intros answers es; cbn [collected].
  { intros [= <- <-]. split_and!; [lia|done|done]. }
  rewrite head_lookup. destruct (accepted hashes (answers !! 0%nat)) as [txs'|] eqn:E; [done|].
  destruct (collected n hashes (tail answers)) as [[r rest'] es'] eqn:Ec. intros [= -> <- <-].
  destruct (IH _ _ Ec) as (Hj & -> & ->). split_and!.
  - intros [|j] Hlt; [done|]. specialize (Hj j). rewrite lookup_tail in Hj. apply Hj. lia.
  - destruct answers; [|done]. simpl. by destruct n.
  - by rewrite asked_shift.
Qed.

(** Missing transactions are asked for at most six times, one answer at a time. The first
    answer made of as many transactions as were asked for, all verified and with hashes
    that were asked for, is handed to the transaction service; without such an answer
    the result is the error for missing transactions and nothing is handed over. *)
Theorem collect_missing_txs_spec hashes w :
  (exists k txs, (k < 6)%nat /\ accepted hashes (w_answers w !! k) = Some txs /\
     (forall j, (j < k)%nat -> accepted hashes (w_answers w !! j) = None) /\
     collect_missing_txs attempts_fuel 0 hashes w =
       Ret (Ok tt) (World (w_state w) (drop (S k) (w_answers w)) (w_clock w)
         (w_out w ++ flat_map (fun j => asked hashes (w_answers w !! j)) (seq 0 (S k)) ++
          [Sent TransactionService (MkComm (KMsg (Msg.AddTxs txs)) None)]))) \/
  ((forall j, (j < 6)%nat -> accepted hashes (w_answers w !! j) = None) /\
   collect_missing_txs attempts_fuel 0 hashes w =
     Ret (Err (EChain MissingTxsError)) (World (w_state w) (drop 6 (w_answers w)) (w_clock w)
       (w_out w ++ flat_map (fun j => asked hashes (w_answers w !! j)) (seq 0 6)))).
Proof.
  change attempts_fuel with 7%nat. rewrite (collect_missing_txs_eq 6) by done.
  destruct (collected 6 hashes (w_answers w)) as [[[txs|] rest] es] eqn:E.
  - left. destruct (collected_some _ _ _ _ _ _ E) as (k & Hk & Ha & Hj & -> & ->). by exists k, txs.
  - right. destruct (collected_none _ _ _ _ _ E) as (Hj & -> & ->). done.
Qed.

Abbreviation hashes_of txs := (map (fun e => tx_get_hash (fst (fst e))) txs).

Lemma accepted_spec hashes a txs :
  accepted hashes a = Some txs ->
  a = Some (Delivered (Res.GetTxs txs)) /\ length txs = length hashes /\
  Forall (fun e => tx_verify (fst (fst e)) = true /\ tx_get_hash (fst (fst e)) ∈ hashes) txs.
Proof.
  unfold accepted. destruct a as [[[]| |]|]; try done.
  destruct (forallb _ txs0) eqn:Ef; [|done]. destruct (_ =? _) eqn:El; [|done]. intros [= <-].
  split_and!; [done|unfold len in El; lia|]. rewrite Forall_forall. intros [[tx sz] att] Hin.
  rewrite forallb_elem in Ef. specialize (Ef _ Hin). simpl in *. apply andb_prop in Ef as [? Hc].
  by apply contains_true in Hc.
Qed.

Lemma accepted_complete hashes a txs :
  accepted hashes a = Some txs -> NoDup (hashes_of txs) -> hashes_of txs ≡ₚ hashes.
Proof.
  intros (_ & Hl & Hf)%accepted_spec Hn.
  apply submseteq_length_Permutation; [|by rewrite length_map, Hl].
  apply NoDup_submseteq; [done|]. intros x Hx. apply list_elem_of_In, in_map_iff in Hx as (e & <- & He).
  rewrite Forall_forall in Hf. by apply Hf, list_elem_of_In.
Qed.

(** An accepted answer whose transactions have distinct hashes is complete: it brings
    every transaction that was asked for, once each. *)
Theorem distinct_answer_complete hashes a txs :
  accepted hashes a = Some txs -> NoDup (hashes_of txs) ->
  hashes_of txs ≡ₚ hashes /\ Forall (fun e => tx_verify (fst (fst e)) = true) txs.
Proof.
  intros Ha Hn. split; [by eapply accepted_complete|]. apply accepted_spec in Ha as (_ & _ & Hf).
  eapply Forall_impl; [exact Hf|]. by intros ? [? _].
Qed.

(** ** Requests and messages *)

#[local] Arguments collected : simpl never.

(** A request in one equation: it takes an answer, and its result is that answer. *)
Definition requested (to : Service) (req : Req.t) (w : bworld) : bworld :=
  World (w_state w) (tail (w_answers w)) (w_clock w)
    (w_out w ++ match head (w_answers w) with
                | Some Disconnected => []
                | _ => [Sent to (MkComm (KReq req) (Some Messages.BlockService))]
                end).

Lemma ask_eq to req (w : bworld) :
  ask to req w =
  Ret (match head (w_answers w) with
       | Some (Delivered res) => Ok res
       | Some Disconnected => Err (EComm (SendError (MkComm (KReq req) (Some Messages.BlockService))))
       | _ => Err (EComm RecvTimeoutError)
       end) (requested to req w).
Proof.
  destruct w as [s [|[r| |] ans] clk out]; try reflexivity. unfold requested. simpl. by rewrite app_nil_r.
Qed.

(** The messages among the effects, with the services they are sent to *)
Fixpoint msgs (es : list (Effect A B C T)) : list (Service * Msg.t A B C T) :=
  match es with
  | [] => []
  | Sent to (MkComm (KMsg m) _) :: es => (to, m) :: msgs es
  | _ :: es => msgs es
  end.

Lemma msgs_app es es' : msgs (es ++ es') = msgs es ++ msgs es'.
Proof. induction es as [|[to [[m|r] c]| | | |] es IH]; simpl; congruence. Qed.

Lemma msgs_asked hashes (answers : list (Answer A B C T)) i n :
  msgs (flat_map (fun j => asked hashes (answers !! j)) (seq i n)) = [].
Proof.
  revert i. induction n as [|n IH]; intros i; simpl; [done|]. rewrite msgs_app, IH.
  unfold asked. by destruct (answers !! i) as [[]|].
Qed.

Lemma msgs_requested to req w : msgs (w_out (requested to req w)) = msgs (w_out w).
Proof.
  unfold requested. simpl. rewrite msgs_app. destruct (head _) as [[]|]; simpl; by rewrite app_nil_r.
Qed.

Lemma missing_nil unconfirmed hashes :
  (forall x, x ∈ hashes -> x ∈ map fst unconfirmed) -> missing unconfirmed hashes = [].
Proof.
  intros Hin. destruct (missing unconfirmed hashes) as [|x l] eqn:E; [done|].
  assert (Hx : x ∈ missing unconfirmed hashes) by (rewrite E; left).
  apply elem_of_filter_list in Hx as [Hx Hc]. apply Hin, contains_true in Hx. by rewrite Hx in Hc.
Qed.

(** What [begin_execution] comes to *)
Lemma begin_execution_cases block hashes w :
  exists r w', begin_execution block hashes w = Ret r w' /\ w_state w' = w_state w /\ w_clock w' = w_clock w /\
  match w_answers w with
  | Delivered (Res.GetUnconfirmedHashes unconfirmed) :: answers =>
      let missing := missing unconfirmed hashes in
      let collect := (TransactionService, Msg.CollectBlockTxs block (actual_round (w_state w)) hashes) in
      (missing = [] /\ r = Ok tt /\ msgs (w_out w') = msgs (w_out w) ++ [collect]) \/
      (missing <> [] /\ exists k txs, (k < 6)%nat /\ accepted missing (answers !! k) = Some txs /\ r = Ok tt /\
         msgs (w_out w') = msgs (w_out w) ++ [(TransactionService, Msg.AddTxs txs); collect]) \/
      (missing <> [] /\ (forall j, (j < 6)%nat -> accepted missing (answers !! j) = None) /\
         r = Err (EChain MissingTxsError) /\ msgs (w_out w') = msgs (w_out w))
  | Delivered _ :: _ => r = Ok tt /\ msgs (w_out w') = msgs (w_out w)
  | _ => is_err r = true /\ msgs (w_out w') = msgs (w_out w)
  end.
Proof.
  unfold begin_execution, try_bind. rewrite bind_eq, ask_eq.
  pose proof (msgs_requested TransactionService Req.GetUnconfirmedHashes w) as Hm. revert Hm.
  destruct w as [s [|[res| |] answers] clk out]; simpl; intros Hm;
    [eexists _, _; split; [reflexivity|done]| |eexists _, _; split; [reflexivity|done]..].
  destruct res as [| | | | | | | | |unconfirmed|]; simpl; try (eexists _, _; split; [reflexivity|done]).
  destruct (missing unconfirmed hashes) as [|x miss] eqn:Em.
  - rewrite !bind_eq. simpl. eexists _, _. split; [reflexivity|]. split_and!; [done|done|]. left. split_and!; [done|done|].
    simpl. by rewrite msgs_app, Hm.
  - change attempts_fuel with 7%nat. rewrite bind_eq, (collect_missing_txs_eq 6) by done. simpl.
    destruct (collected 6 (x :: miss) answers) as [[[txs|] rest] es] eqn:E.
    + destruct (collected_some _ _ _ _ _ _ E) as (k & Hk & Ha & _ & -> & ->).
      eexists _, _. split; [reflexivity|]. split_and!; [done|done|]. right. left. split; [done|].
      exists k, txs. split_and!; [done|done|done|]. cbn [w_out outs].
      rewrite !msgs_app, msgs_asked. rewrite msgs_app in Hm. rewrite Hm. by rewrite <- app_assoc.
    + destruct (collected_none _ _ _ _ _ E) as (Hj & -> & ->).
      eexists _, _. split; [reflexivity|]. split_and!; [done|done|]. right. right. split_and!; [done|done|done|].
      cbn [w_out]. rewrite msgs_app, Hm, msgs_asked. by rewrite app_nil_r.
Qed.

(** A block goes to its execution only when the node can have all its transactions: the
    hashes of [CollectBlockTxs] are those of the block, and each is in the pool or, when
    the answer taken has distinct hashes, among the verified transactions handed over
    just before. The state is left alone whatever happens, and nothing panics. *)
Theorem begin_execution_complete block hashes w :
  exists r w', begin_execution block hashes w = Ret r w' /\ w_state w' = w_state w /\
    (msgs (w_out w') = msgs (w_out w) \/
     exists unconfirmed added,
       head (w_answers w) = Some (Delivered (Res.GetUnconfirmedHashes unconfirmed)) /\
       msgs (w_out w') = msgs (w_out w) ++ added ++
         [(TransactionService, Msg.CollectBlockTxs block (actual_round (w_state w)) hashes)] /\
       ((added = [] /\ forall x, x ∈ hashes -> x ∈ map fst unconfirmed) \/
        exists txs, added = [(TransactionService, Msg.AddTxs txs)] /\
          Forall (fun e => tx_verify (fst (fst e)) = true /\ tx_get_hash (fst (fst e)) ∈ hashes) txs /\
          (NoDup (hashes_of txs) -> forall x, x ∈ hashes -> x ∈ map fst unconfirmed \/ x ∈ hashes_of txs))).
Proof.
  destruct (begin_execution_cases block hashes w) as (r & w' & Hr & Hs & _ & Hc).
  exists r, w'. split_and!; [done|done|].
  destruct (w_answers w) as [|[res| |] answers]; try (left; tauto).
  destruct res as [| | | | | | | | |unconfirmed|]; try (left; tauto). simpl in Hc.
  assert (Hmiss : forall x, x ∈ hashes -> x ∈ map fst unconfirmed \/ x ∈ missing unconfirmed hashes).
  { intros x Hx. destruct (decide (x ∈ map fst unconfirmed)); [by left|right].
    apply elem_of_filter_list. split; [done|]. apply negb_true_iff. by apply contains_false. }
  destruct Hc as [(Hn & _ & Hm)|[(_ & k & txs & _ & Ha & _ & Hm)|(_ & _ & _ & Hm)]]; [| |by left]; right.
  - exists unconfirmed, []. split_and!; [done|done|]. left. split; [done|]. intros x Hx.
    destruct (Hmiss x Hx) as [?|Hx']; [done|]. rewrite Hn in Hx'. by apply not_elem_of_nil in Hx'.
  - exists unconfirmed, [(TransactionService, Msg.AddTxs txs)]. split_and!; [done|done|]. right.
    exists txs. split_and!; [done| |].
    + apply accepted_spec in Ha as (_ & _ & Hf). eapply Forall_impl; [exact Hf|]. simpl.
      intros e [? Hin]. split; [done|]. by apply elem_of_filter_list in Hin as [? _].
    + intros Hnd x Hx. destruct (Hmiss x Hx) as [?|Hx']; [by left|right].
      by rewrite (accepted_complete _ _ _ Ha Hnd).
Qed.

(** ** Building a block *)

(** The block it builds, and the world it goes on in after the answer and the clock *)
Definition built (pool : list (Hash * Z)) (w : bworld) : B :=
  block_new (Keys.public_key (keypair (w_state w))) (block_txs pool)
    (height (w_state w) +u64 1) (last_block_hash (w_state w)) (now w).
Definition building (w : bworld) : bworld :=
  tick (requested TransactionService Req.GetUnconfirmedHashes (upd (set_build_in_progress true) w)).

Lemma build_block_eq w :
  build_block w =
  match head (w_answers w) with
  | Some (Delivered (Res.GetUnconfirmedHashes pool)) => begin_execution (built pool w) (block_txs pool) (building w)
  | Some (Delivered _) => Ret (Err (EComm InvalidComm))
      (requested TransactionService Req.GetUnconfirmedHashes (upd (set_build_in_progress true) w))
  | Some Disconnected =>
      Ret (Err (EComm (SendError (MkComm (KReq Req.GetUnconfirmedHashes) (Some Messages.BlockService)))))
      (requested TransactionService Req.GetUnconfirmedHashes (upd (set_build_in_progress true) w))
  | _ => Ret (Err (EComm RecvTimeoutError))
      (requested TransactionService Req.GetUnconfirmedHashes (upd (set_build_in_progress true) w))
  end.
Proof.
  unfold build_block, try_bind. rewrite bind_eq, modify_eq, bind_eq, ask_eq.
  change (w_answers (upd (set_build_in_progress true) w)) with (w_answers w).
  destruct (head (w_answers w)) as [[[]| |]|] eqn:Eh; try reflexivity.
  cbn beta iota zeta. rewrite bind_eq. cbn beta iota delta [get_state]. rewrite bind_eq, timestamp_eq, bind_eq.
  change (begin_execution _ _ _) with (begin_execution (built hashes w) (block_txs hashes) (building w)).
  destruct (begin_execution_cases (built hashes w) (block_txs hashes) (building w)) as (r & w' & -> & _).
  by destruct r as [[]|].
Qed.

Lemma build_block_state w :
  exists r w', build_block w = Ret r w' /\ w_state w' = set_build_in_progress true (w_state w).
Proof.
  rewrite build_block_eq. destruct (head (w_answers w)) as [[[]| |]|]; try (eexists _, _; by split; [reflexivity|]).
  destruct (begin_execution_cases (built hashes w) (block_txs hashes) (building w)) as (r & w' & -> & Hs & _).
  by exists r, w'.
Qed.

(** When the transaction service answers with its pool, and still has the chosen
    transactions when asked again, the block service marks a build in progress and sends
    for execution exactly one block: the newest transactions that fit, at the next
    height, on top of the last block, in the present round. *)
Theorem build_block_spec w pool pool' answers :
  w_answers w = Delivered (Res.GetUnconfirmedHashes pool) :: Delivered (Res.GetUnconfirmedHashes pool') :: answers ->
  (forall x, x ∈ block_txs pool -> x ∈ map fst pool') ->
  exists w', build_block w = Ret (Ok tt) w' /\
    w_state w' = set_build_in_progress true (w_state w) /\
    msgs (w_out w') = msgs (w_out w) ++
      [(TransactionService, Msg.CollectBlockTxs
         (block_new (Keys.public_key (keypair (w_state w))) (block_txs pool)
            (height (w_state w) +u64 1) (last_block_hash (w_state w)) (now w))
         (actual_round (w_state w)) (block_txs pool))].
Proof.
  intros Ha Hin. rewrite build_block_eq, Ha. cbn [head].
  destruct (begin_execution_cases (built pool w) (block_txs pool) (building w)) as (r & w' & -> & Hs & _ & Hc).
  replace (w_answers (building w)) with (Delivered (Res.GetUnconfirmedHashes pool') :: answers : list (Answer A B C T)) in Hc
    by (unfold building; simpl; by rewrite Ha).
  rewrite (missing_nil _ _ Hin) in Hc. destruct Hc as [(_ & -> & Hm)|[[? _]|[? _]]]; [|done..].
  exists w'. split_and!; [reflexivity|exact Hs|]. rewrite Hm. unfold building.
  change (w_out (tick ?w)) with (w_out w). by rewrite msgs_requested.
Qed.

(** ** Blocks from peers *)

Lemma actual_players_eq w :
  actual_players w =
  Ret (match head (w_answers w) with
       | Some (Delivered (Res.GetActualPlayers ids)) => Ok ids
       | Some (Delivered _) => Err (EComm InvalidComm)
       | Some Disconnected => Err (EComm (SendError (MkComm (KReq Req.GetActualPlayers) (Some Messages.BlockService))))
       | _ => Err (EComm RecvTimeoutError)
       end) (requested ConsensusService Req.GetActualPlayers w).
Proof.
  unfold actual_players, try_bind. rewrite bind_eq, ask_eq. by destruct (head _) as [[[]| |]|].
Qed.

(** The faults of a block that the answers of the consensus service do not matter for *)
Definition header_fault s (block : B) : option ChainError :=
  if negb (block_verify block) then Some BlockVerificationFault
  else match get_builder_id block with
       | None => Some MissingBlockBuilder
       | Some _ =>
           if negb (get_height block =? height s +u64 1) then
             Some (InvalidBlockHeight (height s +u64 1) (get_height block))
           else if negb (bool_decide (get_prev_hash block = last_block_hash s)) then
             Some (InvalidBlockPreviousHash (last_block_hash s) (get_prev_hash block))
           else None
       end.

(** A confirmation that a block from a peer is refused for *)
Definition foreign (players : list string) round (c : C) : bool :=
  negb (contains players (get_player_id c)) && (round <=? get_block_round c).

Definition fetch_players (w : bworld) : bworld := requested ConsensusService Req.GetActualPlayers w.

Lemma verify_ext_block_eq block hashes cs w ids ids' answers :
  header_fault (w_state w) block = None ->
  w_answers w = Delivered (Res.GetActualPlayers ids) :: Delivered (Res.GetActualPlayers ids') :: answers ->
  verify_ext_block block hashes cs w =
  match get_builder_id block with
  | Some id =>
      if negb (contains ids id) then Ret (Err (EChain (InvalidBlockPlayer id))) (fetch_players w)
      else if negb (contains ids' id) then
        Ret (Err (EChain (InvalidBlockPlayer id))) (fetch_players (fetch_players w))
      else if existsb (foreign ids' (actual_round (w_state w))) cs then
        Ret (Err (EChain ConfirmationError)) (fetch_players (fetch_players w))
      else begin_execution block hashes (fetch_players (fetch_players w))
  | None => Panic w
  end.
Proof.
  unfold header_fault, verify_ext_block, try_bind. destruct (negb (block_verify block)); [done|].
  destruct (get_builder_id block) as [id|]; [|done]. rewrite bind_eq. cbn beta iota delta [get_state].
  destruct (negb _); [done|]. destruct (negb _); [done|]. intros _ Ha.
  rewrite bind_eq, actual_players_eq, Ha. cbn [head]. destruct (contains ids id); [|done]. cbn [negb].
  rewrite bind_eq, actual_players_eq. unfold requested at 1. cbn [w_answers]. rewrite Ha. cbn [head tail].
  destruct (contains ids' id); [|done]. cbn [negb]. by destruct (existsb _ cs).
Qed.

Lemma verify_ext_block_header block hashes cs w e :
  header_fault (w_state w) block = Some e -> verify_ext_block block hashes cs w = Ret (Err (EChain e)) w.
Proof.
  unfold header_fault, verify_ext_block. destruct (negb (block_verify block)); [by intros [= <-]|].
  destruct (get_builder_id block) as [id|]; [|by intros [= <-]].
  rewrite bind_eq. cbn beta iota delta [get_state].
  destruct (negb _); [by intros [= <-]|]. by destruct (negb _); [intros [= <-]|].
Qed.

(** Without the players, the block is refused. *)
Lemma verify_ext_block_no_players block hashes cs w :
  header_fault (w_state w) block = None ->
  (forall ids ids', head (w_answers w) = Some (Delivered (Res.GetActualPlayers ids)) ->
     head (tail (w_answers w)) <> Some (Delivered (Res.GetActualPlayers ids'))) ->
  exists e w', verify_ext_block block hashes cs w = Ret (Err e) w' /\ w_state w' = w_state w /\
    msgs (w_out w') = msgs (w_out w).
Proof.
  unfold header_fault, verify_ext_block, try_bind. destruct (negb (block_verify block)); [done|].
  destruct (get_builder_id block) as [id|]; [|done]. rewrite bind_eq. cbn beta iota delta [get_state].
  destruct (negb _); [done|]. destruct (negb _); [done|]. intros _ Hno.
  rewrite bind_eq, actual_players_eq.
  destruct (head (w_answers w)) as [[[ids| | | | | | | | | |]| |]|] eqn:E1;
    try (eexists _, _; split; [reflexivity|]; split; [done|apply msgs_requested]).
  destruct (contains ids id); cbn [negb];
    [|eexists _, _; split; [reflexivity|]; split; [done|apply msgs_requested]].
  rewrite bind_eq, actual_players_eq. unfold requested at 1. cbn [w_answers]. specialize (Hno ids).
  destruct (head (tail (w_answers w))) as [[[ids'| | | | | | | | | |]| |]|] eqn:E2;
    try (eexists _, _; split; [reflexivity|]; split; [done|by rewrite !msgs_requested]).
  by destruct (Hno ids').
Qed.

(** C8: whatever a peer sends, checking a block never panics and leaves the state alone; the
    block goes on to its execution only if it verifies, is for the next height, stands on
    the last block, was built by a current player, and all its confirmations of the
    present round or a later one are of current players. *)
Theorem verify_ext_block_sound block hashes cs w :
  let r := verify_ext_block block hashes cs w in
  panicked r = false /\ w_state (exec_world r) = w_state w /\
  (msgs (w_out (exec_world r)) <> msgs (w_out w) ->
   block_verify block = true /\ get_height block = height (w_state w) +u64 1 /\
   get_prev_hash block = last_block_hash (w_state w) /\
   exists id players, get_builder_id block = Some id /\ id ∈ players /\
     w_answers w !! 1%nat = Some (Delivered (Res.GetActualPlayers players)) /\
     Forall (fun c => get_player_id c ∈ players \/ get_block_round c < actual_round (w_state w)) cs).
Proof.
  intros r. subst r. destruct (header_fault (w_state w) block) as [e|] eqn:Eh.
  { rewrite (verify_ext_block_header _ _ _ _ _ Eh). by split_and!. }
  assert (Hcase : (exists ids ids' answers,
      w_answers w = Delivered (Res.GetActualPlayers ids) :: Delivered (Res.GetActualPlayers ids') :: answers) \/
    forall ids ids', head (w_answers w) = Some (Delivered (Res.GetActualPlayers ids)) ->
      head (tail (w_answers w)) <> Some (Delivered (Res.GetActualPlayers ids'))).
  { destruct (w_answers w) as [|[[ids| | | | | | | | | |]| |] [|[[ids'| | | | | | | | | |]| |] answers]];
      try (right; simpl; congruence). left. eauto. }
  destruct Hcase as [(ids & ids' & answers & Ha)|Hno].
  2:{ destruct (verify_ext_block_no_players _ hashes cs _ Eh Hno) as (e & w' & -> & Hs & Hm). by split_and!. }
  rewrite (verify_ext_block_eq _ _ _ _ _ _ _ Eh Ha). unfold header_fault in Eh.
  destruct (negb (block_verify block)) eqn:Ev; [done|]. apply negb_false_iff in Ev.
  destruct (get_builder_id block) as [id|]; [|done].
  destruct (negb (_ =? _)) eqn:En; [done|]. apply negb_false_iff, Z.eqb_eq in En.
  destruct (negb _) eqn:Ep; [done|]. apply negb_false_iff, bool_decide_eq_true in Ep.
  assert (Hm2 : msgs (w_out (fetch_players (fetch_players w))) = msgs (w_out w))
    by (unfold fetch_players; by rewrite !msgs_requested).
  destruct (contains ids id); cbn [negb];
    [|cbn [panicked exec_world]; unfold fetch_players; rewrite msgs_requested; by split_and!].
  destruct (contains ids' id) eqn:Ei; cbn [negb]; [|cbn [panicked exec_world]; rewrite Hm2; by split_and!].
  destruct (existsb _ cs) eqn:Ec; [cbn [panicked exec_world]; rewrite Hm2; by split_and!|].
  destruct (begin_execution_cases block hashes (fetch_players (fetch_players w))) as (r & w' & -> & Hs & _).
  split_and!; [done|exact Hs|]. intros _. split_and!; [done|done|done|].
  exists id, ids'. apply contains_true in Ei. rewrite Ha. split_and!; [done|done|done|].
  rewrite Forall_forall. rewrite existsb_false_elem in Ec. intros c Hc. specialize (Ec c Hc).
  unfold foreign in Ec. apply andb_false_iff in Ec as [Ec|Ec].
  - left. apply contains_true. by apply negb_false_iff in Ec.
  - right. by apply Z.leb_gt.
Qed.

(** A block from a peer with a fault of its own is refused with the error that names the
    first fault, before anything is asked; a sound block of a builder that is not a
    player, or with a confirmation of a stranger for the present round or later, is
    refused with the error for it, and in each case nothing is sent and nothing changes. *)
Theorem verify_ext_block_faults block hashes cs w ids answers id :
  let s := w_state w in
  let refused e := exists w', verify_ext_block block hashes cs w = Ret (Err (EChain e)) w' /\
    w_state w' = s /\ msgs (w_out w') = msgs (w_out w) in
  w_answers w = Delivered (Res.GetActualPlayers ids) :: Delivered (Res.GetActualPlayers ids) :: answers ->
  (block_verify block = false -> refused BlockVerificationFault) /\
  (block_verify block = true -> get_builder_id block = None -> refused MissingBlockBuilder) /\
  (block_verify block = true -> get_builder_id block = Some id ->
   (get_height block <> height s +u64 1 -> refused (InvalidBlockHeight (height s +u64 1) (get_height block))) /\
   (get_height block = height s +u64 1 ->
    (get_prev_hash block <> last_block_hash s ->
       refused (InvalidBlockPreviousHash (last_block_hash s) (get_prev_hash block))) /\
    (get_prev_hash block = last_block_hash s ->
      (id ∉ ids -> refused (InvalidBlockPlayer id)) /\
      (forall c, id ∈ ids -> c ∈ cs -> get_player_id c ∉ ids -> actual_round s <= get_block_round c ->
         refused ConfirmationError)))).
Proof.
  intros s refused Ha.
  assert (Hheader : forall e, header_fault s block = Some e -> refused e).
  { intros e He. exists w. by rewrite (verify_ext_block_header _ _ _ _ _ He). }
  unfold header_fault in Hheader.
  split; [intros Hv; apply Hheader; by rewrite Hv|]. split; [intros Hv Hb; apply Hheader; by rewrite Hv, Hb|].
  intros Hv Hb. rewrite Hv, Hb in Hheader. cbn [negb] in Hheader.
  split; [intros Hn; apply Hheader; apply Z.eqb_neq in Hn; by rewrite Hn|].
  intros Hn. rewrite Hn, Z.eqb_refl in Hheader. cbn [negb] in Hheader.
  split; [intros Hp; apply Hheader; by rewrite bool_decide_false|].
  intros Hp.
  assert (Eh : header_fault (w_state w) block = None).
  { unfold header_fault. by rewrite Hv, Hb, Hn, Z.eqb_refl, bool_decide_true. }
  pose proof (verify_ext_block_eq _ hashes cs _ _ _ _ Eh Ha) as Hrun. rewrite Hb in Hrun. split.
  - intros Hid. apply contains_false in Hid. rewrite Hid in Hrun. cbn [negb] in Hrun.
    exists (fetch_players w). split_and!; [exact Hrun|done|apply msgs_requested].
  - intros c Hid Hc Hno Hround. apply contains_true in Hid. rewrite Hid in Hrun. cbn [negb] in Hrun.
    assert (Hf : existsb (foreign ids (actual_round (w_state w))) cs = true).
    { apply existsb_elem. exists c. split; [done|]. unfold foreign. apply contains_false in Hno.
      rewrite Hno. simpl. by apply Z.leb_le. }
    rewrite Hf in Hrun. exists (fetch_players (fetch_players w)). split_and!; [exact Hrun|done|].
    unfold fetch_players. by rewrite !msgs_requested.
Qed.

(** ** The head of the chain *)

Definition chain_head s : Z * Hash := (height s, last_block_hash s).

(** What a communication makes of the head *)
Definition advanced (hd : Z * Hash) (c : Comm A B C T) : Z * Hash :=
  match kind c with
  | KMsg (Msg.BlockConsolidated block _ _) => (get_height block, get_hash block)
  | _ => hd
  end.

Lemma ask_proj {X} (f : t -> X) to req : rel (same_proj f) (ask (A:=A) (B:=B) (C:=C) (T:=T) to req).
Proof. unfold ask. frames. Qed.
Lemma ask_safe to req : safe (ask (A:=A) (B:=B) (C:=C) (T:=T) to req).
Proof. unfold ask. safely. Qed.
#[local] Hint Resolve ask_proj ask_safe : frames safety.

Lemma begin_execution_proj {X} (f : t -> X) block hashes : rel (same_proj f) (begin_execution (A:=A) (B:=B) (C:=C) (T:=T) block hashes).
Proof.
  intros w. destruct (begin_execution_cases block hashes w) as (r & w' & Hr & Hs & _).
  unfold same_proj. rewrite Hr. simpl. by rewrite Hs.
Qed.
Lemma begin_execution_safe block hashes : safe (begin_execution (A:=A) (B:=B) (C:=C) (T:=T) block hashes).
Proof. intros w. destruct (begin_execution_cases block hashes w) as (r & w' & Hr & _). by rewrite Hr. Qed.
#[local] Hint Resolve begin_execution_proj begin_execution_safe : frames safety.

Lemma verify_ext_block_proj {X} (f : t -> X) block hashes cs : rel (same_proj f) (verify_ext_block (A:=A) (B:=B) (C:=C) (T:=T) block hashes cs).
Proof. unfold verify_ext_block, actual_players. frames. Qed.
Lemma verify_ext_block_safe block hashes cs : safe (verify_ext_block (A:=A) (B:=B) (C:=C) (T:=T) block hashes cs).
Proof. unfold verify_ext_block, actual_players. safely. Qed.
#[local] Hint Resolve verify_ext_block_proj verify_ext_block_safe : frames safety.

Lemma build_block_head : rel (same_proj chain_head) (build_block (A:=A) (B:=B) (C:=C) (T:=T)).
Proof. unfold build_block. frames; done. Qed.
Lemma build_block_safe : safe (build_block (A:=A) (B:=B) (C:=C) (T:=T)).
Proof. unfold build_block. safely. Qed.
#[local] Hint Resolve build_block_head build_block_safe : frames safety.

Lemma verify_if_leader_head n : rel (same_proj chain_head) (verify_if_leader_and_build (A:=A) (B:=B) (C:=C) (T:=T) n).
Proof. unfold verify_if_leader_and_build. frames; done. Qed.
Lemma verify_if_leader_safe n : safe (verify_if_leader_and_build (A:=A) (B:=B) (C:=C) (T:=T) n).
Proof. unfold verify_if_leader_and_build. safely. Qed.

Lemma ask_neighbors_proj {X} (f : t -> X) neighbors candidates :
  rel (same_proj f) (ask_neighbors (A:=A) (B:=B) (C:=C) (T:=T) neighbors candidates).
Proof. revert candidates. induction neighbors as [|x l IH]; intros c; simpl; frames; apply IH. Qed.
Lemma ask_neighbors_safe neighbors candidates :
  safe (ask_neighbors (A:=A) (B:=B) (C:=C) (T:=T) neighbors candidates).
Proof. revert candidates. induction neighbors as [|x l IH]; intros c; simpl; safely; apply IH. Qed.
#[local] Hint Resolve ask_neighbors_proj ask_neighbors_safe : frames safety.

Lemma align_head : rel (same_proj chain_head) (align (A:=A) (B:=B) (C:=C) (T:=T)).
Proof. unfold align, best_last_block, spawn_alignment_thread. frames; done. Qed.
Lemma align_safe : safe (align (A:=A) (B:=B) (C:=C) (T:=T)).
Proof. unfold align, best_last_block, spawn_alignment_thread. safely. Qed.
#[local] Hint Resolve align_head align_safe verify_if_leader_head verify_if_leader_safe : frames safety.

Abbreviation retrieve := (retrieve_alignment_block (A:=A) (B:=B) (C:=C) (T:=T)).

Lemma retrieve_head fuel k peers : rel (same_proj chain_head) (retrieve fuel k peers).
Proof. revert k. induction fuel as [|fuel IH]; intros k; cbn [retrieve_alignment_block]; frames; apply IH. Qed.

(** Every transaction can be serialized. *)
Definition serializable : Prop := forall tx : T, is_ok (rmp_serialize tx) = true.

Lemma sized_txs_some txs : serializable -> exists l, sized_txs (A := A) txs = Some l.
Proof.
  intros Hs. unfold sized_txs. induction txs as [|tx txs [l IH]]; simpl; [by eexists|].
  specialize (Hs tx). destruct (rmp_serialize tx); [|done]. simpl. rewrite IH. simpl. by eexists.
Qed.

Lemma retrieve_again m k peers :
  serializable -> safe (retrieve m (k +u8 1) peers) -> safe (retrieve (S m) k peers).
Proof.
  intros Hser Hm. cbn [retrieve_alignment_block]. destruct (_ <? k); [safely|].
  apply safe_bind; [safely|]. intros s. apply safe_bind; [safely|].
  intros [[]|e]; try exact Hm. destruct block as [fb|]; [|exact Hm]. destruct (_ && _); [|safely].
  apply safe_bind; [safely|]. intros _.
  destruct (sized_txs_some (fb_txs fb) Hser) as [l ->]. simpl. safely.
Qed.

Lemma retrieve_safe n k peers :
  serializable -> (n <= 6)%nat -> k = 6 - Z.of_nat n -> safe (retrieve (S n) k peers).
Proof.
  intros Hser. revert k. induction n as [|n IH]; intros k Hn ->; [done|].
  apply retrieve_again; [done|]. apply IH; [lia|]. unfold u8_add, u8_wrap. rewrite Z.mod_small; lia.
Qed.

#[local] Arguments retrieve_alignment_block : simpl never.

Lemma finalize_eq block hashes players w :
  finalize_consolidation block hashes players w =
  Ret tt (outs (match alignment_sender (w_state w) with Some _ => [SentAlignment (Msg.NewHeight (get_height block))] | None => [] end ++
                [Sent ConsensusService (MkComm (KMsg (Msg.BlockConsolidated block hashes players)) None);
                 Sent TransactionService (MkComm (KMsg (Msg.BlockConsolidated block hashes players)) None)])
           (upd (fun s => Mk 0 (alignment_sender s) false (get_height block) (keypair s) (get_hash block) (node_id s)) w)).
Proof.
  destruct w as [[round sender building n kp hash id] ans clk out]. unfold finalize_consolidation, outs, upd. simpl.
  unfold mbind, M_bind, send_msg, emit, modify, get_state. simpl.
  destruct sender; simpl; rewrite <- ?app_assoc; reflexivity.
Qed.

Lemma handle_messages_safe msg :
  serializable -> safe (handle_messages (A:=A) (B:=B) (C:=C) (T:=T) msg).
Proof.
  intros Hser. destruct msg; simpl; try solve [safely].
  - intros w. by rewrite finalize_eq.
  - unfold on_build_block. safely.
  - unfold on_build_block_in_place_of_leader. safely.
  - unfold on_build_block_timeout. safely.
  - unfold on_height_from_peer. safely.
  - unfold on_refresh_round. safely.
  - unfold on_retrieve_block. apply safe_bind; [by apply (retrieve_safe 6)|]. safely.
  - unfold on_start_timer_to_build_block. safely.
Qed.

Lemma handle_messages_head msg w w' :
  handle_messages msg w = Ret tt w' ->
  chain_head (w_state w') = advanced (chain_head (w_state w)) (MkComm (KMsg msg) None).
Proof.
  assert (Hrel : rel (same_proj chain_head) (handle_messages msg) -> handle_messages msg w = Ret tt w' ->
    chain_head (w_state w') = chain_head (w_state w)).
  { intros Hr Hw. specialize (Hr w). unfold same_proj in Hr. by rewrite Hw in Hr. }
  destruct msg; try (apply Hrel; simpl; solve [frames; done]).
  - simpl. rewrite finalize_eq. by intros [= <-].
  - apply Hrel. simpl. unfold on_build_block. frames.
  - apply Hrel. simpl. unfold on_build_block_in_place_of_leader. frames; done.
  - apply Hrel. simpl. unfold on_build_block_timeout. frames.
  - apply Hrel. simpl. unfold on_height_from_peer. frames.
  - apply Hrel. simpl. unfold on_refresh_round. frames; done.
  - apply Hrel. simpl. unfold on_retrieve_block. apply rel_bind; [typeclasses eauto|apply retrieve_head|].
    intros r. frames; done.
Qed.

Lemma step_total c w :
  serializable -> exists w', step c w = Ret tt w' /\
    chain_head (w_state w') = advanced (chain_head (w_state w)) c.
Proof.
  intros Hser. unfold step, dispatch, advanced. destruct c as [[msg|req] chan]; simpl.
  - pose proof (handle_messages_safe msg Hser w) as Hs. pose proof (handle_messages_head msg w) as Hh.
    destruct (handle_messages msg w) as [[] w'|w']; [|done]. exists w'. split; [done|]. by rewrite (Hh w').
  - exists w. by destruct chan.
Qed.

(** C9: the service never stops: whatever it receives, whatever is answered and whenever, it
    handles every message to the end without a panic; and its height and last block are
    always those of the last block it was told is consolidated, nothing else moves them. *)
Theorem run_total_head comms w :
  serializable ->
  exists w', run comms w = Ret tt w' /\
    chain_head (w_state w') = fold_left advanced comms (chain_head (w_state w)).
Proof.
  intros Hser. unfold run, run_loop. revert w. induction comms as [|c comms IH]; intros w; simpl; [by exists w|].
  destruct (step_total c w Hser) as (w1 & Hw1 & Hh). rewrite bind_eq, Hw1, <- Hh. apply IH.
Qed.

(** A consolidated block ends its round and the build in progress, moves the head, and is
    announced once to each of the consensus and transaction services, after the new
    height went to the alignment thread if there is one. *)
Theorem block_service_consolidated_spec block hashes players w :
  exists w', handle_messages (Msg.BlockConsolidated block hashes players) w = Ret tt w' /\
    actual_round (w_state w') = 0 /\ build_in_progress (w_state w') = false /\
    chain_head (w_state w') = (get_height block, get_hash block) /\
    alignment_sender (w_state w') = alignment_sender (w_state w) /\
    w_out w' = w_out w ++
      match alignment_sender (w_state w) with Some _ => [SentAlignment (Msg.NewHeight (get_height block))] | None => [] end ++
      [Sent ConsensusService (MkComm (KMsg (Msg.BlockConsolidated block hashes players)) None);
       Sent TransactionService (MkComm (KMsg (Msg.BlockConsolidated block hashes players)) None)].
Proof. simpl. rewrite finalize_eq. eexists. by split; [reflexivity|]. Qed.

(** ** Alignment *)

(** The neighbors whose last block is [info] *)
Definition supporters (neighbors : list string) (infos : list BlockInfo) (info : BlockInfo) : list string :=
  map fst (List.filter (fun e => bool_decide (snd e = info)) (zip neighbors infos)).

Abbreviation info_answers infos := (map (fun info => Delivered (Res.GetLastBlockInfo info)) infos : list (Answer A B C T)).

Lemma ask_neighbors_spec neighbors infos answers candidates w :
  length infos = length neighbors -> w_answers w = info_answers infos ++ answers ->
  exists candidates' w', ask_neighbors neighbors candidates w = Ret (Ok candidates') w' /\
    w_state w' = w_state w /\
    forall info, default [] (candidates' !! info) = default [] (candidates !! info) ++ supporters neighbors infos info /\
      (is_Some (candidates' !! info) <-> is_Some (candidates !! info) \/ info ∈ infos).
Proof.
  revert infos candidates w. induction neighbors as [|x neighbors IH]; intros [|i infos] candidates w Hl Ha; try done.
  { exists candidates, w. split_and!; [done|done|]. intros info. split; [by rewrite app_nil_r|].
    rewrite elem_of_nil. tauto. }
  injection Hl as Hl. cbn [ask_neighbors]. unfold try_bind. rewrite bind_eq, ask_eq, Ha. cbn [map app head].
  destruct (IH infos (<[i := default [] (candidates !! i) ++ [x]]> candidates)
    (requested NodeInterface (Req.GetLastBlockInfo x) w) Hl) as (c' & w' & Hr & Hs & Hc).
  { unfold requested. cbn [w_answers]. by rewrite Ha. }
  exists c', w'. split_and!; [exact Hr|exact Hs|]. intros info. destruct (Hc info) as [Hd Hi].
  rewrite Hd, Hi. unfold supporters. cbn [zip zip_with List.filter snd]. rewrite elem_of_cons.
  destruct (decide (i = info)) as [->|Hne].
  - rewrite bool_decide_true, lookup_insert_eq by done. simpl. rewrite <- app_assoc.
    split; [done|]. split; [intros _; right; by left|]. intros _. left. by eexists.
  - rewrite bool_decide_false, lookup_insert_ne by done. split; [done|].
    split; [intros [?|?]; [by left|by right; right]|intros [?|[?|?]]; [by left|by subst|by right]].
Qed.

Lemma candidate_le_total x y : candidate_le x y = true \/ candidate_le y x = true.
Proof. unfold candidate_le. lia. Qed.

Lemma candidate_le_trans x y z : candidate_le x y = true -> candidate_le y z = true -> candidate_le x z = true.
Proof. unfold candidate_le. lia. Qed.

(** When every neighbor answers with its last block, the alignment aims at the block most
    neighbors have, the highest of those if several do, and trusts exactly the neighbors
    that have it; without neighbors it is an error. *)
Theorem best_last_block_spec neighbors infos answers w :
  length infos = length neighbors ->
  w_answers w = Delivered (Res.GetNeighbors neighbors) :: info_answers infos ++ answers ->
  (neighbors = [] -> exists w', best_last_block w =
     Ret (Err (EChain (AlignmentError "failed to find best last block"))) w') /\
  (neighbors <> [] -> exists info w',
     best_last_block w = Ret (Ok (bi_height info, supporters neighbors infos info)) w' /\
     w_state w' = w_state w /\ info ∈ infos /\
     forall info', info' ∈ infos ->
       let votes i := len (supporters neighbors infos i) in
       votes info' < votes info \/ (votes info' = votes info /\ bi_height info' <= bi_height info)).
Proof.
  intros Hl Ha. unfold best_last_block, try_bind. rewrite bind_eq, ask_eq, Ha. cbn [head]. rewrite bind_eq.
  destruct (ask_neighbors_spec neighbors infos answers ∅ (requested NodeInterface Req.GetNeighbors w) Hl)
    as (cs & w' & -> & Hs & Hc); [unfold requested; cbn [w_answers]; by rewrite Ha|].
  assert (Hin : forall info, is_Some (cs !! info) <-> info ∈ infos).
  { intros info. rewrite (proj2 (Hc info)), lookup_empty. split; [intros [[? [=]]|?]; done|by right]. }
  assert (Hval : forall info l, cs !! info = Some l -> l = supporters neighbors infos info).
  { intros info l Hx. pose proof (proj1 (Hc info)) as H1. by rewrite Hx, lookup_empty in H1. }
  destruct (max_by candidate_le (map_iter cs)) as [[info l]|] eqn:Em.
  - apply max_by_spec in Em as [Hm Hmax]; [|apply candidate_le_total|apply candidate_le_trans].
    apply elem_of_map_iter in Hm. rewrite (Hval _ _ Hm). split.
    { intros ->. destruct infos; [|done]. assert (Hx : info ∈ []) by (apply Hin; by eexists).
      by apply not_elem_of_nil in Hx. }
    intros _. exists info, w'. split_and!; [done|exact Hs|apply Hin; by eexists|].
    intros info' Hi'. apply Hin in Hi' as [l' Hl'].
    specialize (Hmax (info', l') (proj2 (elem_of_map_iter cs info' l') Hl')). rewrite (Hval _ _ Hl') in Hmax.
    rewrite (Hval _ _ Hm) in Hmax. unfold candidate_le in Hmax. simpl in Hmax. lia.
  - apply (max_by_none candidate_le) in Em; [|apply candidate_le_total|apply candidate_le_trans].
    split; [by eexists|]. intros Hne. exfalso. destruct neighbors as [|x neighbors]; [done|].
    destruct infos as [|i infos]; [done|]. destruct (proj2 (Hin i)) as [l Hx]; [left|].
    apply elem_of_map_iter in Hx. rewrite Em in Hx. by apply not_elem_of_nil in Hx.
Qed.

Abbreviation aworld := (world Z (Effect A B C T) (Msg.t A B C T)).
Abbreviation new_heights hs := (map Msg.NewHeight hs : list (Msg.t A B C T)).
Definition retrieve_msg (peers : list string) : Effect A B C T :=
  Sent Messages.BlockService (MkComm (KMsg (Msg.RetrieveBlock peers)) None).

Lemma last_cons_default (x d : Z) hs : List.last (x :: hs) d = List.last hs x.
Proof. revert x d. induction hs as [|y hs IH]; intros x d; [done|].
  change (List.last (x :: y :: hs) d) with (List.last (y :: hs) d). by rewrite !IH.
Qed.

Lemma alignment_loop_spec n peers (w : aworld) fuel :
  (length (w_answers w) < fuel)%nat ->
  exists hs rest (w' : aworld), w_answers w = new_heights hs ++ rest /\
    alignment_loop fuel n peers w = Ret tt w' /\
    w_state w' = List.last hs (w_state w) /\
    Forall (fun x => x < n) (removelast (w_state w :: hs)) /\
    ((n <= w_state w' /\ w_out w' = w_out w ++ replicate (length hs) (retrieve_msg peers)) \/
     (w_state w' < n /\ w_out w' = w_out w ++ replicate (S (length hs)) (retrieve_msg peers) /\
      forall x, head rest <> Some (Msg.NewHeight x))).
Proof.
  revert w. induction fuel as [|fuel IH]; intros [h answers clk out] Hf; [simpl in Hf; lia|].
  cbn [alignment_loop]. rewrite bind_eq. cbn beta iota delta [get_state w_state].
  destruct (h <? n) eqn:E; [apply Z.ltb_lt in E|apply Z.ltb_ge in E].
  2:{ exists [], answers. eexists. split_and!; [done|reflexivity|done|constructor|]. left.
      split; [done|]. simpl. by rewrite app_nil_r. }
  unfold emit at 1. rewrite !bind_eq. cbn [w_answers w_state w_clock w_out].
  assert (Hstop : forall x rest', (forall y, head answers <> Some (Msg.NewHeight y)) ->
    x = World h rest' clk (out ++ [retrieve_msg peers]) -> exists hs rest (w' : aworld), answers = new_heights hs ++ rest /\
    Ret tt x = Ret (W := aworld) tt w' /\ w_state w' = List.last hs h /\
    Forall (fun x => x < n) (removelast (h :: hs)) /\
    ((n <= w_state w' /\ w_out w' = out ++ replicate (length hs) (retrieve_msg peers)) \/
     (w_state w' < n /\ w_out w' = out ++ replicate (S (length hs)) (retrieve_msg peers) /\
      forall x, head rest <> Some (Msg.NewHeight x)))).
  { intros x rest' Hn ->. exists [], answers. eexists. split_and!; [done|reflexivity|done|constructor|].
    right. split_and!; [exact E|done|exact Hn]. }
  destruct answers as [|m answers]; [by eapply (Hstop _ [])|].
  destruct m; try (by eapply (Hstop _ answers)).
  cbn [next_answer w_answers w_state w_clock w_out]. rewrite bind_eq, modify_eq. unfold upd. cbn [w_state w_answers w_clock w_out].
  simpl in Hf. destruct (IH (World height0 answers clk (out ++ [retrieve_msg peers]))) as (hs & rest & w' & Ha & Hr & Hst & Hlt & Hcase);
    [simpl; lia|]. simpl in *.
  exists (height0 :: hs), rest, w'. split_and!.
  - by rewrite Ha.
  - exact Hr.
  - by rewrite Hst, last_cons_default.
  - constructor; [done|exact Hlt].
  - destruct Hcase as [[? Ho]|(? & Ho & ?)]; [left|right]; split_and!; try done; rewrite Ho, <- app_assoc; done.
Qed.

(** The alignment thread always ends, and when it does it tells the block and transaction
    services so, whatever happened. It asks for one block at a time, the next only when
    the height of the last has come; it stops when the target is reached, or at the
    first answer missing or out of place. *)
Theorem alignment_thread_ends n peers (w : aworld) :
  exists hs rest (w' : aworld), w_answers w = new_heights hs ++ rest /\
    alignment_thread (S (length (w_answers w))) n peers w = Ret tt w' /\
    Forall (fun x => x < n) (removelast (w_state w :: hs)) /\
    exists asks, w_out w' = w_out w ++ replicate asks (retrieve_msg peers) ++
      [Sent Messages.BlockService (MkComm (KMsg Msg.AlignmentEnded) None);
       Sent TransactionService (MkComm (KMsg Msg.AlignmentEnded) None)] /\
    ((n <= List.last hs (w_state w) /\ asks = length hs) \/
     (List.last hs (w_state w) < n /\ asks = S (length hs) /\ forall x, head rest <> Some (Msg.NewHeight x))).
Proof.
  destruct (alignment_loop_spec n peers w (S (length (w_answers w)))) as
    (hs & rest & w' & Ha & Hr & Hs & Hlt & Hcase); [lia|].
  exists hs, rest. eexists. split_and!; [exact Ha| |exact Hlt|].
  - unfold alignment_thread. rewrite bind_eq, Hr. unfold emit, mbind, M_bind. reflexivity.
  - simpl. rewrite <- Hs. destruct Hcase as [[? ->]|(? & -> & ?)]; eexists; (split; [by rewrite <- !app_assoc|]);
      [by left|by right].
Qed.
End theorems.

(** ** Witnesses *)

Module BlockSample.
#[local] Existing Instances Samples.ring Samples.block_executable Samples.conf_confirmable
  Samples.tx_transactable Samples.tx_serialize.
#[local] Existing Instance gmap_iter.

Abbreviation sworld :=
  (world t (Effect Z Samples.block Samples.conf Samples.tx) (Answer Z Samples.block Samples.conf Samples.tx)).
Abbreviation answer := (Answer Z Samples.block Samples.conf Samples.tx).

Definition at_zero (answers : list answer) : sworld :=
  World (Mk 0 None false 0 (Samples.keypair "a") (Samples.hash 0) "a") answers (100, []) [].
Definition players_abc : answer := Delivered (Res.GetActualPlayers ["a"; "b"; "c"]).
Definition entry (n : Z) : Samples.tx * Z * option (list Z) := (Samples.mktx n, 100, None).
Definition b1 : Samples.block := Samples.blk "b" 7 1 0.

(** The second newest transaction does not fit with the newest. *)
Lemma block_txs_spec_witness :
  let pool := [(Samples.hash 1, 10); (Samples.hash 2, 1048000); (Samples.hash 3, 500)] in
  exists taken rest, pool = rest ++ taken /\ block_txs pool = reverse (map fst taken) /\
    (length taken <= 500)%nat /\ total_size taken < block_size_limit.
Proof.
  intros pool. destruct (block_txs_spec pool) as (taken & rest & H1 & H2 & H3 & H4 & _).
  - repeat constructor; vm_compute; congruence.
  - by exists taken, rest.
Defined.

Lemma distinct_answer_complete_witness :
  let hashes := [Samples.hash 2; Samples.hash 1] in
  map (fun e : Samples.tx * Z * option (list Z) => tx_get_hash (fst (fst e))) [entry 1; entry 2] ≡ₚ hashes /\
  Forall (fun e : Samples.tx * Z * option (list Z) => tx_verify (fst (fst e)) = true) [entry 1; entry 2].
Proof.
  intros hashes.
  apply (distinct_answer_complete (B := Samples.block) (C := Samples.conf) hashes
    (Some (Delivered (Res.GetTxs [entry 1; entry 2])))).
  - vm_compute. reflexivity.
  - apply (bool_decide_unpack _). vm_compute. exact I.
Defined.

Lemma build_block_spec_witness :
  exists w', build_block (at_zero [Delivered (Res.GetUnconfirmedHashes [(Samples.hash 1, 10); (Samples.hash 2, 20)]);
                                   Delivered (Res.GetUnconfirmedHashes [(Samples.hash 2, 20); (Samples.hash 1, 10)])]) =
    Ret (Ok tt) w' /\ build_in_progress (w_state w') = true /\ msgs (w_out w') =
    [(TransactionService, Msg.CollectBlockTxs (Samples.blk "a" 1 1 0) 0 [Samples.hash 2; Samples.hash 1])].
Proof.
  destruct (build_block_spec
    (at_zero [Delivered (Res.GetUnconfirmedHashes [(Samples.hash 1, 10); (Samples.hash 2, 20)]);
              Delivered (Res.GetUnconfirmedHashes [(Samples.hash 2, 20); (Samples.hash 1, 10)])])
    [(Samples.hash 1, 10); (Samples.hash 2, 20)] [(Samples.hash 2, 20); (Samples.hash 1, 10)] [])
    as (w' & Hr & Hs & Hm).
  - reflexivity.
  - intros x Hx. apply (bool_decide_unpack _). apply list_elem_of_In in Hx.
    vm_compute in Hx. destruct Hx as [<-|[<-|[]]]; vm_compute; exact I.
  - exists w'. split_and!; [exact Hr|by rewrite Hs|rewrite Hm; vm_compute; reflexivity].
Defined.

(** The vote of a stranger for the present round *)
Lemma verify_ext_block_faults_witness :
  exists w', verify_ext_block b1 [] [Samples.vote "d" 7 1 0] (at_zero [players_abc; players_abc]) =
    Ret (Err (EChain ConfirmationError)) w' /\ msgs (w_out w') = [].
Proof.
  destruct (verify_ext_block_faults b1 [] [Samples.vote "d" 7 1 0] (at_zero [players_abc; players_abc])
    ["a"; "b"; "c"] [] "b") as (_ & _ & H); [reflexivity|].
  destruct (H eq_refl eq_refl) as [_ H1]. destruct (H1 eq_refl) as [_ H2].
  destruct (H2 eq_refl) as [_ H3].
  destruct (H3 (Samples.vote "d" 7 1 0)) as (w' & Hr & _ & Hm).
  - apply (bool_decide_unpack _). vm_compute. exact I.
  - left.
  - apply (bool_decide_unpack _). vm_compute. exact I.
  - vm_compute. discriminate.
  - exists w'. split; [exact Hr|exact Hm].
Defined.

Lemma run_total_head_witness :
  exists w', run [MkComm (KMsg Msg.BuildBlock) None; MkComm (KMsg (Msg.BlockConsolidated b1 [] (Players.Mk [] []))) None]
    (at_zero []) = Ret tt w' /\ chain_head (w_state w') = (1, Samples.hash 7).
Proof.
  exact (run_total_head [MkComm (KMsg Msg.BuildBlock) None; MkComm (KMsg (Msg.BlockConsolidated b1 [] (Players.Mk [] []))) None]
    (at_zero []) (fun tx => eq_refl)).
Defined.

(** Two neighbors at the height 3 against one at the height 5 *)
Lemma best_last_block_spec_witness :
  exists info w', best_last_block (at_zero [Delivered (Res.GetNeighbors ["b"; "c"; "d"]);
      Delivered (Res.GetLastBlockInfo (MkBlockInfo 3 (Samples.hash 3)));
      Delivered (Res.GetLastBlockInfo (MkBlockInfo 5 (Samples.hash 5)));
      Delivered (Res.GetLastBlockInfo (MkBlockInfo 3 (Samples.hash 3)))]) =
    Ret (Ok (bi_height info, supporters ["b"; "c"; "d"]
      [MkBlockInfo 3 (Samples.hash 3); MkBlockInfo 5 (Samples.hash 5); MkBlockInfo 3 (Samples.hash 3)] info)) w'.
Proof.
  destruct (proj2 (best_last_block_spec ["b"; "c"; "d"]
    [MkBlockInfo 3 (Samples.hash 3); MkBlockInfo 5 (Samples.hash 5); MkBlockInfo 3 (Samples.hash 3)] []
    (at_zero [Delivered (Res.GetNeighbors ["b"; "c"; "d"]);
      Delivered (Res.GetLastBlockInfo (MkBlockInfo 3 (Samples.hash 3)));
      Delivered (Res.GetLastBlockInfo (MkBlockInfo 5 (Samples.hash 5)));
      Delivered (Res.GetLastBlockInfo (MkBlockInfo 3 (Samples.hash 3)))]) eq_refl eq_refl))
    as (info & w' & Hr & _); [discriminate|]. by exists info, w'.
Defined.

(** A block nobody but its sender confirmed in an earlier round goes to its execution: the
    confirmation is of no player at all, and is not looked at because its round is past. *)
Theorem past_round_confirmation_unchecked :
  exists w', verify_ext_block b1 [] [Samples.vote "stranger" 9 5 0]
      (upd (set_actual_round 1) (at_zero [players_abc; players_abc; Delivered (Res.GetUnconfirmedHashes [])])) =
    Ret (Ok tt) w' /\ msgs (w_out w') = [(TransactionService, Msg.CollectBlockTxs b1 1 [])].
Proof. eexists. split; vm_compute; reflexivity. Qed.

(** A peer that answers a request for two missing transactions with one of them twice is
    believed: the block goes to its execution, and the transaction service, which has not
    got the other, panics on it. *)
Theorem duplicate_answer_panics :
  let hashes := [Samples.hash 1; Samples.hash 2] in
  let w' := exec_world (begin_execution b1 hashes
    (at_zero [Delivered (Res.GetUnconfirmedHashes []); Delivered (Res.GetTxs [entry 1; entry 1])])) in
  msgs (w_out w') = [(TransactionService, Msg.AddTxs [entry 1; entry 1]);
                     (TransactionService, Msg.CollectBlockTxs b1 0 hashes)] /\
  panicked (TransactionService.run (map (fun m => MkComm (KMsg (snd m)) None) (msgs (w_out w')))
    (World (TransactionService.initial "a") [] (100, []) [])) = true.
Proof. split; vm_compute; reflexivity. Qed.
End BlockSample.
