(* ===== verification/System.v ===== *)
(** * The core as a whole ([trinci-core-new/src/lib.rs], [start])

    The four services and their channels: a step takes the next communication of a
    service's channel, runs its handler to the end, and puts what it sends on the
    channels of the others.  The node and the threads post what they like.  The
    theorems hold in every state the core can reach from its start. *)

From stdpp Require Import base gmap strings list fin_maps.
From S2P Require Import Prelude Exec Hash Crypto CoreModels DRand Samples Messages DRandService.
From S2P Require Import TransactionService ConsensusService BlockService BlockTheorems.
Open Scope Z_scope.

(** ** What each service handles and what it sends *)

Section vocabulary.
Context {A B C T : Type}.
Implicit Types (m : Msg.t A B C T) (r : Req.t) (e : Effect A B C T).

(** The arms of the [handle_messages] of the services, and of [CoreInterface] for the node *)
Definition handles_msg (to : Service) m : bool :=
  match to, m with
  | BlockService, (Msg.AlignmentEnded | Msg.BlockConsolidated _ _ _ | Msg.BlockFromPeer _ _ _ | Msg.BuildBlock
      | Msg.BuildBlockTimeout _ | Msg.BuildBlockInPlaceOfLeader _ | Msg.DetectedPossibleMisalignment
      | Msg.HeightFromPeer _ | Msg.RefreshRound _ | Msg.RetrieveBlock _ | Msg.StartTimerToBuildBlock) => true
  | ConsensusService, (Msg.BlockElectionFailed _ _ | Msg.BlockConfirmationFromPeer _ | Msg.BlockConsolidated _ _ _
      | Msg.BlockExecutionEnded _ _ | Msg.BlockFromPeer _ _ _ | Msg.CheckOldBlockProposals
      | Msg.ConfirmBuildBlockInPlaceOfLeader _ _ | Msg.ProposalAfterBuild _ _ _
      | Msg.ProposalFromAlignmentBlock _ | Msg.VerifyConfirmations _ _) => true
  | DRandService, Msg.UpdateSeedSource _ _ _ => true
  | TransactionService, (Msg.AddTx _ | Msg.AddTxs _ | Msg.AlignmentEnded | Msg.AlignmentStarted
      | Msg.BlockConsolidated _ _ _ | Msg.CollectBlockTxs _ _ _ | Msg.CheckOldTxs) => true
  | NodeInterface, (Msg.ExecuteBlock _ _ _ | Msg.PropagateBlockToPeers _ _ _ | Msg.PropagateConfirmationToPeers _
      | Msg.PropagateOldTxs _ | Msg.StartBlockConsolidation _ _ _ | Msg.VerifyIfConsolidated _ _) => true
  | _, _ => false
  end.

Definition handles_req (to : Service) r : bool :=
  match to, r with
  | ConsensusService, (Req.GetActualPlayers | Req.GetLeader | Req.IsLeader _) => true
  | DRandService, Req.GetDRandNum _ => true
  | TransactionService, (Req.GetPoolLength | Req.GetTxs _ | Req.GetUnconfirmedHashes) => true
  | NodeInterface, (Req.GetConfirmations _ _ _ | Req.GetFullBlock _ _ | Req.GetLastBlockInfo _ | Req.GetNeighbors
      | Req.GetTxs _) => true
  | _, _ => false
  end.

(** A response of the kind of the request *)
Definition responds r (res : Res.t A B C T) : bool :=
  match r, res with
  | Req.GetActualPlayers, Res.GetActualPlayers _ | Req.GetConfirmations _ _ _, Res.GetConfirmations _ _
  | Req.GetDRandNum _, Res.GetDRandNum _ | Req.GetFullBlock _ _, Res.GetFullBlock _ _
  | Req.GetLastBlockInfo _, Res.GetLastBlockInfo _ | Req.GetLeader, Res.GetLeader _
  | Req.GetNeighbors, Res.GetNeighbors _ | Req.GetPoolLength, Res.GetPoolLength _ | Req.GetTxs _, Res.GetTxs _
  | Req.GetUnconfirmedHashes, Res.GetUnconfirmedHashes _ | Req.IsLeader _, Res.IsLeader _ => true
  | _, _ => false
  end.

(** The message goes to a service that handles it, the request too, with a channel for the
    response; a response is of the kind of the request [c] it answers. *)
Definition addressed (c : Comm A B C T) e : bool :=
  match e with
  | Sent to (MkComm (KMsg m) None) => handles_msg to m
  | Sent to (MkComm (KReq r) (Some _)) => handles_req to r
  | Sent _ _ => false
  | Replied to res =>
      match c with MkComm (KReq r) (Some from) => bool_decide (to = from) && responds r res | _ => false end
  | SentAlignment (Msg.NewHeight _) => true
  | SentAlignment _ => false
  | Spawned _ | Slept _ => true
  end.

(** Nobody but the block service, told so itself, tells of consolidated blocks. *)
Definition no_news e : bool :=
  match e with Sent _ (MkComm (KMsg (Msg.BlockConsolidated _ _ _)) _) => false | _ => true end.

Definition proper (c : Comm A B C T) e : Prop := addressed c e = true /\ no_news e = true.
End vocabulary.

#[local] Hint Extern 1 (proper _ _) => split; reflexivity : frames.

Section steps.
Context `{Hdig : Digest} `{Hb58 : Base58} `{Hring : Ring} `{Hpcg : Pcg} {A B C T : Type} `{HcA : Countable A} `{HeqC : EqDecision C}
  `{!Executable B, !Confirmable C, !Transactable T, !Serialize T}
  `{!HashMapIter Hash} `{!HashMapIter BlockInfo}.

Abbreviation comm := (Comm A B C T).
Implicit Types c : comm.

Lemma for_each_adds {S E R X} (Q : E -> Prop) (l : list X) (body : X -> M S E R unit) :
  (forall x, rel (adds Q) (body x)) -> rel (adds Q) (for_each l body).
Proof. intros H. apply rel_for_each; [typeclasses eauto|]. intros x _. apply H. Qed.

Lemma reply_proper {S} r from res :
  responds r res = true ->
  rel (S := S) (R := Answer A B C T) (adds (proper (MkComm (KReq r) (Some from)))) (send_res (A:=A) (B:=B) (C:=C) (T:=T) from res).
Proof.
  intros Hr. apply rel_emit_adds. split; [|done]. simpl. by rewrite bool_decide_true.
Qed.

(** ** The transaction service *)
Lemma transaction_step_proper c : rel (adds (proper c)) (TransactionService.step c).
Proof.
  unfold TransactionService.step, dispatch. destruct c as [[m|r] chan]; cbn [kind res_chan].
  - assert (Hcheck : rel (adds (proper (MkComm (KMsg m) chan))) TransactionService.check_whether_to_build_block)
      by (unfold TransactionService.check_whether_to_build_block; frames).
    assert (Hadd : forall entry, rel (adds (proper (MkComm (KMsg m) chan))) (TransactionService.on_add_tx entry)).
    { intros [[tx sz] att]. unfold TransactionService.on_add_tx, TransactionService.insert_in_pool. frames. }
    destruct m; simpl; frames.
    + apply for_each_adds, Hadd.
    + unfold TransactionService.on_block_consolidated, TransactionService.remove_from_pool. frames.
    + unfold TransactionService.on_check_old_txs. frames.
    + unfold TransactionService.on_collect_block_txs. apply rel_bind; [typeclasses eauto|frames|]. intros pool.
      apply rel_bind; [typeclasses eauto| |frames]. intros w.
      rewrite (TransactionService.collect_txs_eq pool txs_hashes [] w).
      destruct (mapM _ txs_hashes); simpl; reflexivity.
  - destruct chan as [from|]; [|frames]. destruct r; simpl; frames; by apply reply_proper.
Qed.

(** ** The DRand service *)
Lemma drand_step_proper c : rel (adds (proper c)) (DRandService.step (A:=A) (B:=B) (C:=C) (T:=T) c).
Proof.
  unfold DRandService.step, dispatch. destruct c as [[m|r] chan]; cbn [kind res_chan].
  - destruct m; simpl; frames.
  - destruct chan as [from|]; [|frames]. destruct r; simpl; frames; by apply reply_proper.
Qed.

(** ** The consensus service *)
Section consensus.
Variable m : Msg.t A B C T.
Variable chan : option Service.
Abbreviation P := (proper (MkComm (KMsg m) chan)).
Abbreviation cstate := (ConsensusService.t (B := B) (C := C)).
Abbreviation keeps_proper p := (rel (S := cstate) (adds P) p).
Import ConsensusService.

Lemma quorum_proper hash n r : keeps_proper (verify_block_proposal_quorum hash n r).
Proof. unfold verify_block_proposal_quorum. frames. Qed.
Lemma update_proper cs block : keeps_proper (update_proposals cs block).
Proof. unfold update_proposals. frames. Qed.
Lemma vote_proper block r : keeps_proper (vote_proposal block r).
Proof. unfold vote_proposal. frames. Qed.
#[local] Hint Resolve quorum_proper update_proper vote_proper : frames.

Lemma check_old_proposals_proper now ps : keeps_proper (check_old_proposals now ps).
Proof. induction ps as [|p ps IH]; simpl; frames. unfold check_old_proposal. frames. Qed.
#[local] Hint Resolve check_old_proposals_proper : frames.

Lemma draw_proper block : keeps_proper (draw_new_leader block).
Proof. unfold draw_new_leader. frames. Qed.
Lemma next_round_proper n r : keeps_proper (check_next_round_proposals n r).
Proof. unfold check_next_round_proposals. frames. Qed.
#[local] Hint Resolve draw_proper next_round_proper : frames.

Lemma consensus_messages_proper : keeps_proper (handle_messages m).
Proof.
  destruct m; simpl; frames.
  - unfold on_block_confirmation_from_peer. frames.
  - unfold on_block_consolidated, reset_proposals, block_consolidated. frames.
  - unfold on_block_from_peer. frames.
  - unfold on_block_execution_ended. frames.
  - unfold on_check_old_block_proposals, check_old_block_proposals. frames.
  - unfold confirm_build_block_in_place_of_leader. frames.
  - unfold on_block_election_failed, block_election_failed. frames.
  - unfold on_proposal_after_build. frames.
  - unfold on_proposal_from_alignment_block. frames.
  - unfold verify_confirmations_from_peer. frames.
Qed.
End consensus.

Lemma consensus_step_proper c : rel (adds (proper c)) (ConsensusService.step c).
Proof.
  unfold ConsensusService.step, dispatch. destruct c as [[m|r] chan]; cbn [kind res_chan].
  - apply consensus_messages_proper.
  - destruct chan as [from|]; [|frames]. unfold ConsensusService.handle_requests.
    destruct r; simpl; frames; by apply reply_proper.
Qed.

(** ** The block service *)
Section block.
Variable m : Msg.t A B C T.
Variable chan : option Service.
Abbreviation P := (proper (MkComm (KMsg m) chan)).
Abbreviation keeps_proper p := (rel (S := BlockService.t) (adds P) p).
Import BlockService.

Lemma ask_proper to req : handles_req to req = true -> keeps_proper (ask to req).
Proof.
  intros Hr. unfold ask. apply rel_bind; [typeclasses eauto|apply send_req_adds; by split|frames].
Qed.
#[local] Hint Extern 1 (rel _ (ask _ _)) => apply ask_proper; reflexivity : frames.

Lemma collect_missing_proper fuel k hashes : keeps_proper (collect_missing_txs fuel k hashes).
Proof. revert k. induction fuel as [|fuel IH]; intros k; cbn [collect_missing_txs]; frames; apply IH. Qed.
#[local] Hint Resolve collect_missing_proper : frames.

Lemma begin_execution_proper block hashes : keeps_proper (begin_execution block hashes).
Proof. unfold begin_execution. frames. Qed.
#[local] Hint Resolve begin_execution_proper : frames.

Lemma verify_ext_block_proper block hashes cs : keeps_proper (verify_ext_block block hashes cs).
Proof. unfold verify_ext_block, actual_players. frames. Qed.
Lemma build_block_proper : keeps_proper build_block.
Proof. unfold build_block. frames. Qed.
#[local] Hint Resolve verify_ext_block_proper build_block_proper : frames.

Lemma verify_if_leader_proper n : keeps_proper (verify_if_leader_and_build n).
Proof. unfold verify_if_leader_and_build. frames. Qed.
Lemma ask_neighbors_proper neighbors candidates : keeps_proper (ask_neighbors neighbors candidates).
Proof. revert candidates. induction neighbors as [|x l IH]; intros cs; simpl; frames; apply IH. Qed.
#[local] Hint Resolve verify_if_leader_proper ask_neighbors_proper : frames.

Lemma align_proper : keeps_proper align.
Proof. unfold align, best_last_block, spawn_alignment_thread. frames. Qed.
Lemma retrieve_proper fuel k peers : keeps_proper (retrieve_alignment_block fuel k peers).
Proof. revert k. induction fuel as [|fuel IH]; intros k; cbn [retrieve_alignment_block]; frames; apply IH. Qed.
#[local] Hint Resolve align_proper retrieve_proper : frames.

Definition is_news (c : Comm A B C T) : bool :=
  match c with MkComm (KMsg (Msg.BlockConsolidated _ _ _)) _ => true | _ => false end.

Lemma block_messages_proper : is_news (MkComm (KMsg m) chan) = false -> keeps_proper (handle_messages m).
Proof.
  intros Hn. destruct m; try discriminate; simpl; frames.
  - unfold on_build_block. frames.
  - unfold on_build_block_in_place_of_leader. frames.
  - unfold on_build_block_timeout. frames.
  - unfold on_height_from_peer. frames.
  - unfold on_refresh_round. frames.
  - unfold on_retrieve_block. frames.
  - unfold on_start_timer_to_build_block. frames.
Qed.
End block.

Lemma block_step_proper c : is_news c = false -> rel (adds (proper c)) (BlockService.step c).
Proof.
  intros Hn. unfold BlockService.step, dispatch. destruct c as [[m|r] chan]; cbn [kind res_chan].
  - by apply block_messages_proper.
  - destruct chan; frames.
Qed.

(** ** The core *)

(** A service: its state ([None] once its thread has panicked), what waits on its channel,
    and what it has received before *)
Record proc (S : Type) : Type := Proc { p_state : option S; p_mail : list comm; p_done : list comm }.
Arguments Proc {S} _ _ _.
Arguments p_state {S} _.
Arguments p_mail {S} _.
Arguments p_done {S} _.

Record core : Type := Core {
  c_block : proc BlockService.t;
  c_consensus : proc (ConsensusService.t (B := B) (C := C));
  c_drand : proc DRandService.t;
  c_transaction : proc (TransactionService.t (A := A) (T := T));
  c_node : list comm
}.

(** What the effects put on the channel of a service, in order *)
Fixpoint mail_to (to : Service) (es : list (Effect A B C T)) : list comm :=
  match es with
  | [] => []
  | Sent to' c :: es => if bool_decide (to' = to) then c :: mail_to to es else mail_to to es
  | _ :: es => mail_to to es
  end.

Definition receive {S} (to : Service) (es : list (Effect A B C T)) (p : proc S) : proc S :=
  Proc (p_state p) (p_mail p ++ mail_to to es) (p_done p).

Definition deliver (es : list (Effect A B C T)) (k : core) : core :=
  Core (receive Messages.BlockService es (c_block k)) (receive Messages.ConsensusService es (c_consensus k))
    (receive Messages.DRandService es (c_drand k)) (receive Messages.TransactionService es (c_transaction k))
    (c_node k ++ mail_to NodeInterface es).

(** One turn of the loop of a service *)
Definition state_after {S X} (r : exec (world S (Effect A B C T) (Answer A B C T)) X) : option S :=
  match r with Ret _ w => Some (w_state w) | Panic _ => None end.

Definition turned {S} (r : exec (world S (Effect A B C T) (Answer A B C T)) unit) (c : comm) (p : proc S) : proc S :=
  Proc (state_after r) (tail (p_mail p)) (p_done p ++ [c]).

(** What the node and the threads may post: of consolidated blocks the node tells only the
    block service (the WASM service of the node does). *)
Definition postable (to : Service) (c : comm) : Prop :=
  is_news c = true -> to = Messages.BlockService.

(** A step: the answers the requests of the handler get, and the clock it reads, are any. *)
Inductive core_step : core -> core -> Prop :=
| StepPost to c k : postable to c -> core_step k (deliver [Sent to c] k)
| StepBlock c mail s ans clk k :
    p_mail (c_block k) = c :: mail -> p_state (c_block k) = Some s ->
    let r := BlockService.step c (World s ans clk []) in
    core_step k (deliver (w_out (exec_world r))
      (Core (turned r c (c_block k)) (c_consensus k) (c_drand k) (c_transaction k) (c_node k)))
| StepConsensus c mail s ans clk k :
    p_mail (c_consensus k) = c :: mail -> p_state (c_consensus k) = Some s ->
    let r := ConsensusService.step c (World s ans clk []) in
    core_step k (deliver (w_out (exec_world r))
      (Core (c_block k) (turned r c (c_consensus k)) (c_drand k) (c_transaction k) (c_node k)))
| StepDRand c mail s ans clk k :
    p_mail (c_drand k) = c :: mail -> p_state (c_drand k) = Some s ->
    let r := DRandService.step c (World s ans clk []) in
    core_step k (deliver (w_out (exec_world r))
      (Core (c_block k) (c_consensus k) (turned r c (c_drand k)) (c_transaction k) (c_node k)))
| StepTransaction c mail s ans clk k :
    p_mail (c_transaction k) = c :: mail -> p_state (c_transaction k) = Some s ->
    let r := TransactionService.step c (World s ans clk []) in
    core_step k (deliver (w_out (exec_world r))
      (Core (c_block k) (c_consensus k) (c_drand k) (turned r c (c_transaction k)) (c_node k))).

(** [start] of [lib.rs]: the node's id is that of its key; the four services are in the states
    their [start] functions build.  That of the consensus service draws the leader of a
    node that starts on a block, so it makes a request and may panic.  [None]: no id. *)
Definition start (kp : Keys.TrinciKeyPair) (ps : Players.t) (seed : SeedSource.t) (block : option B)
    (ans : list (Answer A B C T)) (clk : Z * list Z) : option core :=
  match Keys.to_account_id (Keys.public_key kp) with
  | Some (Ok node_id) =>
      let consensus :=
        s ← ConsensusService.initial kp node_id ps block;
        Some (ConsensusService.start block [] (World s ans clk [])) in
      Some (deliver (from_option (fun r => w_out (exec_world r)) [] consensus)
        (Core (Proc (Some (BlockService.initial kp node_id block)) [] [])
              (Proc (consensus ≫= state_after) [] [])
              (Proc (DRandService.start node_id seed) [] [])
              (Proc (Some (TransactionService.initial node_id)) [] []) []))
  | _ => None
  end.

Inductive reachable (k0 : core) : core -> Prop :=
| ReachRefl : reachable k0 k0
| ReachStep k k' : reachable k0 k -> core_step k k' -> reachable k0 k'.

(** ** Messages are for services that handle them *)

Lemma adds_Forall {S X} (Q : Effect A B C T -> Prop) (m : M S (Effect A B C T) (Answer A B C T) X) s ans clk :
  rel (adds Q) m -> Forall Q (w_out (exec_world (m (World s ans clk [])))).
Proof. intros H. destruct (H (World s ans clk [])) as (es & He & Hq). rewrite He. exact Hq. Qed.

Lemma proper_addressed c es : Forall (proper c) es -> Forall (fun e => addressed c e = true) es.
Proof. intros H. eapply Forall_impl; [exact H|]. by intros e []. Qed.

(** What the block service does with the news of a consolidated block *)
Lemma block_step_news block hashes players chan s ans clk :
  BlockService.step (MkComm (KMsg (Msg.BlockConsolidated block hashes players)) chan) (World s ans clk []) =
  Ret tt (outs (match BlockService.alignment_sender s with
                | Some _ => [SentAlignment (Msg.NewHeight (get_height block)) : Effect A B C T] | None => [] end ++
                [Sent Messages.ConsensusService (MkComm (KMsg (Msg.BlockConsolidated block hashes players)) None);
                 Sent Messages.TransactionService (MkComm (KMsg (Msg.BlockConsolidated block hashes players)) None)])
    (World (BlockService.Mk 0 (BlockService.alignment_sender s) false (get_height block) (BlockService.keypair s)
              (get_hash block) (BlockService.node_id s)) ans clk [])).
Proof. unfold BlockService.step, dispatch. simpl. by rewrite finalize_eq. Qed.

Lemma block_step_addressed c s ans clk :
  Forall (fun e => addressed c e = true) (w_out (exec_world (BlockService.step c (World s ans clk [])))).
Proof.
  destruct (is_news c) eqn:En.
  - destruct c as [[[]|] chan]; try discriminate. rewrite block_step_news. simpl.
    destruct (BlockService.alignment_sender s); repeat constructor.
  - apply proper_addressed, adds_Forall. by apply block_step_proper.
Qed.

(** C13: no service of the core ever sends a message or a request to a service that does not
    handle it, nor a response that is not for the requester and of the kind of the
    request: whatever the state, the communication handled, the answers and the clock. *)
Theorem services_well_addressed c ans clk :
  (forall s, Forall (fun e => addressed c e = true) (w_out (exec_world (BlockService.step c (World s ans clk []))))) /\
  (forall s, Forall (fun e => addressed c e = true) (w_out (exec_world (ConsensusService.step c (World s ans clk []))))) /\
  (forall s, Forall (fun e => addressed c e = true)
     (w_out (exec_world (DRandService.step (A:=A) (B:=B) (C:=C) (T:=T) c (World s ans clk []))))) /\
  (forall s, Forall (fun e => addressed c e = true) (w_out (exec_world (TransactionService.step c (World s ans clk []))))).
Proof.
  split_and!; intros s.
  - apply block_step_addressed.
  - apply proper_addressed, adds_Forall, consensus_step_proper.
  - apply proper_addressed, adds_Forall, drand_step_proper.
  - apply proper_addressed, adds_Forall, transaction_step_proper.
Qed.

(** ** Consolidated blocks *)

(** The consolidated block a communication tells of *)
Definition news (c : comm) : option (B * list Hash * Players.t) :=
  match kind c with KMsg (Msg.BlockConsolidated block hashes players) => Some (block, hashes, players) | _ => None end.

Lemma news_none c : is_news c = false -> news c = None.
Proof. destruct c as [[[]|] ?]; try done. Qed.

Lemma omap_mail_no_news to es : Forall (fun e => no_news e = true) es -> omap news (mail_to to es) = [].
Proof.
  induction 1 as [|e es He _ IH]; simpl; [done|]. destruct e as [to' c| | | |]; try done.
  case_bool_decide; [|done]. destruct c as [[[]|] ?]; simpl; try done.
Qed.

Lemma proper_no_news c es : Forall (proper c) es -> Forall (fun e => no_news e = true) es.
Proof. intros H. eapply Forall_impl; [exact H|]. by intros e []. Qed.

Lemma advanced_news hd c :
  advanced hd c = match news c with Some (block, _, _) => (get_height block, get_hash block) | None => hd end.
Proof. destruct c as [[[]|] ?]; done. Qed.

Lemma fold_advanced hd cs cs' :
  omap news cs = omap news cs' -> fold_left advanced cs hd = fold_left advanced cs' hd.
Proof.
  assert (Hf : forall cs hd, fold_left advanced cs hd =
    fold_left (fun hd '(block, _, _) => (get_height block, get_hash block)) (omap news cs) hd).
  { intros l. induction l as [|c l IH]; intros hd'; simpl; [done|]. rewrite IH, advanced_news.
    destruct (news c) as [[[block ?] ?]|]; done. }
  intros H. by rewrite !Hf, H.
Qed.

(** The head the consensus service follows *)
Definition consensus_head (s : ConsensusService.t (B := B) (C := C)) : Z * Hash :=
  (ConsensusService.height s, ConsensusService.last_block_hash s).

Section consensus_head.
Import ConsensusService.
Abbreviation cworld := (world (ConsensusService.t (B := B) (C := C)) (Effect A B C T) (Answer A B C T)).
Abbreviation keeps_head p := (rel (S := ConsensusService.t (B := B) (C := C)) (E := Effect A B C T) (R := Answer A B C T)
  (same_proj consensus_head) p).

Lemma head_quorum hash n r : keeps_head (verify_block_proposal_quorum hash n r).
Proof. by apply verify_block_proposal_quorum_frame. Qed.
Lemma head_update cs block : keeps_head (update_proposals cs block).
Proof. by apply update_proposals_frame. Qed.
Lemma head_vote block r : keeps_head (vote_proposal block r).
Proof. by apply vote_proposal_frame. Qed.
Lemma head_draw block : keeps_head (draw_new_leader block).
Proof. by apply draw_new_leader_frame. Qed.
#[local] Hint Resolve head_quorum head_update head_vote head_draw block_election_failed_frame
  block_consolidated_frame check_old_proposals_frame handle_requests_frame : frames.

Lemma head_next_round n r : keeps_head (check_next_round_proposals n r).
Proof. unfold check_next_round_proposals. frames; done. Qed.
#[local] Hint Resolve head_next_round : frames.

Lemma consensus_head_kept c : is_news c = false -> keeps_head (step c).
Proof.
  intros Hn. unfold step, dispatch. destruct c as [[m|r] chan]; cbn [kind res_chan].
  2:{ destruct chan; frames. }
  destruct m; try discriminate; simpl; frames.
  - unfold on_block_confirmation_from_peer. frames.
  - unfold on_block_from_peer. frames; done.
  - unfold on_block_execution_ended. frames.
  - unfold on_check_old_block_proposals. frames. by apply check_old_block_proposals_frame.
  - apply confirm_build_frame.
  - unfold on_block_election_failed. frames; done.
  - unfold on_proposal_after_build. frames; done.
  - unfold on_proposal_from_alignment_block. frames; done.
  - unfold verify_confirmations_from_peer. frames.
Qed.

Lemma reset_sets hash n :
  sets height n (reset_proposals (A := A) (B := B) (C := C) (T := T) hash n) /\
  sets last_block_hash hash (reset_proposals (A := A) (B := B) (C := C) (T := T) hash n).
Proof.
  unfold reset_proposals. split.
  - apply sets_after. intros _. apply sets_then; [by apply sets_modify|]. frames; done.
  - do 2 (apply sets_after; intros _). apply sets_then; [by apply sets_modify|]. frames; done.
Qed.

Lemma consensus_head_news block ps :
  sets consensus_head (get_height block, get_hash block) (on_block_consolidated (A := A) (T := T) block ps).
Proof.
  unfold on_block_consolidated. do 2 (apply sets_after; intros _). apply sets_then.
  - intros w a w' Hw. destruct (reset_sets (get_hash block) (get_height block)) as [H1 H2].
    unfold consensus_head. f_equal; [exact (H1 _ _ _ Hw)|exact (H2 _ _ _ Hw)].
  - frames; done.
Qed.

Lemma consensus_step_head c (w w' : cworld) :
  step c w = Ret tt w' -> consensus_head (w_state w') = advanced (consensus_head (w_state w)) c.
Proof.
  destruct (is_news c) eqn:En.
  - destruct c as [[[]|] chan]; try discriminate. intros Hw. by apply (consensus_head_news _ _ _ _ _ Hw).
  - intros Hw. rewrite advanced_news, news_none by done.
    pose proof (consensus_head_kept c En w) as H. unfold same_proj in H. by rewrite Hw in H.
Qed.

Lemma consensus_start_head kp id ps block s (w' : cworld) ans clk :
  initial kp id ps block = Some s ->
  start block [] (World s ans clk []) = Ret tt w' -> consensus_head (w_state w') = chain_head (BlockService.initial kp id block).
Proof.
  intros Hs Hw. assert (Hk : keeps_head (start block [])) by (unfold start, run, run_loop; simpl; frames).
  specialize (Hk (World s ans clk [])). unfold same_proj in Hk. rewrite Hw in Hk. simpl in Hk. rewrite Hk.
  unfold initial in Hs. destruct (Players.players_ids ps !! 0%nat); [|done]. simpl in Hs.
  unfold BlockService.initial. by destruct block; injection Hs as <-.
Qed.
End consensus_head.

Lemma block_step_head c s ans clk s' :
  state_after (BlockService.step c (World s ans clk [])) = Some s' -> chain_head s' = advanced (chain_head s) c.
Proof.
  unfold BlockService.step, dispatch. destruct c as [[m|r] chan]; cbn [kind res_chan].
  - destruct (BlockService.handle_messages m _) as [[] w'|w'] eqn:E; [|done]. intros [= <-].
    by apply (handle_messages_head _ _ _ E).
  - destruct chan; by intros [= <-].
Qed.

(** ** The invariant of the core *)

(** All the news a service has been or will be told *)
Definition told {S} (p : proc S) : list (B * list Hash * Players.t) := omap news (p_done p ++ p_mail p).

Record core_inv (hd0 : Z * Hash) (k : core) : Prop := {
  ci_block : forall s, p_state (c_block k) = Some s -> chain_head s = fold_left advanced (p_done (c_block k)) hd0;
  ci_consensus : forall s, p_state (c_consensus k) = Some s ->
    consensus_head s = fold_left advanced (p_done (c_consensus k)) hd0 /\ ConsensusService.proposals_wf s;
  ci_transaction : forall s, p_state (c_transaction k) = Some s -> TransactionService.inv s;
  ci_told_consensus : told (c_consensus k) = omap news (p_done (c_block k));
  ci_told_transaction : told (c_transaction k) = omap news (p_done (c_block k))
}.

Lemma told_receive {S} to es (p : proc S) : told (receive to es p) = told p ++ omap news (mail_to to es).
Proof. unfold told, receive. simpl. by rewrite app_assoc, omap_app. Qed.

Lemma told_turned {S} (r : exec (world S (Effect A B C T) (Answer A B C T)) unit) c mail (p : proc S) :
  p_mail p = c :: mail -> told (turned r c p) = told p.
Proof. intros Hm. unfold told, turned. simpl. rewrite Hm, <- app_assoc. done. Qed.

(** Delivering effects without news *)
Lemma deliver_inv hd0 es k :
  Forall (fun e => no_news e = true) es -> core_inv hd0 k -> core_inv hd0 (deliver es k).
Proof.
  intros Hes [H1 H2 H3 H4 H5]. split; simpl; [exact H1|exact H2|exact H3| |];
    rewrite told_receive, omap_mail_no_news, app_nil_r by done; assumption.
Qed.

Lemma step_block_inv hd0 c mail s ans clk k :
  p_mail (c_block k) = c :: mail -> p_state (c_block k) = Some s -> core_inv hd0 k ->
  let r := BlockService.step c (World s ans clk []) in
  core_inv hd0 (deliver (w_out (exec_world r))
    (Core (turned r c (c_block k)) (c_consensus k) (c_drand k) (c_transaction k) (c_node k))).
Proof.
  intros Hm Hs [H1 H2 H3 H4 H5] r.
  assert (Hhead : forall s', p_state (turned r c (c_block k)) = Some s' ->
    chain_head s' = fold_left advanced (p_done (turned r c (c_block k))) hd0).
  { intros s' Hs'. simpl in *. rewrite fold_left_app. simpl. rewrite <- (H1 s Hs). by apply (block_step_head _ _ _ _ _ Hs'). }
  destruct (is_news c) eqn:En.
  - assert (Hr : w_out (exec_world r) =
      match BlockService.alignment_sender s, c with
      | o, MkComm (KMsg (Msg.BlockConsolidated block hashes players)) _ =>
          match o with Some _ => [SentAlignment (Msg.NewHeight (get_height block))] | None => [] end ++
          [Sent Messages.ConsensusService (MkComm (KMsg (Msg.BlockConsolidated block hashes players)) None);
           Sent Messages.TransactionService (MkComm (KMsg (Msg.BlockConsolidated block hashes players)) None)]
      | _, _ => []
      end).
    { destruct c as [[[]|] chan]; try discriminate. unfold r. by rewrite block_step_news. }
    rewrite Hr. destruct c as [[[]|] chan]; try discriminate.
    split; [exact Hhead|exact H2|exact H3| |]; unfold deliver; cbn [c_consensus c_transaction c_block receive turned p_done];
      rewrite told_receive, omap_app; [rewrite H4|rewrite H5];
      by destruct (BlockService.alignment_sender s).
  - apply deliver_inv.
    { eapply proper_no_news, adds_Forall. by apply block_step_proper. }
    split; [exact Hhead|exact H2|exact H3| |]; cbn [c_consensus c_transaction c_block turned p_done];
      rewrite omap_app; simpl; rewrite (news_none c En), app_nil_r; assumption.
Qed.

Lemma core_step_inv hd0 k k' : core_step k k' -> core_inv hd0 k -> core_inv hd0 k'.
Proof.
  intros Hstep Hi. destruct Hstep as [to c k Hp|c mail s ans clk k Hm Hs r|c mail s ans clk k Hm Hs r
    |c mail s ans clk k Hm Hs r|c mail s ans clk k Hm Hs r].
  - destruct (is_news c) eqn:En.
    + rewrite (Hp En). destruct Hi as [H1 H2 H3 H4 H5].
      split; simpl; [exact H1|exact H2|exact H3| |]; rewrite told_receive; simpl; by rewrite app_nil_r.
    + apply deliver_inv; [|done]. repeat constructor. by destruct c as [[[]|] ?].
  - by apply (step_block_inv hd0 c mail).
  - apply deliver_inv; [eapply proper_no_news, adds_Forall, consensus_step_proper|].
    destruct Hi as [H1 H2 H3 H4 H5]. split; simpl; [exact H1| |exact H3| |exact H5].
    + intros s' Hs'. destruct (H2 s Hs) as [Hh Hw]. split.
      * rewrite fold_left_app. simpl. rewrite <- Hh. revert Hs'. unfold r.
        destruct (ConsensusService.step c _) as [[] w'|w'] eqn:E; [|done]. intros [= <-].
        by apply (consensus_step_head _ _ _ E).
      * pose proof (ConsensusService.step_wf c (World s ans clk []) Hw) as Hk. revert Hs' Hk. unfold r.
        destruct (ConsensusService.step c _) as [[] w'|w']; [|done]. by intros [= <-].
    + by rewrite (told_turned _ _ mail).
  - apply deliver_inv; [eapply proper_no_news, adds_Forall, drand_step_proper|].
    by destruct Hi; split.
  - apply deliver_inv; [eapply proper_no_news, adds_Forall, transaction_step_proper|].
    destruct Hi as [H1 H2 H3 H4 H5]. split; simpl; [exact H1|exact H2| |exact H4|].
    + intros s' Hs'. pose proof (TransactionService.step_keeps c (World s ans clk []) (H3 s Hs)) as Hk.
      revert Hs' Hk. unfold r. destruct (TransactionService.step c _) as [[] w'|w']; [|done]. by intros [= <-].
    + by rewrite (told_turned _ _ mail).
Qed.

#[local] Hint Extern 1 (no_news _ = true) => reflexivity : frames.

Lemma consensus_start_no_news block :
  rel (S := ConsensusService.t (B := B) (C := C)) (R := Answer A B C T) (adds (fun e => no_news e = true))
    (ConsensusService.start block []).
Proof.
  unfold ConsensusService.start, ConsensusService.run, run_loop, ConsensusService.draw_new_leader. simpl. frames.
Qed.

Lemma consensus_initial_wf kp id ps block s :
  ConsensusService.initial (B := B) (C := C) kp id ps block = Some s -> ConsensusService.proposals_wf s.
Proof.
  intros Hs. unfold ConsensusService.initial in Hs. destruct (Players.players_ids ps !! 0%nat); [|done].
  simpl in Hs. destruct block; injection Hs as <-; split; constructor.
Qed.

Lemma core_start_inv kp ps seed block ans clk k :
  start kp ps seed block ans clk = Some k ->
  core_inv (match block with Some b => (get_height b, get_hash b) | None => (0, Hashes.default) end) k.
Proof.
  unfold start. destruct (Keys.to_account_id _) as [[id|]|]; try done. intros [= <-]. apply deliver_inv.
  - destruct (ConsensusService.initial kp id ps block) as [s|]; simpl; [|constructor].
    apply adds_Forall, consensus_start_no_news.
  - split; simpl; [| | |done|done].
    + intros s [= <-]. by destruct block.
    + intros s Hs. apply bind_Some in Hs as (r & Hr & Hs). apply bind_Some in Hr as (s0 & Hs0 & Hr). simplify_eq.
      split.
      * destruct (ConsensusService.start block [] _) as [[] w|w] eqn:E; [|done]. injection Hs as <-.
        rewrite (consensus_start_head _ _ _ _ _ _ _ _ Hs0 E). by destruct block.
      * pose proof (ConsensusService.start_wf (A := A) (T := T) block [] (World s0 ans clk [])) as Hk.
        destruct (ConsensusService.start block [] _) as [[] w|w]; [|done]. injection Hs as <-. apply Hk.
        by apply (consensus_initial_wf _ _ _ _ _ Hs0).
    + intros s [= <-]. apply TransactionService.initial_inv.
Qed.

Lemma reachable_inv hd0 k0 k : reachable k0 k -> core_inv hd0 k0 -> core_inv hd0 k.
Proof. induction 1 as [|k k' _ IH Hstep]; intros H; [done|]. by eapply core_step_inv, IH. Qed.

Lemma omap_no_news (l : list comm) : Forall (fun c => news c = None) l -> omap news l = [].
Proof. induction 1 as [|c l Hc _ IH]; [done|]. simpl. rewrite Hc. exact IH. Qed.

(** C4: in every state the core reaches from its start, the news of consolidated blocks that
    the consensus service has had or has on its channel are those the block service has
    had, in the same order, and the same holds of the transaction service: none is lost,
    invented, doubled or overtaken. *)
Theorem core_news_agree kp ps seed block ans clk k0 k :
  start kp ps seed block ans clk = Some k0 -> reachable k0 k ->
  told (c_consensus k) = omap news (p_done (c_block k)) /\
  told (c_transaction k) = omap news (p_done (c_block k)).
Proof. intros H0 Hk. destruct (reachable_inv _ _ _ Hk (core_start_inv _ _ _ _ _ _ _ H0)). by split. Qed.

(** C3: in every state the core reaches, while the block and consensus services run, the head
    the consensus service will have once it has handled what waits on its channel is the
    head of the block service; when no news of a block waits they have the same height
    and the same last block. *)
Theorem core_heads_agree kp ps seed block ans clk k0 k sb sc :
  start kp ps seed block ans clk = Some k0 -> reachable k0 k ->
  p_state (c_block k) = Some sb -> p_state (c_consensus k) = Some sc ->
  fold_left advanced (p_mail (c_consensus k)) (consensus_head sc) = chain_head sb /\
  (Forall (fun c => news c = None) (p_mail (c_consensus k)) -> consensus_head sc = chain_head sb).
Proof.
  intros H0 Hk Hb Hc. destruct (reachable_inv _ _ _ Hk (core_start_inv _ _ _ _ _ _ _ H0)) as [H1 H2 _ H4 _].
  rewrite (H1 _ Hb). destruct (H2 _ Hc) as [-> _].
  assert (Hall : forall mail, omap news (p_done (c_consensus k) ++ mail) = omap news (p_done (c_block k)) ->
    fold_left advanced mail (fold_left advanced (p_done (c_consensus k))
      (match block with Some b => (get_height b, get_hash b) | None => (0, Hashes.default) end)) =
    fold_left advanced (p_done (c_block k))
      (match block with Some b => (get_height b, get_hash b) | None => (0, Hashes.default) end)).
  { intros mail Hmail. rewrite <- fold_left_app. by apply fold_advanced. }
  split; [by apply Hall|]. intros Hn. unfold told in H4. rewrite omap_app in H4.
  rewrite (omap_no_news _ Hn), app_nil_r in H4. apply (Hall []). by rewrite app_nil_r.
Qed.

(** In every state the core reaches, while they run, the transaction service keeps its pool
    of verified transactions keyed by their hashes, and the consensus service its proposals
    well formed. *)
Theorem core_invariants kp ps seed block ans clk k0 k :
  start kp ps seed block ans clk = Some k0 -> reachable k0 k ->
  (forall s, p_state (c_transaction k) = Some s -> TransactionService.inv s) /\
  (forall s, p_state (c_consensus k) = Some s -> ConsensusService.proposals_wf s).
Proof.
  intros H0 Hk. destruct (reachable_inv _ _ _ Hk (core_start_inv _ _ _ _ _ _ _ H0)) as [_ H2 H3 _ _].
  split; [exact H3|]. intros s Hs. by apply H2.
Qed.

(** ** Threads *)
Section threads.
Variable c : comm.
Abbreviation P := (fun e => addressed c e = true).
#[local] Hint Extern 1 (addressed _ _ = true) => reflexivity : frames.

Lemma retrieve_confirmations_addressed fuel k p :
  rel (S := unit) (adds P) (ConsensusService.retrieve_confirmations (A:=A) (B:=B) (C:=C) (T:=T) fuel k p).
Proof.
  revert k. induction fuel as [|fuel IH]; intros k; cbn [ConsensusService.retrieve_confirmations]; frames; apply IH.
Qed.

Lemma alignment_loop_addressed fuel n peers :
  rel (S := Z) (R := Msg.t A B C T) (adds P) (BlockService.alignment_loop (A:=A) (B:=B) (C:=C) (T:=T) fuel n peers).
Proof. induction fuel as [|fuel IH]; cbn [BlockService.alignment_loop]; frames; first [reflexivity | apply IH]. Qed.

(** The threads the services spawn too send only what the service it goes to handles. *)
Theorem threads_well_addressed :
  rel (S := TransactionService.t (A := A) (T := T)) (R := Answer A B C T) (adds P) TransactionService.check_old_txs_loop /\
  rel (S := unit) (R := Answer A B C T) (adds P) ConsensusService.check_old_block_proposals_loop /\
  (forall n r random, rel (S := unit) (R := Answer A B C T) (adds P)
     (ConsensusService.block_election_failed_thread n r random)) /\
  (forall p, rel (S := unit) (adds P) (ConsensusService.retrieve_confirmations_thread p)) /\
  (forall n, rel (S := unit) (R := Answer A B C T) (adds P) (BlockService.leader_timeout_thread n)) /\
  (forall n, rel (S := unit) (R := Answer A B C T) (adds P) (BlockService.build_timer_thread n)) /\
  (forall fuel n peers, rel (S := Z) (R := Msg.t A B C T) (adds P) (BlockService.alignment_thread fuel n peers)).
Proof.
  split_and!.
  - unfold TransactionService.check_old_txs_loop, sleep_s. frames; reflexivity.
  - unfold ConsensusService.check_old_block_proposals_loop, sleep_s. frames; reflexivity.
  - intros n r random. unfold ConsensusService.block_election_failed_thread, sleep_s, sleep_ms. frames; reflexivity.
  - intros p. unfold ConsensusService.retrieve_confirmations_thread.
    apply rel_bind; [typeclasses eauto|apply retrieve_confirmations_addressed|].
    intros [[cs block]|]; [|frames]. destruct (match block with Some _ => _ | None => _ end); frames.
  - intros n. unfold BlockService.leader_timeout_thread, sleep_ms. frames; reflexivity.
  - intros n. unfold BlockService.build_timer_thread, sleep_ms. frames; reflexivity.
  - intros fuel n peers. unfold BlockService.alignment_thread.
    apply rel_bind; [typeclasses eauto|apply alignment_loop_addressed|]. frames; reflexivity.
Qed.
End threads.
End steps.
Arguments Proc {A B C T S} _ _ _.
Arguments p_state {A B C T S} _.
Arguments p_mail {A B C T S} _.
Arguments p_done {A B C T S} _.

(** ** Witnesses *)

Module CoreSample.
#[local] Existing Instances Samples.digest Samples.base58 Samples.pcg Samples.ring Samples.block_executable
  Samples.conf_confirmable Samples.conf_eq_dec Samples.tx_transactable Samples.tx_serialize.
#[local] Existing Instance gmap_iter.

Abbreviation score := (core (A := Z) (B := Samples.block) (C := Samples.conf) (T := Samples.tx)).
Abbreviation scomm := (Comm Z Samples.block Samples.conf Samples.tx).

Definition abc : Players.t := Players.Mk ["a"; "b"; "c"] [1; 2; 3].
Definition started : option score := start (Samples.keypair "a") abc Samples.seed_source None [] (10, []).
Definition nothing : score := Core (Proc None [] []) (Proc None [] []) (Proc None [] []) (Proc None [] []) [].
Definition k0 : score := default nothing started.
(** The node tells of a consolidated block, and the block service handles it. *)
Definition consolidated : scomm :=
  MkComm (KMsg (Msg.BlockConsolidated (Samples.blk "b" 7 1 0) [Samples.hash 3] abc)) None.
Definition k1 : score := deliver [Sent BlockService consolidated] k0.
Definition sb : BlockService.t :=
  default (BlockService.Mk 0 None false 0 (Samples.keypair "a") Hashes.default "") (p_state (c_block k1)).
Definition k2 : score :=
  let r := BlockService.step consolidated (World sb [] (20, []) []) in
  deliver (w_out (exec_world r))
    (Core (turned r consolidated (c_block k1)) (c_consensus k1) (c_drand k1) (c_transaction k1) (c_node k1)).

Lemma reachable_k2 : reachable k0 k2.
Proof.
  apply (ReachStep _ k1).
  - apply (ReachStep _ k0); [constructor|]. by apply (StepPost BlockService consolidated k0).
  - apply (StepBlock consolidated [] sb [] (20, []) k1); reflexivity.
Qed.

Lemma started_k0 : start (Samples.keypair "a") abc Samples.seed_source None [] (10, []) = Some k0.
Proof. reflexivity. Qed.

Lemma core_news_agree_witness :
  told (c_consensus k2) = [(Samples.blk "b" 7 1 0, [Samples.hash 3], abc)] /\
  told (c_transaction k2) = [(Samples.blk "b" 7 1 0, [Samples.hash 3], abc)].
Proof.
  destruct (core_news_agree (Samples.keypair "a") abc Samples.seed_source None [] (10, []) k0 k2 started_k0 reachable_k2)
    as [-> ->]. split; reflexivity.
Defined.

(** The news waits on the channel of the consensus service, which is at the height 0. *)
Lemma core_heads_agree_witness :
  exists sc, p_state (c_consensus k2) = Some sc /\ consensus_head sc = (0, Hashes.default) /\
    fold_left advanced (p_mail (c_consensus k2)) (consensus_head sc) = (1, Samples.hash 7).
Proof.
  destruct (p_state (c_consensus k2)) as [sc|] eqn:Ec; [|vm_compute in Ec; discriminate].
  destruct (p_state (c_block k2)) as [s|] eqn:Eb; [|vm_compute in Eb; discriminate].
  exists sc. split; [reflexivity|].
  destruct (core_heads_agree (Samples.keypair "a") abc Samples.seed_source None [] (10, []) k0 k2 s sc
    started_k0 reachable_k2 Eb Ec) as [H _].
  rewrite H. vm_compute in Eb, Ec. injection Eb as <-. injection Ec as <-. split; vm_compute; reflexivity.
Defined.

Lemma core_invariants_witness :
  exists s, p_state (c_transaction k2) = Some s /\ TransactionService.inv s.
Proof.
  destruct (p_state (c_transaction k2)) as [s|] eqn:E; [|vm_compute in E; discriminate].
  exists s. split; [reflexivity|].
  exact (proj1 (core_invariants (Samples.keypair "a") abc Samples.seed_source None [] (10, []) k0 k2
    started_k0 reachable_k2) s E).
Defined.
End CoreSample.
