(* ===== verification/CoreNetwork.v ===== *)
(** * A network of whole cores

    [System] runs the four services of one node, [ConsensusNetwork] the consensus services
    of many.  Here the nodes of a network are whole cores, each with its services and
    channels: what the assumptions of [ConsensusNetwork] say of the messages between the
    services of a node is shown of them, and what is left to assume is what nodes send each
    other and what the WASM services tell. *)

From stdpp Require Import base gmap strings list fin_maps relations.
From S2P Require Import Prelude Exec Twins Hash Crypto CoreModels DRand Samples Messages DRandService.
From S2P Require Import TransactionService ConsensusService BlockService BlockTheorems System.
From S2P Require Import ConsensusSafety ConsensusNetwork.
Open Scope Z_scope.

(** ** A service does not look at what it has sent *)

Section oblivious.
Context `{Hring : Ring} {A B C T : Type} `{HeqC : EqDecision C} `{!Executable B, !Confirmable C}.
Import ConsensusService.

Abbreviation cworld := (world (t (B := B) (C := C)) (Effect A B C T) (Answer A B C T)).
Abbreviation twin p := (twins (S := t (B := B) (C := C)) (E := Effect A B C T) (R := Answer A B C T) eq p p).

Lemma twin_timestamp : twin timestamp.
Proof.
  intros w v (Hs & Ha & Hc). rewrite !timestamp_eq. unfold now, tick, paired, same_effects. cbn. rewrite Hc.
  split_and!; try done. exists []. by rewrite !app_nil_r.
Qed.

Lemma twin_modify f : twin (modify f).
Proof. apply twins_modify. by intros s s' <-. Qed.
Lemma twin_gets {X} (f : t -> X) : twin (gets f).
Proof. apply twins_gets. by intros s s' <-. Qed.
Lemma twin_get {X} (k : t -> handler A B C T t X) : (forall s, twin (k s)) -> twin (get_state ≫= k).
Proof. intros H. apply twins_get_bind. by intros s s' <-. Qed.
Lemma twin_send_msg to m : twin (send_msg to m).
Proof. apply twins_emit. Qed.
Lemma twin_send_res to r : twin (send_res to r).
Proof. apply twins_emit. Qed.
Lemma twin_spawn th : twin (spawn th).
Proof. apply twins_emit. Qed.
Lemma twin_next_answer : twin next_answer.
Proof. apply twins_next_answer. Qed.
#[local] Hint Resolve twin_timestamp twin_modify twin_gets twin_send_msg twin_send_res twin_spawn twin_next_answer : twins.

Ltac twin_step :=
  lazymatch goal with
  | |- twins _ (mbind _ get_state) _ => apply twin_get; intros ?
  | |- twins _ (let _ := _ in _) _ => cbv zeta
  | _ => twins_step
  end.
Ltac twin := repeat twin_step.

Lemma twin_send_req from to r : twin (send_req from to r).
Proof. unfold send_req. twin. Qed.
#[local] Hint Resolve twin_send_req : twins.

Lemma twin_quorum hash n r : twin (verify_block_proposal_quorum hash n r).
Proof. unfold verify_block_proposal_quorum. twin. Qed.
Lemma twin_update cs block : twin (update_proposals cs block).
Proof. unfold update_proposals. twin. Qed.
Lemma twin_vote block r : twin (vote_proposal block r).
Proof. unfold vote_proposal. twin. Qed.
Lemma twin_check_old now ps : twin (check_old_proposals now ps).
Proof. induction ps as [|p ps IH]; cbn [check_old_proposals]; [apply twins_ret|]. unfold check_old_proposal. twin. Qed.
Lemma twin_draw block : twin (draw_new_leader block).
Proof. unfold draw_new_leader. twin. Qed.
#[local] Hint Resolve twin_quorum twin_update twin_vote twin_check_old twin_draw : twins.

Lemma twin_next_round n r : twin (check_next_round_proposals n r).
Proof. unfold check_next_round_proposals. twin. Qed.
#[local] Hint Resolve twin_next_round : twins.

Lemma consensus_step_twin c : twin (step c).
Proof.
  unfold step, dispatch. destruct (kind c) as [m|q].
  - destruct m; cbn [handle_messages]; try apply twins_ret.
    + unfold on_block_confirmation_from_peer. twin.
    + unfold on_block_consolidated, reset_proposals, block_consolidated. twin.
    + unfold on_block_from_peer. twin.
    + unfold on_block_execution_ended. twin.
    + unfold on_check_old_block_proposals, check_old_block_proposals. twin.
    + unfold confirm_build_block_in_place_of_leader. twin.
    + unfold on_block_election_failed, block_election_failed. twin.
    + unfold on_proposal_after_build. twin.
    + unfold on_proposal_from_alignment_block. twin.
    + unfold verify_confirmations_from_peer. twin.
  - destruct (res_chan c); [|apply twins_ret]. unfold handle_requests. twin.
Qed.

(** A turn after what has been sent: the same turn, what it sends added *)
Lemma consensus_step_after (c : Comm A B C T) s ans clk out :
  let r := step c (World s ans clk []) in
  let w' := exec_world (step c (World s ans clk out)) in
  state_after (step c (World s ans clk out)) = state_after r /\ w_out w' = out ++ w_out (exec_world r) /\
  (forall s', state_after r = Some s' -> w_state w' = s').
Proof.
  cbv zeta. destruct (step c (World s ans clk out)) as [[] w|w] eqn:E1, (step c (World s ans clk [])) as [[] v|v] eqn:E2;
    pose proof (consensus_step_twin c (World s ans clk out) (World s ans clk []) (conj eq_refl (conj eq_refl eq_refl))) as H;
    rewrite E1, E2 in H; try done; simpl.
  - destruct H as (_ & (Hs & _) & (es & H1 & H2)). simpl in *. rewrite H1, H2, Hs. split_and!; [done|done|]. by intros s' [= <-].
  - destruct H as (es & H1 & H2). simpl in *. by rewrite H1, H2.
Qed.
End oblivious.

(** ** What the services of a core send *)

Section speech.
Context `{Hdig : Digest} `{Hb58 : Base58} `{Hring : Ring} `{Hpcg : Pcg} {A B C T : Type} `{HcA : Countable A} `{HeqC : EqDecision C}
  `{!Executable B, !Confirmable C, !Transactable T, !Serialize T} `{!ExecutableLaws B, !ConfirmableLaws C}
  `{!HashMapIter Hash} `{!HashMapIter BlockInfo}.

Abbreviation comm := (Comm A B C T).
Implicit Types (c : comm) (e : Effect A B C T) (K : C -> Prop).

(** Mail for the consensus service with no confirmations and no blocks of the chain in it *)
Definition plain c : bool :=
  match kind c with
  | KMsg (Msg.BlockConfirmationFromPeer _ | Msg.BlockConsolidated _ _ _ | Msg.BlockFromPeer _ _ _
      | Msg.ProposalAfterBuild _ _ _ | Msg.ProposalFromAlignmentBlock _ | Msg.VerifyConfirmations _ _) => false
  | _ => true
  end.

(** Effects that neither vote, start a consolidation or ask for an execution, nor tell the
    consensus service of blocks and confirmations *)
Definition idle e : bool :=
  match e with
  | Sent Messages.ConsensusService c => plain c
  | Sent (Messages.TransactionService | NodeInterface)
      (MkComm (KMsg (Msg.CollectBlockTxs _ _ _ | Msg.ExecuteBlock _ _ _)) _) => false
  | Sent NodeInterface (MkComm (KMsg (Msg.PropagateBlockToPeers _ _ _ | Msg.PropagateConfirmationToPeers _
      | Msg.StartBlockConsolidation _ _ _)) _) => false
  | _ => true
  end.

(** The consensus service votes and starts consolidations besides. *)
Definition votes_or_idle e : Prop :=
  match e with
  | Sent NodeInterface (MkComm (KMsg (Msg.PropagateBlockToPeers _ _ _
      | Msg.PropagateConfirmationToPeers _ | Msg.StartBlockConsolidation _ _ _)) _) => True
  | _ => idle e = true
  end.

#[local] Hint Extern 1 (rel _ (send_res _ _)) => apply rel_emit_adds; first [reflexivity | left; reflexivity] : frames.

Section consensus.
Import ConsensusService.
Abbreviation says p := (rel (S := t (B := B) (C := C)) (adds votes_or_idle) p).
#[local] Hint Extern 1 (votes_or_idle _) => first [exact I | reflexivity] : frames.

Lemma update_says cs block : says (update_proposals cs block).
Proof. unfold update_proposals. frames. Qed.
Lemma quorum_says hash n r : says (verify_block_proposal_quorum hash n r).
Proof. unfold verify_block_proposal_quorum. frames. Qed.
Lemma vote_says block r : says (vote_proposal block r).
Proof. unfold vote_proposal. frames. Qed.
#[local] Hint Resolve update_says quorum_says vote_says : frames.

Lemma check_old_says now ps : says (check_old_proposals now ps).
Proof. induction ps as [|p ps IH]; simpl; frames. unfold check_old_proposal. frames. Qed.
Lemma draw_says block : says (draw_new_leader block).
Proof. unfold draw_new_leader. frames. Qed.
Lemma next_round_says n r : says (check_next_round_proposals n r).
Proof. unfold check_next_round_proposals. frames. Qed.
#[local] Hint Resolve check_old_says draw_says next_round_says : frames.

Lemma consensus_step_says (c : comm) : says (step c).
Proof.
  unfold step, dispatch. destruct (kind c) as [m|q]; [|destruct (res_chan c); [unfold handle_requests|]; frames].
  destruct m; simpl; frames.
  - unfold on_block_confirmation_from_peer. frames.
  - unfold on_block_consolidated, reset_proposals, block_consolidated. frames.
  - unfold on_block_from_peer. frames.
  - unfold on_block_execution_ended. frames.
  - unfold on_check_old_block_proposals, check_old_block_proposals. frames.
  - unfold confirm_build_block_in_place_of_leader. frames.
  - unfold on_block_election_failed, block_election_failed. frames.
  - unfold on_proposal_after_build. frames.
  - unfold on_proposal_from_alignment_block. frames.
  - unfold verify_confirmations_from_peer. frames.
Qed.
End consensus.

#[local] Hint Extern 1 (idle _ = true) => reflexivity : frames.

Lemma drand_step_idle c : rel (adds (fun e => idle e = true)) (DRandService.step (A:=A) (B:=B) (C:=C) (T:=T) c).
Proof.
  unfold DRandService.step, dispatch. destruct (kind c) as [m|r]; [destruct m|destruct (res_chan c); [destruct r|]]; simpl; frames.
Qed.

(** The transaction service asks for the execution of the blocks it collects transactions for. *)
Definition executes c e : Prop :=
  idle e = true \/
  match kind c, e with
  | KMsg (Msg.CollectBlockTxs b r _), Sent NodeInterface (MkComm (KMsg (Msg.ExecuteBlock b' r' _)) _) => b' = b /\ r' = r
  | _, _ => False
  end.

Lemma transaction_step_executes c : rel (adds (executes c)) (TransactionService.step c).
Proof.
  assert (Hidle : forall X (p : handler A B C T (TransactionService.t (A := A) (T := T)) X), rel (adds (fun e => idle e = true)) p -> rel (adds (executes c)) p).
  { intros X p Hp w. destruct (Hp w) as (es & He & Hq). exists es. split; [done|].
    apply (Forall_impl _ _ _ Hq). intros e. by left. }
  unfold TransactionService.step, dispatch. destruct (kind c) as [m|r] eqn:Ek.
  2:{ apply Hidle. destruct (res_chan c); [destruct r|]; simpl; frames. }
  assert (Hcheck : rel (S := TransactionService.t (A := A) (T := T)) (R := Answer A B C T) (adds (fun e => idle e = true)) TransactionService.check_whether_to_build_block)
    by (unfold TransactionService.check_whether_to_build_block; frames).
  assert (Hadd : forall entry, rel (R := Answer A B C T) (adds (fun e => idle e = true)) (TransactionService.on_add_tx entry)).
  { intros [[tx sz] att]. unfold TransactionService.on_add_tx, TransactionService.insert_in_pool. frames. }
  destruct m; simpl; try (apply Hidle; solve [frames]).
  - apply Hidle, for_each_adds, Hadd.
  - apply Hidle. unfold TransactionService.on_block_consolidated, TransactionService.remove_from_pool. frames.
  - apply Hidle. unfold TransactionService.on_check_old_txs. frames.
  - unfold TransactionService.on_collect_block_txs. apply rel_bind; [typeclasses eauto|frames|]. intros pool.
    apply rel_bind; [typeclasses eauto| |].
    + intros w. rewrite (TransactionService.collect_txs_eq pool txs_hashes [] w).
      destruct (mapM _ txs_hashes); simpl; reflexivity.
    + intros txs. apply send_msg_adds. unfold executes. rewrite Ek. by right.
Qed.

(** ** What the block service asks for *)

(** A whole block from a peer comes with confirmations that, where they verify, have been cast. *)
Definition answer_ok K (a : Answer A B C T) : Prop :=
  match a with
  | Delivered (Res.GetFullBlock (Some block) _) =>
      answered (fun x => conf_verify x = true -> K x) (fb_confirmations block) (None : option (B * list Hash))
  | _ => True
  end.

Section block.
Import BlockService.
Variable n : Z.
Variable K : C -> Prop.
Abbreviation bworld := (world t (Effect A B C T) (Answer A B C T)).

(** Executions of blocks for the next height, and confirmations of an aligned block *)
Definition asked_next e : Prop :=
  match e with
  | Sent Messages.TransactionService (MkComm (KMsg (Msg.CollectBlockTxs b _ _)) _) => get_height b = n +u64 1
  | Sent Messages.ConsensusService (MkComm (KMsg (Msg.ProposalFromAlignmentBlock cs)) _) =>
      answered K cs (None : option (B * list Hash))
  | _ => idle e = true
  end.

Definition at_n (w : bworld) : Prop := height (w_state w) = n /\ Forall (answer_ok K) (w_answers w).
Definition asks (w w' : bworld) : Prop := at_n w -> at_n w' /\ adds asked_next w w'.

#[local] Instance asks_preorder : PreOrder asks.
Proof.
  split; [intros x Hx; split; [done|reflexivity]|]. intros x y z Hxy Hyz Hx.
  destruct (Hxy Hx) as [Hy A1]. destruct (Hyz Hy) as [Hz A2]. split; [done|by etrans].
Qed.

Lemma asks_modify f : (forall s, height (f s) = height s) -> rel asks (modify f).
Proof. intros Hf w [H1 H2]. split; [split; [|done]; simpl; by rewrite Hf|]. exists []. by rewrite app_nil_r. Qed.

Lemma asks_emit e : asked_next e -> rel asks (emit e).
Proof. intros He w Hw. split; [done|]. exists [e]. split; [done|by repeat constructor]. Qed.

Lemma asks_send_msg to m : asked_next (Sent to (MkComm (KMsg m) None)) -> rel asks (send_msg to m).
Proof. apply asks_emit. Qed.

Lemma asks_timestamp : rel asks timestamp.
Proof. intros w Hw. rewrite timestamp_eq. split; [done|]. exists []. by rewrite app_nil_r. Qed.

Lemma asks_get {X} (k : t -> handler A B C T t X) : (forall s, height s = n -> rel asks (k s)) -> rel asks (get_state ≫= k).
Proof. intros H w Hw. rewrite bind_eq. cbn. by apply (H (w_state w) (proj1 Hw) w). Qed.

Lemma send_req_eq {S} from to req (w : world S (Effect A B C T) (Answer A B C T)) :
  send_req from to req w =
  Ret (match head (w_answers w) with
       | Some (Delivered res) => Ok res
       | Some Disconnected => Err (SendError (MkComm (KReq req) (Some from)))
       | _ => Err RecvTimeoutError
       end)
      (World (w_state w) (tail (w_answers w)) (w_clock w)
         (w_out w ++ match head (w_answers w) with
                     | Some Disconnected => []
                     | _ => [Sent to (MkComm (KReq req) (Some from))]
                     end)).
Proof. destruct w as [s [|[r| |] ans] clk out]; try reflexivity. simpl. by rewrite app_nil_r. Qed.

(** What a request is answered is admissible. *)
Lemma asks_request {X} to req (k : Result (Res.t A B C T) (CommError A B C T) -> handler A B C T t X) :
  (forall res, answer_ok K (Delivered res) -> rel asks (k (Ok res))) -> (forall err, rel asks (k (Err err))) ->
  rel asks (send_req Messages.BlockService to req ≫= k).
Proof.
  intros Hok Herr w. rewrite bind_eq, send_req_eq. set (w1 := World _ _ _ _).
  assert (H1 : asks w w1).
  { intros [Hn Ha]. split; [split; [done|]; destruct Ha; [constructor|done]|].
    eexists. split; [reflexivity|]. destruct (head _) as [[| |]|]; repeat constructor; by destruct to. }
  intros Hw. assert (H2 : asks w1 (exec_world (k (match head (w_answers w) with
      | Some (Delivered res) => Ok res
      | Some Disconnected => Err (SendError (MkComm (KReq req) (Some Messages.BlockService)))
      | _ => Err RecvTimeoutError end) w1))).
  { destruct Hw as [_ Ha]. destruct (w_answers w) as [|[res| |] ans]; try apply Herr.
    apply Hok. by inversion_clear Ha. }
  destruct (H1 Hw) as [Hw1 A1]. destruct (H2 Hw1) as [Hw2 A2]. split; [done|by etrans].
Qed.

Lemma asks_ask {X} to req (k : Result (Res.t A B C T) (CoreError A B C T) -> handler A B C T t X) :
  (forall res, answer_ok K (Delivered res) -> rel asks (k (Ok res))) -> (forall err, rel asks (k (Err err))) ->
  rel asks (ask to req ≫= k).
Proof.
  intros Hok Herr. assert (Heq : forall w, (ask to req ≫= k) w = (send_req Messages.BlockService to req ≫= (fun r =>
    k (match r with Ok res => Ok res | Err err => Err (EComm err) end))) w).
  { intros w. unfold ask. rewrite !bind_eq, !send_req_eq. done. }
  intros w. rewrite Heq. apply asks_request; [exact Hok|]. intros err. apply Herr.
Qed.

Lemma asks_try_ask {X} to req (k : Res.t A B C T -> handler A B C T t (Result X (CoreError A B C T))) :
  (forall res, answer_ok K (Delivered res) -> rel asks (k res)) -> rel asks (try_bind (ask to req) k).
Proof. intros Hok. apply asks_ask; [exact Hok|]. intros err. apply rel_ret. typeclasses eauto. Qed.

#[local] Hint Extern 1 (rel asks (modify _)) => apply asks_modify; reflexivity : frames.
#[local] Hint Extern 1 (rel asks (send_msg _ _)) => apply asks_send_msg; reflexivity : frames.
#[local] Hint Extern 1 (rel asks (spawn _)) => apply asks_emit; reflexivity : frames.
#[local] Hint Resolve asks_timestamp : frames.

Ltac ask_step :=
  lazymatch goal with
  | |- rel asks (mbind _ get_state) => apply asks_get; intros ? ?
  | |- rel asks (mbind _ (send_req _ _ _)) => apply asks_request; intros; cbv beta iota
  | |- rel asks (mbind _ (ask _ _)) => apply asks_ask; intros; cbv beta iota
  | |- rel asks (try_bind (ask _ _) _) => apply asks_try_ask; intros ? ?
  | |- rel asks (let _ := _ in _) => cbv zeta
  | _ => frame_step
  end.
Ltac asking := repeat ask_step.

Lemma collect_missing_asks fuel k hashes : rel asks (collect_missing_txs fuel k hashes).
Proof. revert k. induction fuel as [|fuel IH]; intros k; cbn [collect_missing_txs]; asking; apply IH. Qed.

Lemma begin_execution_asks block hashes : get_height block = n +u64 1 -> rel asks (begin_execution block hashes).
Proof.
  intros Hb. pose proof (collect_missing_asks attempts_fuel 0) as Hc. unfold begin_execution. asking; try apply Hc.
  by apply asks_send_msg.
Qed.

Lemma build_block_asks : rel asks (build_block (A := A) (C := C) (T := T)).
Proof.
  unfold build_block. asking. apply begin_execution_asks. rewrite block_new_height. congruence.
Qed.
#[local] Hint Resolve build_block_asks : frames.

Lemma verify_if_leader_asks m : rel asks (verify_if_leader_and_build (A := A) (C := C) (T := T) m).
Proof. unfold verify_if_leader_and_build. asking. Qed.
#[local] Hint Resolve verify_if_leader_asks : frames.

Lemma verify_ext_block_asks block hashes cs : rel asks (verify_ext_block (A := A) (C := C) (T := T) block hashes cs).
Proof.
  unfold verify_ext_block, actual_players. destruct (negb _); [asking|]. destruct (get_builder_id block); [|asking].
  apply asks_get. intros st Hst. destruct (get_height block =? _) eqn:E; cbn [negb]; [|asking].
  apply Z.eqb_eq in E. rewrite Hst in E. pose proof (begin_execution_asks block hashes E). asking; done.
Qed.

Lemma ask_neighbors_asks neighbors candidates : rel asks (ask_neighbors (A := A) (C := C) (T := T) neighbors candidates).
Proof. revert candidates. induction neighbors as [|x l IH]; intros cs; cbn [ask_neighbors]; asking; apply IH. Qed.
#[local] Hint Resolve ask_neighbors_asks : frames.

Lemma best_last_block_asks : rel asks (best_last_block (A := A) (C := C) (T := T)).
Proof. unfold best_last_block. asking. Qed.
#[local] Hint Resolve best_last_block_asks : frames.

Lemma align_asks : rel asks (align (A := A) (C := C) (T := T)).
Proof. unfold align, spawn_alignment_thread. asking. Qed.
#[local] Hint Resolve align_asks : frames.

Lemma retrieve_asks fuel k peers : rel asks (retrieve_alignment_block (A := A) (B := B) (C := C) (T := T) fuel k peers).
Proof.
  revert k. induction fuel as [|fuel IH]; intros k; cbn [retrieve_alignment_block]; [asking|].
  destruct (_ <? _); [asking|]. apply asks_get. intros st Hst. apply asks_request; [|intros; apply IH].
  intros res Hres. destruct res as [| | |[block|] from| | | | | | |]; try apply IH.
  destruct (block_verify _ && forallb _ _) eqn:E; [|asking]. apply andb_prop in E as [_ E].
  apply rel_bind; [typeclasses eauto| |intros _].
  - apply asks_send_msg. destruct Hres as (Hn & hash & m & r & Hcs & _). split; [done|]. exists hash, m, r. split; [|done].
    rewrite forallb_elem in E. rewrite Forall_forall in Hcs |- *. intros x Hx. destruct (Hcs x Hx). auto.
  - pose proof verify_ext_block_asks. asking; done.
Qed.

Lemma block_step_asks (c : comm) : is_news c = false -> rel asks (step c).
Proof.
  intros Hn. unfold step, dispatch. destruct c as [[m|r] chan]; cbn [kind res_chan]; [|destruct chan; asking].
  pose proof verify_ext_block_asks. pose proof (retrieve_asks attempts_fuel 0).
  destruct m; try discriminate; simpl; asking; try done.
  - unfold on_build_block. asking.
  - unfold on_build_block_in_place_of_leader. asking.
  - unfold on_build_block_timeout. asking.
  - unfold on_height_from_peer. asking.
  - unfold on_refresh_round. asking.
  - unfold on_retrieve_block. asking.
  - unfold on_start_timer_to_build_block. asking.
Qed.
End block.

(** ** Blocks in order

    When the chain grows and nothing above the next block is voted, no vote is forgotten. *)
Section order.
Import ConsensusService.
Abbreviation cstate := (t (B := B) (C := C)).
Abbreviation cworld := (world cstate (Effect A B C T) (Answer A B C T)).

Definition votes_low (s : cstate) : Prop :=
  is_u64 (height s) /\ Forall (fun v => fst v <= height s + 1) (proposal_exit_poll s).

Definition comes_in_order (n : Z) c : Prop :=
  match kind c with
  | KMsg (Msg.BlockConsolidated block _ _) => is_u64 (get_height block) /\ n < get_height block
  | KMsg (Msg.ProposalAfterBuild block _ _) => get_height block <= n + 1
  | _ => True
  end.

Abbreviation low := (rel (keeps (E := Effect A B C T) (R := Answer A B C T) votes_low)).

Lemma low_proj {X} (p : handler A B C T t X) :
  rel (same_proj (fun s => (height s, proposal_exit_poll s))) p -> low p.
Proof. intros H w Hw. specialize (H w). unfold same_proj in H. injection H as H1 H2. unfold votes_low. by rewrite H1, H2. Qed.

Lemma next_low n : is_u64 n -> n +u64 1 <= n + 1.
Proof. unfold is_u64, u64_add, u64_wrap, u64_max. intros Hn. apply Z.mod_le; lia. Qed.

Lemma vote_low block r (w : cworld) :
  get_height block <= height (w_state w) + 1 -> votes_low (w_state w) ->
  votes_low (w_state (exec_world (vote_proposal block r w))).
Proof.
  intros Hb [Hn Hp]. unfold vote_proposal. rewrite bind_eq, modify_eq, bind_eq. simpl. split; [done|]. simpl.
  apply Forall_app. split; [done|]. by constructor.
Qed.

Lemma should_vote_next (s : cstate) block hs r :
  should_player_vote s (Some (block, hs)) r = true -> get_height block = height s +u64 1.
Proof.
  unfold should_player_vote. intros H. repeat (case_match; try discriminate).
  by match goal with H : negb (get_height block =? _) = false |- _ => apply negb_false_iff, Z.eqb_eq in H end.
Qed.

Abbreviation kept p := (rel (same_proj (S := cstate) (E := Effect A B C T) (R := Answer A B C T) (fun s => (height s, proposal_exit_poll s))) p).

Lemma kept_update cs block : kept (update_proposals cs block).
Proof. by apply update_proposals_frame. Qed.
Lemma kept_quorum hash n r : kept (verify_block_proposal_quorum hash n r).
Proof. by apply verify_block_proposal_quorum_frame. Qed.
Lemma kept_draw block : kept (draw_new_leader block).
Proof. by apply draw_new_leader_frame. Qed.
Lemma kept_check_old : kept check_old_block_proposals.
Proof. by apply check_old_block_proposals_frame. Qed.
#[local] Hint Resolve kept_update kept_quorum kept_draw kept_check_old block_election_failed_frame
  block_consolidated_frame handle_requests_frame confirm_build_frame : frames.
#[local] Hint Extern 1 (kept (modify _)) => apply rel_modify_proj; intros; reflexivity : frames.

Lemma execution_ended_low block hs : low (on_block_execution_ended block hs).
Proof.
  intros w Hw. unfold on_block_execution_ended. rewrite bind_eq. cbn [get_state].
  destruct (find_proposal _ _ _ _) as [p|]; rewrite bind_eq; [|done]. cbn [expect mret M_ret]. rewrite bind_eq.
  match goal with |- context [if should_player_vote ?a ?b ?r then ?x else ?y] =>
    set (vote := if should_player_vote a b r then x else y);
    assert (Hv : votes_low (w_state (exec_world (vote w)))) end.
  { subst vote. destruct (should_player_vote _ _ _) eqn:Ev; [|done]. rewrite bind_eq.
    pose proof (vote_low block (actual_round (w_state w)) w) as Hl.
    rewrite (should_vote_next _ _ _ _ Ev) in Hl. specialize (Hl (next_low _ (proj1 Hw)) Hw).
    by destruct (vote_proposal block (actual_round (w_state w)) w). }
  destruct (vote w) as [cs w1|w1]; [|done]. simpl in Hv. revert Hv. apply low_proj. frames.
Qed.

Lemma next_round_low n r : low (check_next_round_proposals n r).
Proof.
  intros w Hw. unfold check_next_round_proposals. rewrite bind_eq. cbn [get_state].
  destruct (find_round n r (block_proposals (w_state w))) as [bp found]. rewrite bind_eq, modify_eq.
  set (w1 := upd _ w). assert (Hw1 : votes_low (w_state w1)) by done. clearbody w1. clear Hw.
  destruct found as [p|]; [|done]. destruct (p_block p) as [[block hs]|]; [|done].
  rewrite bind_eq. cbn [get_state]. rewrite bind_eq. unfold when at 1. cbn [fst].
  assert (Hrest : low (_ ← verify_block_proposal_quorum (get_hash block) n r; mret true)) by (apply low_proj; frames).
  destruct (should_player_vote _ _ _) eqn:Ev; [|by apply Hrest].
  rewrite bind_eq. pose proof (vote_low block r w1) as Hl.
  rewrite (should_vote_next _ _ _ _ Ev) in Hl. specialize (Hl (next_low _ (proj1 Hw1)) Hw1).
  destruct (vote_proposal block r w1) as [c w2|w2]; [|done]. simpl in Hl.
  assert (Hu : votes_low (w_state (exec_world (update_proposals [c] (Some (block, hs)) w2)))) by (revert Hl; apply low_proj; frames).
  destruct (update_proposals [c] (Some (block, hs)) w2) as [[] w3|w3]; [by apply Hrest|done].
Qed.

Lemma election_failed_low n r : low (on_block_election_failed (A := A) (T := T) n r).
Proof.
  pose proof next_round_low. unfold on_block_election_failed. frames; try (apply low_proj; frames; done).
Qed.

Lemma after_build_low block r hs (w : cworld) :
  get_height block <= height (w_state w) + 1 -> votes_low (w_state w) ->
  votes_low (w_state (exec_world (on_proposal_after_build (T := T) block r hs w))).
Proof.
  intros Hb [Hn Hp]. unfold on_proposal_after_build. rewrite bind_eq. cbn [get_state]. unfold when at 1.
  destruct (negb _); [|done]. rewrite bind_eq, modify_eq. set (w1 := upd _ w).
  assert (Hw1 : votes_low (w_state w1)).
  { split; [done|]. simpl. apply Forall_app. split; [done|]. constructor; [|constructor]. simpl. by rewrite block_sign_height. }
  clearbody w1. revert Hw1.
  match goal with |- _ -> votes_low (w_state (exec_world (?m w1))) => assert (Hm : low m) by (apply low_proj; frames; done) end.
  apply Hm.
Qed.

Lemma consolidated_low block ps (w : cworld) :
  is_u64 (get_height block) -> height (w_state w) < get_height block -> votes_low (w_state w) ->
  votes_low (w_state (exec_world (on_block_consolidated (A := A) (T := T) block ps w))).
Proof.
  intros Hu Hlt [Hn Hp]. unfold on_block_consolidated. rewrite bind_eq, modify_eq, bind_eq, modify_eq, bind_eq.
  set (w1 := upd _ (upd _ w)).
  assert (H2 : exists w2, reset_proposals (get_hash block) (get_height block) w1 = Ret tt w2 /\ votes_low (w_state w2)).
  { assert (Hf : Forall (fun v => fst v <= get_height block + 1) (proposal_exit_poll (w_state w))).
    { apply (Forall_impl _ _ _ Hp). simpl. intros v. lia. }
    unfold reset_proposals. rewrite bind_eq, modify_eq, bind_eq, modify_eq, bind_eq, modify_eq, bind_eq.
    cbn [get_state]. rewrite bind_eq. unfold when.
    destruct (is_player _); (eexists; split; [reflexivity|]; split; [done|]); [by apply Forall_filter_list|done]. }
  destruct H2 as (w2 & -> & H2). revert H2.
  match goal with |- _ -> votes_low (w_state (exec_world (?m w2))) => assert (Hm : low m) by (apply low_proj; frames; done) end.
  apply Hm.
Qed.

Lemma consensus_step_low c (w : cworld) :
  comes_in_order (height (w_state w)) c -> votes_low (w_state w) ->
  votes_low (w_state (exec_world (step c w))) /\ no_rollback_step c w.
Proof.
  intros Ho Hw. unfold comes_in_order, no_rollback_step, step, dispatch in *. destruct (kind c) as [m|q].
  2:{ split; [|done]. destruct (res_chan c); [|done]. revert Hw. apply low_proj. frames. }
  split; [|destruct m; try done; destruct Ho as [_ Ho], Hw as [_ Hp]; apply (Forall_impl _ _ _ Hp); intros v; cbv beta; lia].
  destruct m; try exact Hw; simpl.
  - revert Hw. apply low_proj. unfold on_block_confirmation_from_peer. frames; done.
  - destruct Ho. by apply consolidated_low.
  - revert Hw. apply low_proj. unfold on_block_from_peer. frames; done.
  - by apply execution_ended_low.
  - revert Hw. apply low_proj. unfold on_check_old_block_proposals. frames; done.
  - revert Hw. apply low_proj. frames; done.
  - revert Hw. apply election_failed_low.
  - by apply after_build_low.
  - revert Hw. apply low_proj. unfold on_proposal_from_alignment_block. frames; done.
  - revert Hw. apply low_proj. unfold verify_confirmations_from_peer. frames; done.
Qed.
End order.

(** ** A node of the network *)

Abbreviation core := (core (A := A) (B := B) (C := C) (T := T)).
Abbreviation cworld := (world (ConsensusService.t (B := B) (C := C)) (Effect A B C T) (Answer A B C T)).
Implicit Types (k : core) (w : cworld) (ks : list core) (ws : list cworld).

(** The players while the chain has a height, the same on every node *)
Variable players_at : Z -> list string.
Abbreviation admissible := (admissible players_at).

(** What the core has told the node *)
Definition told_node k : list (Effect A B C T) := map (Sent NodeInterface) (c_node k).
Definition cast_in_cores ks (x : C) : Prop := exists k, k ∈ ks /\ x ∈ casts (told_node k).

(** The height of the block whose execution a communication asks for *)
Definition asked_height c : option Z :=
  match kind c with
  | KMsg (Msg.CollectBlockTxs b _ _ | Msg.ExecuteBlock b _ _) => Some (get_height b)
  | _ => None
  end.

(** A consolidated block goes above those the block service has or will have. *)
Definition above k (n : Z) : Prop :=
  (forall s, p_state (c_block k) = Some s -> BlockService.height s < n) /\
  Forall (fun c => forall b hs ps, news c = Some (b, hs, ps) -> get_height b < n) (p_mail (c_block k)).

(** What the node and its peers may post to a core: confirmations that have been cast; blocks
    the node has built at a height it was asked to execute; consolidated blocks, in order,
    with the players of their height. The core alone talks to the node, and collects the
    transactions of a block. *)
Definition may_post K k (to : Service) c : Prop :=
  match to with
  | NodeInterface => False
  | Messages.TransactionService => asked_height c = None
  | Messages.ConsensusService =>
      admissible K c /\
      match kind c with
      | KMsg (Msg.ProposalAfterBuild b _ _) => exists c', c' ∈ c_node k /\ asked_height c' = Some (get_height b)
      | _ => True
      end
  | Messages.BlockService =>
      match kind c with
      | KMsg (Msg.BlockConsolidated b _ _) => admissible K c /\ above k (get_height b)
      | _ => True
      end
  | Messages.DRandService => True
  end.

(** A step of a core in the network: as in [core_step], with what is posted and the whole
    blocks peers answer with restricted as above *)
Inductive node_step K k : core -> Prop :=
| NodePosts to c : postable to c -> may_post K k to c -> node_step K k (deliver [Sent to c] k)
| NodeBlock c mail s ans clk :
    p_mail (c_block k) = c :: mail -> p_state (c_block k) = Some s -> Forall (answer_ok K) ans ->
    let r := BlockService.step c (World s ans clk []) in
    node_step K k (deliver (w_out (exec_world r))
      (Core (turned r c (c_block k)) (c_consensus k) (c_drand k) (c_transaction k) (c_node k)))
| NodeConsensus c mail s ans clk :
    p_mail (c_consensus k) = c :: mail -> p_state (c_consensus k) = Some s ->
    let r := ConsensusService.step c (World s ans clk []) in
    node_step K k (deliver (w_out (exec_world r))
      (Core (c_block k) (turned r c (c_consensus k)) (c_drand k) (c_transaction k) (c_node k)))
| NodeDRand c mail s ans clk :
    p_mail (c_drand k) = c :: mail -> p_state (c_drand k) = Some s ->
    let r := DRandService.step c (World s ans clk []) in
    node_step K k (deliver (w_out (exec_world r))
      (Core (c_block k) (c_consensus k) (turned r c (c_drand k)) (c_transaction k) (c_node k)))
| NodeTransaction c mail s ans clk :
    p_mail (c_transaction k) = c :: mail -> p_state (c_transaction k) = Some s ->
    let r := TransactionService.step c (World s ans clk []) in
    node_step K k (deliver (w_out (exec_world r))
      (Core (c_block k) (c_consensus k) (c_drand k) (turned r c (c_transaction k)) (c_node k))).

Lemma node_step_core K k k' : node_step K k k' -> core_step k k'.
Proof. intros []; by econstructor. Qed.

(** ** The invariant of a node *)

Definition height_after (n : Z) c : Z := match news c with Some (b, _, _) => get_height b | None => n end.
Fixpoint in_order (n : Z) (mail : list comm) : Prop :=
  match mail with [] => True | c :: mail => comes_in_order n c /\ in_order (height_after n c) mail end.

(** [n] is the height the block service has told, [w] what the consensus service has done. *)
Record node_ok K (n : Z) k w : Prop := {
  n_height : is_u64 n;
  n_block : forall s, p_state (c_block k) = Some s ->
    BlockService.height s = n /\ in_order n (List.filter is_news (p_mail (c_block k)));
  n_news : Forall (fun c => is_news c = true -> admissible K c) (p_mail (c_block k));
  n_consensus : forall s, p_state (c_consensus k) = Some s ->
    w_state w = s /\ votes_low s /\ in_order (ConsensusService.height s) (p_mail (c_consensus k)) /\
    fold_left height_after (p_mail (c_consensus k)) (ConsensusService.height s) = n;
  n_mail : Forall (admissible K) (p_mail (c_consensus k));
  n_asked : Forall (fun c => forall m, asked_height c = Some m -> m <= n + 1) (p_mail (c_transaction k) ++ c_node k);
  n_casts : casts (w_out w) = casts (told_node k);
  n_started : consolidations (w_out w) = consolidations (told_node k)
}.

Lemma in_order_app n l l' : in_order n (l ++ l') <-> in_order n l /\ in_order (fold_left height_after l n) l'.
Proof. revert n. induction l as [|c l IH]; intros n; simpl; [tauto|]. rewrite IH. tauto. Qed.

Lemma height_after_other n c : is_news c = false -> height_after n c = n.
Proof. intros H. unfold height_after. by rewrite news_none. Qed.

Lemma quiet_in_order n l :
  Forall (fun c => is_news c = false /\ comes_in_order n c) l -> in_order n l /\ fold_left height_after l n = n.
Proof.
  induction 1 as [|c l [Hn Ho] _ [IH1 IH2]]; simpl; [done|]. by rewrite height_after_other.
Qed.

(** ** Delivering what a service sends *)

Definition harmless K (n : Z) e : Prop :=
  match e with
  | Sent Messages.ConsensusService c => is_news c = false /\ admissible K c /\ comes_in_order n c
  | Sent (Messages.TransactionService | NodeInterface) c => forall m, asked_height c = Some m -> m <= n + 1
  | Sent Messages.BlockService c => is_news c = false
  | _ => True
  end.

Lemma mail_to_elem to es c : c ∈ mail_to to es -> Sent to c ∈ es.
Proof.
  induction es as [|e es IH]; simpl; [by intros ?%not_elem_of_nil|]. intros Hc.
  destruct e as [to' c'| | | |]; try (right; by apply IH). case_bool_decide as Hto; [|right; by apply IH].
  apply elem_of_cons in Hc as [->|Hc]; [subst; left|right; by apply IH].
Qed.

Lemma mail_to_Forall to es (P : comm -> Prop) (Q : Effect A B C T -> Prop) :
  Forall Q es -> (forall c, Q (Sent to c) -> P c) -> Forall P (mail_to to es).
Proof. rewrite !Forall_forall. intros HQ HP c Hc. by apply HP, HQ, mail_to_elem. Qed.

Lemma omap_told_mail {X} (f : Effect A B C T -> option X) es :
  (forall e, match e with Sent NodeInterface _ => True | _ => f e = None end) ->
  omap f (map (Sent NodeInterface) (mail_to NodeInterface es)) = omap f es.
Proof.
  intros Hf. induction es as [|e es IH]; [done|]. pose proof (Hf e) as He.
  change (e :: es) with ([e] ++ es). rewrite omap_app, <- IH. clear IH.
  destruct e as [to c| | | |]; cbn [mail_to app]; [|simpl; by rewrite He..].
  case_bool_decide as Hto; [subst; cbn [map]; apply (omap_app f [_])|]. destruct to; try done; simpl; by rewrite He.
Qed.

Lemma casts_told (es : list (Effect A B C T)) : casts (map (Sent NodeInterface) (mail_to NodeInterface es)) = casts es.
Proof. apply omap_told_mail. by intros [[] | | | |]. Qed.
Lemma started_told (es : list (Effect A B C T)) : consolidations (map (Sent NodeInterface) (mail_to NodeInterface es)) = consolidations es.
Proof. apply omap_told_mail. by intros [[] | | | |]. Qed.

Lemma filter_none {X} (q : X -> bool) l : Forall (fun x => q x = false) l -> List.filter q l = [].
Proof. induction 1 as [|x l Hx _ IH]; simpl; [done|by rewrite Hx]. Qed.

Lemma deliver_ok K n es k w w' :
  node_ok K n k w -> Forall (harmless K n) es -> w_state w' = w_state w ->
  casts (w_out w') = casts (w_out w) ++ casts es ->
  consolidations (w_out w') = consolidations (w_out w) ++ consolidations es ->
  node_ok K n (deliver es k) w'.
Proof.
  intros [H1 H2 H3 H4 H5 H6 H7 H8] Hes Hw Hc Hs.
  assert (Hb : Forall (fun c => is_news c = false) (mail_to Messages.BlockService es)) by by eapply mail_to_Forall.
  assert (Hm : Forall (fun c => is_news c = false /\ admissible K c /\ comes_in_order n c) (mail_to Messages.ConsensusService es))
    by by eapply mail_to_Forall.
  split; simpl.
  - done.
  - intros s Hs'. destruct (H2 s Hs') as [? Ho]. split; [done|]. rewrite List.filter_app, (filter_none _ _ Hb). by rewrite app_nil_r.
  - apply Forall_app. split; [done|]. apply (Forall_impl _ _ _ Hb). intros c. congruence.
  - intros s Hs'. destruct (H4 s Hs') as (<- & Hl & Ho & Hn). rewrite in_order_app, fold_left_app, Hn.
    destruct (quiet_in_order n (mail_to Messages.ConsensusService es)) as [Q1 Q2].
    { apply (Forall_impl _ _ _ Hm). tauto. }
    by rewrite Q2.
  - apply Forall_app. split; [done|]. apply (Forall_impl _ _ _ Hm). tauto.
  - rewrite Forall_app in H6. destruct H6 as [H6 H6']. repeat (apply Forall_app; split); try done; by eapply mail_to_Forall.
  - unfold told_node in *. simpl. rewrite map_app, casts_app, casts_told. by rewrite Hc, H7.
  - unfold told_node in *. simpl. rewrite map_app, consolidations_app, started_told. by rewrite Hs, H8.
Qed.

(** Idle effects are delivered so. *)
Lemma idle_harmless K n e : idle e = true -> no_news e = true -> harmless K n e.
Proof.
  intros Hi Hn. destruct e as [[] [[m|r] chan]| | | |]; try done; try (by repeat split); destruct m; try done; by repeat split.
Qed.

Lemma idle_silent e : idle e = true -> cast_of e = None /\ consolidation_of e = None.
Proof. intros Hi. destruct e as [[] [[m|r] chan]| | | |]; try done; by destruct m. Qed.

Lemma silent_omap {X} (f : Effect A B C T -> option X) es : Forall (fun e => f e = None) es -> omap f es = [].
Proof. induction 1 as [|e es He _ IH]; [done|]. simpl. by rewrite He. Qed.

(** A turn of a service whose effects are silent *)
Lemma deliver_silent K n es k w :
  node_ok K n k w -> Forall (harmless K n) es -> Forall (fun e => cast_of e = None /\ consolidation_of e = None) es ->
  node_ok K n (deliver es k) w.
Proof.
  intros Hk Hes Hs. apply (deliver_ok K n es k w w Hk Hes); [done|..].
  - unfold casts at 3. rewrite silent_omap, app_nil_r; [done|]. apply (Forall_impl _ _ _ Hs). tauto.
  - unfold consolidations at 3. rewrite silent_omap, app_nil_r; [done|]. apply (Forall_impl _ _ _ Hs). tauto.
Qed.

(** ** What is posted *)

Lemma fold_above n m l :
  n < m -> Forall (fun c => forall b hs ps, news c = Some (b, hs, ps) -> get_height b < m) l ->
  fold_left height_after l n < m.
Proof.
  intros Hn Hl. revert n Hn. induction Hl as [|c l Hc _ IH]; intros n Hn; simpl; [done|]. apply IH.
  unfold height_after. destruct (news c) as [[[b hs] ps]|]; [by eapply Hc|done].
Qed.

Lemma post_news_ok K n c k w :
  node_ok K n k w -> is_news c = true -> may_post K k Messages.BlockService c ->
  node_ok K n (deliver [Sent Messages.BlockService c] k) w.
Proof.
  intros [H1 H2 H3 H4 H5 H6 H7 H8] Hn Hp. destruct c as [[m|r] chan]; [|done]. destruct m; try done.
  destruct Hp as [Ha [Hab1 Hab2]]. cbn in Ha. split; cbn [deliver c_block c_consensus c_transaction c_node receive p_state p_mail mail_to];
    rewrite ?bool_decide_true by done; rewrite ?(bool_decide_false (Messages.BlockService = _)), ?app_nil_r by done; try done.
  - intros s Hs. destruct (H2 s Hs) as [<- Ho]. split; [done|]. rewrite List.filter_app. apply in_order_app.
    split; [done|]. split; [|done]. split; [apply Ha|]. apply fold_above; [by apply Hab1|].
    rewrite Forall_forall in Hab2 |- *. intros c [Hc _]%elem_of_filter_list. by apply Hab2.
  - apply Forall_app. split; [done|]. by constructor.
  - unfold told_node. simpl. rewrite ?(bool_decide_false (Messages.BlockService = _)), app_nil_r; done.
  - unfold told_node. simpl. rewrite ?(bool_decide_false (Messages.BlockService = _)), app_nil_r; done.
Qed.

Lemma post_ok K n to c k w :
  node_ok K n k w -> postable to c -> may_post K k to c -> node_ok K n (deliver [Sent to c] k) w.
Proof.
  intros Hk Hp Hm. destruct (is_news c) eqn:En.
  { rewrite (Hp En) in *. by apply post_news_ok. }
  apply deliver_silent; [done| |by constructor; [destruct to|]]. constructor; [|done]. destruct to; cbn in Hm |- *; try done.
  - destruct Hm as [Ha Hb]. split_and!; [done|done|]. unfold comes_in_order. destruct c as [[m|r] chan]; cbn in *; [|done].
    destruct m; try done. destruct Hb as (c' & Hc' & Hh). pose proof (n_asked _ _ _ _ Hk) as Hasked.
    rewrite Forall_forall in Hasked. apply (Hasked c'); [|done]. apply elem_of_app. by right.
  - intros m. by rewrite Hm.
Qed.

(** ** What the services do in their turn *)

Lemma idle_effects K n es :
  Forall (fun e => idle e = true) es -> Forall (fun e => no_news e = true) es ->
  Forall (harmless K n) es /\ Forall (fun e => cast_of e = None /\ consolidation_of e = None) es.
Proof.
  rewrite !Forall_forall. intros Hi Hn. split; intros e He; [by apply idle_harmless; auto|by apply idle_silent; auto].
Qed.

Lemma drand_turn_ok K n c mail s ans clk k w :
  p_mail (c_drand k) = c :: mail -> node_ok K n k w ->
  let r := DRandService.step c (World s ans clk []) in
  node_ok K n (deliver (w_out (exec_world r))
    (Core (c_block k) (c_consensus k) (turned r c (c_drand k)) (c_transaction k) (c_node k))) w.
Proof.
  intros Hm Hk r. destruct (idle_effects K n (w_out (exec_world r))) as [Hh Hs].
  - apply adds_Forall, drand_step_idle.
  - eapply proper_no_news, adds_Forall, drand_step_proper.
  - apply deliver_silent; [by destruct Hk|done|done].
Qed.

Lemma transaction_turn_ok K n c mail s ans clk k w :
  p_mail (c_transaction k) = c :: mail -> node_ok K n k w ->
  let r := TransactionService.step c (World s ans clk []) in
  node_ok K n (deliver (w_out (exec_world r))
    (Core (c_block k) (c_consensus k) (c_drand k) (turned r c (c_transaction k)) (c_node k))) w.
Proof.
  intros Hm Hk r.
  assert (He : Forall (executes c) (w_out (exec_world r))) by apply adds_Forall, transaction_step_executes.
  assert (Hn : Forall (fun e => no_news e = true) (w_out (exec_world r)))
    by (eapply proper_no_news, adds_Forall, transaction_step_proper).
  pose proof (n_asked _ _ _ _ Hk) as Ha. rewrite Hm in Ha. simpl in Ha. apply Forall_cons in Ha as [Hc Ha].
  rewrite Forall_forall in He, Hn. apply deliver_silent.
  - destruct Hk. split; try done. simpl. by rewrite Hm.
  - apply Forall_forall. intros e Hin. destruct (He e Hin) as [Hi|Hx]; [by apply idle_harmless; auto|].
    unfold asked_height in Hc. destruct (kind c) as [[]|]; try done.
    destruct e as [[] [[[]|] ?]| | | |]; try done. destruct Hx as [-> ->]. intros m Hm'. by apply Hc.
  - apply Forall_forall. intros e Hin. destruct (He e Hin) as [Hi|Hx]; [by apply idle_silent|].
    destruct (kind c) as [[]|]; try done. by destruct e as [[] [[[]|] ?]| | | |].
Qed.

Lemma block_news_turn_ok K n c mail s ans clk k w :
  is_news c = true -> p_mail (c_block k) = c :: mail -> p_state (c_block k) = Some s -> node_ok K n k w ->
  let r := BlockService.step c (World s ans clk []) in
  exists n', node_ok K n' (deliver (w_out (exec_world r))
    (Core (turned r c (c_block k)) (c_consensus k) (c_drand k) (c_transaction k) (c_node k))) w.
Proof.
  intros Hn Hm Hs [H1 H2 H3 H4 H5 H6 H7 H8] r. destruct c as [[m|q] chan]; [|done]. destruct m; try done.
  destruct (H2 s Hs) as [Hh Ho]. rewrite Hm in Ho, H3. simpl in Ho. destruct Ho as [[Hu Hlt] Ho].
  apply Forall_cons in H3 as [Ha H3]. specialize (Ha eq_refl).
  assert (Hr : exists s', state_after r = Some s' /\ BlockService.height s' = get_height b /\ forall to,
    mail_to to (w_out (exec_world r)) =
    mail_to to [Sent Messages.ConsensusService (MkComm (KMsg (Msg.BlockConsolidated b txs_hashes players)) None);
                Sent Messages.TransactionService (MkComm (KMsg (Msg.BlockConsolidated b txs_hashes players)) None)]).
  { unfold r. rewrite block_step_news. eexists. split; [reflexivity|]. split; [done|]. intros to.
    cbn [exec_world outs w_out app]. by destruct (BlockService.alignment_sender s). }
  destruct Hr as (s' & Hs' & Hh' & Hmail). exists (get_height b).
  split; cbn [deliver c_block c_consensus c_transaction c_node receive p_state p_mail turned]; rewrite ?Hmail, ?Hs', ?Hm; cbn [tail mail_to];
    rewrite ?bool_decide_true by done;
    rewrite ?(bool_decide_false (Messages.ConsensusService = _)), ?(bool_decide_false (Messages.TransactionService = _)), ?app_nil_r by done.
  - done.
  - intros s0 [= <-]. split; [done|]. exact Ho.
  - done.
  - intros sc Hsc. destruct (H4 sc Hsc) as (? & ? & Hoc & Hn'). split_and!; [done|done| |].
    + apply in_order_app. split; [done|]. rewrite Hn'. split; [|done]. by split.
    + by rewrite fold_left_app, Hn'.
  - apply Forall_app. split; [done|]. constructor; [exact Ha|done].
  - apply Forall_app in H6 as [H6 H6']. repeat (apply Forall_app; split); [..|].
    + apply (Forall_impl _ _ _ H6). intros c Hc m Hm'. specialize (Hc m Hm'). lia.
    + by constructor.
    + apply (Forall_impl _ _ _ H6'). intros c Hc m Hm'. specialize (Hc m Hm'). lia.
  - unfold told_node in *. cbn. rewrite Hmail. cbn. by rewrite app_nil_r.
  - unfold told_node in *. cbn. rewrite Hmail. cbn. by rewrite app_nil_r.
Qed.

Lemma block_turn_ok K n c mail s ans clk k w :
  p_mail (c_block k) = c :: mail -> p_state (c_block k) = Some s -> Forall (answer_ok K) ans -> node_ok K n k w ->
  let r := BlockService.step c (World s ans clk []) in
  exists n', node_ok K n' (deliver (w_out (exec_world r))
    (Core (turned r c (c_block k)) (c_consensus k) (c_drand k) (c_transaction k) (c_node k))) w.
Proof.
  intros Hm Hs Hans Hk r. destruct (is_news c) eqn:En; [by apply (block_news_turn_ok K n c mail)|]. exists n.
  destruct (n_block _ _ _ _ Hk s Hs) as [Hh Ho].
  destruct (block_step_asks n K c En (World s ans clk [])) as [_ (es & Hes & Hq)]; [by split|]. fold r in Hes. simpl in Hes.
  assert (Hn : Forall (fun e => no_news e = true) (w_out (exec_world r)))
    by (eapply proper_no_news, adds_Forall; by apply block_step_proper).
  rewrite Hes in Hn |- *. rewrite Forall_forall in Hq, Hn. apply deliver_silent.
  - pose proof (n_news _ _ _ _ Hk) as Hnews. rewrite Hm in Hnews, Ho. simpl in Ho. rewrite En in Ho.
    apply Forall_cons in Hnews as [_ Hnews]. destruct Hk. split; try done; cbn; rewrite Hm; [|done].
    intros s' Hs'. pose proof (block_step_head _ _ _ _ _ Hs') as Hhead. rewrite advanced_news, news_none in Hhead by done.
    injection Hhead as Hhead _. split; [congruence|done].
  - apply Forall_forall. intros e Hin. specialize (Hq e Hin). specialize (Hn e Hin).
    pose proof (next_low n (n_height _ _ _ _ Hk)) as Hnext.
    destruct e as [[] [[m|q] chan]| | | |]; try (by apply idle_harmless); destruct m; try (by apply idle_harmless); cbn in *; try done.
    intros m [= <-]. by rewrite Hq.
  - apply Forall_forall. intros e Hin. specialize (Hq e Hin).
    destruct e as [[] [[m|q] chan]| | | |]; try done; by destruct m.
Qed.

(** The consensus service: a step of the network of [ConsensusNetwork] *)
Definition acts K w w' : Prop :=
  exists c ans clk, admissible K c /\ no_rollback_step c w /\ w' = exec_world (ConsensusService.step c (awaiting ans clk w)).

Lemma consensus_turn_ok K n c mail s ans clk k w :
  p_mail (c_consensus k) = c :: mail -> p_state (c_consensus k) = Some s -> node_ok K n k w ->
  let r := ConsensusService.step c (World s ans clk []) in
  exists w', acts K w w' /\ node_ok K n (deliver (w_out (exec_world r))
    (Core (c_block k) (turned r c (c_consensus k)) (c_drand k) (c_transaction k) (c_node k))) w'.
Proof.
  intros Hm Hs Hk r. destruct (n_consensus _ _ _ _ Hk s Hs) as (Hws & Hl & Ho & Hn). rewrite Hm in Ho, Hn.
  destruct Ho as [Ho Hos]. simpl in Hn.
  pose proof (n_mail _ _ _ _ Hk) as Hmail. rewrite Hm in Hmail. apply Forall_cons in Hmail as [Ha Hmail].
  set (w' := exec_world (ConsensusService.step c (awaiting ans clk w))).
  assert (Hlow : votes_low (w_state w') /\ no_rollback_step c w) by (apply (consensus_step_low c (awaiting ans clk w)); simpl; by rewrite Hws).
  exists w'. split; [exists c, ans, clk; split_and!; [done|apply Hlow|done]|].
  destruct (consensus_step_after c s ans clk (w_out w)) as (Hst & Hout & Hstate). fold r in Hst, Hout, Hstate.
  assert (Hw' : w' = exec_world (ConsensusService.step c (World s ans clk (w_out w)))) by (unfold w', awaiting; by rewrite Hws).
  rewrite <- Hw' in Hout, Hstate.
  assert (He : Forall votes_or_idle (w_out (exec_world r))) by apply adds_Forall, consensus_step_says.
  assert (Hnn : Forall (fun e => no_news e = true) (w_out (exec_world r))) by (eapply proper_no_news, adds_Forall, consensus_step_proper).
  apply (deliver_ok K n _ _ (World (w_state w') ans clk (w_out w))).
  - destruct Hk as [H1 H2 H3 H4 H5 H6 H7 H8]. split; try done; cbn; rewrite Hm; cbn [tail]; [|done].
    intros s' Hs'. rewrite (Hstate s' Hs') in *. split; [done|]. split; [apply Hlow|].
    assert (Hheight : ConsensusService.height s' = height_after (ConsensusService.height s) c).
    { unfold state_after in Hs'. destruct r as [[] v|v] eqn:Er; [|done]. injection Hs' as <-.
      pose proof (consensus_step_head _ _ _ Er) as Hh. rewrite advanced_news in Hh. unfold height_after.
      destruct (news c) as [[[b hs] ps]|]; by injection Hh. }
    by rewrite Hheight.
  - rewrite Forall_forall in He, Hnn |- *. intros e Hin. specialize (He e Hin). specialize (Hnn e Hin).
    destruct e as [[] [[m|q] chan]| | | |]; try (by apply idle_harmless); destruct m; try (by apply idle_harmless); done.
  - done.
  - simpl. by rewrite Hout, casts_app.
  - simpl. by rewrite Hout, consolidations_app.
Qed.

Lemma node_step_ok K n k k' w :
  node_step K k k' -> node_ok K n k w -> exists n' w', (w' = w \/ acts K w w') /\ node_ok K n' k' w'.
Proof.
  intros Hstep Hk. destruct Hstep as [to c Hp Hm|c mail s ans clk Hm Hs Ha r|c mail s ans clk Hm Hs r|c mail s ans clk Hm Hs r|c mail s ans clk Hm Hs r].
  - exists n, w. split; [by left|]. by apply post_ok.
  - destruct (block_turn_ok K n c mail s ans clk k w Hm Hs Ha Hk) as [n' Hn']. exists n', w. split; [by left|done].
  - destruct (consensus_turn_ok K n c mail s ans clk k w Hm Hs Hk) as (w' & Hw' & Hn'). exists n, w'. split; [by right|done].
  - exists n, w. split; [by left|]. by apply (drand_turn_ok K n c mail).
  - exists n, w. split; [by left|]. by apply (transaction_turn_ok K n c mail).
Qed.

(** ** The network of cores *)

Inductive cores_step : list core -> list core -> Prop :=
| CoreActs i k k' ks : ks !! i = Some k -> node_step (cast_in_cores ks) k k' -> cores_step ks (<[i := k']> ks).

Lemma may_post_mono K K' k to c : (forall x, K x -> K' x) -> may_post K k to c -> may_post K' k to c.
Proof.
  intros HK. pose proof (admissible_mono players_at K K' c HK) as Ha. destruct to; simpl; try done.
  - destruct (kind c) as [[]|]; try done. intros [? ?]. auto.
  - intros [? ?]. auto.
Qed.

Lemma answer_ok_mono K K' ans : (forall x, K x -> K' x) -> Forall (answer_ok K) ans -> Forall (answer_ok K') ans.
Proof.
  intros HK Ha. apply (Forall_impl _ _ _ Ha). intros [res| |]; try done. destruct res as [| | |[block|] ?| | | | | | |]; try done.
  apply answered_mono. auto.
Qed.

Lemma node_step_mono K K' k k' : (forall x, K x -> K' x) -> node_step K k k' -> node_step K' k k'.
Proof.
  intros HK [to c Hp Hm|c mail s ans clk Hm Hs Ha r|c mail s ans clk Hm Hs r|c mail s ans clk Hm Hs r|c mail s ans clk Hm Hs r].
  - apply NodePosts; [done|]. by eapply may_post_mono.
  - apply (NodeBlock _ _ c mail s ans clk); try done. by eapply answer_ok_mono.
  - by apply (NodeConsensus _ _ c mail s ans clk).
  - by apply (NodeDRand _ _ c mail s ans clk).
  - by apply (NodeTransaction _ _ c mail s ans clk).
Qed.

Lemma node_ok_mono K K' n k w : (forall x, K x -> K' x) -> node_ok K n k w -> node_ok K' n k w.
Proof.
  intros HK [H1 H2 H3 H4 H5 H6 H7 H8]. pose proof (fun c => admissible_mono players_at K K' c HK) as Ha.
  split; try done; [apply (Forall_impl _ _ _ H3)|apply (Forall_impl _ _ _ H5)]; intros c; auto.
Qed.

(** Each core does what a node of [ConsensusNetwork] does. *)
Definition simulated ks ws : Prop := Forall2 (fun k w => exists n, node_ok (cast_in ws) n k w) ks ws.

Lemma simulated_casts ks ws x : simulated ks ws -> cast_in_cores ks x <-> cast_in ws x.
Proof.
  intros Hs. unfold simulated in Hs. revert Hs. generalize (cast_in ws) at 1. intros K Hs. unfold cast_in_cores, cast_in. split.
  - intros (k & Hk & Hx). apply list_elem_of_lookup in Hk as [i Hi].
    destruct (Forall2_lookup_l _ _ _ _ _ Hs Hi) as (w & Hw & n & Hn). exists w.
    split; [by eapply list_elem_of_lookup_2|]. by rewrite (n_casts _ _ _ _ Hn).
  - intros (w & Hw & Hx). apply list_elem_of_lookup in Hw as [i Hi].
    destruct (Forall2_lookup_r _ _ _ _ _ Hs Hi) as (k & Hk & n & Hn). exists k.
    split; [by eapply list_elem_of_lookup_2|]. by rewrite <- (n_casts _ _ _ _ Hn).
Qed.

Lemma cores_step_simulated ks ks' ws :
  cores_step ks ks' -> simulated ks ws -> network_ok players_at ws ->
  exists ws', simulated ks' ws' /\ network_ok players_at ws'.
Proof.
  intros [i k k' ks0 Hi Hstep] Hs Hok. destruct (Forall2_lookup_l _ _ _ _ _ Hs Hi) as (w & Hw & n & Hn).
  apply (node_step_mono _ (cast_in ws)) in Hstep; [|intros x; by apply simulated_casts].
  destruct (node_step_ok _ n _ _ _ Hstep Hn) as (n' & w' & [->|Hact] & Hn').
  - exists ws. split; [|done].
    assert (H : Forall2 (fun k w => exists n, node_ok (cast_in ws) n k w) (<[i := k']> ks0) (<[i := w]> ws))
      by (apply Forall2_insert; [exact Hs|by exists n']).
    by rewrite (list_insert_id ws i w Hw) in H.
  - destruct Hact as (c & ans & clk & Ha & Hr & ->). set (w' := exec_world _) in *.
    exists (<[i := w']> ws). split.
    2:{ eapply net_step_ok; [|done]. by apply (Receives players_at i w c ans clk ws). }
    assert (HK : forall x, cast_in ws x -> cast_in (<[i := w']> ws) x).
    { apply (cast_in_update ws i w w' Hw). by destruct (step_vouched players_at _ c Ha (awaiting ans clk w)) as [Hl _]. }
    apply Forall2_insert; [|exists n'; by eapply node_ok_mono]. apply (Forall2_impl _ _ _ _ Hs). intros k0 w0 [n0 H0]. exists n0. by eapply node_ok_mono.
Qed.

Lemma cores_reached ks ks' ws :
  rtc cores_step ks ks' -> simulated ks ws -> network_ok players_at ws ->
  exists ws', simulated ks' ws' /\ network_ok players_at ws'.
Proof.
  intros Hr. revert ws. induction Hr as [ks|ks1 ks2 ks3 Hs _ IH]; intros ws H1 H2; [by exists ws|].
  destruct (cores_step_simulated _ _ _ Hs H1 H2) as (ws2 & ? & ?). by apply (IH ws2).
Qed.

(** ** The start of the nodes *)

(** What a node starts with *)
Record config : Type := Config {
  g_key : Keys.TrinciKeyPair;
  g_players : Players.t;
  g_seed : SeedSource.t;
  g_block : option B;
  g_answers : list (Answer A B C T);
  g_clock : Z * list Z
}.

Definition boot (g : config) : option core := start (g_key g) (g_players g) (g_seed g) (g_block g) (g_answers g) (g_clock g).
Definition account (g : config) := Keys.to_account_id (Keys.public_key (g_key g)).
Definition first_height (g : config) : Z := match g_block g with Some b => get_height b | None => 0 end.

(** The node knows the players of its height, and the confirmations made with its key are
    those of its account. *)
Definition config_ok (g : config) : Prop :=
  Players.players_ids (g_players g) = players_at (first_height g) /\ is_u64 (first_height g) /\
  forall id, account g = Some (Ok id) -> forall hash n r,
    get_player_id (conf_sign (g_key g) (conf_new hash n r (Keys.public_key (g_key g)))) = id.

Lemma consensus_start_idle block :
  rel (S := ConsensusService.t (B := B) (C := C)) (R := Answer A B C T) (adds (fun e => idle e = true))
    (ConsensusService.start block []).
Proof. unfold ConsensusService.start, ConsensusService.run, run_loop, ConsensusService.draw_new_leader. simpl. frames. Qed.

(** What the start of the consensus service leaves alone *)
Definition but_leader (s : ConsensusService.t (B := B) (C := C)) :=
  (ConsensusService.block_proposals s, ConsensusService.players s, ConsensusService.height s,
   ConsensusService.keypair s, ConsensusService.node_id s, ConsensusService.proposal_exit_poll s).

Lemma consensus_start_state block :
  rel (same_proj (E := Effect A B C T) (R := Answer A B C T) but_leader) (ConsensusService.start block []).
Proof.
  unfold ConsensusService.start, ConsensusService.run, run_loop. simpl. frames. by apply ConsensusService.draw_new_leader_frame.
Qed.

Definition unstarted (g : config) (id : string) : ConsensusService.t (B := B) (C := C) :=
  ConsensusService.Mk 0 ∅ [] None (first_height g) (g_key g) Hashes.default "" id (g_players g) [].
(** The start of the consensus service in [start] *)
Definition consensus_boot (g : config) (id : string) : option (exec cworld unit) :=
  s ← ConsensusService.initial (g_key g) id (g_players g) (g_block g);
  Some (ConsensusService.start (g_block g) [] (World s (g_answers g) (g_clock g) [])).

Lemma consensus_boot_state g id :
  exists s, but_leader s = but_leader (unstarted g id) /\ forall s', consensus_boot g id ≫= state_after = Some s' -> s' = s.
Proof.
  unfold consensus_boot, ConsensusService.initial.
  destruct (Players.players_ids (g_players g) !! 0%nat) as [first|]; [|by exists (unstarted g id)].
  assert (Hs : forall s1, but_leader s1 = but_leader (unstarted g id) ->
    exists s, but_leader s = but_leader (unstarted g id) /\ forall s',
      state_after (ConsensusService.start (g_block g) [] (World s1 (g_answers g) (g_clock g) [])) = Some s' -> s' = s).
  { intros s1 H1. pose proof (consensus_start_state (g_block g) (World s1 (g_answers g) (g_clock g) [])) as Hst.
    unfold same_proj in Hst. destruct (ConsensusService.start _ _ _) as [[] v|v]; [|by exists (unstarted g id)].
    exists (w_state v). split; [|by intros s' [= <-]]. simpl in Hst. congruence. }
  simpl. destruct (g_block g) eqn:Eb; apply Hs; unfold unstarted, first_height; by rewrite Eb.
Qed.

Lemma consensus_boot_idle g id (es := from_option (fun r => w_out (exec_world r)) [] (consensus_boot g id)) :
  Forall (fun e => idle e = true) es /\ Forall (fun e => no_news e = true) es.
Proof.
  unfold es, consensus_boot. destruct (ConsensusService.initial _ _ _ _); simpl; [|by split].
  split; apply adds_Forall; [apply consensus_start_idle|apply consensus_start_no_news].
Qed.

Lemma boot_ok g k :
  boot g = Some k -> config_ok g ->
  exists w, fresh players_at w /\ account g = Some (Ok (own_id w)) /\ forall K, node_ok K (first_height g) k w.
Proof.
  unfold boot, start. intros Hb (Hp & Hu & Hid). unfold account in *.
  destruct (Keys.to_account_id (Keys.public_key (g_key g))) as [[id|]|] eqn:Ea; try done. specialize (Hid id eq_refl).
  fold (consensus_boot g id) in Hb. destruct (consensus_boot_idle g id) as [Hi Hn].
  destruct (consensus_boot_state g id) as (s & Hs & Hst). injection Hs as S1 S2 S3 S4 S5 S6. injection Hb as <-.
  exists (World s [] (0, []) []). split_and!.
  - unfold fresh, players_known, identified. simpl. rewrite S1, S2, S3, S4, S5. split_and!; try done; apply Hu.
  - unfold own_id. simpl. by rewrite S5.
  - intros K. destruct (idle_effects K (first_height g) _ Hi Hn) as [Hh Hsl].
    apply deliver_silent; [|done|done]. split; simpl; try done.
    + intros sb [= <-]. split; [|done]. unfold first_height, BlockService.initial. by destruct (g_block g).
    + intros sc Hsc. rewrite (Hst sc Hsc). unfold votes_low. rewrite S3, S6. by split_and!.
Qed.

Lemma boots_ok gs ks :
  mapM boot gs = Some ks -> Forall config_ok gs ->
  exists ws, Forall (fresh players_at) ws /\ map account gs = map (fun w => Some (Ok (own_id w))) ws /\
    forall K, Forall2 (fun k w => exists n, node_ok K n k w) ks ws.
Proof.
  intros Hm%mapM_Some_1 Hok. induction Hm as [|g k gs ks Hb Hm IH]; [by exists []|].
  apply Forall_cons in Hok as [Hg Hok]. destruct (IH Hok) as (ws & H1 & H2 & H3). destruct (boot_ok g k Hb Hg) as (w & W1 & W2 & W3).
  exists (w :: ws). split_and!; [by constructor|simpl; by rewrite W2, H2|]. intros K. constructor; [by exists (first_height g)|apply H3].
Qed.

(** C1: agreement of whole nodes within a round. The cores of any number of nodes start, each with
    its four services and their channels, under distinct accounts. Whatever is posted to them
    in whatever order, whatever is answered and the clocks show: when two of them ask their
    nodes to consolidate a block each, and the confirmations they hold are for the same height
    and round, the blocks have the same hash. Of what comes from outside it is assumed that a
    confirmation (where it is checked, one that verifies) has been cast by a node, that those
    of one peer are distinct and for one block, that the node tells of consolidated blocks in
    order and with the players of their height, and that it builds no block of a height it was
    not asked to execute. *)
Theorem cores_agree gs ks ks' k1 k2 b1 b2 cs1 cs2 hs1 hs2 x1 x2 :
  mapM boot gs = Some ks -> Forall config_ok gs -> NoDup (map account gs) -> rtc cores_step ks ks' ->
  k1 ∈ ks' -> k2 ∈ ks' ->
  MkComm (KMsg (Msg.StartBlockConsolidation b1 cs1 hs1)) None ∈ c_node k1 ->
  MkComm (KMsg (Msg.StartBlockConsolidation b2 cs2 hs2)) None ∈ c_node k2 ->
  x1 ∈ cs1 -> x2 ∈ cs2 ->
  get_block_height x1 = get_block_height x2 -> get_block_round x1 = get_block_round x2 ->
  get_hash b1 = get_hash b2.
Proof.
  intros Hb Hok Hd Hr Hk1 Hk2 Hs1 Hs2. destruct (boots_ok gs ks Hb Hok) as (ws & Hf & Ha & Hsim).
  assert (Hnd : NoDup (map own_id ws)).
  { rewrite Ha in Hd. revert Hd. rewrite <- (map_map own_id (fun id => Some (Ok id))). apply NoDup_fmap_1. }
  destruct (cores_reached ks ks' ws Hr (Hsim _) (fresh_ok players_at ws Hf Hnd)) as (ws' & Hsim' & Hok').
  assert (Hw : forall k b cs hs, k ∈ ks' -> MkComm (KMsg (Msg.StartBlockConsolidation b cs hs)) None ∈ c_node k ->
    exists w, w ∈ ws' /\ (b, cs) ∈ consolidations (w_out w)).
  { intros k b cs hs Hk Hc. apply list_elem_of_lookup in Hk as [i Hi].
    destruct (Forall2_lookup_l _ _ _ _ _ Hsim' Hi) as (w & Hw & n & Hn). exists w. split; [by eapply list_elem_of_lookup_2|].
    rewrite (n_started _ _ _ _ Hn). apply list_elem_of_omap. eexists.
    split; [apply list_elem_of_fmap; by eexists|done]. }
  destruct (Hw _ _ _ _ Hk1 Hs1) as (w1 & Hw1 & Hc1), (Hw _ _ _ _ Hk2 Hs2) as (w2 & Hw2 & Hc2).
  by apply (network_agrees players_at ws' w1 w2).
Qed.
End speech.

(** ** Three cores *)

Module CoreNetworkSample.
#[local] Existing Instances Samples.digest Samples.base58 Samples.pcg Samples.ring Samples.block_executable Samples.block_laws
  Samples.conf_eq_dec Samples.tx_transactable Samples.tx_serialize.
#[local] Existing Instance gmap_iter.
Import Samples.

(** The confirmations of [Samples], made for the account of the key *)
Definition account_of (key : Keys.TrinciPublicKey) : string :=
  match Keys.to_account_id key with Some (Ok id) => id | _ => "" end.
#[local] Instance conf_of_account : Confirmable conf := {
  get_block_hash := c_hash;
  get_block_height := c_height;
  get_block_round := c_round;
  get_player_id := c_player;
  conf_new := fun h n r key => MkConf h n r (account_of key) true;
  conf_sign := fun _ c => c;
  conf_verify := c_ok
}.
#[local] Instance conf_of_account_laws : ConfirmableLaws conf.
Proof. by split. Qed.

Abbreviation score := (core (A := Z) (B := block) (C := conf) (T := tx)).
Abbreviation smsg := (Msg.t Z block conf tx).

Definition player (name : string) : string := account_of (Keys.public_key (keypair name)).
Definition players_abc (n : Z) : list string := map player ["a"; "b"; "c"].
Definition config_of (name : string) : config (A := Z) (B := block) (C := conf) (T := tx) :=
  Config (keypair name) (Players.Mk (players_abc 0) [1; 2; 3]) seed_source None [] (10, []).
Definition configs : list (config (A := Z) (B := block) (C := conf) (T := tx)) := map config_of ["a"; "b"; "c"].
Definition booted : list score := default [] (mapM boot configs).

(** The core at a place is posted a message, or one of its services handles the next of its mail. *)
Inductive action := Post (to : Service) (m : smsg) | Turn (to : Service) (ans : list (Answer Z block conf tx)).

Definition act (k : score) (a : action) : score :=
  match a with
  | Post to m => deliver [Sent to (MkComm (KMsg m) None)] k
  | Turn Messages.BlockService ans =>
      match p_mail (c_block k), p_state (c_block k) with
      | c :: _, Some s =>
          let r := BlockService.step c (World s ans (10, []) []) in
          deliver (w_out (exec_world r))
            (Core (turned r c (c_block k)) (c_consensus k) (c_drand k) (c_transaction k) (c_node k))
      | _, _ => k
      end
  | Turn Messages.ConsensusService ans =>
      match p_mail (c_consensus k), p_state (c_consensus k) with
      | c :: _, Some s =>
          let r := ConsensusService.step c (World s ans (10, []) []) in
          deliver (w_out (exec_world r))
            (Core (c_block k) (turned r c (c_consensus k)) (c_drand k) (c_transaction k) (c_node k))
      | _, _ => k
      end
  | Turn Messages.TransactionService ans =>
      match p_mail (c_transaction k), p_state (c_transaction k) with
      | c :: _, Some s =>
          let r := TransactionService.step c (World s ans (10, []) []) in
          deliver (w_out (exec_world r))
            (Core (c_block k) (c_consensus k) (c_drand k) (turned r c (c_transaction k)) (c_node k))
      | _, _ => k
      end
  | Turn _ _ => k
  end.
Definition acts_at (ks : list score) '(i, a) : list score :=
  match ks !! i with Some k => <[i := act k a]> ks | None => ks end.

Definition may_act (ks : list score) '(i, a) : Prop :=
  match ks !! i with
  | Some k =>
      match a with
      | Post to m =>
          is_news (MkComm (KMsg m) None : Comm Z block conf tx) = false /\
          may_post players_abc (fun x => x ∈ mjoin (map (fun k => casts (told_node k)) ks)) k to (MkComm (KMsg m) None)
      | Turn _ ans => Forall (answer_ok (fun _ => False)) ans
      end
  | None => True
  end.
Fixpoint may_all (ks : list score) (l : list (nat * action)) : Prop :=
  match l with [] => True | a :: l => may_act ks a /\ may_all (acts_at ks a) l end.

Lemma act_step K k a :
  match a with
  | Post to m => is_news (MkComm (KMsg m) None : Comm Z block conf tx) = false /\ may_post players_abc K k to (MkComm (KMsg m) None)
  | Turn _ ans => Forall (answer_ok (fun _ => False)) ans
  end -> act k a = k \/ node_step players_abc K k (act k a).
Proof.
  destruct a as [to m|to ans].
  - intros [Hn Hp]. right. apply NodePosts; [|done]. unfold postable. congruence.
  - intros Ha. assert (Ha' : Forall (answer_ok K) ans) by (revert Ha; by apply answer_ok_mono).
    destruct to; simpl; try (by left).
    + destruct (p_mail (c_block k)) as [|c mail] eqn:Hm; [by left|]. destruct (p_state (c_block k)) as [s|] eqn:Hs; [right|by left].
      by apply (NodeBlock players_abc K k c mail s ans (10, [])).
    + destruct (p_mail (c_consensus k)) as [|c mail] eqn:Hm; [by left|]. destruct (p_state (c_consensus k)) as [s|] eqn:Hs; [right|by left].
      by apply (NodeConsensus players_abc K k c mail s ans (10, [])).
    + destruct (p_mail (c_transaction k)) as [|c mail] eqn:Hm; [by left|]. destruct (p_state (c_transaction k)) as [s|] eqn:Hs; [right|by left].
      by apply (NodeTransaction players_abc K k c mail s ans (10, [])).
Qed.

Lemma acts_reached l ks : may_all ks l -> rtc (cores_step players_abc) ks (fold_left acts_at l ks).
Proof.
  revert ks. induction l as [|[i a] l IH]; intros ks H; [done|]. destruct H as [Ha H]. simpl.
  transitivity (acts_at ks (i, a)); [|by apply IH]. clear IH H. unfold may_act in Ha. simpl.
  destruct (ks !! i) as [k|] eqn:Hi; [|done].
  assert (Ha' : act k a = k \/ node_step players_abc (cast_in_cores ks) k (act k a)).
  { apply act_step. destruct a as [to m|]; [|done]. destruct Ha as [Hn Hp]. split; [done|]. revert Hp. apply may_post_mono.
    intros x (cs & Hx & Hcs)%list_elem_of_join. apply list_elem_of_fmap in Hcs as (k0 & -> & Hk0). by exists k0. }
  destruct Ha' as [->|Hs]; [by rewrite list_insert_id|]. apply rtc_once. by apply (CoreActs _ i k).
Qed.

(** b is asked to build, has its block executed and proposes it; a and c are sent the block with
    the vote of b, execute it and vote. *)
Definition block_b : block := MkBlock (Some (player "b")) (hash 7) 1 Hashes.default (hash 0) (hash 0) true.
Definition vote_by (name : string) : conf := vote (player name) 7 1 0.
Definition votes_for_b (i : nat) : list (nat * action) :=
  [(i, Post Messages.ConsensusService (Msg.BlockFromPeer block_b (vote_by "b") []));
   (i, Turn Messages.ConsensusService []);
   (i, Post Messages.ConsensusService (Msg.BlockExecutionEnded block_b []));
   (i, Turn Messages.ConsensusService [])].
Definition run_abc : list (nat * action) :=
  [(1%nat, Post Messages.BlockService Msg.BuildBlock);
   (1%nat, Turn Messages.BlockService
      [Delivered (Res.IsLeader true); Delivered (Res.GetUnconfirmedHashes []); Delivered (Res.GetUnconfirmedHashes [])]);
   (1%nat, Turn Messages.TransactionService []); (1%nat, Turn Messages.TransactionService []); (1%nat, Turn Messages.TransactionService []);
   (1%nat, Post Messages.ConsensusService (Msg.ProposalAfterBuild block_b 0 []));
   (1%nat, Turn Messages.ConsensusService []); (1%nat, Turn Messages.ConsensusService [])]
  ++ votes_for_b 0 ++ votes_for_b 2.
Definition ended : list score := fold_left acts_at run_abc booted.
Definition nothing : score := Core (Proc None [] []) (Proc None [] []) (Proc None [] []) (Proc None [] []) [].
Definition at_place (i : nat) : score := default nothing (ended !! i).

Lemma booted_abc : mapM boot configs = Some booted.
Proof. reflexivity. Qed.

Lemma config_of_ok name : config_ok players_abc (config_of name).
Proof.
  split; [reflexivity|]. split; [by split|]. intros id Hid hash n r. cbv [get_player_id conf_of_account conf_sign conf_new c_player].
  unfold account_of. unfold account in Hid. by rewrite Hid.
Qed.

Lemma accounts_distinct : NoDup (map account configs).
Proof. apply (bool_decide_unpack _). vm_compute. exact I. Qed.

Lemma at_place_ended i : bool_decide (i < length ended)%nat = true -> at_place i ∈ ended.
Proof.
  intros Hi%bool_decide_eq_true. unfold at_place. destruct (lookup_lt_is_Some_2 ended i Hi) as [k Hk]. rewrite Hk. by eapply list_elem_of_lookup_2.
Qed.

(** The first consolidation the core at a place has asked for *)
Definition started (i : nat) : block * list conf := default (block_b, []) (head (consolidations (told_node (at_place i)))).

(** a and c start one each, on two of the three votes. *)
Lemma cores_agree_witness : get_hash (fst (started 0)) = get_hash (fst (started 2)).
Proof.
  apply (cores_agree players_abc configs booted ended (at_place 0) (at_place 2) _ _
    (snd (started 0)) (snd (started 2)) [] [] (vote_by "a") (vote_by "c")).
  - exact booted_abc.
  - repeat constructor; apply config_of_ok.
  - exact accounts_distinct.
  - apply acts_reached. vm_compute. repeat split; repeat (eexists || constructor).
  - apply at_place_ended. vm_compute. reflexivity.
  - apply at_place_ended. vm_compute. reflexivity.
  - vm_compute. repeat constructor.
  - vm_compute. repeat constructor.
  - vm_compute. repeat constructor.
  - vm_compute. repeat constructor.
  - reflexivity.
  - reflexivity.
Defined.
End CoreNetworkSample.
