(* ===== verification/NodeModels.v ===== *)
(** * The models of the node ([trinci-node/src/artifacts/models.rs])

    Accounts, blocks, confirmations and transactions.  The MessagePack encoding of
    the [rmp_serde] crate is a parameter; the code expects it never to fail on these
    types, so it is a total function.  Blocks and confirmations are instances of the
    traits of the core. *)

From stdpp Require Import base gmap strings list fin_maps.
From S2P Require Import Prelude Hash Crypto CoreModels DRand Samples.
Open Scope Z_scope.

(** [rmp_serialize] on the types of this file *)
Class MsgPack (X : Type) : Type := { msgpack : X -> list Z }.
#[export] Instance msgpack_serialize `{MsgPack X} : Serialize X := {| rmp_serialize := fun x => Ok (msgpack x) |}.

(** What the node relies on of [ring]: the signature of a key pair verifies with its public key. *)
Class RingLaws `{Ring} : Prop := {
  ecdsa_sign_verify : forall c pkcs8 k rnd data sig, ecdsa_from_pkcs8 c pkcs8 = Some k ->
    ecdsa_sign k rnd data = Some sig -> ecdsa_verify c (ecdsa_public_key k) data sig = true;
  ed25519_sign_verify : forall k data, ed25519_verify (ed25519_public_key k) data (ed25519_sign k data) = true
}.

(** ** Accounts *)
Module Account.
Record t : Type := Mk {
  id : string;
  assets : gmap string (list Z);
  contract : option Hash;
  data_hash : option Hash
}.

Definition new (id : string) (contract : option Hash) : t := Mk id ∅ contract None.
Definition load_asset (a : t) (asset : string) : list Z := default [] (assets a !! asset).
Definition store_asset (asset : string) (value : list Z) (a : t) : t :=
  Mk (id a) (<[asset := value]> (assets a)) (contract a) (data_hash a).
Definition remove_asset (asset : string) (a : t) : t :=
  Mk (id a) (delete asset (assets a)) (contract a) (data_hash a).
End Account.

(** ** Blocks and confirmations *)
Record BlockData : Type := MkBlockData {
  validator : option Keys.TrinciPublicKey;
  bd_height : Z;
  bd_size : Z;
  bd_prev_hash : Hash;
  bd_txs_hash : Hash;
  bd_rxs_hash : Hash;
  bd_state_hash : Hash;
  bd_timestamp : Z
}.

Record Block : Type := MkBlock { block_data : BlockData; block_signature : list Z }.

Record ConfirmationData : Type := MkConfirmationData {
  cd_block_hash : Hash;
  cd_block_height : Z;
  cd_block_round : Z;
  cd_signer : Keys.TrinciPublicKey
}.

Record Confirmation : Type := MkConfirmation { conf_data : ConfirmationData; conf_signature : list Z }.

#[export] Instance ConfirmationData_eq_dec : EqDecision ConfirmationData.
Proof. solve_decision. Defined.
#[export] Instance Confirmation_eq_dec : EqDecision Confirmation.
Proof. solve_decision. Defined.

Record SmartContractEvent : Type := MkEvent {
  event_tx : Hash;
  emitter_account : string;
  emitter_smart_contract : Hash;
  event_name : string;
  event_data : list Z
}.

Record Receipt : Type := MkReceipt {
  rx_height : Z;
  rx_index : Z;
  burned_fuel : Z;
  success : bool;
  returns : list Z;
  events : option (list SmartContractEvent)
}.

Section core_traits.
Context `{Hdig : Digest} `{Hb58 : Base58} `{Hring : Ring} `{!MsgPack BlockData} `{!MsgPack ConfirmationData}.
(** What the random generator draws for a signature *)
Variable rnd : Z.

(** [primary_hash().expect(..)]: [from_data_sha256] shows that there is a hash. *)
Definition data_hash `{MsgPack X} (x : X) : Hash :=
  match primary_hash x with Ok h => h | Err _ => Hashes.default end.

(** [to_account_id] of a key; a computation that panics counts as one without an id. *)
Definition key_id (k : Keys.TrinciPublicKey) : option string :=
  match Keys.to_account_id k with Some (Ok id) => Some id | _ => None end.

(** [kp.sign(&buf).unwrap_or_else(|_| vec![])] *)
Definition sign_or_empty (kp : Keys.TrinciKeyPair) (buf : list Z) : list Z :=
  match Keys.sign rnd kp buf with Ok sig => sig | Err _ => [] end.

Definition block_hash (b : Block) : Hash := data_hash (block_data b).
Definition block_builder_id (b : Block) : option string := pub_key ← validator (block_data b); key_id pub_key.

Definition with_data (f : BlockData -> BlockData) (b : Block) : Block := MkBlock (f (block_data b)) (block_signature b).

#[export] Instance Block_executable : Executable Block := {
  get_builder_id := block_builder_id;
  get_builder_pub_key := fun b => validator (block_data b);
  get_hash := block_hash;
  get_height := fun b => bd_height (block_data b);
  get_prev_hash := fun b => bd_prev_hash (block_data b);
  get_txs_hash := fun b => bd_txs_hash (block_data b);
  get_rxs_hash := fun b => bd_rxs_hash (block_data b);
  set_state_hash := fun h => with_data (fun d => MkBlockData (validator d) (bd_height d) (bd_size d) (bd_prev_hash d)
    (bd_txs_hash d) (bd_rxs_hash d) h (bd_timestamp d));
  set_txs_hash := fun h => with_data (fun d => MkBlockData (validator d) (bd_height d) (bd_size d) (bd_prev_hash d)
    h (bd_rxs_hash d) (bd_state_hash d) (bd_timestamp d));
  set_rxs_hash := fun h => with_data (fun d => MkBlockData (validator d) (bd_height d) (bd_size d) (bd_prev_hash d)
    (bd_txs_hash d) h (bd_state_hash d) (bd_timestamp d));
  block_new := fun builder_id hashes height prev_hash now =>
    MkBlock (MkBlockData (Some builder_id) height (len hashes mod 2 ^ 32) prev_hash Hashes.default Hashes.default
               Hashes.default now) [];
  block_sign := fun kp b => MkBlock (block_data b) (sign_or_empty kp (msgpack (block_data b)));
  block_verify := fun b =>
    match validator (block_data b) with
    | Some validator => Keys.verify validator (msgpack (block_data b)) (block_signature b)
    | None => false
    end
}.

#[export] Instance Confirmation_confirmable : Confirmable Confirmation := {
  get_block_hash := fun c => cd_block_hash (conf_data c);
  get_block_height := fun c => cd_block_height (conf_data c);
  get_block_round := fun c => cd_block_round (conf_data c);
  get_player_id := fun c => default EmptyString (key_id (cd_signer (conf_data c)));
  conf_new := fun block_hash block_height block_round signer =>
    MkConfirmation (MkConfirmationData block_hash block_height block_round signer) [];
  conf_sign := fun kp c => MkConfirmation (conf_data c) (sign_or_empty kp (msgpack (conf_data c)));
  conf_verify := fun c =>
    Keys.verify (cd_signer (conf_data c)) (msgpack (conf_data c)) (conf_signature c)
}.

(** The implementations keep what the services rely on. *)
#[export] Instance Block_laws : ExecutableLaws Block.
Proof. by split. Qed.
#[export] Instance Confirmation_laws : ConfirmableLaws Confirmation.
Proof. by split. Qed.
End core_traits.

(** ** Transactions *)
Record TransactionDataV1 : Type := MkV1 {
  v1_account : string;
  v1_fuel_limit : Z;
  v1_nonce : list Z;
  v1_network : string;
  v1_contract : option Hash;
  v1_method : string;
  v1_caller : Keys.TrinciPublicKey;
  v1_args : list Z
}.

Record EmptyTransactionDataV1 : Type := MkEmptyV1 {
  e_fuel_limit : Z;
  e_nonce : list Z;
  e_network : string;
  e_caller : Keys.TrinciPublicKey
}.

Record TransactionDataBulkNodeV1 : Type := MkNodeV1 {
  n_account : string;
  n_fuel_limit : Z;
  n_nonce : list Z;
  n_network : string;
  n_contract : option Hash;
  n_method : string;
  n_caller : Keys.TrinciPublicKey;
  n_args : list Z;
  n_depends_on : Hash
}.

(** [UnsignedTransaction], [SignedTransaction] (and [BulkTransaction], which has the same
    fields), [BulkTransactions] and [TransactionDataBulkV1] hold the [TransactionData] [D]
    that holds them. *)
Record UnsignedTransaction_ (D : Type) : Type := MkUnsigned { u_data : D }.
Record SignedTransaction_ (D : Type) : Type := MkSigned { s_data : D; s_signature : list Z }.
Record BulkTransactions_ (D : Type) : Type := MkBulkTransactions {
  bt_root : UnsignedTransaction_ D;
  bt_nodes : option (list (SignedTransaction_ D))
}.
Record TransactionDataBulkV1_ (D : Type) : Type := MkBulkV1 { txs : BulkTransactions_ D }.
Arguments MkUnsigned {D} _.
Arguments u_data {D} _.
Arguments MkSigned {D} _ _.
Arguments s_data {D} _.
Arguments s_signature {D} _.
Arguments MkBulkTransactions {D} _ _.
Arguments bt_root {D} _.
Arguments bt_nodes {D} _.
Arguments MkBulkV1 {D} _.
Arguments txs {D} _.

Inductive TransactionData : Type :=
| V1 (tx_data : TransactionDataV1)
| BulkNodeV1 (tx_data : TransactionDataBulkNodeV1)
| BulkRootV1 (tx_data : TransactionDataV1)
| BulkV1 (tx_data : TransactionDataBulkV1_ TransactionData)
| BulkEmptyRoot (tx_data : EmptyTransactionDataV1).

Abbreviation UnsignedTransaction := (UnsignedTransaction_ TransactionData).
Abbreviation SignedTransaction := (SignedTransaction_ TransactionData).
Abbreviation TransactionDataBulkV1 := (TransactionDataBulkV1_ TransactionData).

Inductive Transaction : Type :=
| UnitTransaction (tx : SignedTransaction)
| BulkTransaction (tx : SignedTransaction).

Module TxData.
(** The getters; [None] is the panic of [unreachable!()]. *)
Fixpoint get_caller (d : TransactionData) : Keys.TrinciPublicKey :=
  match d with
  | V1 d | BulkRootV1 d => v1_caller d
  | BulkNodeV1 d => n_caller d
  | BulkV1 (MkBulkV1 (MkBulkTransactions (MkUnsigned root) _)) => get_caller root
  | BulkEmptyRoot d => e_caller d
  end.

Fixpoint get_network (d : TransactionData) : string :=
  match d with
  | V1 d | BulkRootV1 d => v1_network d
  | BulkNodeV1 d => n_network d
  | BulkV1 (MkBulkV1 (MkBulkTransactions (MkUnsigned root) _)) => get_network root
  | BulkEmptyRoot d => e_network d
  end.

Fixpoint get_account (d : TransactionData) : string :=
  match d with
  | V1 d | BulkRootV1 d => v1_account d
  | BulkNodeV1 d => n_account d
  | BulkV1 (MkBulkV1 (MkBulkTransactions (MkUnsigned root) _)) => get_account root
  | BulkEmptyRoot _ => EmptyString
  end.

Fixpoint get_method (d : TransactionData) : option string :=
  match d with
  | V1 d | BulkRootV1 d => Some (v1_method d)
  | BulkNodeV1 d => Some (n_method d)
  | BulkV1 (MkBulkV1 (MkBulkTransactions (MkUnsigned root) _)) => get_method root
  | BulkEmptyRoot _ => None
  end.

Fixpoint get_args (d : TransactionData) : option (list Z) :=
  match d with
  | V1 d | BulkRootV1 d => Some (v1_args d)
  | BulkNodeV1 d => Some (n_args d)
  | BulkV1 (MkBulkV1 (MkBulkTransactions (MkUnsigned root) _)) => get_args root
  | BulkEmptyRoot _ => None
  end.

Fixpoint get_contract (d : TransactionData) : option (option Hash) :=
  match d with
  | V1 d | BulkRootV1 d => Some (v1_contract d)
  | BulkNodeV1 d => Some (n_contract d)
  | BulkV1 (MkBulkV1 (MkBulkTransactions (MkUnsigned root) _)) => get_contract root
  | BulkEmptyRoot _ => None
  end.

Definition get_fuel_limit (d : TransactionData) : Z :=
  match d with
  | V1 d => v1_fuel_limit d
  | BulkV1 d =>
      match u_data (bt_root (txs d)) with
      | BulkRootV1 d => v1_fuel_limit d
      | BulkEmptyRoot d => e_fuel_limit d
      | V1 _ | BulkNodeV1 _ | BulkV1 _ => 0
      end
  | BulkNodeV1 _ | BulkRootV1 _ | BulkEmptyRoot _ => 0
  end.

Definition get_dependency (d : TransactionData) : option (option Hash) :=
  match d with BulkNodeV1 d => Some (Some (n_depends_on d)) | _ => None end.

(** The setters; those of a bulk change its root. *)
Definition v1_set_contract (c : option Hash) (d : TransactionDataV1) : TransactionDataV1 :=
  MkV1 (v1_account d) (v1_fuel_limit d) (v1_nonce d) (v1_network d) c (v1_method d) (v1_caller d) (v1_args d).
Definition v1_set_account (a : string) (d : TransactionDataV1) : TransactionDataV1 :=
  MkV1 a (v1_fuel_limit d) (v1_nonce d) (v1_network d) (v1_contract d) (v1_method d) (v1_caller d) (v1_args d).
Definition v1_set_nonce (x : list Z) (d : TransactionDataV1) : TransactionDataV1 :=
  MkV1 (v1_account d) (v1_fuel_limit d) x (v1_network d) (v1_contract d) (v1_method d) (v1_caller d) (v1_args d).
Definition n_set_contract (c : option Hash) (d : TransactionDataBulkNodeV1) : TransactionDataBulkNodeV1 :=
  MkNodeV1 (n_account d) (n_fuel_limit d) (n_nonce d) (n_network d) c (n_method d) (n_caller d) (n_args d) (n_depends_on d).
Definition n_set_account (a : string) (d : TransactionDataBulkNodeV1) : TransactionDataBulkNodeV1 :=
  MkNodeV1 a (n_fuel_limit d) (n_nonce d) (n_network d) (n_contract d) (n_method d) (n_caller d) (n_args d) (n_depends_on d).
Definition n_set_nonce (x : list Z) (d : TransactionDataBulkNodeV1) : TransactionDataBulkNodeV1 :=
  MkNodeV1 (n_account d) (n_fuel_limit d) x (n_network d) (n_contract d) (n_method d) (n_caller d) (n_args d) (n_depends_on d).

Fixpoint set_contract (c : option Hash) (d : TransactionData) : option TransactionData :=
  match d with
  | V1 d => Some (V1 (v1_set_contract c d))
  | BulkNodeV1 d => Some (BulkNodeV1 (n_set_contract c d))
  | BulkRootV1 d => Some (BulkRootV1 (v1_set_contract c d))
  | BulkV1 (MkBulkV1 (MkBulkTransactions (MkUnsigned root) nodes)) =>
      root ← set_contract c root; Some (BulkV1 (MkBulkV1 (MkBulkTransactions (MkUnsigned root) nodes)))
  | BulkEmptyRoot _ => None
  end.

Fixpoint set_account (a : string) (d : TransactionData) : option TransactionData :=
  match d with
  | V1 d => Some (V1 (v1_set_account a d))
  | BulkNodeV1 d => Some (BulkNodeV1 (n_set_account a d))
  | BulkRootV1 d => Some (BulkRootV1 (v1_set_account a d))
  | BulkV1 (MkBulkV1 (MkBulkTransactions (MkUnsigned root) nodes)) =>
      root ← set_account a root; Some (BulkV1 (MkBulkV1 (MkBulkTransactions (MkUnsigned root) nodes)))
  | BulkEmptyRoot _ => None
  end.

Fixpoint set_nonce (x : list Z) (d : TransactionData) : TransactionData :=
  match d with
  | V1 d => V1 (v1_set_nonce x d)
  | BulkNodeV1 d => BulkNodeV1 (n_set_nonce x d)
  | BulkRootV1 d => BulkRootV1 (v1_set_nonce x d)
  | BulkV1 (MkBulkV1 (MkBulkTransactions (MkUnsigned root) nodes)) =>
      BulkV1 (MkBulkV1 (MkBulkTransactions (MkUnsigned (set_nonce x root)) nodes))
  | BulkEmptyRoot d => BulkEmptyRoot (MkEmptyV1 (e_fuel_limit d) x (e_network d) (e_caller d))
  end.
End TxData.

Section transactions.
Context `{Hdig : Digest} `{Hring : Ring} `{!MsgPack TransactionData}.

(** [get_hash] of the signed, unsigned and bulk transactions *)
Definition tx_data_hash (d : TransactionData) : Hash := data_hash d.

Definition v1_check_integrity (d : TransactionDataV1) : bool :=
  negb (bool_decide (v1_account d = EmptyString)) && negb (bool_decide (v1_nonce d = [])) &&
  negb (bool_decide (v1_network d = EmptyString)) && negb (bool_decide (v1_method d = EmptyString)).

(** The loop over the nodes of a bulk *)
Fixpoint check_nodes (root_hash : Hash) (network : string) (nodes : list SignedTransaction) : option bool :=
  match nodes with
  | [] => Some true
  | node :: nodes =>
      dependency ← TxData.get_dependency (s_data node);
      match dependency with
      | Some dep_hash =>
          if negb (bool_decide (dep_hash = root_hash)) then Some false
          else if negb (bool_decide (TxData.get_network (s_data node) = network)) then Some false
          else check_nodes root_hash network nodes
      | None => Some false
      end
  end.

Definition bulk_check_integrity (d : TransactionDataBulkV1) : option bool :=
  let root_hash := tx_data_hash (u_data (bt_root (txs d))) in
  let network := TxData.get_network (u_data (bt_root (txs d))) in
  match bt_nodes (txs d) with
  | Some [] => Some false
  | Some nodes => check_nodes root_hash network nodes
  | None => Some false
  end.

Definition check_integrity (d : TransactionData) : option bool :=
  match d with
  | BulkV1 d => bulk_check_integrity d
  | V1 d => Some (v1_check_integrity d)
  | _ => Some false
  end.

Definition data_verify (d : TransactionData) (public_key : Keys.TrinciPublicKey) (signature : list Z) : bool :=
  Keys.verify public_key (msgpack d) signature.

(** The signed data of a transaction, of either kind *)
Definition signed (t : Transaction) : SignedTransaction :=
  match t with UnitTransaction tx | BulkTransaction tx => tx end.

Definition get_hash (t : Transaction) : Hash := tx_data_hash (s_data (signed t)).

(** [Transactable::verify]; [None] is a panic. *)
Definition verify (t : Transaction) : option bool :=
  intact ← check_integrity (s_data (signed t));
  Some (if intact : bool
        then data_verify (s_data (signed t)) (TxData.get_caller (s_data (signed t))) (s_signature (signed t))
        else false).

(** Receipts *)
Definition receipt_hash `{!MsgPack Receipt} (r : Receipt) : Hash := data_hash r.
End transactions.

(** ** Theorems *)

Module NodeTheorems.
Section signing.
Context `{Hdig : Digest} `{Hb58 : Base58} `{Hring : Ring} `{Hlaws : RingLaws} `{!MsgPack BlockData} `{!MsgPack ConfirmationData}.
Variable rnd : Z.
#[local] Instance block_traits : Executable Block := Block_executable rnd.
#[local] Instance confirmation_traits : Confirmable Confirmation := Confirmation_confirmable rnd.

(** A key pair read from a document, as [load_keypair] does *)
Definition loaded (kp : Keys.TrinciKeyPair) : Prop :=
  match kp with
  | Keys.KpEcdsa k => exists pkcs8, ecdsa_from_pkcs8 (Keys.kp_curve_id k) pkcs8 = Some (Keys.imp k)
  | Keys.KpEd25519 _ => True
  end.

Lemma sign_verify kp data sig :
  loaded kp -> Keys.sign rnd kp data = Ok sig -> Keys.verify (Keys.public_key kp) data sig = true.
Proof.
  destruct kp as [k|k]; simpl.
  - intros [pkcs8 Hk]. unfold Keys.ecdsa_kp_sign. destruct (ecdsa_sign _ _ _) as [s|] eqn:Es; [|done]. intros [= <-].
    by eapply ecdsa_sign_verify.
  - intros _ [= <-]. apply ed25519_sign_verify.
Qed.

Lemma sign_or_empty_verify kp data :
  loaded kp -> is_ok (Keys.sign rnd kp data) = true ->
  Keys.verify (Keys.public_key kp) data (sign_or_empty rnd kp data) = true.
Proof.
  intros Hk. unfold sign_or_empty. destruct (Keys.sign rnd kp data) as [sig|] eqn:E; [|done]. intros _.
  by apply sign_verify.
Qed.

(** What a node signs with its own key its peers verify: a vote made and signed by the node,
    and a block it built, whatever hashes the block was given since, unless the signing
    fails; and the id of the vote's player and of the block's builder is that of its key. *)
Theorem own_signature_verifies kp hash n round hashes prev now txs rxs state :
  let vote := conf_sign kp (conf_new hash n round (Keys.public_key kp)) in
  let block := block_sign kp (set_state_hash state (set_rxs_hash rxs (set_txs_hash txs
                 (block_new (Keys.public_key kp) hashes n prev now)))) in
  loaded kp ->
  (is_ok (Keys.sign rnd kp (msgpack (conf_data vote))) = true -> conf_verify vote = true) /\
  (is_ok (Keys.sign rnd kp (msgpack (block_data block))) = true -> block_verify block = true) /\
  get_builder_id block = key_id (Keys.public_key kp) /\
  get_player_id vote = default EmptyString (key_id (Keys.public_key kp)).
Proof.
  intros vote block Hk. split_and!; [| |done|done].
  - intros Hs. by apply sign_or_empty_verify.
  - intros Hs. by apply sign_or_empty_verify.
Qed.
End signing.

Section ids.
Context `{Hdig : Digest} `{Hb58 : Base58}.

Lemma prefix_u8 l : Forall is_u8 l -> len l <= 32 ->
  Forall is_u8 (0x00 :: len l + 4 :: 0x08 :: 0x01 :: 0x12 :: len l :: l).
Proof.
  intros Hu Hl. pose proof (len_nonneg l). repeat constructor; try done; unfold u8_max; lia.
Qed.

(** Two Ed25519 keys, which have thirty-two bytes, never share an account id. *)
Theorem account_ids_injective k1 k2 :
  Forall is_u8 (Keys.ed_0 k1) -> Forall is_u8 (Keys.ed_0 k2) ->
  len (Keys.ed_0 k1) = 32 -> len (Keys.ed_0 k2) = 32 ->
  Keys.to_account_id (Keys.PkEd25519 k1) = Keys.to_account_id (Keys.PkEd25519 k2) -> k1 = k2.
Proof.
  intros Hu1 Hu2 Hl1 Hl2. simpl. rewrite !Keys.ed25519_to_account_id_ok by lia. intros [= H].
  apply bs58_inj in H; [|by apply prefix_u8; [|lia]..]. injection H as _ _ H. by destruct k1, k2; simpl in *; subst.
Qed.
End ids.

Section transactions.
Context `{Hdig : Digest} `{Hring : Ring} `{!MsgPack TransactionData}.

(** A node of a bulk that is as the bulk's root wants it *)
Definition node_ok (root : TransactionData) (node : SignedTransaction) : Prop :=
  exists d, s_data node = BulkNodeV1 d /\ n_depends_on d = tx_data_hash root /\ n_network d = TxData.get_network root.

Definition is_node (node : SignedTransaction) : bool :=
  match s_data node with BulkNodeV1 _ => true | _ => false end.

Lemma check_nodes_true root nodes :
  check_nodes (tx_data_hash root) (TxData.get_network root) nodes = Some true <-> Forall (node_ok root) nodes.
Proof.
  induction nodes as [|[d sig] nodes IH]; simpl; [by split; [constructor|]|]. rewrite Forall_cons. unfold node_ok at 1.
  cbn [s_data]. destruct d as [d|d|d|d|d]; simpl; try (split; [done|by intros [(? & [=] & _) _]]).
  case_bool_decide as Hd; simpl; [|split; [done|by intros [(? & [= <-] & ? & _) _]]].
  case_bool_decide as Hn; simpl; [|split; [done|by intros [(? & [= <-] & _ & ?) _]]].
  rewrite IH. split; [intros H; split; [by exists d|done]|by intros [_ ?]].
Qed.

Lemma check_nodes_panics root nodes :
  check_nodes (tx_data_hash root) (TxData.get_network root) nodes = None <->
  exists before node after, nodes = before ++ node :: after /\ Forall (node_ok root) before /\ is_node node = false.
Proof.
  induction nodes as [|[d sig] nodes IH]; simpl.
  { split; [done|]. by intros ([] & ? & ? & ? & _). }
  split.
  - destruct d as [d|d|d|d|d]; simpl; try (intros _; eexists [], _, nodes; by split_and!).
    case_bool_decide as Hd; simpl; [|done]. case_bool_decide as Hn; simpl; [|done].
    rewrite IH. intros (before & node & after & -> & Hb & Hi).
    exists (MkSigned (BulkNodeV1 d) sig :: before), node, after. split_and!; [done| |done].
    constructor; [by exists d|done].
  - intros ([|x before] & node & after & Heq & Hb & Hi); simplify_eq/=.
    + by destruct d.
    + apply Forall_cons in Hb as [(d' & Hd' & Hdep & Hnet) Hb]. simpl in Hd'. subst d. simpl.
      rewrite Hdep, Hnet, !bool_decide_true by done. simpl. apply IH. by exists before, node, after.
Qed.

Lemma v1_check_integrity_true d :
  v1_check_integrity d = true <->
  v1_account d <> EmptyString /\ v1_nonce d <> [] /\ v1_network d <> EmptyString /\ v1_method d <> EmptyString.
Proof. unfold v1_check_integrity. rewrite !andb_true_iff, !negb_true_iff, !bool_decide_eq_false. tauto. Qed.

Definition signature_ok (t : Transaction) : bool :=
  data_verify (s_data (signed t)) (TxData.get_caller (s_data (signed t))) (s_signature (signed t)).

Lemma unit_verify_spec t d : s_data (signed t) = V1 d ->
  verify t = Some true <->
  signature_ok t = true /\ v1_account d <> EmptyString /\ v1_nonce d <> [] /\ v1_network d <> EmptyString /\ v1_method d <> EmptyString.
Proof.
  intros Ed. unfold verify. fold (signature_ok t). rewrite Ed. simpl. rewrite <- v1_check_integrity_true.
  destruct (v1_check_integrity d); [|split; [done|by intros [_ ?]]].
  split; [by intros [= ->]|by intros [-> _]].
Qed.

(** C14: a transaction verifies exactly when it is signed by its caller and is either a unit with an
    account, a nonce, a network and a method, or a bulk with at least one node, all of
    whose nodes are bulk nodes that depend on its root and are for the root's network. *)
Theorem transaction_verify_spec t :
  verify t = Some true <->
  signature_ok t = true /\
  match s_data (signed t) with
  | V1 d => v1_account d <> EmptyString /\ v1_nonce d <> [] /\ v1_network d <> EmptyString /\ v1_method d <> EmptyString
  | BulkV1 d => exists nodes, bt_nodes (txs d) = Some nodes /\ nodes <> [] /\ Forall (node_ok (u_data (bt_root (txs d)))) nodes
  | _ => False
  end.
Proof.
  destruct (s_data (signed t)) as [d|d|d|d|d] eqn:Ed; [by apply unit_verify_spec|..];
    unfold verify; fold (signature_ok t); rewrite Ed; simpl; try (split; [done|by intros [_ []]]).
  - unfold bulk_check_integrity. destruct (bt_nodes (txs d)) as [[|x nodes]|].
    + split; [done|]. by intros (_ & ? & [= <-] & ? & _).
    + pose proof (check_nodes_true (u_data (bt_root (txs d))) (x :: nodes)) as Hc.
      destruct (check_nodes _ _ (x :: nodes)) as [[]|]; simpl.
      * split; [intros [= ->]; split; [done|]|by intros [-> _]]. eexists. split_and!; [done|done|by apply Hc].
      * split; [done|]. intros (_ & l & [= <-] & _ & H). by apply Hc in H.
      * split; [done|]. intros (_ & l & [= <-] & _ & H). by apply Hc in H.
    + split; [done|]. by intros (_ & ? & ? & _).
Qed.

(** Verifying a transaction panics exactly when it is a bulk with, after nodes that are as they
    should be, one whose data is not that of a bulk node: anyone can send one. *)
Theorem transaction_verify_panics t :
  verify t = None <->
  exists d before node after, s_data (signed t) = BulkV1 d /\ bt_nodes (txs d) = Some (before ++ node :: after) /\
    Forall (node_ok (u_data (bt_root (txs d)))) before /\ is_node node = false.
Proof.
  unfold verify. destruct (s_data (signed t)) as [d|d|d|d|d] eqn:Ed; simpl;
    try (split; [done|by intros (? & ? & ? & ? & [=] & _)]).
  unfold bulk_check_integrity. pose proof (check_nodes_panics (u_data (bt_root (txs d)))) as Hc.
  destruct (bt_nodes (txs d)) as [[|x nodes]|] eqn:En.
  - split; [done|]. intros (d' & [] & ? & ? & [= <-] & Hn & _); rewrite En in Hn; discriminate.
  - specialize (Hc (x :: nodes)). destruct (check_nodes _ _ (x :: nodes)) as [b|]; simpl.
    + split; [done|]. intros (d' & bf & nd & af & [= <-] & Hn & Hb & Hi). rewrite En in Hn. injection Hn as Hn.
      enough (Some b = None) by done. apply Hc. by exists bf, nd, af.
    + split; [intros _|done]. destruct (proj1 Hc eq_refl) as (bf & nd & af & Hx & Hb & Hi).
      exists d, bf, nd, af. rewrite En, Hx. by split_and!.
  - split; [done|]. intros (d' & ? & ? & ? & [= <-] & Hn & _). by rewrite En in Hn.
Qed.

(** Whether a bulk is rooted, at whatever depth, in an empty root *)
Fixpoint empty_rooted (d : TransactionData) : bool :=
  match d with
  | BulkV1 (MkBulkV1 (MkBulkTransactions (MkUnsigned root) _)) => empty_rooted root
  | BulkEmptyRoot _ => true
  | _ => false
  end.

(** Setting the contract or the account of a transaction panics only on a bulk rooted in an
    empty root; otherwise what was set is read back, of a bulk at its root, and the other
    fields are unchanged. *)
Theorem setters_spec c a d :
  match TxData.set_contract c d with
  | Some d' => TxData.get_contract d' = Some c /\ TxData.get_caller d' = TxData.get_caller d /\
               TxData.get_network d' = TxData.get_network d /\ TxData.get_account d' = TxData.get_account d
  | None => empty_rooted d = true
  end /\
  match TxData.set_account a d with
  | Some d' => TxData.get_account d' = a /\ TxData.get_caller d' = TxData.get_caller d /\
               TxData.get_network d' = TxData.get_network d /\ TxData.get_contract d' = TxData.get_contract d
  | None => empty_rooted d = true
  end.
Proof.
  revert d. fix IH 1. intros [d|d|d|[[[root] nodes]]|d]; simpl; try by split_and!.
  destruct (IH root) as [H1 H2]. split.
  - by destruct (TxData.set_contract c root).
  - by destruct (TxData.set_account a root).
Qed.
End transactions.

(** ** Witnesses *)
Section witnesses.
#[local] Existing Instances Samples.digest Samples.base58 Samples.ring.
#[local] Instance block_pack : MsgPack BlockData := {| msgpack := fun d => [bd_height d] |}.
#[local] Instance conf_pack : MsgPack ConfirmationData := {| msgpack := fun d => [cd_block_height d; cd_block_round d] |}.
#[local] Instance tx_pack : MsgPack TransactionData :=
  {| msgpack := fun d => match d with V1 _ => [1] | BulkNodeV1 _ => [2] | BulkRootV1 _ => [3] | BulkV1 _ => [4] | BulkEmptyRoot _ => [5] end |}.

Lemma sample_ring_laws : RingLaws.
Proof.
  split; simpl.
  - intros c pkcs8 k _ data sig _ [= <-]. by apply bool_decide_eq_true.
  - intros k data. by apply bool_decide_eq_true.
Qed.

Lemma own_signature_verifies_witness :
  conf_verify (Confirmable := Confirmation_confirmable 0)
    (conf_sign (Confirmable := Confirmation_confirmable 0) (Samples.keypair "a")
       (conf_new (Confirmable := Confirmation_confirmable 0) (Samples.hash 1) 3 0 (Keys.public_key (Samples.keypair "a")))) = true.
Proof.
  apply (own_signature_verifies (Hlaws := sample_ring_laws) 0 (Samples.keypair "a") (Samples.hash 1) 3 0 []
    (Samples.hash 0) 0 (Samples.hash 0) (Samples.hash 0) (Samples.hash 0)).
  - exact I.
  - reflexivity.
Defined.

Lemma account_ids_injective_witness :
  Keys.MkEd25519PublicKey (replicate 32 7) = Keys.MkEd25519PublicKey (replicate 32 7).
Proof.
  apply account_ids_injective; [apply Forall_replicate; by unfold is_u8, u8_max..|reflexivity|reflexivity|reflexivity].
Defined.

Definition sample_key : Keys.TrinciPublicKey := Keys.public_key (Samples.keypair "a").
Definition sample_root : TransactionData :=
  BulkRootV1 (MkV1 "acc" 1000 [1] "net" None "pay" sample_key []).
Definition sample_node (depends_on : Hash) (sig : list Z) : SignedTransaction :=
  MkSigned (BulkNodeV1 (MkNodeV1 "acc" 1000 [2] "net" None "pay" sample_key [] depends_on)) sig.
Definition sample_bulk (nodes : list SignedTransaction) : Transaction :=
  BulkTransaction (MkSigned (BulkV1 (MkBulkV1 (MkBulkTransactions (MkUnsigned sample_root) (Some nodes))))
    (into_bytes "a" ++ [4])).

(** The signatures of the nodes of a bulk are not looked at: a bulk with a node whose own
    signature does not verify is accepted. *)
Theorem node_signature_unchecked :
  let node := sample_node (tx_data_hash sample_root) [0] in
  data_verify (s_data node) (TxData.get_caller (s_data node)) (s_signature node) = false /\
  verify (sample_bulk [node]) = Some true.
Proof. split; vm_compute; reflexivity. Qed.

(** A bulk whose node is a plain transaction panics whoever verifies it. *)
Theorem plain_node_panics :
  verify (sample_bulk [MkSigned (V1 (MkV1 "acc" 1000 [2] "net" None "pay" sample_key [])) []]) = None.
Proof. vm_compute. reflexivity. Qed.
End witnesses.
End NodeTheorems.
