(* ===== verification/NodeErrors.v ===== *)
(** * The errors of the node ([trinci-node/src/artifacts/errors.rs])

    The error types and the texts that end in the receipts of transactions.  A string
    is the sequence of its UTF-8 bytes; a text is cut after 126 bytes, and cutting
    inside a character panics ([None]).  The hexadecimal encoding is a parameter. *)

From stdpp Require Import base gmap strings list.
From S2P Require Import Prelude.
From S2P Require Import Hash.
From S2P Require Import Crypto.
From S2P Require Import CoreModels.
From S2P Require Import NodeModels.
Open Scope Z_scope.

(** [hex::encode] *)
Class Hex : Type := { hex_encode : list Z -> string }.

Definition MAX_ERROR_SOURCE_STRING_LENGTH : nat := 128.

Inductive DBError : Type :=
| BlockAlreadyInDB
| CreateFork
| MergeFork
| PlayerRetrievalError
| TxAlreadyInDB.

Inductive WasmError : Type :=
| AccountFault (e : string)
| BulkExecutionFault (receipt : Receipt)
| BlockExecutionMismatch (block_data : BlockData) (state_hash txs_root rxs_root : Hash)
| FuelError (e : string)
| InvalidContract (e : string)
| NotImplemented (e : string)
| ResourceNotFound (e : string)
| SmartContractFault (e : string)
| WasmMachineFault (e : string).

(** The errors of channels and sockets carry values of the libraries, which nothing reads. *)
Inductive NodeError : Type :=
| NodeCommError
| NodeCryptoError (e : CryptoError)
| NodeDBError (e : DBError)
| DeserializationError (e : string)
| GenericError
| SerializationError (e : string)
| SocketError
| NodeWasmError (e : WasmError).

Module ErrorText.
(** [str::is_char_boundary]: no byte [10xxxxxx] follows. *)
Definition is_char_boundary (s : string) (i : nat) : bool :=
  match i with
  | O => true
  | _ => match String.get i s with
         | Some c => negb (Nat.leb 128 (Ascii.nat_of_ascii c) && Nat.ltb (Ascii.nat_of_ascii c) 192)
         | None => Nat.eqb i (String.length s)
         end
  end.

(** [&err_string[..n]] *)
Definition format_error_string (err_string : string) : option string :=
  let n := Nat.min (String.length err_string) (MAX_ERROR_SOURCE_STRING_LENGTH - 2) in
  if is_char_boundary err_string n then Some (String.substring 0 n err_string) else None.

Section text.
Context {Hhex : Hex}.

Definition newline : string := String (Ascii.ascii_of_nat 10) EmptyString.
Definition tab : string := String (Ascii.ascii_of_nat 9) EmptyString.
Definition hash_hex (h : Hash) : string := hex_encode (default [] (Hashes.as_bytes h)).

Definition prefixed (prefix : string) (e : string) : option string :=
  text ← format_error_string e; Some (prefix ++ text)%string.

Definition to_string (err : WasmError) : option string :=
  match err with
  | AccountFault e => prefixed "account fault: " e
  | BulkExecutionFault _ => Some "bulk execution fault"
  | BlockExecutionMismatch d s t r =>
      let line name h := (newline ++ tab ++ name ++ " - " ++ hash_hex h)%string in
      Some ("Hashes mismatch after block execution. Calculated:" ++
            line "state_hash" s ++ line "txs_root" t ++ line "rxs_root" r ++
            newline ++ "Expected:" ++
            line "state_hash" (bd_state_hash d) ++ line "txs_root" (bd_txs_hash d) ++ line "rxs_root" (bd_rxs_hash d))%string
  | FuelError e => prefixed "burning fuel error: " e
  | InvalidContract e => prefixed "invalid contract hash: " e
  | NotImplemented e => prefixed "not implemented: " e
  | ResourceNotFound e => prefixed "resource not found: " e
  | SmartContractFault e => prefixed "smart contract fault: " e
  | WasmMachineFault e => prefixed "wasm machine fault: " e
  end.

(** [s.split_once(": ")], its first component *)
Fixpoint before_colon (s : string) : option string :=
  match s with
  | EmptyString => None
  | String c s' =>
      if starts_with ": " s then Some EmptyString
      else (fun p => String c p) <$> before_colon s'
  end.

Definition to_string_kind (err : WasmError) : option string := to_string err ≫= before_colon.
End text.
End ErrorText.

(** ** Theorems *)
Module ErrorTheorems.
Import ErrorText.
Section text.
Context {Hhex : Hex}.

(** The payload of an error, for those whose text has it *)
Definition payload (err : WasmError) : option string :=
  match err with
  | BulkExecutionFault _ | BlockExecutionMismatch _ _ _ _ => None
  | AccountFault e | FuelError e | InvalidContract e | NotImplemented e | ResourceNotFound e
  | SmartContractFault e | WasmMachineFault e => Some e
  end.

Definition kind (err : WasmError) : string :=
  match err with
  | AccountFault _ => "account fault"
  | BulkExecutionFault _ | BlockExecutionMismatch _ _ _ _ => EmptyString
  | FuelError _ => "burning fuel error"
  | InvalidContract _ => "invalid contract hash"
  | NotImplemented _ => "not implemented"
  | ResourceNotFound _ => "resource not found"
  | SmartContractFault _ => "smart contract fault"
  | WasmMachineFault _ => "wasm machine fault"
  end.

(** Byte 126 of a text is inside a character. *)
Definition cut_inside (s : string) : Prop :=
  exists c, String.get 126 s = Some c /\ (128 <= Ascii.nat_of_ascii c < 192)%nat.

Lemma get_length s : String.get (String.length s) s = None.
Proof. induction s as [|c s IH]; simpl; [done|exact IH]. Qed.

Lemma get_short s n : (String.length s <= n)%nat -> String.get n s = None.
Proof.
  revert n. induction s as [|c s IH]; intros [|n] H; simpl in *; try done; [lia|]. apply IH. lia.
Qed.

Lemma get_long s n : (n < String.length s)%nat -> is_Some (String.get n s).
Proof.
  revert n. induction s as [|c s IH]; intros [|n] H; simpl in *; try lia; [by eexists|]. apply IH. lia.
Qed.

Lemma format_error_string_None s : format_error_string s = None <-> cut_inside s.
Proof.
  unfold format_error_string, cut_inside, MAX_ERROR_SOURCE_STRING_LENGTH. change (128 - 2)%nat with 126%nat.
  destruct (decide (String.length s <= 126)%nat) as [Hs|Hs].
  - rewrite Nat.min_l by lia.
    assert (is_char_boundary s (String.length s) = true) as ->.
    { unfold is_char_boundary. rewrite get_length, Nat.eqb_refl. by destruct (String.length s). }
    split; [done|]. intros (c & Hc & _). by rewrite get_short in Hc by lia.
  - rewrite Nat.min_r by lia. unfold is_char_boundary.
    destruct (String.get 126 s) as [c|] eqn:E.
    + split.
      * destruct (Nat.leb_spec 128 (Ascii.nat_of_ascii c)), (Nat.ltb_spec (Ascii.nat_of_ascii c) 192); simpl; try done.
        intros _. by exists c.
      * intros (c' & [= <-] & Hlo & Hhi). apply Nat.leb_le in Hlo. apply Nat.ltb_lt in Hhi. by rewrite Hlo, Hhi.
    + exfalso. destruct (get_long s 126 ltac:(lia)) as [c Hc]. congruence.
Qed.

Lemma prefixed_None p e : prefixed p e = None <-> cut_inside e.
Proof. unfold prefixed. rewrite <- format_error_string_None. by destruct (format_error_string e). Qed.

(** The text of an error panics exactly when its payload has a character of several bytes
    across its byte 126, as a contract may choose it. *)
Theorem to_string_panics err :
  to_string err = None <-> exists e, payload err = Some e /\ cut_inside e.
Proof.
  destruct err; simpl; try rewrite prefixed_None; try (split; [done|by intros (? & [=] & _)]);
    (split; [by eexists|by intros (? & [= <-] & ?)]).
Qed.

(** The kind of an error, which is what a receipt says of an internal one, shows nothing of
    its payload; on the fault of a bulk, which has none, it panics. *)
Theorem kind_hides_payload err receipt :
  match payload err with
  | Some e => to_string_kind err = if format_error_string e is Some _ then Some (kind err) else None
  | None => True
  end /\
  to_string_kind (BulkExecutionFault receipt) = None.
Proof.
  split; [|reflexivity].
  destruct err; simpl; try exact I; unfold to_string_kind; simpl; unfold prefixed;
    destruct (format_error_string _); reflexivity.
Qed.
End text.
End ErrorTheorems.
