(* ===== verification/Database.v ===== *)
(** * The database of the node
    ([trinci-node/src/artifacts/{db,rocks_db}.rs])

    [Db] and [DbFork] are the traits the services of the node are written against; the
    [RocksDb] instances implement them over the [merkledb] crate, which is a parameter:
    maps and lists under an address, and forks that are flushed, rolled back and
    merged. *)

From stdpp Require Import base gmap strings list fin_maps.
From S2P Require Import Prelude.
From S2P Require Import Hash.
From S2P Require Import Crypto.
From S2P Require Import CoreModels.
From S2P Require Import NodeModels.
From S2P Require Import NodeErrors.
Open Scope Z_scope.

(** [consts.rs] *)
Module NodeConsts.
Definition SERVICE_ACCOUNT_ID : string := "TRINCI".
Definition MINING_COIN_KEY : string := "stake_coin".
Definition VALIDATORS_KEY : string := "blockchain:validators".
Definition SETTINGS_KEY : string := "blockchain:settings".
Definition SLASHED_KEY : string := "blockchain:slashed_player".
End NodeConsts.

(** ** The traits *)

(** [DbFork]: methods on [&mut self] return the fork they leave. *)
Class DbFork (F : Type) : Type := {
  state_hash : string -> F -> Hash;
  fork_load_account : string -> F -> option Account.t;
  store_account : Account.t -> F -> F;
  fork_load_account_data : string -> string -> F -> option (list Z);
  store_account_data : string -> string -> list Z -> F -> F;
  fork_load_data : string -> F -> option (list Z);
  store_data : string -> list Z -> F -> F;
  remove_account_data : string -> string -> F -> F;
  fork_load_account_keys : string -> F -> list string;
  store_attachment : Hash -> Hash -> F -> F;
  store_transaction : Hash -> Transaction -> F -> F;
  store_receipt : Hash -> Receipt -> F -> F;
  store_block : Block -> list Confirmation -> F -> F;
  store_transactions_hashes : Z -> list Hash -> F -> F * Hash;
  store_receipts_hashes : Z -> list Hash -> F -> F * Hash;
  flush : F -> F;
  rollback : F -> F;
  store_configuration : string -> list Z -> F -> F
}.

(** [Db] over the forks [F] *)
Class Db (D F : Type) : Type := {
  load_account : string -> D -> option Account.t;
  load_account_keys : string -> D -> list string;
  load_account_data : string -> string -> D -> option (list Z);
  load_attachment : Hash -> D -> option Hash;
  load_data : string -> D -> option (list Z);
  contains_attachment : Hash -> D -> bool;
  contains_transaction : Hash -> D -> bool;
  load_transaction : Hash -> D -> option Transaction;
  load_receipt : Hash -> D -> option Receipt;
  load_confirmations : Z -> D -> option (list Confirmation);
  load_block : Z -> D -> option Block;
  load_full_block : Z -> D -> option (FullBlock Block Confirmation Transaction);
  load_transactions_hashes : Z -> D -> option (list Hash);
  create_fork : D -> D * F;
  merge_fork : F -> D -> Result D NodeError;
  load_configuration : string -> D -> option (list Z)
}.

(** One write to a fork, through the trait, that does not add a block *)
Inductive writes {F : Type} `{!DbFork F} : F -> F -> Prop :=
| write_account a f : writes f (store_account a f)
| write_account_data id k d f : writes f (store_account_data id k d f)
| write_data k d f : writes f (store_data k d f)
| write_removal id k f : writes f (remove_account_data id k f)
| write_attachment hash parent f : writes f (store_attachment hash parent f)
| write_transaction hash tx f : writes f (store_transaction hash tx f)
| write_receipt hash r f : writes f (store_receipt hash r f)
| write_transactions_hashes n hs f : writes f (fst (store_transactions_hashes n hs f))
| write_receipts_hashes n hs f : writes f (fst (store_receipts_hashes n hs f))
| write_configuration id config f : writes f (store_configuration id config f).
#[export] Hint Constructors writes : trinci.

(** What the clients rely on of a fork: no write is a checkpoint, [rollback] undoes the
    writes since the last one, and [flush] changes nothing that is read. *)
Class DbForkLaws (F : Type) `{!DbFork F} : Prop := {
  rollback_write : forall f f', writes f f' -> rollback f' = rollback f;
  rollback_flush : forall f, rollback (flush f) = flush f;
  rollback_rollback : forall f, rollback (rollback f) = rollback f;
  flush_load_account : forall id f, fork_load_account id (flush f) = fork_load_account id f;
  flush_load_account_data : forall id k f, fork_load_account_data id k (flush f) = fork_load_account_data id k f;
  flush_state_hash : forall id f, state_hash id (flush f) = state_hash id f
}.

(** What they rely on of a database: [based d f] says that [f] was made from the present
    state of [d], which [merge_fork] wants of the fork it merges, and has had no block added. *)
Class DbLaws (D F : Type) `{!Db D F} `{!DbFork F} : Type := {
  db_ok : D -> Prop;
  based : D -> F -> Prop;
  based_create : forall d, db_ok d ->
    db_ok (fst (create_fork d)) /\ based (fst (create_fork d)) (snd (create_fork d)) /\
    (forall f, based d f -> based (fst (create_fork d)) f);
  based_write : forall d f f', writes f f' -> based d f -> based d f';
  based_flush : forall d f, based d f -> based d (flush f);
  based_rollback : forall d f, based d f -> based d (rollback f);
  merge_ok : forall d d' f, db_ok d -> based d f -> merge_fork f d = Ok d' -> db_ok d';
  merge_block_ok : forall d d' f b cs, db_ok d -> based d f -> merge_fork (store_block b cs f) d = Ok d' -> db_ok d'
}.

Lemma rollback_writes {F : Type} `{Hf : DbForkLaws F} (f f' : F) : rtc writes f f' -> rollback f' = rollback f.
Proof. induction 1 as [|f1 f2 f3 H _ IH]; [done|]. rewrite IH. by apply rollback_write. Qed.

Lemma based_writes {D F : Type} `{Hd : DbLaws D F} d f f' : rtc writes f f' -> based d f -> based d f'.
Proof. induction 1 as [|f1 f2 f3 H _ IH]; [done|]. intros Hb. by eapply IH, based_write. Qed.

(** ** The [merkledb] crate *)

(** The indexes the code opens, with the types of their keys and values *)
Inductive map_index : Type -> Type -> Type :=
| ACCOUNTS : map_index string Account.t
| ACCOUNT_DATA (id : string) : map_index string (list Z)
| ATTACHMENTS : map_index Hash Hash
| CONFIG : map_index string (list Z)
| INTERNAL_DB : map_index string (list Z)
| RECEIPTS : map_index Hash Receipt
| TRANSACTIONS : map_index Hash Transaction.

Inductive list_index : Type -> Type :=
| BLOCKS : list_index Block
| CONFIRMATIONS : list_index (list Confirmation)
| RECEIPTS_HASH (height : Z) : list_index Hash
| TRANSACTIONS_HASH (height : Z) : list_index Hash.

(** The addresses of the indexes: a name, and an account id or a height *)
Definition map_address {K V} (i : map_index K V) : string * option string :=
  match i with
  | ACCOUNTS => ("accounts", None)
  | ACCOUNT_DATA id => ("accounts", Some id)
  | ATTACHMENTS => ("attachments", None)
  | CONFIG => ("config", None)
  | INTERNAL_DB => ("internal_db", None)
  | RECEIPTS => ("receipts", None)
  | TRANSACTIONS => ("transactions", None)
  end.
Definition list_address {V} (i : list_index V) : string * option Z :=
  match i with
  | BLOCKS => ("blocks", None)
  | CONFIRMATIONS => ("confirmations", None)
  | RECEIPTS_HASH n => ("receipts_hash", Some n)
  | TRANSACTIONS_HASH n => ("transactions_hash", Some n)
  end.

(** A [View] is what a snapshot or a fork shows. *)
Class MerkleDb : Type := {
  View : Type;
  Fork : Type;
  Patch : Type;
  RocksDB : Type;
  map_get : forall {K V}, map_index K V -> View -> K -> option V;
  map_keys : forall {K V}, map_index K V -> View -> list K;
  map_hash : forall {K V}, map_index K V -> View -> Hash;
  list_len : forall {V}, list_index V -> View -> Z;
  list_get : forall {V}, list_index V -> View -> Z -> option V;
  list_hash : forall {V}, list_index V -> View -> Hash;
  fork_view : Fork -> View;
  map_put : forall {K V}, map_index K V -> K -> V -> Fork -> Fork;
  map_remove : forall {K V}, map_index K V -> K -> Fork -> Fork;
  list_push : forall {V}, list_index V -> V -> Fork -> Fork;
  fork_flush : Fork -> Fork;
  fork_rollback : Fork -> Fork;
  snapshot : RocksDB -> View;
  backend_fork : RocksDB -> Fork;
  into_patch : Fork -> Patch;
  merge : Patch -> RocksDB -> option RocksDB;
  (** the view the fork was made from *)
  fork_base : Fork -> View
}.

(** The documented behaviour of the crate *)
Class MerkleDbLaws `{MerkleDb} : Prop := {
  get_put : forall {K V} (i : map_index K V) k v f, map_get i (fork_view (map_put i k v f)) k = Some v;
  get_put_key : forall {K V} (i : map_index K V) k k' v f, k <> k' ->
    map_get i (fork_view (map_put i k v f)) k' = map_get i (fork_view f) k';
  get_put_index : forall {K V K' V'} (i : map_index K V) (j : map_index K' V') k k' v f,
    map_address i <> map_address j -> map_get j (fork_view (map_put i k v f)) k' = map_get j (fork_view f) k';
  get_remove : forall {K V} (i : map_index K V) k f, map_get i (fork_view (map_remove i k f)) k = None;
  get_remove_key : forall {K V} (i : map_index K V) k k' f, k <> k' ->
    map_get i (fork_view (map_remove i k f)) k' = map_get i (fork_view f) k';
  get_remove_index : forall {K V K' V'} (i : map_index K V) (j : map_index K' V') k k' f,
    map_address i <> map_address j -> map_get j (fork_view (map_remove i k f)) k' = map_get j (fork_view f) k';
  get_push : forall {K V W} (j : map_index K V) (i : list_index W) v f k,
    map_get j (fork_view (list_push i v f)) k = map_get j (fork_view f) k;
  keys_get : forall {K V} (i : map_index K V) w k, k ∈ map_keys i w <-> is_Some (map_get i w k);
  len_nonneg_list : forall {V} (i : list_index V) w, 0 <= list_len i w;
  list_get_len : forall {V} (i : list_index V) w n, is_Some (list_get i w n) <-> 0 <= n < list_len i w;
  len_push : forall {V} (i : list_index V) v f,
    list_len i (fork_view (list_push i v f)) = list_len i (fork_view f) + 1;
  list_get_push : forall {V} (i : list_index V) v f n,
    list_get i (fork_view (list_push i v f)) n =
      if n =? list_len i (fork_view f) then Some v else list_get i (fork_view f) n;
  len_push_index : forall {V W} (i : list_index V) (j : list_index W) v f, list_address i <> list_address j ->
    list_len j (fork_view (list_push i v f)) = list_len j (fork_view f);
  list_get_push_index : forall {V W} (i : list_index V) (j : list_index W) v f n, list_address i <> list_address j ->
    list_get j (fork_view (list_push i v f)) n = list_get j (fork_view f) n;
  list_get_put : forall {K V W} (i : map_index K V) (j : list_index W) k v f n,
    list_get j (fork_view (map_put i k v f)) n = list_get j (fork_view f) n;
  len_put : forall {K V W} (i : map_index K V) (j : list_index W) k v f,
    list_len j (fork_view (map_put i k v f)) = list_len j (fork_view f);
  list_get_remove : forall {K V W} (i : map_index K V) (j : list_index W) k f n,
    list_get j (fork_view (map_remove i k f)) n = list_get j (fork_view f) n;
  len_remove : forall {K V W} (i : map_index K V) (j : list_index W) k f,
    list_len j (fork_view (map_remove i k f)) = list_len j (fork_view f);
  view_flush : forall f, fork_view (fork_flush f) = fork_view f;
  rollback_after_put : forall {K V} (i : map_index K V) k v f, fork_rollback (map_put i k v f) = fork_rollback f;
  rollback_after_remove : forall {K V} (i : map_index K V) k f, fork_rollback (map_remove i k f) = fork_rollback f;
  rollback_after_push : forall {V} (i : list_index V) v f, fork_rollback (list_push i v f) = fork_rollback f;
  rollback_after_flush : forall f, fork_rollback (fork_flush f) = fork_flush f;
  rollback_twice : forall f, fork_rollback (fork_rollback f) = fork_rollback f;
  base_fork : forall b, fork_base (backend_fork b) = snapshot b;
  view_fork : forall b, fork_view (backend_fork b) = snapshot b;
  view_rollback_fork : forall b, fork_view (fork_rollback (backend_fork b)) = snapshot b;
  base_put : forall {K V} (i : map_index K V) k v f, fork_base (map_put i k v f) = fork_base f;
  base_remove : forall {K V} (i : map_index K V) k f, fork_base (map_remove i k f) = fork_base f;
  base_push : forall {V} (i : list_index V) v f, fork_base (list_push i v f) = fork_base f;
  base_flush : forall f, fork_base (fork_flush f) = fork_base f;
  base_rollback : forall f, fork_base (fork_rollback f) = fork_base f;
  (** A fork made from the present state can be merged, and its contents become the state. *)
  merge_view : forall f b b', fork_base f = snapshot b -> merge (into_patch f) b = Some b' -> snapshot b' = fork_view f
}.

(** ** [RocksDb] *)

Module RocksDb.
Section rocks_db.
Context `{Hdig : Digest} `{!MsgPack TransactionData} `{Hmdb : MerkleDb}.

Record t : Type := Mk { backend : RocksDB; snap : View }.

(** [RocksDb::new] over the backend that was opened *)
Definition new (backend : RocksDB) : t := Mk backend (snapshot backend).

Definition u64_MAX : Z := u64_max.

(** [list.last()] *)
Definition list_last {V} (i : list_index V) (w : View) : option V :=
  if list_len i w =? 0 then None else list_get i w (list_len i w - 1).

(** [list.into_iter()] and [map.is_empty()] of a list *)
Definition list_all {V} (i : list_index V) (w : View) : list V :=
  omap (list_get i w) (map Z.of_nat (seq 0 (Z.to_nat (list_len i w)))).

Definition load_attachment (hash : Hash) (db : t) : option Hash := map_get ATTACHMENTS (snap db) hash.

Definition contains_attachment (hash : Hash) (db : t) : bool :=
  bool_decide (is_Some (map_get ATTACHMENTS (snap db) hash)).

Definition contains_transaction (hash : Hash) (db : t) : bool :=
  if bool_decide (is_Some (map_get TRANSACTIONS (snap db) hash)) then true else contains_attachment hash db.

Definition load_transaction (hash : Hash) (db : t) : option Transaction :=
  match map_get TRANSACTIONS (snap db) hash with
  | Some tx => Some tx
  | None =>
      parent_tx ← load_attachment hash db;
      parent ← map_get TRANSACTIONS (snap db) parent_tx;
      match parent with
      | BulkTransaction bulk_tx =>
          match s_data bulk_tx with
          | BulkV1 bulk_v1 =>
              nodes_tx ← bt_nodes (txs bulk_v1);
              result ← find (fun node_tx => bool_decide (tx_data_hash (s_data node_tx) = hash)) nodes_tx;
              Some (UnitTransaction result)
          | _ => None
          end
      | UnitTransaction _ => None
      end
  end.

Definition load_receipt (hash : Hash) (db : t) : option Receipt :=
  match map_get RECEIPTS (snap db) hash with
  | Some receipt => Some receipt
  | None => parent_tx ← load_attachment hash db; map_get RECEIPTS (snap db) parent_tx
  end.

Definition load_confirmations (height : Z) (db : t) : option (list Confirmation) :=
  if height =? u64_MAX then list_last CONFIRMATIONS (snap db) else list_get CONFIRMATIONS (snap db) height.

Definition load_block (height : Z) (db : t) : option Block :=
  if height =? u64_MAX then list_last BLOCKS (snap db) else list_get BLOCKS (snap db) height.

Definition load_transactions_hashes (height : Z) (db : t) : option (list Hash) :=
  if list_len (TRANSACTIONS_HASH height) (snap db) =? 0 then None
  else Some (list_all (TRANSACTIONS_HASH height) (snap db)).

Definition load_full_block (height : Z) (db : t) : option (FullBlock Block Confirmation Transaction) :=
  block ← load_block height db;
  confirmations ← load_confirmations height db;
  txs_hashes ← load_transactions_hashes (bd_height (block_data block)) db;
  let txs := omap (fun tx_hash => load_transaction tx_hash db) txs_hashes in
  if negb (len txs =? len txs_hashes) then None else Some (MkFullBlock block confirmations txs).

Definition merge_fork (fork : Fork) (db : t) : Result t NodeError :=
  match merge (into_patch fork) (backend db) with
  | Some b => Ok (Mk b (snapshot b))
  | None => Err (NodeDBError MergeFork)
  end.

#[global] Instance rocks_db : Db t Fork := {
  load_account := fun id db => map_get ACCOUNTS (snap db) id;
  load_account_keys := fun id db => map_keys (ACCOUNT_DATA id) (snap db);
  load_account_data := fun id key db => map_get (ACCOUNT_DATA id) (snap db) key;
  load_attachment := load_attachment;
  load_data := fun key db => map_get INTERNAL_DB (snap db) key;
  contains_attachment := contains_attachment;
  contains_transaction := contains_transaction;
  load_transaction := load_transaction;
  load_receipt := load_receipt;
  load_confirmations := load_confirmations;
  load_block := load_block;
  load_full_block := load_full_block;
  load_transactions_hashes := load_transactions_hashes;
  create_fork := fun db => (db, backend_fork (backend db));
  merge_fork := merge_fork;
  load_configuration := fun id db => map_get CONFIG (snap db) id
}.

(** [RocksDbFork] *)
Definition state_hash (id : string) (f : Fork) : Hash :=
  if bool_decide (id = EmptyString) then map_hash ACCOUNTS (fork_view f) else map_hash (ACCOUNT_DATA id) (fork_view f).

Definition store_transaction (hash : Hash) (transaction : Transaction) (f : Fork) : Fork :=
  let f :=
    match transaction with
    | BulkTransaction bulk =>
        match s_data bulk with
        | BulkV1 bulk_data =>
            let f := map_put ATTACHMENTS (tx_data_hash (u_data (bt_root (txs bulk_data)))) hash f in
            match bt_nodes (txs bulk_data) with
            | Some node_txs =>
                fold_left (fun f node_tx => map_put ATTACHMENTS (tx_data_hash (s_data node_tx)) hash f) node_txs f
            | None => f
            end
        | _ => f
        end
    | UnitTransaction _ => f
    end in
  map_put TRANSACTIONS hash transaction f.

Definition push_all {V} (i : list_index V) (l : list V) (f : Fork) : Fork := fold_left (fun f x => list_push i x f) l f.

Definition store_transactions_hashes (height : Z) (hashes : list Hash) (f : Fork) : Fork * Hash :=
  let f := push_all (TRANSACTIONS_HASH height) hashes f in (f, list_hash (TRANSACTIONS_HASH height) (fork_view f)).

Definition store_receipts_hashes (height : Z) (hashes : list Hash) (f : Fork) : Fork * Hash :=
  let f := push_all (RECEIPTS_HASH height) hashes f in (f, list_hash (RECEIPTS_HASH height) (fork_view f)).

#[global] Instance rocks_db_fork : DbFork Fork := {
  state_hash := state_hash;
  fork_load_account := fun id f => map_get ACCOUNTS (fork_view f) id;
  store_account := fun a f => map_put ACCOUNTS (Account.id a) a f;
  fork_load_account_data := fun id key f => map_get (ACCOUNT_DATA id) (fork_view f) key;
  store_account_data := fun id key data f => map_put (ACCOUNT_DATA id) key data f;
  fork_load_data := fun key f => map_get INTERNAL_DB (fork_view f) key;
  store_data := fun key data f => map_put INTERNAL_DB key data f;
  remove_account_data := fun id key f => map_remove (ACCOUNT_DATA id) key f;
  fork_load_account_keys := fun id f => map_keys (ACCOUNT_DATA id) (fork_view f);
  store_attachment := fun hash parent_hash f => map_put ATTACHMENTS hash parent_hash f;
  store_transaction := store_transaction;
  store_receipt := fun hash receipt f => map_put RECEIPTS hash receipt f;
  store_block := fun block confirmations f => list_push CONFIRMATIONS confirmations (list_push BLOCKS block f);
  store_transactions_hashes := store_transactions_hashes;
  store_receipts_hashes := store_receipts_hashes;
  flush := fork_flush;
  rollback := fork_rollback;
  store_configuration := fun id config f => map_put CONFIG id config f
}.

(** ** The instances keep what the traits promise *)

(** What the writes leave of a function of the fork that the operations on indexes leave; the
    lists they push to are those of the hashes. *)
Section frame.
Context {X : Type} (g : Fork -> X).
Hypothesis Hput : forall K V (i : map_index K V) k v f, g (map_put i k v f) = g f.
Hypothesis Hremove : forall K V (i : map_index K V) k f, g (map_remove i k f) = g f.
Hypothesis Htxs : forall height v f, g (list_push (TRANSACTIONS_HASH height) v f) = g f.
Hypothesis Hrxs : forall height v f, g (list_push (RECEIPTS_HASH height) v f) = g f.

Lemma push_all_frame {V} (i : list_index V) l f : (forall v f, g (list_push i v f) = g f) -> g (push_all i l f) = g f.
Proof.
  intros Hpush. unfold push_all. revert f. induction l as [|v l IH]; intros f; [done|]. simpl. by rewrite IH.
Qed.

Lemma store_nodes_frame hash nodes f :
  g (fold_left (fun f node => map_put ATTACHMENTS (tx_data_hash (s_data node)) hash f) nodes f) = g f.
Proof. revert f. induction nodes as [|node nodes IH]; intros f; [done|]. simpl. by rewrite IH. Qed.

Lemma store_transaction_frame hash tx f : g (store_transaction hash tx f) = g f.
Proof.
  unfold store_transaction. rewrite Hput. destruct tx as [tx|tx]; [done|]. destruct (s_data tx); try done.
  destruct (bt_nodes _); by rewrite ?store_nodes_frame, Hput.
Qed.

Lemma writes_frame f f' : writes f f' -> g f' = g f.
Proof.
  destruct 1; simpl; rewrite ?push_all_frame by auto; rewrite ?store_transaction_frame, ?Hput, ?Hremove; done.
Qed.
End frame.

#[global] Instance rocks_db_fork_laws `{!MerkleDbLaws} : DbForkLaws Fork.
Proof.
  split.
  - intros f f'. apply (writes_frame fork_rollback); intros;
      [apply rollback_after_put|apply rollback_after_remove|apply rollback_after_push|apply rollback_after_push].
  - apply rollback_after_flush.
  - apply rollback_twice.
  - intros id f. simpl. by rewrite view_flush.
  - intros id k f. simpl. by rewrite view_flush.
  - intros id f. simpl. unfold state_hash. by rewrite view_flush.
Qed.

(** The snapshot of a database is that of its backend. *)
Definition fresh (db : t) : Prop := snap db = snapshot (backend db).
(** [f] was made from the present state of [db]. *)
Definition based_on (db : t) (f : Fork) : Prop := fork_base f = snap db.

Lemma merge_fork_Ok `{!MerkleDbLaws} f db db' : fresh db -> based_on db f -> merge_fork f db = Ok db' ->
  fresh db' /\ snap db' = fork_view f.
Proof.
  intros Hf Hb. unfold merge_fork. destruct (merge _ _) as [b'|] eqn:E; [|done]. intros [= <-].
  split; [done|]. eapply merge_view; [|exact E]. rewrite Hb. exact Hf.
Qed.

Lemma base_writes `{!MerkleDbLaws} f f' : writes f f' -> fork_base f' = fork_base f.
Proof. apply writes_frame; intros; [apply base_put|apply base_remove|apply base_push|apply base_push]. Qed.

Lemma base_block `{!MerkleDbLaws} b cs f : fork_base (store_block b cs f) = fork_base f.
Proof. simpl. by rewrite !base_push. Qed.

(** ** The chain of a fork *)

(** The blocks and the confirmations of the one are those of the other. *)
Definition same_chain (v w : View) : Prop :=
  list_len BLOCKS v = list_len BLOCKS w /\ (forall n, list_get BLOCKS v n = list_get BLOCKS w n) /\
  list_len CONFIRMATIONS v = list_len CONFIRMATIONS w /\ (forall n, list_get CONFIRMATIONS v n = list_get CONFIRMATIONS w n).

Lemma writes_chain `{!MerkleDbLaws} f f' w : writes f f' -> same_chain (fork_view f) w -> same_chain (fork_view f') w.
Proof.
  intros Hw (H1 & H2 & H3 & H4).
  assert (Hlen : forall V (i : list_index V), (forall n, list_address (TRANSACTIONS_HASH n) <> list_address i) ->
    (forall n, list_address (RECEIPTS_HASH n) <> list_address i) -> list_len i (fork_view f') = list_len i (fork_view f)).
  { intros V i Ht Hr. apply (writes_frame (fun f => list_len i (fork_view f))); [intros; apply len_put|intros; apply len_remove|..|done];
      intros; by apply len_push_index. }
  assert (Hget : forall V (i : list_index V) n, (forall n, list_address (TRANSACTIONS_HASH n) <> list_address i) ->
    (forall n, list_address (RECEIPTS_HASH n) <> list_address i) -> list_get i (fork_view f') n = list_get i (fork_view f) n).
  { intros V i n Ht Hr. apply (writes_frame (fun f => list_get i (fork_view f) n)); [intros; apply list_get_put|intros; apply list_get_remove|..|done];
      intros; by apply list_get_push_index. }
  split_and!; try intros n; by rewrite ?Hlen, ?Hget.
Qed.

(** [f] was made from the present state of [db], and neither what it shows nor what a rollback
    leaves of it has other blocks. *)
Definition kept_chain (db : t) (f : Fork) : Prop :=
  based_on db f /\ same_chain (fork_view f) (snap db) /\ same_chain (fork_view (fork_rollback f)) (snap db).

#[global] Instance rocks_db_laws `{!MerkleDbLaws} : DbLaws t Fork.
Proof.
  refine {| db_ok := fresh; based := kept_chain |}; unfold kept_chain, based_on.
  - intros d Hd. simpl. split_and!; [done| | | |done]; [by rewrite Hd, base_fork|rewrite view_fork, Hd; by split_and!|].
    rewrite view_rollback_fork, Hd. by split_and!.
  - intros d f f' Hw (Hb & Hv & Hr). split_and!; [by rewrite (base_writes f f' Hw)|by eapply writes_chain|].
    pose proof (rollback_write f f' Hw) as E. simpl in E. by rewrite E.
  - intros d f (Hb & Hv & Hr). simpl. rewrite base_flush, rollback_after_flush, view_flush. by split_and!.
  - intros d f (Hb & Hv & Hr). simpl. rewrite base_rollback, rollback_twice. by split_and!.
  - intros d d' f Hd (Hb & _) Hm. by destruct (merge_fork_Ok f d d' Hd Hb Hm).
  - intros d d' f b cs Hd (Hb & _) Hm. rewrite <- (base_block b cs) in Hb. by destruct (merge_fork_Ok _ d d' Hd Hb Hm).
Defined.
End rocks_db.
End RocksDb.
