(* ===== verification/DatabaseTheorems.v ===== *)
(** * The database of the node: what is stored and found again

    The lookups of [RocksDb] after a fork was merged, full blocks, and an instance of
    the [merkledb] parameter in memory, which shows that its laws can hold. *)

From stdpp Require Import base gmap strings list fin_maps.
From S2P Require Import Prelude.
From S2P Require Import Hash.
From S2P Require Import Crypto.
From S2P Require Import CoreModels.
From S2P Require Import DRand.
From S2P Require Import Samples.
From S2P Require Import NodeModels.
From S2P Require Import NodeErrors.
From S2P Require Import Database.
Open Scope Z_scope.

(** ** A database in memory *)
Module MemDb.
Record view : Type := MkView {
  accounts : gmap string Account.t;
  account_data : gmap string (gmap string (list Z));
  attachments : gmap Hash Hash;
  config : gmap string (list Z);
  internal_db : gmap string (list Z);
  receipts : gmap Hash Receipt;
  transactions : gmap Hash Transaction;
  blocks : list Block;
  confirmations : list (list Confirmation);
  receipts_hash : gmap Z (list Hash);
  transactions_hash : gmap Z (list Hash)
}.

Definition empty_view : view := MkView ∅ ∅ ∅ ∅ ∅ ∅ ∅ [] [] ∅ ∅.

Definition get {K V} (i : map_index K V) : view -> K -> option V :=
  match i with
  | ACCOUNTS => fun w k => accounts w !! k
  | ACCOUNT_DATA id => fun w k => default ∅ (account_data w !! id) !! k
  | ATTACHMENTS => fun w k => attachments w !! k
  | CONFIG => fun w k => config w !! k
  | INTERNAL_DB => fun w k => internal_db w !! k
  | RECEIPTS => fun w k => receipts w !! k
  | TRANSACTIONS => fun w k => transactions w !! k
  end.

(** The entry of [k] becomes [v]. *)
Definition set {K V} (i : map_index K V) : K -> option V -> view -> view :=
  match i with
  | ACCOUNTS => fun k v w =>
      let '(MkView a d t c n r x b f rh th) := w in MkView (partial_alter (fun _ => v) k a) d t c n r x b f rh th
  | ACCOUNT_DATA id => fun k v w =>
      let '(MkView a d t c n r x b f rh th) := w in
      MkView a (<[id := partial_alter (fun _ => v) k (default ∅ (d !! id))]> d) t c n r x b f rh th
  | ATTACHMENTS => fun k v w =>
      let '(MkView a d t c n r x b f rh th) := w in MkView a d (partial_alter (fun _ => v) k t) c n r x b f rh th
  | CONFIG => fun k v w =>
      let '(MkView a d t c n r x b f rh th) := w in MkView a d t (partial_alter (fun _ => v) k c) n r x b f rh th
  | INTERNAL_DB => fun k v w =>
      let '(MkView a d t c n r x b f rh th) := w in MkView a d t c (partial_alter (fun _ => v) k n) r x b f rh th
  | RECEIPTS => fun k v w =>
      let '(MkView a d t c n r x b f rh th) := w in MkView a d t c n (partial_alter (fun _ => v) k r) x b f rh th
  | TRANSACTIONS => fun k v w =>
      let '(MkView a d t c n r x b f rh th) := w in MkView a d t c n r (partial_alter (fun _ => v) k x) b f rh th
  end.

Definition keys {K V} (i : map_index K V) (w : view) : list K :=
  match i with
  | ACCOUNTS => map fst (map_to_list (accounts w))
  | ACCOUNT_DATA id => map fst (map_to_list (default ∅ (account_data w !! id)))
  | ATTACHMENTS => map fst (map_to_list (attachments w))
  | CONFIG => map fst (map_to_list (config w))
  | INTERNAL_DB => map fst (map_to_list (internal_db w))
  | RECEIPTS => map fst (map_to_list (receipts w))
  | TRANSACTIONS => map fst (map_to_list (transactions w))
  end.

Definition items {V} (i : list_index V) : view -> list V :=
  match i with
  | BLOCKS => blocks
  | CONFIRMATIONS => confirmations
  | RECEIPTS_HASH n => fun w => default [] (receipts_hash w !! n)
  | TRANSACTIONS_HASH n => fun w => default [] (transactions_hash w !! n)
  end.

Definition push {V} (i : list_index V) : V -> view -> view :=
  match i with
  | BLOCKS => fun v w =>
      let '(MkView a d t c n r x b f rh th) := w in MkView a d t c n r x (b ++ [v]) f rh th
  | CONFIRMATIONS => fun v w =>
      let '(MkView a d t c n r x b f rh th) := w in MkView a d t c n r x b (f ++ [v]) rh th
  | RECEIPTS_HASH m => fun v w =>
      let '(MkView a d t c n r x b f rh th) := w in MkView a d t c n r x b f (<[m := default [] (rh !! m) ++ [v]]> rh) th
  | TRANSACTIONS_HASH m => fun v w =>
      let '(MkView a d t c n r x b f rh th) := w in MkView a d t c n r x b f rh (<[m := default [] (th !! m) ++ [v]]> th)
  end.

(** A fork: what it was made from, its checkpoint and its contents *)
Record fork : Type := MkFork { base : view; checkpoint : view; working : view }.
Definition on_working (g : view -> view) (f : fork) : fork := MkFork (base f) (checkpoint f) (g (working f)).

Definition at_index {V} (l : list V) (n : Z) : option V := if n <? 0 then None else l !! Z.to_nat n.

Definition mem_db : MerkleDb := {|
  View := view;
  Fork := fork;
  Patch := view;
  RocksDB := view;
  map_get := fun K V i w k => get i w k;
  map_keys := fun K V i w => keys i w;
  map_hash := fun K V i w => Samples.hash (Z.of_nat (size (accounts w) + size (account_data w)));
  list_len := fun V i w => len (items i w);
  list_get := fun V i w n => at_index (items i w) n;
  list_hash := fun V i w => Samples.hash (len (items i w));
  fork_view := working;
  map_put := fun K V i k v => on_working (set i k (Some v));
  map_remove := fun K V i k => on_working (set i k None);
  list_push := fun V i v => on_working (push i v);
  fork_flush := fun f => MkFork (base f) (working f) (working f);
  fork_rollback := fun f => MkFork (base f) (checkpoint f) (checkpoint f);
  snapshot := fun b => b;
  backend_fork := fun b => MkFork b b b;
  into_patch := working;
  merge := fun p _ => Some p;
  fork_base := base
|}.

Lemma get_set {K V} (i : map_index K V) k v w : get i (set i k v w) k = v.
Proof. destruct w, i; simpl; rewrite ?lookup_insert_eq; simpl; apply lookup_partial_alter_eq. Qed.

Lemma get_set_key {K V} (i : map_index K V) k k' v w : k <> k' -> get i (set i k v w) k' = get i w k'.
Proof. intros Hk. destruct w, i; simpl; rewrite ?lookup_insert_eq; simpl; by apply lookup_partial_alter_ne. Qed.

Lemma get_set_index {K V K' V'} (i : map_index K V) (j : map_index K' V') k k' v w :
  map_address i <> map_address j -> get j (set i k v w) k' = get j w k'.
Proof.
  intros Ha. destruct w, i, j; simpl in *; try done.
  by rewrite lookup_insert_ne by congruence.
Qed.

Lemma get_items {K V W} (j : map_index K V) (i : list_index W) v w k : get j (push i v w) k = get j w k.
Proof. by destruct w, i, j. Qed.

Lemma items_set {K V W} (i : map_index K V) (j : list_index W) k v w : items j (set i k v w) = items j w.
Proof. by destruct w, i, j. Qed.

Lemma items_push {V} (i : list_index V) v w : items i (push i v w) = items i w ++ [v].
Proof. destruct w, i; simpl; by rewrite ?lookup_insert_eq. Qed.

Lemma items_push_index {V W} (i : list_index V) (j : list_index W) v w :
  list_address i <> list_address j -> items j (push i v w) = items j w.
Proof.
  intros Ha. destruct w, i, j; simpl in *; try done; by rewrite lookup_insert_ne by congruence.
Qed.

Lemma elem_of_map_keys `{Countable K} {A} (m : gmap K A) k : k ∈ map fst (map_to_list m) <-> is_Some (m !! k).
Proof.
  rewrite list_elem_of_fmap. split.
  - intros ([k' v] & -> & Hk). apply elem_of_map_to_list in Hk. by eexists.
  - intros [v Hk]. exists (k, v). split; [done|]. by apply elem_of_map_to_list.
Qed.

Lemma elem_of_keys {K V} (i : map_index K V) w k : k ∈ keys i w <-> is_Some (get i w k).
Proof. destruct i; apply elem_of_map_keys. Qed.

Lemma at_index_is_Some {V} (l : list V) n : is_Some (at_index l n) <-> 0 <= n < len l.
Proof.
  unfold at_index, len. destruct (Z.ltb_spec n 0); [split; [by intros []|lia]|].
  rewrite lookup_lt_is_Some. lia.
Qed.

Lemma at_index_snoc {V} (l : list V) v n : at_index (l ++ [v]) n = if n =? len l then Some v else at_index l n.
Proof.
  unfold at_index, len. destruct (Z.ltb_spec n 0); [destruct (Z.eqb_spec n (Z.of_nat (length l))); [lia|done]|].
  destruct (Z.eqb_spec n (Z.of_nat (length l))) as [->|Hn].
  - rewrite Nat2Z.id. by apply list_lookup_middle.
  - destruct (decide (Z.to_nat n < length l)%nat); [by apply lookup_app_l|].
    rewrite lookup_app_r by lia. rewrite (lookup_ge_None_2 l) by lia. apply lookup_ge_None_2. simpl. lia.
Qed.

#[export] Instance mem_db_laws : MerkleDbLaws (H := mem_db).
Proof.
  split; intros; simpl in *; rewrite ?get_set, ?items_push, ?len_app; try done.
  - by apply get_set_key.
  - by apply get_set_index.
  - by apply get_set_key.
  - by apply get_set_index.
  - apply get_items.
  - apply elem_of_keys.
  - apply len_nonneg.
  - apply at_index_is_Some.
  - apply at_index_snoc.
  - by rewrite items_push_index.
  - by rewrite items_push_index.
  - by rewrite items_set.
  - by rewrite items_set.
  - by rewrite items_set.
  - by rewrite items_set.
  - congruence.
Qed.
End MemDb.

(** ** Theorems *)
Section theorems.
Context `{Hdig : Digest} `{!MsgPack TransactionData} `{Hmdb : MerkleDb} `{Hlaws : !MerkleDbLaws}.
Implicit Types (db : RocksDb.t) (f : Fork).
Abbreviation fresh := RocksDb.fresh.
Abbreviation based_on := RocksDb.based_on.

Lemma attachments_of_nodes hash nodes f k :
  map_get ATTACHMENTS (fork_view (fold_left (fun f node => map_put ATTACHMENTS (tx_data_hash (s_data node)) hash f) nodes f)) k =
  if bool_decide (k ∈ map (fun node => tx_data_hash (s_data node)) nodes) then Some hash
  else map_get ATTACHMENTS (fork_view f) k.
Proof.
  revert f. induction nodes as [|node nodes IH]; intros f; [done|]. cbn [fold_left map].
  rewrite IH. destruct (decide (k = tx_data_hash (s_data node))) as [->|Hk].
  - rewrite get_put, (bool_decide_true (_ ∈ _ :: _)) by left. by destruct (bool_decide _).
  - rewrite get_put_key by done. by rewrite (bool_decide_ext _ _ (elem_of_cons _ _ _)), bool_decide_or, (bool_decide_false (k = _)).
Qed.

Lemma transactions_of_nodes hash nodes f k :
  map_get TRANSACTIONS (fork_view (fold_left (fun f node => map_put ATTACHMENTS (tx_data_hash (s_data node)) hash f) nodes f)) k =
  map_get TRANSACTIONS (fork_view f) k.
Proof. revert f. induction nodes as [|node nodes IH]; intros f; [done|]. cbn [fold_left]. rewrite IH. by apply get_put_index. Qed.

(** The hashes of a bulk: its root's and its nodes' *)
Definition root_hash (d : TransactionDataBulkV1) : Hash := tx_data_hash (u_data (bt_root (txs d))).
Definition node_hash (node : SignedTransaction) : Hash := tx_data_hash (s_data node).

(** What the transactions and attachments are after a bulk was stored *)
Lemma store_bulk_views hash bulk d nodes f k :
  s_data bulk = BulkV1 d -> bt_nodes (txs d) = Some nodes ->
  let w := fork_view (store_transaction hash (BulkTransaction bulk) f) in
  map_get TRANSACTIONS w k = (if bool_decide (k = hash) then Some (BulkTransaction bulk) else map_get TRANSACTIONS (fork_view f) k) /\
  map_get ATTACHMENTS w k = (if bool_decide (k = root_hash d \/ k ∈ map node_hash nodes) then Some hash
                             else map_get ATTACHMENTS (fork_view f) k).
Proof.
  intros Hd Hn. simpl. unfold RocksDb.store_transaction. rewrite Hd, Hn. split.
  - case_bool_decide as Hk; [subst k; apply get_put|]. rewrite get_put_key, transactions_of_nodes by congruence.
    by apply get_put_index.
  - rewrite get_put_index, attachments_of_nodes by done. fold node_hash. rewrite bool_decide_or.
    case_bool_decide as Hk; [by rewrite orb_true_r|]. rewrite orb_false_r. case_bool_decide as Hr.
    + subst k. apply get_put.
    + by apply get_put_key.
Qed.

(** C17: Once a bulk is stored and merged it is found by its hash; each of its nodes is found by its
    own hash, as a unit transaction of the bulk with that hash; and its root is said to
    be there but cannot be loaded. *)
Theorem bulk_found hash bulk d nodes f db db' :
  fresh db -> based_on db f -> s_data bulk = BulkV1 d -> bt_nodes (txs d) = Some nodes ->
  merge_fork (store_transaction hash (BulkTransaction bulk) f) db = Ok db' ->
  load_transaction hash db' = Some (BulkTransaction bulk) /\
  (forall node, node ∈ nodes -> node_hash node <> hash -> map_get TRANSACTIONS (fork_view f) (node_hash node) = None ->
     exists found, load_transaction (node_hash node) db' = Some (UnitTransaction found) /\
       found ∈ nodes /\ node_hash found = node_hash node) /\
  (root_hash d <> hash -> root_hash d ∉ map node_hash nodes -> map_get TRANSACTIONS (fork_view f) (root_hash d) = None ->
     contains_transaction (root_hash d) db' = true /\ load_transaction (root_hash d) db' = None).
Proof.
  intros Hf Hb Hd Hn Hm. assert (Hb' : based_on db (store_transaction hash (BulkTransaction bulk) f)).
  { unfold RocksDb.based_on. rewrite <- Hb. apply RocksDb.base_writes. constructor. }
  destruct (RocksDb.merge_fork_Ok _ _ _ Hf Hb' Hm) as [_ Hs].
  pose proof (fun k => store_bulk_views hash bulk d nodes f k Hd Hn) as Hv. cbv zeta in Hv. rewrite <- Hs in Hv.
  assert (Hload : forall k, k <> hash -> map_get TRANSACTIONS (fork_view f) k = None ->
    (k = root_hash d \/ k ∈ map node_hash nodes) ->
    load_transaction k db' = UnitTransaction <$> find (fun node => bool_decide (node_hash node = k)) nodes).
  { intros k Hk Hnone Hin. simpl. unfold RocksDb.load_transaction, RocksDb.load_attachment.
    destruct (Hv k) as [-> ->]. rewrite bool_decide_false, Hnone, bool_decide_true by done. simpl.
    destruct (Hv hash) as [-> _]. rewrite bool_decide_true by done. simpl. rewrite Hd, Hn. simpl. by destruct (find _ nodes). }
  split_and!.
  - simpl. unfold RocksDb.load_transaction. destruct (Hv hash) as [-> _]. by rewrite bool_decide_true.
  - intros node Hin Hne Hnone. rewrite Hload by (auto using list_elem_of_fmap_2).
    destruct (find _ nodes) as [found|] eqn:Ef.
    + apply find_elem in Ef as [Hfound ?%bool_decide_eq_true]. by exists found.
    + apply find_None_elem with (x := node) in Ef; [|done]. by rewrite bool_decide_true in Ef.
  - intros Hne Hout Hnone. split.
    + simpl. unfold RocksDb.contains_transaction, RocksDb.contains_attachment. destruct (Hv (root_hash d)) as [_ ->].
      rewrite (bool_decide_true (_ = _ \/ _)) by auto. case_bool_decide; [done|]. by rewrite bool_decide_true.
    + rewrite Hload by auto. destruct (find _ nodes) as [found|] eqn:Ef; [|done].
      apply find_elem in Ef as [Hfound Hr%bool_decide_eq_true]. destruct Hout. rewrite <- Hr. by apply list_elem_of_fmap_2.
Qed.

Lemma omap_all {A B} (g : A -> option B) l l' :
  (omap g l = l' /\ len l' = len l) <-> Forall2 (fun x y => g x = Some y) l l'.
Proof.
  assert (Hcons : forall x l, omap g (x :: l) = match g x with Some y => y :: omap g l | None => omap g l end) by done.
  assert (Hle : forall l, len (omap g l) <= len l).
  { unfold len. clear -Hcons. induction l as [|x l IH]; [done|]. rewrite Hcons. destruct (g x); cbn [length]; lia. }
  revert l'. induction l as [|x l IH]; intros l'; rewrite ?Hcons.
  - split; [intros [<- _]; constructor|]. by inversion 1.
  - specialize (Hle l). unfold len in *. split.
    + destruct (g x) as [y|] eqn:Eg; intros [<- Hl]; cbn [length] in *; [|lia].
      constructor; [done|]. apply IH. split; [done|lia].
    + inversion 1 as [|? y ? l2 Hy Hl2]; subst. apply IH in Hl2 as [<- Hl]. rewrite Hy. cbn [length]. split; [done|lia].
Qed.

(** A full block is given exactly when the block, its confirmations and every one of its
    transactions are there; it then holds them all, in order. *)
Theorem full_block_spec height db full_block :
  load_full_block height db = Some full_block <->
  exists hashes,
    load_block height db = Some (fb_block full_block) /\
    load_confirmations height db = Some (fb_confirmations full_block) /\
    load_transactions_hashes (bd_height (block_data (fb_block full_block))) db = Some hashes /\
    Forall2 (fun hash tx => load_transaction hash db = Some tx) hashes (fb_txs full_block).
Proof.
  simpl. unfold RocksDb.load_full_block. setoid_rewrite <- omap_all. split.
  - intros (block & Hb & (confs & Hc & (hashes & Hh & H)%bind_Some)%bind_Some)%bind_Some.
    destruct (Z.eqb_spec (len (omap (fun h => RocksDb.load_transaction h db) hashes)) (len hashes)) as [Hl|]; [|done].
    simpl in H. injection H as <-. by exists hashes.
  - intros (hashes & -> & -> & Hh & Ht & Hl). cbn [mbind option_bind]. rewrite Hh. cbn [mbind option_bind].
    rewrite Ht, Hl, Z.eqb_refl. by destruct full_block.
Qed.

(** A block stored and merged is the last one of the chain, with its confirmations, at the
    height that was free, and the earlier blocks stay where they are. *)
Theorem store_block_last block confs f db db' :
  fresh db -> based_on db f -> merge_fork (store_block block confs f) db = Ok db' ->
  load_block u64_max db' = Some block /\ load_confirmations u64_max db' = Some confs /\
  (forall n, n <> u64_max -> load_block n db' =
     if n =? list_len BLOCKS (fork_view f) then Some block else list_get BLOCKS (fork_view f) n).
Proof.
  intros Hf Hb Hm. assert (Hb' : based_on db (store_block block confs f)).
  { unfold RocksDb.based_on. by rewrite RocksDb.base_block. }
  destruct (RocksDb.merge_fork_Ok _ _ _ Hf Hb' Hm) as [_ Hs]. simpl in Hs.
  simpl. unfold RocksDb.load_block, RocksDb.load_confirmations, RocksDb.list_last, RocksDb.u64_MAX. rewrite Hs.
  assert (Hbl : forall n, list_get BLOCKS (fork_view (list_push CONFIRMATIONS confs (list_push BLOCKS block f))) n =
    if n =? list_len BLOCKS (fork_view f) then Some block else list_get BLOCKS (fork_view f) n).
  { intros n. rewrite list_get_push_index by done. apply list_get_push. }
  rewrite Z.eqb_refl. split_and!.
  - rewrite len_push_index, len_push by done. pose proof (len_nonneg_list BLOCKS (fork_view f)).
    destruct (Z.eqb_spec (list_len BLOCKS (fork_view f) + 1) 0); [lia|]. rewrite Hbl.
    by destruct (Z.eqb_spec (list_len BLOCKS (fork_view f) + 1 - 1) (list_len BLOCKS (fork_view f))); [|lia].
  - rewrite len_push. pose proof (len_nonneg_list CONFIRMATIONS (fork_view (list_push BLOCKS block f))).
    destruct (Z.eqb_spec (list_len CONFIRMATIONS (fork_view (list_push BLOCKS block f)) + 1) 0); [lia|].
    rewrite list_get_push.
    by destruct (Z.eqb_spec (list_len CONFIRMATIONS (fork_view (list_push BLOCKS block f)) + 1 - 1)
      (list_len CONFIRMATIONS (fork_view (list_push BLOCKS block f)))); [|lia].
  - intros n Hn. destruct (Z.eqb_spec n u64_max); [done|]. apply Hbl.
Qed.
Lemma store_block_confirmations block confs f db db' n :
  fresh db -> based_on db f -> merge_fork (store_block block confs f) db = Ok db' -> n <> u64_max ->
  load_confirmations n db' = if n =? list_len CONFIRMATIONS (fork_view f) then Some confs else list_get CONFIRMATIONS (fork_view f) n.
Proof.
  intros Hf Hb Hm Hn. assert (Hb' : based_on db (store_block block confs f)) by (unfold RocksDb.based_on; by rewrite RocksDb.base_block).
  destruct (RocksDb.merge_fork_Ok _ _ _ Hf Hb' Hm) as [_ Hs]. simpl in Hs.
  simpl. unfold RocksDb.load_confirmations, RocksDb.u64_MAX. rewrite Hs. destruct (Z.eqb_spec n u64_max); [done|].
  by rewrite list_get_push, len_push_index, list_get_push_index.
Qed.
End theorems.

(** ** Witnesses *)
Module DatabaseSample.
#[local] Existing Instances Samples.digest Samples.ring MemDb.mem_db MemDb.mem_db_laws.
#[local] Instance tx_pack : MsgPack TransactionData :=
  {| msgpack := fun d => match d with V1 d => v1_nonce d | BulkNodeV1 d => n_nonce d | BulkRootV1 d => v1_nonce d | BulkV1 _ => [9] | BulkEmptyRoot d => e_nonce d end |}.

Definition key : Keys.TrinciPublicKey := Keys.public_key (Samples.keypair "a").
Definition root : TransactionData := BulkRootV1 (MkV1 "acc" 1000 [1] "net" None "pay" key []).
Definition node : SignedTransaction :=
  MkSigned (BulkNodeV1 (MkNodeV1 "acc" 1000 [2] "net" None "pay" key [] (tx_data_hash root))) [].
Definition bulk_data : TransactionDataBulkV1 := MkBulkV1 (MkBulkTransactions (MkUnsigned root) (Some [node])).
Definition bulk : SignedTransaction := MkSigned (BulkV1 bulk_data) [].
Definition bulk_hash : Hash := get_hash (BulkTransaction bulk).
Definition db : RocksDb.t := RocksDb.new (MemDb.empty_view : RocksDB).
Definition fork : Fork := snd (create_fork db).
Definition merged (f : Fork) : RocksDb.t := match merge_fork f db with Ok db' => db' | Err _ => db end.

Definition block : Block :=
  MkBlock (MkBlockData (Some key) 0 1 (Samples.hash 0) (Samples.hash 0) (Samples.hash 0) (Samples.hash 0) 0) [].

Lemma bulk_found_witness :
  let db' := merged (store_transaction bulk_hash (BulkTransaction bulk) fork) in
  load_transaction bulk_hash db' = Some (BulkTransaction bulk) /\
  contains_transaction (root_hash bulk_data) db' = true /\ load_transaction (root_hash bulk_data) db' = None.
Proof.
  destruct (bulk_found bulk_hash bulk bulk_data [node] fork db
    (merged (store_transaction bulk_hash (BulkTransaction bulk) fork))) as (H1 & _ & H2).
  - reflexivity.
  - reflexivity.
  - reflexivity.
  - reflexivity.
  - reflexivity.
  - split; [exact H1|]. apply H2.
    + vm_compute. discriminate.
    + apply (bool_decide_unpack (root_hash bulk_data ∉ _)). vm_compute. exact I.
    + reflexivity.
Defined.

Lemma store_block_last_witness : load_block u64_max (merged (store_block block [] fork)) = Some block.
Proof.
  destruct (store_block_last block [] fork db (merged (store_block block [] fork))) as (H & _); [reflexivity..|exact H].
Defined.
End DatabaseSample.
