(* ===== verification/DatabaseRefinement.v ===== *)
(** * The database of the node refines a plain store

    A fork of [RocksDb] works on indexes under addresses, with a journal that is flushed,
    rolled back and merged.  The specification is a record of finite maps and lists with
    one saved copy of it: whatever operations of [DbFork] are made on a fork, what the
    fork and, once it is merged, the database show is what the record holds. *)

From stdpp Require Import base gmap strings list fin_maps.
From S2P Require Import Prelude.
From S2P Require Import Hash.
From S2P Require Import Crypto.
From S2P Require Import CoreModels.
From S2P Require Import Samples.
From S2P Require Import NodeModels.
From S2P Require Import NodeErrors.
From S2P Require Import Database.
From S2P Require Import DatabaseTheorems.
Open Scope Z_scope.

(** ** The specification *)
Module StoreSpec.
Import MemDb.
Section spec.
Context `{Hdig : Digest} `{!MsgPack TransactionData}.

(** The store as it is and as it was at the last checkpoint *)
Record t : Type := Mk { current : view; saved : view }.

(** The operations of [DbFork] that change a fork *)
Inductive op : Type :=
| StoreAccount (a : Account.t)
| StoreAccountData (id key : string) (data : list Z)
| RemoveAccountData (id key : string)
| StoreData (key : string) (data : list Z)
| StoreConfiguration (id : string) (config : list Z)
| StoreAttachment (hash parent : Hash)
| StoreTransaction (hash : Hash) (tx : Transaction)
| StoreReceipt (hash : Hash) (receipt : Receipt)
| StoreBlock (block : Block) (confs : list Confirmation)
| StoreTransactionsHashes (height : Z) (hashes : list Hash)
| StoreReceiptsHashes (height : Z) (hashes : list Hash)
| Flush
| Rollback.

(** The hashes under which the parts of a bulk are found *)
Definition parts (tx : Transaction) : list Hash :=
  match tx with
  | BulkTransaction bulk =>
      match s_data bulk with
      | BulkV1 d =>
          tx_data_hash (u_data (bt_root (txs d))) ::
          map (fun node => tx_data_hash (s_data node)) (default [] (bt_nodes (txs d)))
      | _ => []
      end
  | UnitTransaction _ => []
  end.

Definition attach (hash : Hash) (w : view) (part : Hash) : view := set ATTACHMENTS part (Some hash) w.
Definition append {V} (i : list_index V) (l : list V) (w : view) : view := fold_left (fun w x => push i x w) l w.

(** What an operation other than a checkpoint does to the store *)
Definition write (o : op) (w : view) : view :=
  match o with
  | StoreAccount a => set ACCOUNTS (Account.id a) (Some a) w
  | StoreAccountData id key data => set (ACCOUNT_DATA id) key (Some data) w
  | RemoveAccountData id key => set (ACCOUNT_DATA id) key None w
  | StoreData key data => set INTERNAL_DB key (Some data) w
  | StoreConfiguration id config => set CONFIG id (Some config) w
  | StoreAttachment hash parent => set ATTACHMENTS hash (Some parent) w
  | StoreTransaction hash tx => set TRANSACTIONS hash (Some tx) (fold_left (attach hash) (parts tx) w)
  | StoreReceipt hash receipt => set RECEIPTS hash (Some receipt) w
  | StoreBlock block confs => push CONFIRMATIONS confs (push BLOCKS block w)
  | StoreTransactionsHashes height hashes => append (TRANSACTIONS_HASH height) hashes w
  | StoreReceiptsHashes height hashes => append (RECEIPTS_HASH height) hashes w
  | Flush | Rollback => w
  end.

Definition step (s : t) (o : op) : t :=
  match o with
  | Flush => Mk (current s) (current s)
  | Rollback => Mk (saved s) (saved s)
  | _ => Mk (write o (current s)) (saved s)
  end.

(** The same operation on a fork, through the trait *)
Definition perform {F} `{!DbFork F} (f : F) (o : op) : F :=
  match o with
  | StoreAccount a => store_account a f
  | StoreAccountData id key data => store_account_data id key data f
  | RemoveAccountData id key => remove_account_data id key f
  | StoreData key data => store_data key data f
  | StoreConfiguration id config => store_configuration id config f
  | StoreAttachment hash parent => store_attachment hash parent f
  | StoreTransaction hash tx => store_transaction hash tx f
  | StoreReceipt hash receipt => store_receipt hash receipt f
  | StoreBlock block confs => store_block block confs f
  | StoreTransactionsHashes height hashes => fst (store_transactions_hashes height hashes f)
  | StoreReceiptsHashes height hashes => fst (store_receipts_hashes height hashes f)
  | Flush => flush f
  | Rollback => rollback f
  end.

(** What is read *)
Definition entry {V} (l : list V) (height : Z) : option V := if height =? u64_max then last l else at_index l height.

Definition transaction (hash : Hash) (w : view) : option Transaction :=
  match transactions w !! hash with
  | Some tx => Some tx
  | None =>
      parent ← attachments w !! hash;
      tx ← transactions w !! parent;
      match tx with
      | BulkTransaction bulk =>
          match s_data bulk with
          | BulkV1 d =>
              UnitTransaction <$> find (fun node => bool_decide (tx_data_hash (s_data node) = hash)) (default [] (bt_nodes (txs d)))
          | _ => None
          end
      | UnitTransaction _ => None
      end
  end.

Definition receipt (hash : Hash) (w : view) : option Receipt :=
  match receipts w !! hash with
  | Some r => Some r
  | None => parent ← attachments w !! hash; receipts w !! parent
  end.

Definition hashes (height : Z) (w : view) : option (list Hash) :=
  match transactions_hash w !! height with Some (hash :: rest) => Some (hash :: rest) | _ => None end.

Definition full_block (height : Z) (w : view) : option (FullBlock Block Confirmation Transaction) :=
  block ← entry (blocks w) height;
  confs ← entry (confirmations w) height;
  hs ← hashes (bd_height (block_data block)) w;
  MkFullBlock block confs <$> mapM (fun hash => transaction hash w) hs.

(** A fork, and a database, that show the store *)
Record fork_shows {F} `{!DbFork F} (f : F) (w : view) : Prop := {
  fs_account : forall id, fork_load_account id f = accounts w !! id;
  fs_account_data : forall id key, fork_load_account_data id key f = default ∅ (account_data w !! id) !! key;
  fs_data : forall key, fork_load_data key f = internal_db w !! key;
  fs_keys : forall id key, key ∈ fork_load_account_keys id f <-> is_Some (default ∅ (account_data w !! id) !! key)
}.

Record db_shows {D F} `{!Db D F} (db : D) (w : view) : Prop := {
  ds_account : forall id, load_account id db = accounts w !! id;
  ds_account_data : forall id key, load_account_data id key db = default ∅ (account_data w !! id) !! key;
  ds_keys : forall id key, key ∈ load_account_keys id db <-> is_Some (default ∅ (account_data w !! id) !! key);
  ds_data : forall key, load_data key db = internal_db w !! key;
  ds_configuration : forall id, load_configuration id db = config w !! id;
  ds_contains : forall hash, contains_transaction hash db = true <-> is_Some (transactions w !! hash) \/ is_Some (attachments w !! hash);
  ds_transaction : forall hash, load_transaction hash db = transaction hash w;
  ds_receipt : forall hash, load_receipt hash db = receipt hash w;
  ds_block : forall height, load_block height db = entry (blocks w) height;
  ds_confirmations : forall height, load_confirmations height db = entry (confirmations w) height;
  ds_hashes : forall height, load_transactions_hashes height db = hashes height w;
  ds_full_block : forall height, load_full_block height db = full_block height w
}.
End spec.
End StoreSpec.

(** ** The simulation *)
Section refinement.
Context `{Hdig : Digest} `{!MsgPack TransactionData} `{Hmdb : MerkleDb} `{Hlaws : !MerkleDbLaws}.
Implicit Types (w : View) (s : MemDb.view) (f : Fork).

(** The indexes of a view hold what the maps and lists of the store do. *)
Record shows (w : View) (s : MemDb.view) : Prop := {
  shows_get : forall K V (i : map_index K V) k, map_get i w k = MemDb.get i s k;
  shows_entry : forall V (i : list_index V) n, list_get i w n = MemDb.at_index (MemDb.items i s) n;
  shows_len : forall V (i : list_index V), list_len i w = len (MemDb.items i s)
}.

(** What any entry becomes when that of one key is set or removed *)
Lemma shows_set {K V} (i : map_index K V) k v w w' s :
  shows w s ->
  map_get i w' k = v ->
  (forall k', k <> k' -> map_get i w' k' = map_get i w k') ->
  (forall K' V' (j : map_index K' V') k', map_address i <> map_address j -> map_get j w' k' = map_get j w k') ->
  (forall W (j : list_index W) n, list_get j w' n = list_get j w n) ->
  (forall W (j : list_index W), list_len j w' = list_len j w) ->
  shows w' (MemDb.set i k v s).
Proof.
  intros [Hg He Hl] Hv Hk Hi Hn Hlen. split.
  - intros K' V' j k'. destruct (decide (map_address i = map_address j)) as [Ha|Ha].
    + destruct i, j; simpl in Ha; simplify_eq;
        (destruct (decide (k = k')) as [->|Hne]; [by rewrite MemDb.get_set|by rewrite MemDb.get_set_key, Hk]).
    + by rewrite MemDb.get_set_index, Hi.
  - intros W j n. by rewrite MemDb.items_set, Hn.
  - intros W j. by rewrite MemDb.items_set, Hlen.
Qed.

Lemma shows_put {K V} (i : map_index K V) k v f s :
  shows (fork_view f) s -> shows (fork_view (map_put i k v f)) (MemDb.set i k (Some v) s).
Proof.
  intros H. apply (shows_set _ _ _ _ _ _ H); intros.
  - apply get_put.
  - by apply get_put_key.
  - by apply get_put_index.
  - apply list_get_put.
  - apply len_put.
Qed.

Lemma shows_remove {K V} (i : map_index K V) k f s :
  shows (fork_view f) s -> shows (fork_view (map_remove i k f)) (MemDb.set i k None s).
Proof.
  intros H. apply (shows_set _ _ _ _ _ _ H); intros.
  - apply get_remove.
  - by apply get_remove_key.
  - by apply get_remove_index.
  - apply list_get_remove.
  - apply len_remove.
Qed.

Lemma shows_push {V} (i : list_index V) v f s :
  shows (fork_view f) s -> shows (fork_view (list_push i v f)) (MemDb.push i v s).
Proof.
  intros [Hg He Hl]. split.
  - intros K W j k. by rewrite MemDb.get_items, get_push.
  - intros W j n. destruct (decide (list_address i = list_address j)) as [Ha|Ha].
    + destruct i, j; simpl in Ha; simplify_eq; by rewrite MemDb.items_push, MemDb.at_index_snoc, list_get_push, Hl, He.
    + by rewrite MemDb.items_push_index, list_get_push_index.
  - intros W j. destruct (decide (list_address i = list_address j)) as [Ha|Ha].
    + destruct i, j; simpl in Ha; simplify_eq; by rewrite MemDb.items_push, len_push, len_app, Hl.
    + by rewrite MemDb.items_push_index, len_push_index.
Qed.

Lemma shows_append {V} (i : list_index V) l f s :
  shows (fork_view f) s -> shows (fork_view (RocksDb.push_all i l f)) (StoreSpec.append i l s).
Proof.
  unfold RocksDb.push_all, StoreSpec.append. revert f s. induction l as [|v l IH]; intros f s H; [done|]. simpl.
  by apply IH, shows_push.
Qed.

Lemma shows_attach hash l f s :
  shows (fork_view f) s ->
  shows (fork_view (fold_left (fun f node => map_put ATTACHMENTS (tx_data_hash (s_data node)) hash f) l f))
    (fold_left (StoreSpec.attach hash) (map (fun node => tx_data_hash (s_data node)) l) s).
Proof. revert f s. induction l as [|v l IH]; intros f s H; [done|]. simpl. by apply IH, shows_put. Qed.

Lemma shows_transaction hash tx f s :
  shows (fork_view f) s ->
  shows (fork_view (RocksDb.store_transaction hash tx f)) (StoreSpec.write (StoreSpec.StoreTransaction hash tx) s).
Proof.
  intros H. unfold RocksDb.store_transaction. apply shows_put. unfold StoreSpec.parts.
  destruct tx as [tx|tx]; [done|]. destruct (s_data tx) as [d|d|d|d|d]; try done.
  simpl. destruct (bt_nodes (txs d)) as [nodes|]; simpl; [apply shows_attach|]; by apply shows_put.
Qed.

(** The relation of a fork to the specification: its contents are the current store, and
    what a rollback leaves of it is the saved one. *)
Definition simulates f (st : StoreSpec.t) : Prop :=
  shows (fork_view f) (StoreSpec.current st) /\ shows (fork_view (fork_rollback f)) (StoreSpec.saved st).

Lemma simulates_start b s : shows (snapshot b) s -> simulates (backend_fork b) (StoreSpec.Mk s s).
Proof. intros H. split; simpl; [by rewrite view_fork|by rewrite view_rollback_fork]. Qed.

Lemma write_simulates f s o :
  shows (fork_view f) s ->
  match o with StoreSpec.Flush | StoreSpec.Rollback => True | _ => shows (fork_view (StoreSpec.perform f o)) (StoreSpec.write o s) end.
Proof.
  intros H. destruct o; try exact I.
  all: first [exact (shows_put _ _ _ _ _ H) | exact (shows_remove _ _ _ _ H) | exact (shows_append _ _ _ _ H)
             | exact (shows_transaction _ _ _ _ H) | exact (shows_push _ _ _ _ (shows_push _ _ _ _ H))].
Qed.

Lemma perform_writes f o :
  match o with StoreSpec.Flush | StoreSpec.Rollback | StoreSpec.StoreBlock _ _ => True | _ => writes f (StoreSpec.perform f o) end.
Proof.
  destruct o as [a|id key data|id key|key data|id config|hash parent|hash tx|hash r|block confs|height hs|height hs| |]; try exact I.
  - exact (write_account a f).
  - exact (write_account_data id key data f).
  - exact (write_removal id key f).
  - exact (write_data key data f).
  - exact (write_configuration id config f).
  - exact (write_attachment hash parent f).
  - exact (write_transaction hash tx f).
  - exact (write_receipt hash r f).
  - exact (write_transactions_hashes height hs f).
  - exact (write_receipts_hashes height hs f).
Qed.

Lemma step_simulates f st o : simulates f st -> simulates (StoreSpec.perform f o) (StoreSpec.step st o).
Proof.
  intros [Hc Hs]. pose proof (write_simulates f (StoreSpec.current st) o Hc) as Hw. pose proof (perform_writes f o) as Hr.
  assert (Hwrite : forall f' s', writes f f' -> shows (fork_view f') s' -> simulates f' (StoreSpec.Mk s' (StoreSpec.saved st))).
  { intros f' s' Hf' Hs'. split; [exact Hs'|]. pose proof (rollback_write f f' Hf') as Hb. simpl in Hb. by rewrite Hb. }
  destruct o; try (exact (Hwrite _ _ Hr Hw)); split; simpl.
  - exact Hw.
  - rewrite !rollback_after_push. exact Hs.
  - by rewrite view_flush.
  - by rewrite rollback_after_flush, view_flush.
  - exact Hs.
  - by rewrite rollback_twice.
Qed.

Lemma steps_simulate ops f st :
  simulates f st -> simulates (fold_left StoreSpec.perform ops f) (fold_left StoreSpec.step ops st).
Proof. revert f st. induction ops as [|o ops IH]; intros f st H; [done|]. simpl. by apply IH, step_simulates. Qed.

Lemma base_perform f o : fork_base (StoreSpec.perform f o) = fork_base f.
Proof.
  pose proof (perform_writes f o) as H. destruct o; try (exact (RocksDb.base_writes _ _ H)); [apply RocksDb.base_block|apply base_flush|apply base_rollback].
Qed.

Lemma base_performs ops f : fork_base (fold_left StoreSpec.perform ops f) = fork_base f.
Proof. revert f. induction ops as [|o ops IH]; intros f; [done|]. simpl. by rewrite IH, base_perform. Qed.

(** *** What is read *)
Lemma list_all_items {V} (i : list_index V) w s : shows w s -> RocksDb.list_all i w = MemDb.items i s.
Proof.
  intros H. unfold RocksDb.list_all. rewrite (shows_len _ _ H). unfold len. rewrite Nat2Z.id.
  apply omap_all, Forall2_fmap_l, Forall2_same_length_lookup_2; [apply length_seq|].
  intros k n v [-> _]%lookup_seq Hv. simpl. rewrite (shows_entry _ _ H). unfold MemDb.at_index.
  destruct (Z.ltb_spec (Z.of_nat k) 0); [lia|]. by rewrite Nat2Z.id.
Qed.

Lemma list_entry {V} (i : list_index V) w s height : shows w s ->
  (if height =? u64_max then RocksDb.list_last i w else list_get i w height) = StoreSpec.entry (MemDb.items i s) height.
Proof.
  intros H. unfold StoreSpec.entry, RocksDb.list_last. destruct (height =? u64_max); rewrite ?(shows_len _ _ H), (shows_entry _ _ H); [|done].
  unfold len, MemDb.at_index. destruct (MemDb.items i s) as [|v l _] using rev_ind; [done|].
  rewrite last_snoc, length_app. simpl. destruct (Z.eqb_spec (Z.of_nat (length l + 1)) 0); [lia|].
  destruct (Z.ltb_spec (Z.of_nat (length l + 1) - 1) 0); [lia|].
  replace (Z.to_nat (Z.of_nat (length l + 1) - 1)) with (length l) by lia. by apply list_lookup_middle.
Qed.

Lemma omap_mapM {A B} (g : A -> option B) l :
  (if negb (len (omap g l) =? len l) then None else Some (omap g l)) = mapM g l.
Proof.
  destruct (mapM g l) as [l'|] eqn:E.
  - apply mapM_Some, (proj2 (omap_all g l l')) in E as [<- ->]. by rewrite Z.eqb_refl.
  - destruct (Z.eqb_spec (len (omap g l)) (len l)) as [Hl|]; [|done].
    assert (Hf : Forall2 (fun x y => g x = Some y) l (omap g l)) by (by apply omap_all).
    apply mapM_Some in Hf. congruence.
Qed.

Lemma hashes_shown w s height : shows w s ->
  (if list_len (TRANSACTIONS_HASH height) w =? 0 then None else Some (RocksDb.list_all (TRANSACTIONS_HASH height) w)) = StoreSpec.hashes height s.
Proof.
  intros H. rewrite (shows_len _ _ H), (list_all_items _ _ _ H). unfold StoreSpec.hashes. simpl.
  destruct (MemDb.transactions_hash s !! height) as [[|hash rest]|]; try done.
Qed.

Lemma transaction_shown (db : RocksDb.t) s hash : shows (RocksDb.snap db) s ->
  RocksDb.load_transaction hash db = StoreSpec.transaction hash s.
Proof.
  intros H. unfold RocksDb.load_transaction, RocksDb.load_attachment, StoreSpec.transaction. rewrite !(shows_get _ _ H). simpl.
  destruct (MemDb.transactions s !! hash) as [tx|]; [done|]. destruct (MemDb.attachments s !! hash) as [parent|]; [|done]. simpl.
  rewrite (shows_get _ _ H). simpl. destruct (MemDb.transactions s !! parent) as [[tx|tx]|]; try done. simpl.
  destruct (s_data tx) as [d|d|d|d|d]; try done. destruct (bt_nodes (txs d)) as [nodes|]; [|done]. simpl.
  by destruct (find _ nodes).
Qed.

Lemma fork_shown f s : shows (fork_view f) s -> StoreSpec.fork_shows f s.
Proof.
  intros H. split; intros; simpl; try exact (shows_get _ _ H _ _ _ _). rewrite keys_get, (shows_get _ _ H). done.
Qed.

Lemma db_shown (db : RocksDb.t) s : shows (RocksDb.snap db) s -> StoreSpec.db_shows (F := Fork) db s.
Proof.
  intros H. pose proof (fun hash => transaction_shown db s hash H) as Ht. split; intros; simpl; try exact (shows_get _ _ H _ _ _ _).
  - rewrite keys_get, (shows_get _ _ H). done.
  - unfold RocksDb.contains_transaction, RocksDb.contains_attachment. rewrite !(shows_get _ _ H). simpl.
    case_bool_decide; [tauto|]. rewrite bool_decide_eq_true. tauto.
  - apply Ht.
  - unfold RocksDb.load_receipt, RocksDb.load_attachment, StoreSpec.receipt. rewrite !(shows_get _ _ H). simpl.
    destruct (MemDb.receipts s !! hash); [done|]. destruct (MemDb.attachments s !! hash); [|done]. apply (shows_get _ _ H).
  - exact (list_entry BLOCKS _ _ height H).
  - exact (list_entry CONFIRMATIONS _ _ height H).
  - by apply hashes_shown.
  - unfold RocksDb.load_full_block, StoreSpec.full_block, RocksDb.load_block, RocksDb.load_confirmations, RocksDb.load_transactions_hashes.
    unfold RocksDb.u64_MAX. rewrite !(list_entry _ _ _ _ H). simpl.
    destruct (StoreSpec.entry _ height) as [confs|]; [|by destruct (StoreSpec.entry _ height)].
    simpl. destruct (StoreSpec.entry _ height) as [block|]; [|done]. simpl.
    rewrite (hashes_shown _ _ _ H). destruct (StoreSpec.hashes _ s) as [hs|]; [|done]. simpl.
    assert (Ho : omap (fun tx_hash => RocksDb.load_transaction tx_hash db) hs = omap (fun hash => StoreSpec.transaction hash s) hs).
    { induction hs as [|h hs IH]; [done|]. simpl. rewrite Ht. destruct (StoreSpec.transaction h s); [f_equal|]; exact IH. }
    rewrite Ho. rewrite <- omap_mapM. by destruct (negb _).
Qed.

(** C16: whatever operations the services make on a fork of the database, checkpoints and rollbacks
    among them, the fork shows what a plain store of maps and lists with one saved copy
    shows after the same operations; and once the fork is merged every lookup of the
    database answers what that store holds: blocks, transactions by their hash or through
    their bulk, receipts, accounts and their data. *)
Theorem fork_refines_store (db : RocksDb.t) s ops :
  RocksDb.fresh db -> shows (RocksDb.snap db) s ->
  let f := fold_left StoreSpec.perform ops (snd (create_fork db)) in
  let st := fold_left StoreSpec.step ops (StoreSpec.Mk s s) in
  StoreSpec.fork_shows f (StoreSpec.current st) /\
  (forall db', merge_fork f db = Ok db' ->
     StoreSpec.db_shows (F := Fork) db' (StoreSpec.current st) /\ RocksDb.fresh db' /\ shows (RocksDb.snap db') (StoreSpec.current st)).
Proof.
  intros Hf Hs. cbv zeta. destruct (steps_simulate ops (backend_fork (RocksDb.backend db)) (StoreSpec.Mk s s)) as [H _].
  - apply simulates_start. by rewrite <- Hf.
  - split; [by apply fork_shown|]. intros db' Hm.
    assert (Hb : RocksDb.based_on db (fold_left StoreSpec.perform ops (backend_fork (RocksDb.backend db)))).
    { unfold RocksDb.based_on. rewrite base_performs, base_fork. by rewrite <- Hf. }
    destruct (RocksDb.merge_fork_Ok _ _ _ Hf Hb Hm) as [Hf' Hsnap]. rewrite <- Hsnap in H. split; [by apply db_shown|done].
Qed.
End refinement.

(** ** A sample *)
Module RefinementSample.
Import DatabaseSample.
#[local] Existing Instances Samples.digest Samples.ring MemDb.mem_db MemDb.mem_db_laws DatabaseSample.tx_pack.

Definition ops : list StoreSpec.op :=
  [StoreSpec.StoreBlock block []; StoreSpec.Flush; StoreSpec.StoreData "k" [1]; StoreSpec.Rollback;
   StoreSpec.StoreTransaction bulk_hash (BulkTransaction bulk)].

(** The block of before the checkpoint is there, the data of after it is not. *)
Lemma fork_refines_store_witness :
  let db' := merged (fold_left StoreSpec.perform ops fork) in
  load_block u64_max db' = Some block /\ load_data "k" db' = None /\
  load_transaction (tx_data_hash (s_data node)) db' = Some (UnitTransaction node).
Proof.
  destruct (fork_refines_store db MemDb.empty_view ops) as [_ H]; [reflexivity|by split|].
  destruct (H (merged (fold_left StoreSpec.perform ops fork)) eq_refl) as [Hdb _].
  cbv zeta. split_and!.
  - rewrite (StoreSpec.ds_block _ _ Hdb). reflexivity.
  - rewrite (StoreSpec.ds_data _ _ Hdb). reflexivity.
  - rewrite (StoreSpec.ds_transaction _ _ Hdb). vm_compute. reflexivity.
Defined.
End RefinementSample.
