(* ===== verification/Fuel.v ===== *)
(** * Fuel and money ([trinci-node/src/utils.rs], [trinci-node/src/consts.rs])

    The conversion of bitbells to the fuel units of the WASM machine and back, and the
    limit of the fuel of a transaction.  Integers are 64-bit, signed or not, and wrap. *)

From stdpp Require Import base gmap strings list fin_maps.
From S2P Require Import Prelude NodeModels.
Open Scope Z_scope.

Module FuelConsts.
Definition ACTIVATE_FUEL_CONSUMPTION : Z := 20000.
Definition MAX_WM_FUEL : Z := 1000000000.
Definition SLOW_GROWTH_RANGE_SLOPE : Z * Z := (2, 100).
Definition FAST_GROWTH_RANGE_SLOPE : Z * Z := (5, 100).
Definition SATURATION_RANGE_SLOPE : Z * Z := (1, 1000).
Definition SLOW_GROWTH_RANGE_INTERCEPT : Z := -9000.
Definition FAST_GROWTH_RANGE_INTERCEPT : Z := -309000.
Definition SATURATION_RANGE_INTERCEPT : Z := 4591000.
Definition BASE_RANGE_BITBELL_UPPER_BOUND : Z := 999.
Definition SLOW_GROWTH_RANGE_BITBELL_LOWER_BOUND : Z := 1000.
Definition SLOW_GROWTH_RANGE_BITBELL_UPPER_BOUND : Z := 191000.
Definition FAST_GROWTH_RANGE_BITBELL_LOWER_BOUND : Z := 191001.
Definition FAST_GROWTH_RANGE_BITBELL_UPPER_BOUND : Z := 4691000.
Definition BASE_RANGE_WM_FUEL_UPPER_BOUND : Z := 500000.
Definition SLOW_GROWTH_RANGE_WM_FUEL_LOWER_BOUND : Z := 500001.
Definition SLOW_GROWTH_RANGE_WM_FUEL_UPPER_BOUND : Z := 10000000.
Definition FAST_GROWTH_RANGE_WM_FUEL_LOWER_BOUND : Z := 10000001.
Definition FAST_GROWTH_RANGE_WM_FUEL_UPPER_BOUND : Z := 100000000.
End FuelConsts.

Module Fuel.
Import FuelConsts.

(** [i64] arithmetic: products and sums wrap, division truncates. *)
Definition i64_mul (x y : Z) : Z := i64_wrap (x * y).
Definition i64_add (x y : Z) : Z := i64_wrap (x + y).
Definition i64_sub (x y : Z) : Z := i64_wrap (x - y).
Definition i64_div (x y : Z) : Z := Z.quot x y.

Definition retrieve_x (y : Z) (m : Z * Z) (q : Z) : Z :=
  u64_wrap (i64_sub (i64_div (i64_mul (i64_wrap y) (snd m)) (fst m)) (i64_div (i64_mul q (snd m)) (fst m))).

Definition retrieve_y (x : Z) (m : Z * Z) (q : Z) : Z :=
  u64_wrap (i64_add (i64_div (i64_mul (i64_wrap x) (fst m)) (snd m)) q).

(** A pattern [lower..=upper] *)
Definition in_range (lower upper x : Z) : bool := (lower <=? x) && (x <=? upper).

Definition bitbell_to_wm_fuel (bitbell : Z) : Z :=
  if in_range 0 BASE_RANGE_BITBELL_UPPER_BOUND bitbell then 0
  else if in_range SLOW_GROWTH_RANGE_BITBELL_LOWER_BOUND SLOW_GROWTH_RANGE_BITBELL_UPPER_BOUND bitbell then
    retrieve_x bitbell SLOW_GROWTH_RANGE_SLOPE SLOW_GROWTH_RANGE_INTERCEPT
  else if in_range FAST_GROWTH_RANGE_BITBELL_LOWER_BOUND FAST_GROWTH_RANGE_BITBELL_UPPER_BOUND bitbell then
    retrieve_x bitbell FAST_GROWTH_RANGE_SLOPE FAST_GROWTH_RANGE_INTERCEPT
  else retrieve_x bitbell SATURATION_RANGE_SLOPE SATURATION_RANGE_INTERCEPT.

Definition wm_fuel_to_bitbell (burnt_wm_fuel : Z) : Z :=
  if in_range 0 BASE_RANGE_WM_FUEL_UPPER_BOUND burnt_wm_fuel then SLOW_GROWTH_RANGE_BITBELL_LOWER_BOUND
  else if in_range SLOW_GROWTH_RANGE_WM_FUEL_LOWER_BOUND SLOW_GROWTH_RANGE_WM_FUEL_UPPER_BOUND burnt_wm_fuel then
    retrieve_y burnt_wm_fuel SLOW_GROWTH_RANGE_SLOPE SLOW_GROWTH_RANGE_INTERCEPT
  else if in_range FAST_GROWTH_RANGE_WM_FUEL_LOWER_BOUND FAST_GROWTH_RANGE_WM_FUEL_UPPER_BOUND burnt_wm_fuel then
    retrieve_y burnt_wm_fuel FAST_GROWTH_RANGE_SLOPE FAST_GROWTH_RANGE_INTERCEPT
  else retrieve_x burnt_wm_fuel SATURATION_RANGE_SLOPE SATURATION_RANGE_INTERCEPT.

(** [load_account]: the fork of the database; [deserialize]: [rmp_deserialize] of a [u64]. *)
Definition calculate_wm_fuel_limit (load_account : string -> option Account.t) (deserialize : list Z -> option Z)
    (caller_account_id : string) (height tx_fuel_limit : Z) : Z :=
  if ACTIVATE_FUEL_CONSUMPTION <? height then
    match load_account caller_account_id with
    | None => 0
    | Some caller_account =>
        match Account.assets caller_account !! "TRINCI" with
        | None => 0
        | Some assets =>
            let bitbell_limit := Z.min tx_fuel_limit (default 0 (deserialize assets)) in
            Z.min (bitbell_to_wm_fuel bitbell_limit) MAX_WM_FUEL
        end
    end
  else MAX_WM_FUEL.

(** ** What the conversions compute, while nothing overflows *)

Lemma i64_small x : - 2 ^ 63 <= x < 2 ^ 63 -> i64_wrap x = x.
Proof. apply i64_wrap_small. Qed.

Lemma u64_small x : 0 <= x < 2 ^ 64 -> u64_wrap x = x.
Proof. intros H. unfold u64_wrap. by apply Z.mod_small. Qed.

Lemma retrieve_x_eq y a b q :
  0 < a -> 0 <= y < 2 ^ 63 -> Z.abs (y * b) < 2 ^ 62 -> Z.abs (q * b) < 2 ^ 62 ->
  Z.quot (q * b) a <= Z.quot (y * b) a ->
  retrieve_x y (a, b) q = Z.quot (y * b) a - Z.quot (q * b) a.
Proof.
  intros Ha Hy Hyb Hqb Hle.
  assert (Hquot : forall z, Z.abs z < 2 ^ 62 -> Z.abs (Z.quot z a) < 2 ^ 62).
  { intros z Hz. rewrite <- Z.quot_abs by lia. rewrite (Z.abs_eq a) by lia.
    rewrite Z.quot_div_nonneg by lia. pose proof (Z.div_le_upper_bound (Z.abs z) a (Z.abs z) Ha). nia. }
  pose proof (Hquot _ Hyb). pose proof (Hquot _ Hqb).
  unfold retrieve_x, i64_sub, i64_div, i64_mul. simpl.
  rewrite (i64_small y), (i64_small (y * b)), (i64_small (q * b)) by lia.
  rewrite i64_small by lia. apply u64_small. lia.
Qed.

Lemma retrieve_y_eq x a b q :
  0 < b -> 0 <= x < 2 ^ 63 -> 0 <= a -> x * a < 2 ^ 62 -> Z.abs q < 2 ^ 62 -> - q <= x * a / b ->
  retrieve_y x (a, b) q = x * a / b + q.
Proof.
  intros Hb Hx Ha Hxa Hq Hle. pose proof (Z.div_le_upper_bound (x * a) b (x * a) Hb).
  assert (0 <= x * a / b <= x * a) by (split; [apply Z.div_pos; nia|nia]).
  unfold retrieve_y, i64_add, i64_div, i64_mul. simpl.
  rewrite (i64_small x), (i64_small (x * a)) by nia. rewrite Z.quot_div_nonneg by nia.
  rewrite i64_small by lia. apply u64_small. lia.
Qed.

(** The fuel a sum of bitbells buys *)
Lemma to_fuel_eq y :
  0 <= y <= 4000000000000000 ->
  bitbell_to_wm_fuel y =
  if y <=? 999 then 0 else if y <=? 191000 then 50 * y + 450000
  else if y <=? 4691000 then 20 * y + 6180000 else 1000 * y - 4591000000.
Proof.
  intros Hy. unfold bitbell_to_wm_fuel, in_range, BASE_RANGE_BITBELL_UPPER_BOUND, SLOW_GROWTH_RANGE_BITBELL_LOWER_BOUND,
    SLOW_GROWTH_RANGE_BITBELL_UPPER_BOUND, FAST_GROWTH_RANGE_BITBELL_LOWER_BOUND, FAST_GROWTH_RANGE_BITBELL_UPPER_BOUND,
    SLOW_GROWTH_RANGE_SLOPE, FAST_GROWTH_RANGE_SLOPE, SATURATION_RANGE_SLOPE, SLOW_GROWTH_RANGE_INTERCEPT,
    FAST_GROWTH_RANGE_INTERCEPT, SATURATION_RANGE_INTERCEPT.
  replace (0 <=? y) with true by lia. cbn [andb]. destruct (y <=? 999) eqn:E1; [done|].
  replace (1000 <=? y) with true by lia. cbn [andb]. destruct (y <=? 191000) eqn:E2.
  { rewrite retrieve_x_eq; rewrite ?(Z.quot_div_nonneg (y * 100)) by lia; change (Z.quot (-9000 * 100) 2) with (-450000);
      try lia; replace (y * 100) with (y * 50 * 2) by lia; rewrite Z.div_mul by lia; lia. }
  replace (191001 <=? y) with true by lia. cbn [andb]. destruct (y <=? 4691000) eqn:E3.
  { rewrite retrieve_x_eq; rewrite ?(Z.quot_div_nonneg (y * 100)) by lia; change (Z.quot (-309000 * 100) 5) with (-6180000);
      try lia; replace (y * 100) with (y * 20 * 5) by lia; rewrite Z.div_mul by lia; lia. }
  rewrite retrieve_x_eq; rewrite ?Z.quot_1_r; lia.
Qed.

(** The bitbells some fuel costs, up to the end of the fast range *)
Lemma to_bitbell_eq x :
  0 <= x <= 100000000 ->
  wm_fuel_to_bitbell x =
  if x <=? 500000 then 1000 else if x <=? 10000000 then x * 2 / 100 - 9000 else x * 5 / 100 - 309000.
Proof.
  intros Hx. unfold wm_fuel_to_bitbell, in_range, BASE_RANGE_WM_FUEL_UPPER_BOUND, SLOW_GROWTH_RANGE_WM_FUEL_LOWER_BOUND,
    SLOW_GROWTH_RANGE_WM_FUEL_UPPER_BOUND, FAST_GROWTH_RANGE_WM_FUEL_LOWER_BOUND, FAST_GROWTH_RANGE_WM_FUEL_UPPER_BOUND,
    SLOW_GROWTH_RANGE_SLOPE, FAST_GROWTH_RANGE_SLOPE, SLOW_GROWTH_RANGE_INTERCEPT, FAST_GROWTH_RANGE_INTERCEPT.
  replace (0 <=? x) with true by lia. cbn [andb]. destruct (x <=? 500000) eqn:E1; [done|].
  replace (500001 <=? x) with true by lia. cbn [andb]. destruct (x <=? 10000000) eqn:E2.
  { rewrite retrieve_y_eq; try lia. assert (9000 <= x * 2 / 100) by (apply Z.div_le_lower_bound; lia). lia. }
  replace (10000001 <=? x) with true by lia. replace (x <=? 100000000) with true by lia. cbn [andb].
  rewrite retrieve_y_eq; try lia. assert (309000 <= x * 5 / 100) by (apply Z.div_le_lower_bound; lia). lia.
Qed.

Lemma to_fuel_to_bitbell y : 1000 <= y <= 4691000 -> wm_fuel_to_bitbell (bitbell_to_wm_fuel y) = y.
Proof.
  intros Hy. rewrite to_fuel_eq by lia. replace (y <=? 999) with false by lia.
  destruct (y <=? 191000) eqn:E.
  - rewrite to_bitbell_eq by lia. replace (50 * y + 450000 <=? 10000000) with true by lia.
    destruct (50 * y + 450000 <=? 500000) eqn:E1; [lia|].
    replace ((50 * y + 450000) * 2) with ((y + 9000) * 100) by lia. rewrite Z.div_mul by lia. lia.
  - replace (y <=? 4691000) with true by lia. rewrite to_bitbell_eq by lia.
    replace (20 * y + 6180000 <=? 500000) with false by lia. replace (20 * y + 6180000 <=? 10000000) with false by lia.
    replace ((20 * y + 6180000) * 5) with ((y + 309000) * 100) by lia. rewrite Z.div_mul by lia. lia.
Qed.

Lemma to_bitbell_monotone x x' : 0 <= x <= x' -> x' <= 100000000 -> wm_fuel_to_bitbell x <= wm_fuel_to_bitbell x'.
Proof.
  intros Hx Hx'. rewrite !to_bitbell_eq by lia.
  pose proof (Z.div_le_mono (x * 2) (x' * 2) 100). pose proof (Z.div_le_mono (x * 5) (x' * 5) 100).
  assert (500000 < x -> 10000 <= x * 2 / 100) by (intros; apply Z.div_le_lower_bound; lia).
  assert (500000 < x' -> 10000 <= x' * 2 / 100) by (intros; apply Z.div_le_lower_bound; lia).
  assert (x <= 10000000 -> x * 2 / 100 <= 200000) by (intros; apply Z.div_le_upper_bound; lia).
  assert (10000000 < x' -> 500000 <= x' * 5 / 100) by (intros; apply Z.div_le_lower_bound; lia).
  destruct (x <=? 500000) eqn:E1, (x' <=? 500000) eqn:E2, (x <=? 10000000) eqn:E3, (x' <=? 10000000) eqn:E4; lia.
Qed.

(** ** Theorems *)

(** Up to the end of the fast range the conversions are inverse: the fuel that a sum of
    bitbells buys, when burnt entirely, costs that sum. *)
Theorem fuel_roundtrip y :
  1000 <= y <= 4691000 -> wm_fuel_to_bitbell (bitbell_to_wm_fuel y) = y.
Proof. apply to_fuel_to_bitbell. Qed.

(** More bitbells never buy less fuel, up to four million billions of them, where the products
    of 64-bit integers start to wrap. *)
Theorem fuel_monotone y y' :
  0 <= y <= y' -> y' <= 4000000000000000 -> bitbell_to_wm_fuel y <= bitbell_to_wm_fuel y'.
Proof.
  intros Hy Hy'. rewrite !to_fuel_eq by lia.
  destruct (y <=? 999) eqn:E1, (y' <=? 999) eqn:E2, (y <=? 191000) eqn:E3, (y' <=? 191000) eqn:E4,
    (y <=? 4691000) eqn:E5, (y' <=? 4691000) eqn:E6; lia.
Qed.

(** A transaction whose limit is within the slow and fast ranges never pays more than its limit:
    however much of the fuel that the limit buys is burnt, the price is at most the limit. *)
Theorem price_within_limit y x :
  1000 <= y <= 4691000 -> 0 <= x <= bitbell_to_wm_fuel y -> wm_fuel_to_bitbell x <= y.
Proof.
  intros Hy Hx. etrans; [apply (to_bitbell_monotone _ (bitbell_to_wm_fuel y))|by rewrite to_fuel_to_bitbell].
  - lia.
  - rewrite to_fuel_eq by lia. destruct (y <=? 999) eqn:E1, (y <=? 191000) eqn:E2, (y <=? 4691000) eqn:E3; lia.
Qed.

(** In the saturation range the price is computed with the inverse function: one unit of fuel past
    the fast range costs ninety-five billion bitbells instead of the four million and a half
    that the unit before cost, more than any limit that buys that fuel. *)
Theorem saturation_price :
  wm_fuel_to_bitbell 100000000 = 4691000 /\ wm_fuel_to_bitbell 100000001 = 95409001000 /\
  100000001 <= bitbell_to_wm_fuel 5000000.
Proof. by vm_compute. Qed.

(** The fuel of a transaction is limited to [MAX_WM_FUEL] whatever it asks for, and is what the
    smaller of its limit and its caller's money buys once fuel is paid for; a caller that
    does not exist or has no money gets none. *)
Theorem wm_fuel_limit_spec load_account deserialize id height limit :
  let money := acc ← load_account id; bytes ← Account.assets acc !! "TRINCI"; Some (default 0 (deserialize bytes)) in
  let granted := calculate_wm_fuel_limit load_account deserialize id height limit in
  granted <= MAX_WM_FUEL /\
  (height <= 20000 -> granted = MAX_WM_FUEL) /\
  (20000 < height -> granted =
     match money with Some m => Z.min (bitbell_to_wm_fuel (Z.min limit m)) MAX_WM_FUEL | None => 0 end).
Proof.
  unfold calculate_wm_fuel_limit, ACTIVATE_FUEL_CONSUMPTION, MAX_WM_FUEL. destruct (20000 <? height) eqn:E.
  - destruct (load_account id) as [acc|]; simpl; [|split_and!; lia].
    destruct (Account.assets acc !! "TRINCI"); simpl; split_and!; lia.
  - split_and!; lia.
Qed.

Lemma fuel_roundtrip_witness : wm_fuel_to_bitbell (bitbell_to_wm_fuel 191001) = 191001.
Proof. apply fuel_roundtrip. lia. Defined.

Lemma fuel_monotone_witness : bitbell_to_wm_fuel 191000 <= bitbell_to_wm_fuel 191001.
Proof. apply fuel_monotone; lia. Defined.

Lemma price_within_limit_witness : wm_fuel_to_bitbell 9999999 <= 191000.
Proof. apply price_within_limit; [lia|]. vm_compute. split; discriminate. Defined.
End Fuel.
