(* ===== verification/EventService.v ===== *)
(** * The event service of the node ([trinci-node/src/services/event_service.rs])

    It keeps a switchboard of subscribers, each with a channel and a mask of topics, and
    sends every event to the subscribers whose mask has one of its topics. *)

From stdpp Require Import base gmap strings list fin_maps.
From S2P Require Import Prelude Exec.
Open Scope Z_scope.

Module EventService.
(** The flags of [EventTopics] *)
Definition BLOCK : Z := Z.shiftl 1 1.
Definition CONTRACT_EVENTS : Z := Z.shiftl 1 3.
Definition BLOCK_EXEC : Z := Z.shiftl 1 5.

Section service.
(** [Sender]: the channels of the subscribers; [Chan]: those of the responses *)
Context {Sender Chan : Type} `{!HashMapIter Z}.

Record t : Type := Mk {
  next_connection_id : Z;
  switchboard : gmap Z (Sender * Z)
}.

Definition set_switchboard (b : gmap Z (Sender * Z)) (s : t) : t := Mk (next_connection_id s) b.
Definition set_next_connection_id (n : Z) (s : t) : t := Mk n (switchboard s).

(** The requests of the node the service handles; [OtherReq] stands for the rest. *)
Inductive Req : Type :=
| Subscribe (event_topics : Z) (event_sender : Sender) (subscriber_id : option Z)
| Unsubscribe (event_topics : Z) (subscriber_id : Z)
| Disconnect (subscriber_id : Z)
| OtherReq.

Inductive Res : Type :=
| SubscribeRes (id : option Z)
| UnsubscribeRes (b : bool)
| DisconnectRes (b : bool).

Inductive effect : Type :=
| Replied (to : Chan) (res : Res)
| Notified (to : Sender) (event : list Z).

(** This service makes no requests. *)
Abbreviation h := (M t effect unit).

Definition handle_requests (req : Req) (res_chan : Chan) : h unit :=
  match req with
  | Subscribe topics event_sender subscriber_id =>
      s ← get_state;
      response ←
        (match subscriber_id with
         | Some id =>
             match switchboard s !! id with
             | Some (sender, listener_mask) =>
                 modify (set_switchboard (<[id := (sender, Z.lor listener_mask topics)]> (switchboard s))) ;;
                 mret (Some id)
             | None => mret None
             end
         | None =>
             let id := next_connection_id s in
             modify (set_switchboard (<[id := (event_sender, topics)]> (switchboard s))) ;;
             modify (set_next_connection_id (next_connection_id s +u64 1)) ;;
             mret (Some id)
         end);
      emit (Replied res_chan (SubscribeRes response))
  | Unsubscribe topics subscriber_id =>
      s ← get_state;
      response ←
        (match switchboard s !! subscriber_id with
         | Some (sender, listener_mask) =>
             let listener_mask := Z.lxor listener_mask topics in
             modify (set_switchboard (<[subscriber_id := (sender, listener_mask)]> (switchboard s))) ;;
             when (listener_mask =? 0)
               (modify (fun s => set_switchboard (delete subscriber_id (switchboard s)) s)) ;;
             mret true
         | None => mret false
         end);
      emit (Replied res_chan (UnsubscribeRes response))
  | Disconnect subscriber_id =>
      s ← get_state;
      modify (set_switchboard (delete subscriber_id (switchboard s))) ;;
      emit (Replied res_chan (DisconnectRes (bool_decide (is_Some (switchboard s !! subscriber_id)))))
  | OtherReq => mret tt
  end.

(** [propagate_event], over the values in the order of the map *)
Definition propagate_event (topics : Z) (event : list Z) : h unit :=
  s ← get_state;
  for_each (map snd (map_iter (switchboard s))) (fun '(sender, mask) =>
    when (0 <? Z.land mask topics) (emit (Notified sender event))).

(** What [select] gives the loop: an event, a message (none is expected: the loop ends) or a
    request; a request without a channel is a panic. *)
Inductive input : Type :=
| InEvent (topics : Z) (event : list Z)
| InMsg
| InReq (req : Req) (res_chan : option Chan).

Fixpoint run (inputs : list input) : h unit :=
  match inputs with
  | [] => mret tt
  | InEvent topics event :: inputs => propagate_event topics event ;; run inputs
  | InMsg :: _ => mret tt
  | InReq req res_chan :: inputs =>
      c ← expect res_chan; handle_requests req c ;; run inputs
  end.

Definition initial : t := Mk 0 ∅.

(** ** The switchboard as a function *)

(** What a request makes of the switchboard *)
Definition after (req : Req) (s : t) : t :=
  match req with
  | Subscribe topics sender (Some id) =>
      match switchboard s !! id with
      | Some (sender, mask) => set_switchboard (<[id := (sender, Z.lor mask topics)]> (switchboard s)) s
      | None => s
      end
  | Subscribe topics sender None =>
      Mk (next_connection_id s +u64 1) (<[next_connection_id s := (sender, topics)]> (switchboard s))
  | Unsubscribe topics id =>
      match switchboard s !! id with
      | Some (sender, mask) =>
          set_switchboard (if Z.lxor mask topics =? 0 then delete id (switchboard s)
                           else <[id := (sender, Z.lxor mask topics)]> (switchboard s)) s
      | None => s
      end
  | Disconnect id => set_switchboard (delete id (switchboard s)) s
  | OtherReq => s
  end.

Definition response (req : Req) (s : t) : list Res :=
  match req with
  | Subscribe _ _ (Some id) => [SubscribeRes (match switchboard s !! id with Some _ => Some id | None => None end)]
  | Subscribe _ _ None => [SubscribeRes (Some (next_connection_id s))]
  | Unsubscribe _ id => [UnsubscribeRes (bool_decide (is_Some (switchboard s !! id)))]
  | Disconnect id => [DisconnectRes (bool_decide (is_Some (switchboard s !! id)))]
  | OtherReq => []
  end.

Lemma handle_requests_eq req c (w : world t effect unit) :
  handle_requests req c w = Ret tt (outs (map (Replied c) (response req (w_state w))) (upd (after req) w)).
Proof.
  destruct w as [s ans clk out]. unfold handle_requests, outs, upd.
  destruct req as [topics sender [id|]|topics id|id|]; simpl; unfold mbind, M_bind; simpl.
  - destruct (switchboard s !! id) as [[sender' mask]|]; simpl; done.
  - done.
  - destruct (switchboard s !! id) as [[sender' mask]|] eqn:E; simpl; [|done].
    destruct (Z.lxor mask topics =? 0); simpl; [|done].
    unfold set_switchboard. simpl. by rewrite delete_insert_eq.
  - done.
  - by rewrite app_nil_r.
Qed.

(** ** Theorems *)

(** The mask of a subscriber; none has no topic *)
Definition mask_of (s : t) (id : Z) : Z := from_option snd 0 (switchboard s !! id).

(** The events are sent one after the other. *)
Lemma notify_all topics event l (w : world t effect unit) :
  for_each l (fun '(sender, mask) => when (0 <? Z.land mask topics) (emit (Notified sender event))) w =
  Ret tt (outs (map (fun e => Notified (fst e) event) (List.filter (fun e => 0 <? Z.land (snd e) topics) l)) w).
Proof.
  revert w. induction l as [|[sender mask] l IH]; intros [s ans clk out]; cbn [for_each].
  { unfold outs. simpl. by rewrite app_nil_r. }
  rewrite bind_eq. unfold when at 1. cbn [List.filter snd].
  destruct (0 <? Z.land mask topics); cbn [emit mret M_ret]; rewrite IH; unfold outs; simpl; [|done].
  by rewrite <- app_assoc.
Qed.

(** An event goes exactly to the subscribers that have one of its topics in their mask, once
    each, and changes nothing else. *)
Theorem propagate_event_spec topics event (w : world t effect unit) :
  exists notified, propagate_event topics event w = Ret tt (outs (map (fun e => Notified (fst e) event) notified) w) /\
    notified ≡ₚ List.filter (fun e => 0 <? Z.land (snd e) topics) (map snd (map_to_list (switchboard (w_state w)))).
Proof.
  exists (List.filter (fun e => 0 <? Z.land (snd e) topics) (map snd (map_iter (switchboard (w_state w))))). split.
  - unfold propagate_event. rewrite bind_eq. cbn beta iota delta [get_state]. apply notify_all.
  - pose proof (Permutation_map snd (map_iter_perm (switchboard (w_state w)))) as Hp.
    induction Hp as [|x l l' Hp IH|x y l|l l' l'' Hp1 IH1 Hp2 IH2]; simpl; [done| | |by rewrite IH1].
    + destruct (0 <? _); [by rewrite IH|exact IH].
    + destruct (0 <? Z.land (snd x) topics), (0 <? Z.land (snd y) topics); try done. apply Permutation_swap.
Qed.

(** What the loop keeps: only ids below the next one are in the switchboard. *)
Definition ids_below (s : t) : Prop := forall id, is_Some (switchboard s !! id) -> 0 <= id < next_connection_id s.

(** A subscriber without an id gets one that nobody has, is in the switchboard with exactly the
    topics it asked for, and nobody else's entry changes, as long as the ids do not wrap. *)
Theorem subscribe_new topics sender c (w : world t effect unit) :
  ids_below (w_state w) -> 0 <= next_connection_id (w_state w) < u64_max ->
  let id := next_connection_id (w_state w) in
  switchboard (w_state w) !! id = None /\
  exists w', handle_requests (Subscribe topics sender None) c w = Ret tt w' /\
    w_out w' = w_out w ++ [Replied c (SubscribeRes (Some id))] /\
    switchboard (w_state w') !! id = Some (sender, topics) /\
    (forall id', id' <> id -> switchboard (w_state w') !! id' = switchboard (w_state w) !! id') /\
    ids_below (w_state w').
Proof.
  intros Hb Hn id. split.
  { destruct (switchboard (w_state w) !! id) eqn:E; [|done]. specialize (Hb id (mk_is_Some _ _ E)). subst id. lia. }
  rewrite handle_requests_eq. eexists. split; [reflexivity|]. simpl. fold id. split_and!.
  - done.
  - by rewrite lookup_insert_eq.
  - intros id' Hne. by rewrite lookup_insert_ne.
  - intros id' Hid'. unfold id. simpl in *. rewrite u64_add_small by (unfold u64_max in *; lia).
    destruct (decide (id' = id)) as [->|Hne]; [unfold id; lia|].
    rewrite lookup_insert_ne in Hid' by done. specialize (Hb id' Hid'). lia.
Qed.

(** Subscribing again adds the topics to the mask and never removes one. *)
Theorem subscribe_again topics sender id c (w : world t effect unit) :
  is_Some (switchboard (w_state w) !! id) ->
  exists w', handle_requests (Subscribe topics sender (Some id)) c w = Ret tt w' /\
    w_out w' = w_out w ++ [Replied c (SubscribeRes (Some id))] /\
    mask_of (w_state w') id = Z.lor (mask_of (w_state w) id) topics.
Proof.
  intros [[sender' mask] Hid]. rewrite handle_requests_eq. eexists. split; [reflexivity|]. simpl.
  unfold mask_of. rewrite Hid. simpl. by rewrite lookup_insert_eq.
Qed.

(** Unsubscribing flips the topics instead of removing them: when the mask has all of them they
    are removed, but a topic that the subscriber does not have is subscribed to. *)
Theorem unsubscribe_flips topics id c (w : world t effect unit) :
  is_Some (switchboard (w_state w) !! id) ->
  exists w', handle_requests (Unsubscribe topics id) c w = Ret tt w' /\
    w_out w' = w_out w ++ [Replied c (UnsubscribeRes true)] /\
    (forall i, Z.testbit (mask_of (w_state w') id) i =
       xorb (Z.testbit (mask_of (w_state w) id) i) (Z.testbit topics i)) /\
    (Z.land (mask_of (w_state w) id) topics = topics ->
     mask_of (w_state w') id = Z.ldiff (mask_of (w_state w) id) topics) /\
    (mask_of (w_state w') id = 0 -> switchboard (w_state w') !! id = None).
Proof.
  intros [[sender mask] Hid]. rewrite handle_requests_eq. eexists. split; [reflexivity|]. simpl.
  rewrite bool_decide_true by by eexists.
  assert (Hmask : mask_of (after (Unsubscribe topics id) (w_state w)) id = Z.lxor mask topics).
  { unfold mask_of. simpl. rewrite Hid. destruct (Z.lxor mask topics =? 0) eqn:E; simpl.
    - rewrite lookup_delete_eq. simpl. lia.
    - by rewrite lookup_insert_eq. }
  simpl in Hmask. rewrite Hmask. unfold mask_of at 1 2 3. rewrite Hid. simpl. split_and!.
  - done.
  - intros i. apply Z.lxor_spec.
  - intros Hall. apply Z.bits_inj. intros i. apply (f_equal (fun x => Z.testbit x i)) in Hall.
    rewrite Z.land_spec in Hall. rewrite Z.lxor_spec, Z.ldiff_spec.
    by destruct (Z.testbit mask i), (Z.testbit topics i).
  - intros ->. simpl. by rewrite lookup_delete_eq.
Qed.

(** The loop never notifies who has left: after a [Disconnect] the subscriber is not in the
    switchboard, and it is told whether it was. *)
Theorem disconnect_spec id c (w : world t effect unit) :
  exists w', handle_requests (Disconnect id) c w = Ret tt w' /\
    w_out w' = w_out w ++ [Replied c (DisconnectRes (bool_decide (is_Some (switchboard (w_state w) !! id))))] /\
    switchboard (w_state w') = delete id (switchboard (w_state w)).
Proof. rewrite handle_requests_eq. by eexists. Qed.
End service.

(** ** Witnesses *)
#[local] Existing Instance gmap_iter.

Abbreviation sample_world := (world (t (Sender := string)) (effect (Sender := string) (Chan := string)) unit).
Definition sample (board : gmap Z (string * Z)) (n : Z) : sample_world := World (Mk n board) [] (0, []) [].

Lemma subscribe_new_witness :
  exists w', handle_requests (Subscribe 10 "kafka" None) "chan" (sample {[0 := ("rest", 2)]} 1) = Ret tt w' /\
    switchboard (w_state w') !! 1 = Some ("kafka", 10).
Proof.
  destruct (subscribe_new 10 "kafka" "chan" (sample {[0 := ("rest", 2)]} 1)) as (_ & w' & Hr & _ & Hid & _).
  - intros id [e He]. simpl in He. apply lookup_singleton_Some in He as [<- _]. simpl. lia.
  - vm_compute. split; congruence.
  - by exists w'.
Defined.

Lemma subscribe_again_witness :
  exists w', handle_requests (Subscribe 8 "kafka" (Some 0)) "chan" (sample {[0 := ("rest", 2)]} 1) = Ret tt w' /\
    mask_of (w_state w') 0 = 10.
Proof.
  destruct (subscribe_again 8 "kafka" 0 "chan" (sample {[0 := ("rest", 2)]} 1)) as (w' & Hr & _ & Hm).
  - vm_compute. eauto.
  - exists w'. split; [exact Hr|]. rewrite Hm. reflexivity.
Defined.

(** Unsubscribing from the events of contracts subscribes to them. *)
Lemma unsubscribe_flips_witness :
  exists w', handle_requests (Unsubscribe CONTRACT_EVENTS 0) "chan" (sample {[0 := ("rest", BLOCK)]} 1) = Ret tt w' /\
    Z.testbit (mask_of (w_state w') 0) 3 = true.
Proof.
  destruct (unsubscribe_flips CONTRACT_EVENTS 0 "chan" (sample {[0 := ("rest", BLOCK)]} 1)) as (w' & Hr & _ & Hm & _).
  - vm_compute. eauto.
  - exists w'. split; [exact Hr|]. rewrite Hm. reflexivity.
Defined.
End EventService.
