(* ===== verification/WasmMachine.v ===== *)
(** * The interface of the WASM machine
    ([trinci-node/src/services/wm/wasm_machine.rs])

    The trait [Wm] the WASM service is written against.  A call runs on the machine, a
    fork of the database and the list of the events of the contracts; it may ask the
    DRand service for numbers. *)

From stdpp Require Import base gmap strings list fin_maps.
From S2P Require Import Prelude.
From S2P Require Import Exec.
From S2P Require Import Hash.
From S2P Require Import Messages.
From S2P Require Import NodeModels.
From S2P Require Import NodeErrors.
From S2P Require Import Database.
Open Scope Z_scope.

(** [rmp_deserialize] into [X]; [None] is an error. *)
Class MsgUnpack (X : Type) : Type := { msgunpack : list Z -> option X }.

Record CtxArgs : Type := MkCtxArgs { origin : string; owner : string; caller : string }.

(** The arguments of [call] *)
Record CallArgs : Type := MkCallArgs {
  ca_depth : Z;
  ca_network : string;
  ca_origin : string;
  ca_owner : string;
  ca_caller : string;
  ca_contract : Hash;
  ca_method : string;
  ca_args : list Z;
  ca_initial_fuel : Z;
  ca_block_timestamp : Z
}.

Record WmState (W F : Type) : Type := MkWmState {
  ws_wm : W;
  ws_fork : F;
  ws_events : list SmartContractEvent
}.
Arguments MkWmState {W F} _ _ _.
Arguments ws_wm {W F} _.
Arguments ws_fork {W F} _.
Arguments ws_events {W F} _.

(** The effects and answers of the core's channels, as the node uses them *)
Abbreviation core_effect := (Effect Hash Block Confirmation Transaction).
Abbreviation core_answer := (Answer Hash Block Confirmation Transaction).
Abbreviation wm_handler W F := (M (WmState W F) core_effect core_answer).

(** The methods of [Wm] its clients use, the service and the host functions; [new] panics
    on an empty cache. *)
Class Wm (W F : Type) : Type := {
  wm_new : Z -> option W;
  call : CallArgs -> wm_handler W F (Z * Result (list Z) WasmError);
  callable_call : CallArgs -> wm_handler W F (Z * Result Z WasmError);
  app_hash_check : option Hash -> CtxArgs -> Z -> wm_handler W F (Result Hash WasmError)
}.

(** A machine changes the fork through writes only: it neither flushes it nor rolls it
    back; and the fuel it burnt is a number of 64 bits. *)
Class WmLaws (W F : Type) `{!DbFork F} `{!Wm W F} : Prop := {
  call_fuel : forall args w, match call args w with Ret r _ => is_u64 (fst r) | Panic _ => True end;
  call_writes : forall args,
    rel (fun w w' => rtc writes (ws_fork (w_state w)) (ws_fork (w_state w'))) (call args);
  callable_call_writes : forall args,
    rel (fun w w' => rtc writes (ws_fork (w_state w)) (ws_fork (w_state w'))) (callable_call args);
  app_hash_check_writes : forall app_hash ctx_args block_timestamp,
    rel (fun w w' => rtc writes (ws_fork (w_state w)) (ws_fork (w_state w'))) (app_hash_check app_hash ctx_args block_timestamp)
}.

(** What a transaction that failed inside the node costs *)
Definition get_fuel_burnt_for_error : Z := 1000.
