(* ===== verification/NodeMessages.v ===== *)
(** * Messages between the services of the node
    ([trinci-node/src/artifacts/messages.rs], [retrieve_attachments_from_tx] of
    [trinci-node/src/utils.rs])

    The services of the node talk to each other and, through the core's channels, to the
    services of the core.  The topics of events are the masks of the event service. *)

From stdpp Require Import base gmap strings list fin_maps.
From S2P Require Import Prelude.
From S2P Require Import Exec.
From S2P Require Import Hash.
From S2P Require Import Crypto.
From S2P Require Import CoreModels.
From S2P Require Import Messages.
From S2P Require Import NodeModels.
From S2P Require Import WasmMachine.
Open Scope Z_scope.

(** The channels of the node: those of its services, and those of events and of the
    responses that are waited for, by number *)
Inductive NodeService : Type := NWasm | NDB | NP2P | NEvent.
#[export] Instance NodeService_eq_dec : EqDecision NodeService.
Proof. solve_decision. Defined.
Abbreviation Chan := Z (only parsing).

Module NodeMsg.
Inductive t : Type :=
| BlockConsolidated (block : Block) (txs_hashes : list Hash) (players : Players.t)
| ExecuteBlock (block : Block) (round : Z) (transactions : list Transaction)
| PropagateBlockToPeers (block : Block) (confirmation : Confirmation) (txs_hashes : list Hash)
| PropagateConfirmationToPeers (confirmation : Confirmation)
| PropagateOldTxs (txs : list Transaction)
| PropagateTxToPeers (tx : Transaction)
| StartBlockConsolidation (block : Block) (confirmations : list Confirmation) (txs_hashes : list Hash)
| VerifyIfConsolidated (height round : Z).
End NodeMsg.

Module NodeReq.
Inductive t : Type :=
| Disconnect (id : Z)
| ExecuteGenesisBlock (block : Block) (txs : list Transaction) (network_name : string)
| GetAccount (id : string)
| GetAccountData (account_id key : string)
| GetConfirmations (block_height : Z) (block_hash : Hash) (ask_for_block : bool)
| GetFullBlock (block_height : Z) (trusted_peers : list string)
| GetHeight
| GetLastBlockInfo (peer : string)
| GetMiningAccount
| GetNeighbors
| GetP2pAddresses
| GetPlayers
| GetRx (tx_hash : Hash)
| GetStatus
| GetTxs (hashes : list Hash)
| HasBlock (height : Z)
| HasTx (hash : Hash)
| HasTxs (hashes : list Hash)
| Subscribe (event_topics : Z) (event_sender : Chan) (subscriber_id : option Z)
| Unsubscribe (event_topics subscriber_id : Z).
End NodeReq.

Module NodeRes.
Inductive t : Type :=
| Disconnect (b : bool)
| ExecuteGenesisBlock
| GetAccount (account : option Account.t)
| GetAccountData (data : option (list Z))
| GetConfirmations (confirmations : option (list Confirmation)) (block : option (Block * list Hash))
| GetFullBlock (full_block : option (FullBlock Block Confirmation Transaction)) (account_id : string)
| GetHeight (height : Z)
| GetLastBlockInfo (info : BlockInfo)
| GetMiningAccount (account : option string)
| GetNeighbors (ids : list string)
| GetP2pAddresses (addresses : list string)
| GetPlayers (players : option (list Player))
| GetRx (receipt : option Receipt)
| GetStatus (height : Z) (db_hash : Hash)
| GetTxs (txs : list Transaction)
| HasBlock (b : bool)
| HasTx (b : bool)
| HasTxs (mask : list bool)
| Subscribe (id : option Z)
| Unsubscribe (b : bool).
End NodeRes.

Inductive NodeCommKind : Type :=
| NMsg (m : NodeMsg.t)
| NReq (r : NodeReq.t).

(** [Comm] *)
Record NodeComm : Type := MkNodeComm { n_kind : NodeCommKind; n_res_chan : option Chan }.

(** What is published to the peers *)
Inductive Payload : Type :=
| PBlock (block : Block) (confirmation : Confirmation) (txs_hashes : list Hash)
| PConfirmation (confirmation : Confirmation)
| POldTransactions (txs : list Transaction)
| PTransaction (tx : Transaction).

Inductive TrinciTopics : Type := TBlocks | TConsensus | TTxs.
Definition topic_to_string (t : TrinciTopics) : string :=
  match t with TBlocks => "blocks" | TConsensus => "consensus" | TTxs => "txs" end.

(** ** Effects

    What goes through the core's channels is an effect of the core; a request is asked
    with a channel of its own, a response goes to the channel of the request. *)
Abbreviation core_msg := (Msg.t Hash Block Confirmation Transaction).
Abbreviation core_res := (Res.t Hash Block Confirmation Transaction).
Inductive NodeEffect : Type :=
| InCore (e : core_effect)
| Told (to : NodeService) (m : NodeMsg.t)
| Asked (to : NodeService) (r : NodeReq.t)
| Answered (to : Chan) (res : NodeRes.t)
| Emitted (topics : Z) (event : list Z).

(** What comes of a request to a service of the node, or of the core *)
Inductive NodeAnswer : Type :=
| FromNode (res : NodeRes.t)
| FromCore (res : core_res)
| NTimedOut
| NDisconnected.

(** [CommError] *)
Inductive NodeCommError : Type :=
| NRecvTimeoutError
| NSendError.

Section sending.
Context {S : Type}.
Abbreviation h := (M S NodeEffect NodeAnswer).

(** [send_msg], [send_msg_async]: what fails is logged *)
Definition tell (to : NodeService) (m : NodeMsg.t) : h unit := emit (Told to m).
Definition tell_core (to : Service) (m : core_msg) : h unit := emit (InCore (Sent to (MkComm (KMsg m) None))).

(** [send_res], to a service of the node and to one of the core *)
Definition reply (to : Chan) (res : NodeRes.t) : h unit := emit (Answered to res).
Definition reply_core (to : Service) (res : core_res) : h unit := emit (InCore (Replied to res)).

(** [send_req], [send_req_async] *)
Definition ask_node (to : NodeService) (r : NodeReq.t) : h (Result NodeRes.t NodeCommError) :=
  a ← next_answer;
  match a with
  | Some (FromNode res) => emit (Asked to r) ;; mret (Ok res)
  | Some NDisconnected => mret (Err NSendError)
  | Some (FromCore _) | Some NTimedOut | None => emit (Asked to r) ;; mret (Err NRecvTimeoutError)
  end.

Definition ask_core (to : Service) (r : Req.t) : h (Result core_res NodeCommError) :=
  let asked := emit (InCore (Sent to (MkComm (KReq r) (Some NodeInterface)))) in
  a ← next_answer;
  match a with
  | Some (FromCore res) => asked ;; mret (Ok res)
  | Some NDisconnected => mret (Err NSendError)
  | Some (FromNode _) | Some NTimedOut | None => asked ;; mret (Err NRecvTimeoutError)
  end.

(** Asking ends with the answer that comes next or with none, after the request or, on a closed
    channel, with no effect. *)
Lemma ask_node_eq to r (w : world S NodeEffect NodeAnswer) :
  exists out w' es, ask_node to r w = Ret out w' /\ w_out w' = w_out w ++ es /\ w_state w' = w_state w /\
    match out with
    | Ok res => es = [Asked to r] /\ head (w_answers w) = Some (FromNode res)
    | Err _ => es = [] \/ es = [Asked to r]
    end.
Proof.
  destruct w as [s [|[res|res| |] rest] k o]; unfold ask_node; rewrite bind_eq; cbn [next_answer w_answers];
    eexists _, _, _; (split; [reflexivity|]); (split; [first [reflexivity|symmetry; apply app_nil_r]|]); auto.
Qed.

Lemma ask_core_eq to r (w : world S NodeEffect NodeAnswer) :
  exists out w' es, ask_core to r w = Ret out w' /\ w_out w' = w_out w ++ es /\ w_state w' = w_state w /\
    let asked := [InCore (Sent to (MkComm (KReq r) (Some NodeInterface)))] in
    match out with
    | Ok res => es = asked /\ head (w_answers w) = Some (FromCore res)
    | Err _ => es = [] \/ es = asked
    end.
Proof.
  destruct w as [s [|[res|res| |] rest] k o]; unfold ask_core; rewrite bind_eq; cbn [next_answer w_answers];
    eexists _, _, _; (split; [reflexivity|]); (split; [first [reflexivity|symmetry; apply app_nil_r]|]); auto.
Qed.

Lemma ask_node_proj {X} (f : S -> X) to r : rel (same_proj f) (ask_node to r).
Proof. unfold ask_node. apply rel_bind; [typeclasses eauto|apply rel_next_answer_proj|]. intros [[| | |]|]; frames. Qed.
Lemma ask_core_proj {X} (f : S -> X) to r : rel (same_proj f) (ask_core to r).
Proof. unfold ask_core. apply rel_bind; [typeclasses eauto|apply rel_next_answer_proj|]. intros [[| | |]|]; frames. Qed.
Lemma ask_node_adds Q to r : Q (Asked to r) -> rel (adds Q) (ask_node to r).
Proof. intros HQ. unfold ask_node. apply rel_bind; [typeclasses eauto|apply rel_next_answer_adds|]. intros [[| | |]|]; frames; done. Qed.
Lemma ask_core_adds Q to r : Q (InCore (Sent to (MkComm (KReq r) (Some NodeInterface)))) -> rel (adds Q) (ask_core to r).
Proof. intros HQ. unfold ask_core. apply rel_bind; [typeclasses eauto|apply rel_next_answer_adds|]. intros [[| | |]|]; frames; done. Qed.
Lemma ask_node_safe to r : safe (S := S) (ask_node to r).
Proof. unfold ask_node. safely. Qed.
Lemma ask_core_safe to r : safe (S := S) (ask_core to r).
Proof. unfold ask_core. safely. Qed.
End sending.

#[export] Hint Resolve ask_node_proj ask_core_proj ask_node_adds ask_core_adds : frames.
#[export] Hint Resolve ask_node_safe ask_core_safe : safety.

(** The hashes of the parts of a bulk *)
Definition retrieve_attachments_from_tx `{Hdig : Digest} `{!MsgPack TransactionData} (tx : Transaction) : option (list Hash) :=
  match tx with
  | BulkTransaction bulk_tx =>
      match s_data bulk_tx with
      | BulkV1 d =>
          let attachments := [tx_data_hash (u_data (bt_root (txs d)))] in
          Some (match bt_nodes (txs d) with
                | Some node_txs => fold_left (fun attachments node_tx => attachments ++ [tx_data_hash (s_data node_tx)]) node_txs attachments
                | None => attachments
                end)
      | _ => None
      end
  | UnitTransaction _ => None
  end.
