(* ===== verification/HostFunc.v ===== *)
(** * The host functions ([trinci-node/src/services/wm/host_func.rs])

    What a contract can ask the node for: the data, assets and contract of accounts,
    calls of other contracts, signatures, hashes, random numbers and the time.  A host
    function runs on the machine, the fork and the events it shares with the call that
    made it ([WmState]) and on the context of that call. *)

From stdpp Require Import base gmap strings list fin_maps.
From S2P Require Import Prelude.
From S2P Require Import Exec.
From S2P Require Import Hash.
From S2P Require Import Crypto.
From S2P Require Import DRand.
From S2P Require Import Messages.
From S2P Require Import NodeModels.
From S2P Require Import NodeErrors.
From S2P Require Import Database.
From S2P Require Import WasmMachine.
Open Scope Z_scope.

(** [u16] addition *)
Definition u16_add (x y : Z) : Z := (x + y) mod 2 ^ 16.

(** The context of a call.  Its references to the machine, the fork and the events are
    the [WmState] it runs on; [cx_wm] is whether the reference to the machine is set. *)
Record CallContext : Type := MkContext {
  cx_wm : bool;
  cx_owner : string;
  cx_data_updated : bool;
  cx_depth : Z;
  cx_network : string;
  cx_origin : string;
  cx_initial_fuel : Z;
  cx_block_timestamp : Z;
  cx_method : string
}.

Record StoreAssetData : Type := MkStoreAssetData { sa_account : string; sa_data : list Z }.

Module HostFunc.
Section host_func.
Context `{Hdig : Digest} `{Hring : Ring} `{Hpack : !MsgPack StoreAssetData}.
Context {W F : Type} `{Hfork : DbFork F} `{Hwm : Wm W F}.

Record t : Type := Mk { machine : WmState W F; ctx : CallContext }.
Abbreviation hf := (M t core_effect core_answer).

Definition set_wm (c : CallContext) : CallContext :=
  MkContext true (cx_owner c) (cx_data_updated c) (cx_depth c) (cx_network c) (cx_origin c) (cx_initial_fuel c)
    (cx_block_timestamp c) (cx_method c).
Definition set_data_updated (c : CallContext) : CallContext :=
  MkContext (cx_wm c) (cx_owner c) true (cx_depth c) (cx_network c) (cx_origin c) (cx_initial_fuel c)
    (cx_block_timestamp c) (cx_method c).

Definition db (s : t) : F := ws_fork (machine s).
Definition on_db (g : F -> F) (s : t) : t :=
  Mk (MkWmState (ws_wm (machine s)) (g (db s)) (ws_events (machine s))) (ctx s).
Definition push_event (e : SmartContractEvent) (s : t) : t :=
  Mk (MkWmState (ws_wm (machine s)) (db s) (ws_events (machine s) ++ [e])) (ctx s).
Definition data_updated (s : t) : t := Mk (machine s) (set_data_updated (ctx s)).

(** The machine the context refers to *)
Definition on_machine {A} (m : wm_handler W F A) : hf A := zoom machine (fun ws s => Mk ws (ctx s)) id m.

Definition get_smartcontract_hash (s : t) : Hash :=
  match fork_load_account (cx_owner (ctx s)) (db s) with
  | Some account => match Account.contract account with Some contract_hash => contract_hash | None => Hashes.default end
  | None => Hashes.default
  end.

(** The message is logged. *)
Definition log (msg : string) : hf unit := mret tt.

Definition emit (event_name : string) (event_data : list Z) : hf unit :=
  modify (fun s =>
    push_event (MkEvent Hashes.default (cx_owner (ctx s)) (get_smartcontract_hash s) event_name event_data) s).

Definition load_data (key : string) : hf (list Z) :=
  gets (fun s => default [] (fork_load_account_data (cx_owner (ctx s)) key (db s))).

Definition store_data (key : string) (data : list Z) : hf unit :=
  modify (fun s => data_updated (on_db (store_account_data (cx_owner (ctx s)) key data) s)).

Definition remove_data (key : string) : hf unit :=
  modify (fun s => data_updated (on_db (remove_account_data (cx_owner (ctx s)) key) s)).

Definition get_account_contract (account_id : string) : hf (option Hash) :=
  gets (fun s => match fork_load_account account_id (db s) with
                 | Some account => Account.contract account
                 | None => None
                 end).

Definition is_callable (account method : string) (initial_fuel : Z) : hf (Z * Result Z WasmError) :=
  contract ← get_account_contract account;
  match contract with
  | None => mret (0, Ok 0)
  | Some hash =>
      c ← gets ctx;
      if cx_wm c then
        let ctx_args := MkCtxArgs (cx_origin c) account (cx_owner c) in
        app_hash ← on_machine (app_hash_check (Some hash) ctx_args (cx_block_timestamp c));
        match app_hash with
        | Ok app_hash =>
            on_machine (callable_call (MkCallArgs (u16_add (cx_depth c) 1) (cx_network c) (cx_origin c) account
              (cx_owner c) app_hash method (into_bytes method) initial_fuel (cx_block_timestamp c)))
        | Err e => mret (0, Err e)
        end
      else mret (get_fuel_burnt_for_error, Err (WasmMachineFault "is_callable not implemented"))
  end.

Definition load_asset (account_id : string) : hf (list Z) :=
  gets (fun s => match fork_load_account account_id (db s) with
                 | Some account => Account.load_asset account (cx_owner (ctx s))
                 | None => []
                 end).

(** The account [account_id], or a new one *)
Definition account_or_new (account_id : string) (f : F) : Account.t :=
  default (Account.new account_id None) (fork_load_account account_id f).

Definition store_asset (account_id : string) (value : list Z) : hf unit :=
  when (negb (bool_decide (account_id = EmptyString)))
    (modify (fun s =>
       on_db (store_account (Account.store_asset (cx_owner (ctx s)) value (account_or_new account_id (db s)))) s) ;;
     emit "STORE_ASSET" (msgpack (MkStoreAssetData account_id value))).

Definition remove_asset (account_id : string) : hf unit :=
  modify (fun s =>
    on_db (store_account (Account.remove_asset (cx_owner (ctx s)) (account_or_new account_id (db s)))) s).

Definition get_keys (pattern : string) : hf (list string) :=
  gets (fun s => List.filter (fun k => bool_decide (pattern = EmptyString) || starts_with pattern k)
                   (fork_load_account_keys (cx_owner (ctx s)) (db s))).

Definition call (owner : string) (contract : option Hash) (method : string) (data : list Z) (initial_fuel : Z) :
    hf (Z * Result (list Z) WasmError) :=
  c ← gets ctx;
  if cx_wm c then
    let ctx_args := MkCtxArgs (cx_origin c) owner (cx_owner c) in
    app_hash ← on_machine (app_hash_check contract ctx_args (cx_block_timestamp c));
    match app_hash with
    | Ok app_hash =>
        on_machine (WasmMachine.call (MkCallArgs (u16_add (cx_depth c) 1) (cx_network c) (cx_origin c) owner
          (cx_owner c) app_hash method data initial_fuel (cx_block_timestamp c)))
    | Err e => mret (0, Err e)
    end
  else mret (get_fuel_burnt_for_error, Err (WasmMachineFault "nested calls not implemented")).

Definition verify (pk : Keys.TrinciPublicKey) (data sign : list Z) : hf Z :=
  mret (if Keys.verify pk data sign then 1 else 0).

Definition sha256 (data : list Z) : hf (list Z) := mret (Hash.sha256 data).

Definition drand (max : Z) : hf (option Z) :=
  res ← send_req NodeInterface DRandService (Req.GetDRandNum max);
  match res with
  | Ok (Res.GetDRandNum drand_num) => mret (Some drand_num)
  | _ => mret None
  end.

Definition get_block_time : hf Z := gets (fun s => cx_block_timestamp (ctx s)).
End host_func.
End HostFunc.
