(* ===== verification/Wasmtime.v ===== *)
(** * The wasmtime crate, as the WASM machine uses it

    Compilation, stores, instances and the execution of contracts are parameters.  A
    run of a contract is a finite tree: it ends with a result, or calls a host function
    and goes on with what that returns, or ends with what an error of it becomes.
    (The store meters fuel, so every run of wasm code is finite.) *)

From stdpp Require Import base gmap strings list.
From S2P Require Import Prelude.
From S2P Require Import NodeErrors.
Open Scope Z_scope.

(** The host functions, with the values a contract calls them with: [i32] offsets and
    sizes, and the [u64] bound of a random number *)
Inductive HostCall : Type :=
| HfLog (offset size : Z)
| HfEmit (event_name_offset event_name_size event_data_offset event_data_size : Z)
| HfLoadData (key_offset key_size : Z)
| HfStoreData (key_offset key_size data_offset data_size : Z)
| HfRemoveData (key_offset key_size : Z)
| HfIsCallable (account_offset account_size method_offset method_size : Z)
| HfLoadAsset (account_id_offset account_id_size : Z)
| HfStoreAsset (account_id_offset account_id_length value_offset value_length : Z)
| HfRemoveAsset (account_id_offset account_id_length : Z)
| HfGetAccountContract (account_id_offset account_id_length : Z)
| HfGetKeys (pattern_offset pattern_size : Z)
| HfCall (account_offset account_size method_offset method_size args_offset args_size : Z)
| HfSCall (account_offset account_size contract_offset contract_size method_offset method_size args_offset args_size : Z)
| HfVerify (pk_offset pk_length data_offset data_length sign_offset sign_length : Z)
| HfSha256 (data_offset data_size : Z)
| HfDrand (max : Z)
| HfGetBlockTime.

(** [wasmtime::Error]: the text of the error, and that of the trap when it is one *)
Inductive RunError : Type :=
| TrapError (text trap_text : string)
| OtherError (text : string).

(** [e.to_string()] *)
Definition run_error_text (e : RunError) : string :=
  match e with TrapError text _ => text | OtherError text => text end.

Inductive Run (Store A : Type) : Type :=
| Done (r : Result A RunError) (s : Store)
| Calls (c : HostCall) (s : Store) (resume : Z -> Store -> Run Store A) (unwind : WasmError -> Store -> RunError).
Arguments Done {Store A} _ _.
Arguments Calls {Store A} _ _ _ _.

Class Wasmtime : Type := {
  WasmModule : Type;
  (** a [Store] with the instance in it: its memory, its globals and its fuel *)
  Store : Type;
  (** [Module::new] and the names [Module::imports] lists *)
  module_new : list Z -> Result WasmModule string;
  module_imports : WasmModule -> list string;
  (** [Store::new], [get_fuel] and [set_fuel] *)
  store_new : WasmModule -> Store;
  get_fuel : Store -> Z;
  set_fuel : Z -> Store -> Result Store string;
  (** [Instance::new], which runs the start function of the module *)
  instance_new : WasmModule -> Store -> Run Store unit;
  (** [get_typed_func]: whether the function is there with its type, or the text of the error *)
  typed_alloc : Store -> Result unit string;
  typed_run : Store -> Result unit string;
  typed_is_callable : Store -> Result unit string;
  (** whether a function "alloc" is exported, whatever its type *)
  exports_alloc : Store -> bool;
  (** the memory exported as "memory", and [Memory::write] to it *)
  memory : Store -> option (list Z);
  memory_write : Z -> list Z -> Store -> Result Store string;
  (** the calls of the exported functions *)
  call_alloc : Z -> Store -> Run Store Z;
  call_run : Z * Z * Z * Z -> Store -> Run Store Z;
  call_is_callable : Z * Z * Z * Z -> Store -> Run Store Z
}.

(** What the machine relies on of the meter: fuel is a 64-bit number, setting it sets it,
    and writing to the memory does not change it. *)
Class WasmtimeLaws `{Wasmtime} : Prop := {
  fuel_u64 : forall s, is_u64 (get_fuel s);
  fuel_set : forall n s, is_u64 n -> exists s', set_fuel n s = Ok s' /\ get_fuel s' = n;
  fuel_write : forall offset data s s', memory_write offset data s = Ok s' -> get_fuel s' = get_fuel s
}.
