(* ===== verification/WmLocal.v ===== *)
(** * The WASM machine over wasmtime ([trinci-node/src/services/wm/local.rs])

    The cache of compiled contracts, the trampolines of the host functions, and the
    execution of a call: the contract is compiled, instantiated, given its arguments
    and run, its host functions served, and its answer read out of its memory.

    A host function may call a contract, and so on: [host_function n] serves calls
    nested up to [n] deep; deeper ones overflow the stack of the thread, which ends it. *)

From stdpp Require Import base gmap strings list fin_maps.
From S2P Require Import Prelude.
From S2P Require Import Exec.
From S2P Require Import Hash.
From S2P Require Import Crypto.
From S2P Require Import DRand.
From S2P Require Import Messages.
From S2P Require Import Utf8.
From S2P Require Import NodeModels.
From S2P Require Import NodeErrors.
From S2P Require Import Database.
From S2P Require Import Fuel.
From S2P Require Import WasmMachine.
From S2P Require Import HostFunc.
From S2P Require Import Wasmtime.
Open Scope Z_scope.

(** [AppInput] and [AppOutput] (wasm_machine.rs) *)
Record AppInput : Type := MkAppInput {
  in_depth : Z;
  in_network : string;
  in_owner : string;
  in_caller : string;
  in_method : string;
  in_origin : string
}.
Record AppOutput : Type := MkAppOutput { out_success : bool; out_data : list Z }.

Record ContractUpdatableArgs : Type := MkUpdatableArgs {
  cu_account : string;
  cu_current_contract : list Z;
  cu_new_contract : list Z
}.

(** The encodings of what contracts are given and give, and the texts of the errors of
    the libraries *)
Class WmCodecs : Type := {
  pack_input :: MsgPack AppInput;
  pack_output :: MsgPack AppOutput;
  pack_keys :: MsgPack (list string);
  pack_store_asset :: MsgPack StoreAssetData;
  pack_updatable :: MsgPack ContractUpdatableArgs;
  unpack_output :: MsgUnpack AppOutput;
  unpack_bool :: MsgUnpack bool;
  unpack_public_key :: MsgUnpack Keys.TrinciPublicKey;
  decode_error_text : list Z -> string;
  crypto_error_text : CryptoError -> string
}.

Module WmLocal.

(** ** Slices in the memory of a contract *)

(** [x as i32] and [x as usize] for an [i32] *)
Definition i32_wrap (x : Z) : Z := (x + 2 ^ 31) mod 2 ^ 32 - 2 ^ 31.
Definition as_usize (x : Z) : Z := u64_wrap x.

Definition wslice_create (offset length : Z) : Z :=
  Z.lor (u64_wrap (Z.shiftl (u64_wrap offset) 32)) (Z.land (u64_wrap length) 4294967295).

Definition wslice_split (wslice : Z) : Z * Z :=
  (i32_wrap (Z.shiftr (Z.land wslice 18446744069414584320) 32), i32_wrap (Z.land wslice 4294967295)).

(** [data.get(offset as usize..offset as usize + size as usize)] *)
Definition get_range (data : list Z) (offset size : Z) : option (list Z) :=
  let first := as_usize offset in
  let last := first +u64 as_usize size in
  if (first <=? last) && (last <=? len data)
  then Some (take (Z.to_nat (last - first)) (drop (Z.to_nat first) data)) else None.

Definition fault {A} (text : string) : Result A WasmError := Err (WasmMachineFault text).

Section wm_local.
Context `{Hdig : Digest} `{Hring : Ring} `{Hhex : Hex} `{Hcodecs : WmCodecs} `{Hiter : !HashMapIter Hash}.
Context `{Hwt : Wasmtime} {F : Type} `{Hfork : DbFork F}.

(** ** The machine and its cache *)
Record CachedModule : Type := MkCached { module : WasmModule; last_used : Z }.
Record t : Type := Mk { cache : gmap Hash CachedModule; cache_max : Z }.
Definition set_cache (c : gmap Hash CachedModule) (m : t) : t := Mk c (cache_max m).

Abbreviation wm := (wm_handler t F).
Definition on_cache (g : gmap Hash CachedModule -> gmap Hash CachedModule) : wm unit :=
  modify (fun s => MkWmState (set_cache (g (cache (ws_wm s))) (ws_wm s)) (ws_fork s) (ws_events s)).

(** [new] *)
Definition new (cache_max : Z) : option t := if cache_max =? 0 then None else Some (Mk ∅ cache_max).

(** The least recently used of the entries, the first of them when several are *)
Definition older (first : Hash * CachedModule) (rest : list (Hash * CachedModule)) : Hash * CachedModule :=
  fold_left (fun older curr => if last_used (snd curr) <? last_used (snd older) then curr else older) rest first.

Definition code_key (target : Hash) : string := ("contracts:code:" ++ ErrorText.hash_hex target)%string.

Definition load_module (target : Hash) : wm (Result unit WasmError) :=
  m ← gets ws_wm;
  (if cache_max m <? map_len (cache m) then
     match map_iter (cache m) with
     | [] => panic
     | first :: rest => on_cache (delete (fst (older first rest)))
     end
   else mret tt) ;;
  f ← gets ws_fork;
  match fork_load_account_data NodeConsts.SERVICE_ACCOUNT_ID (code_key target) f with
  | None => mret (Err (ResourceNotFound "smart contract not found"))
  | Some wasm_bin =>
      match module_new wasm_bin with
      | Ok module => on_cache (insert target (MkCached module 0)) ;; mret (Ok tt)
      | Err e => mret (Err (ResourceNotFound e))
      end
  end.

Definition get_module (target : Hash) : wm (Result WasmModule WasmError) :=
  m ← gets ws_wm;
  _ <-? (if bool_decide (is_Some (cache m !! target)) then mret (Ok tt) else load_module target);
  m ← gets ws_wm;
  entry ← expect (cache m !! target);
  now ← timestamp;
  on_cache (insert target (MkCached (module entry) now)) ;;
  mret (Ok (module entry)).

(** ** The store of a call *)
Record StoreState : Type := MkStore { store : Store; host : HostFunc.t (W := t) (F := F) }.
Abbreviation st := (M StoreState core_effect core_answer).
Definition put_store (s : Store) : st unit := modify (fun x => MkStore s (host x)).
Definition on_host {A} (m : M (HostFunc.t (W := t) (F := F)) core_effect core_answer A) : st A :=
  zoom host (fun h x => MkStore (store x) h) id m.

(** A run of the contract, with its host functions *)
Fixpoint exec {A} (host_function : HostCall -> st (Result Z WasmError)) (r : Run Store A) : st (Result A RunError) :=
  match r with
  | Done r s => put_store s ;; mret r
  | Calls c s resume unwind =>
      put_store s ;;
      res ← host_function c;
      s ← gets store;
      match res with
      | Ok v => exec host_function (resume v s)
      | Err e => mret (Err (unwind e s))
      end
  end.

Section call.
(** The host functions the call is served with *)
Context (host_function : HostCall -> st (Result Z WasmError)).

Definition alloc_mem (size : Z) : st (Result Z WasmError) :=
  s ← gets store;
  r ← exec host_function (call_alloc size s);
  mret (match r with Ok offset => Ok offset | Err e => fault (run_error_text e) end).

Definition write_mem (data : list Z) : st (Result Z WasmError) :=
  offset <-? alloc_mem (i32_wrap (len data));
  s ← gets store;
  match memory_write (as_usize offset) data s with
  | Ok s => put_store s ;; mret (Ok offset)
  | Err e => mret (fault e)
  end.

(** ** What the trampolines share *)
Definition mem_from : st (Result unit WasmError) :=
  s ← gets store;
  mret (match memory s with Some _ => Ok tt | None => fault "Problems to get memory export from the caller" end).

Definition slice_from (offset size : Z) : st (Result (list Z) WasmError) :=
  s ← gets store;
  mret (match get_range (default [] (memory s)) offset size with
        | Some buf => Ok buf
        | None => fault "Problems to get a slice from wasm memory"
        end).

Definition str_from (offset size : Z) : st (Result string WasmError) :=
  buf <-? slice_from offset size;
  mret (match Utf8.from_utf8 buf with Ok s => Ok s | Err e => fault e end).

Definition lossy_from (offset size : Z) : st (Result string WasmError) :=
  buf <-? slice_from offset size; mret (Ok (Utf8.from_utf8_lossy buf)).

Definition return_buf (buf : list Z) : st (Result Z WasmError) :=
  s ← gets store;
  if negb (exports_alloc s) then mret (fault "Problems getting alloc function export")
  else if is_err (typed_alloc s) then mret (fault "Problems with alloc native types matching")
  else
    offset ← write_mem buf;
    mret (match offset with
          | Ok offset => Ok (wslice_create offset (i32_wrap (len buf)))
          | Err _ => fault "Problems writing buf into wasm memory"
          end).

(** [caller.set_fuel(..)?] *)
Definition charge (fuel : Z) : st (Result unit WasmError) :=
  s ← gets store;
  match set_fuel fuel s with
  | Ok s => put_store s ;; mret (Ok tt)
  | Err e => mret (Err (SmartContractFault e))
  end.

(** ** The call of a contract *)

(** [String::replace] in the text of a trap *)
Definition trap_text (e : RunError) : string :=
  match e with
  | TrapError err_text trap_text =>
      let err_text := Utf8.replace err_text "error while executing at" trap_text in
      Utf8.replace err_text "instruction executed wasm"
        ("instruction executed" ++ ErrorText.newline ++ "wasm")%string
  | OtherError text => text
  end.

(** [host_functions_register]: an import that is no host function is refused. *)
Definition host_functions : list string :=
  ["hf_log"; "hf_emit"; "hf_load_data"; "hf_store_data"; "hf_remove_data"; "hf_is_callable"; "hf_load_asset";
   "hf_store_asset"; "hf_remove_asset"; "hf_get_account_contract"; "hf_get_keys"; "hf_call"; "hf_s_call"; "hf_verify";
   "hf_sha256"; "hf_drand"; "hf_get_block_time"].

Definition host_functions_register (module : WasmModule) : Result unit WasmError :=
  if forallb (contains host_functions) (module_imports module) then Ok tt
  else Err (NotImplemented "host function import not found").

(** From the registration of the host functions to the arguments in the memory of the
    instance: the parameters of the entry point.  [no_memory] is the text of the error
    when the contract exports none. *)
Definition prepare (no_memory : string) (module : WasmModule) (args input_buf : list Z) :
    st (Result (Z * Z * Z * Z) WasmError) :=
  _ <-? mret (host_functions_register module);
  s ← gets store;
  r ← exec host_function (instance_new module s);
  _ <-? mret (match r with Ok _ => Ok tt | Err e => fault (run_error_text e) end);
  modify (fun x => MkStore (store x) (HostFunc.Mk (HostFunc.machine (host x)) (HostFunc.set_wm (HostFunc.ctx (host x))))) ;;
  s ← gets store;
  _ <-? mret (match typed_alloc s with Ok _ => Ok tt | Err e => Err (ResourceNotFound e) end);
  _ <-? mret (match memory s with Some _ => Ok tt | None => Err (ResourceNotFound no_memory) end);
  args_addr <-? write_mem args;
  input_addr <-? write_mem input_buf;
  mret (Ok (input_addr, i32_wrap (len input_buf), args_addr, i32_wrap (len args))).

(** The account whose data was altered gets the hash of its data. *)
Definition update_data_hash : st (Result unit WasmError) :=
  on_host (
    s ← get_state;
    if cx_data_updated (HostFunc.ctx s) then
      match fork_load_account (cx_owner (HostFunc.ctx s)) (HostFunc.db s) with
      | None => mret (fault "inconsistent state")
      | Some account =>
          modify (fun s => HostFunc.on_db (store_account
            (Account.Mk (Account.id account) (Account.assets account) (Account.contract account)
               (Some (state_hash (Account.id account) (HostFunc.db s))))) s) ;;
          mret (Ok tt)
      end
    else mret (Ok tt)).

(** What the output of a contract says *)
Definition read_output (buf : list Z) : Result (list Z) WasmError :=
  match msgunpack buf with
  | Some res =>
      if out_success res then Ok (out_data res) else Err (SmartContractFault (Utf8.from_utf8_lossy (out_data res)))
  | None => Err (SmartContractFault (decode_error_text buf))
  end.

Definition run_contract (module : WasmModule) (args input_buf : list Z) : st (Result (list Z) WasmError) :=
  params <-? prepare "wasm `memory` not found" module args input_buf;
  s ← gets store;
  _ <-? mret (match typed_run s with Ok _ => Ok tt | Err e => Err (ResourceNotFound e) end);
  r ← exec host_function (call_run params s);
  wslice <-? mret (match r with Ok wslice => Ok wslice | Err e => fault (trap_text e) end);
  _ <-? update_data_hash;
  s ← gets store;
  let '(offset, length) := wslice_split wslice in
  mret (match get_range (default [] (memory s)) offset length with
        | Some buf => read_output buf
        | None => fault "out of bounds memory access"
        end).

Definition run_is_callable (module : WasmModule) (args input_buf : list Z) : st (Result Z WasmError) :=
  params <-? prepare "Expected 'memory' not found" module args input_buf;
  s ← gets store;
  _ <-? mret (match typed_is_callable s with Ok _ => Ok tt | Err e => Err (ResourceNotFound e) end);
  r ← exec host_function (call_is_callable params s);
  result <-? mret (match r with Ok result => Ok result | Err e => Err (SmartContractFault (run_error_text e)) end);
  _ <-? update_data_hash;
  mret (Ok result).

(** The store of a call: the context and the fuel it starts with *)
Definition call_context (args : CallArgs) : CallContext :=
  MkContext false (ca_owner args) false (ca_depth args) (ca_network args) (ca_origin args) (ca_initial_fuel args)
    (ca_block_timestamp args) (ca_method args).
Definition fuelled (module : WasmModule) (fuel : Z) : Store :=
  match set_fuel fuel (store_new module) with Ok s => s | Err _ => store_new module end.

Definition in_store {A} (module : WasmModule) (args : CallArgs) (m : st A) : wm A :=
  zoom (fun ws => MkStore (fuelled module (ca_initial_fuel args)) (HostFunc.Mk ws (call_context args)))
       (fun x _ => HostFunc.machine (host x)) id m.

Definition app_input (args : CallArgs) (method : string) : AppInput :=
  MkAppInput (ca_depth args) (ca_network args) (ca_owner args) (ca_caller args) method (ca_origin args).

(** Every way out of [call], once the contract is compiled, gives the fuel consumed. *)
Definition call (args : CallArgs) : wm (Z * Result (list Z) WasmError) :=
  module ← get_module (ca_contract args);
  match module with
  | Err e => mret (0, Err e)
  | Ok module =>
      in_store module args (
        r ← run_contract module (ca_args args) (msgpack (app_input args (ca_method args)));
        remaining_fuel ← gets (fun x => get_fuel (store x));
        mret (ca_initial_fuel args -u64 remaining_fuel, r))
  end.

(** A failure costs no fuel. *)
Definition callable_call (args : CallArgs) : wm (Z * Result Z WasmError) :=
  module ← get_module (ca_contract args);
  match module with
  | Err e => mret (0, Err e)
  | Ok module =>
      in_store module args (
        r ← run_is_callable module (ca_args args) (msgpack (app_input args "is_callable"));
        remaining_fuel ← gets (fun x => get_fuel (store x));
        match r with
        | Ok result => mret (ca_initial_fuel args -u64 remaining_fuel, Ok result)
        | Err e => mret (0, Err e)
        end)
  end.

(** ** The contract of an account *)
Definition hash_bytes (h : option Hash) : option (list Z) :=
  match h with Some h => Hashes.as_bytes h | None => Some [] end.

Definition contract_updatable (account : string) (current_hash new_hash : option Hash) (ctx_args : CtxArgs)
    (block_timestamp : Z) : wm bool :=
  current_contract ← expect (hash_bytes current_hash);
  new_contract ← expect (hash_bytes new_hash);
  let args := msgpack (MkUpdatableArgs account current_contract new_contract) in
  f ← gets ws_fork;
  match fork_load_account NodeConsts.SERVICE_ACCOUNT_ID f with
  | None => mret false
  | Some service =>
      match Account.contract service with
      | None => mret false
      | Some contract =>
          r ← zoom id (fun s' s => MkWmState (ws_wm s') (ws_fork s') (ws_events s)) id
                (modify (fun s => MkWmState (ws_wm s) (ws_fork s) []) ;;
                 call (MkCallArgs 0 "" (origin ctx_args) NodeConsts.SERVICE_ACCOUNT_ID (caller ctx_args) contract
                         "contract_updatable" args FuelConsts.MAX_WM_FUEL block_timestamp));
          mret (match snd r with Ok val => default false (msgunpack val) | Err _ => false end)
      end
  end.

Definition app_hash_check (app_hash : option Hash) (ctx_args : CtxArgs) (block_timestamp : Z) :
    wm (Result Hash WasmError) :=
  f ← gets ws_fork;
  let account := default (Account.new (owner ctx_args) None) (fork_load_account (owner ctx_args) f) in
  let store (app_hash : option Hash) :=
    modify (fun s => MkWmState (ws_wm s) (store_account (Account.Mk (Account.id account) (Account.assets account) app_hash
                       (Account.data_hash account)) (ws_fork s)) (ws_events s)) in
  if negb (bool_decide (Account.contract account = app_hash)) then
    let app_hash :=
      match Account.contract account, app_hash with Some contract, None => Some contract | _, _ => app_hash end in
    updatable ←
      (if bool_decide (Account.contract account = app_hash) then mret true
       else contract_updatable (owner ctx_args) (Account.contract account) app_hash ctx_args block_timestamp);
    if (updatable : bool) then
      store app_hash ;;
      mret (Ok (default Hashes.default app_hash))
    else mret (Err (InvalidContract "cannot bind the contract to the account"))
  else
    mret (match app_hash with Some hash => Ok hash | None => Err (ResourceNotFound "smart contract not specified") end).
End call.

(** The machine whose contracts are served by [host_function] *)
Definition ops (host_function : HostCall -> st (Result Z WasmError)) : Wm t F := {|
  wm_new := new;
  WasmMachine.call := call host_function;
  WasmMachine.callable_call := callable_call host_function;
  WasmMachine.app_hash_check := app_hash_check host_function
|}.

(** ** The trampolines ([local_host_func]) *)
Section trampolines.
Context (host_function : HostCall -> st (Result Z WasmError)).
#[local] Instance machine_ops : Wm t F := ops host_function.

(** [expect] of the fuel, which is always metered *)
Definition remaining_fuel : st Z := gets (fun x => get_fuel (store x)).

Definition log (offset size : Z) : st (Result Z WasmError) :=
  _ <-? mem_from;
  msg <-? lossy_from offset size;
  on_host (HostFunc.log msg) ;;
  mret (Ok 0).

Definition emit (event_name_offset event_name_size event_data_offset event_data_size : Z) : st (Result Z WasmError) :=
  _ <-? mem_from;
  event_name <-? str_from event_name_offset event_name_size;
  event_data <-? slice_from event_data_offset event_data_size;
  on_host (HostFunc.emit event_name event_data) ;;
  mret (Ok 0).

Definition load_data (key_offset key_size : Z) : st (Result Z WasmError) :=
  _ <-? mem_from;
  key <-? str_from key_offset key_size;
  buf ← on_host (HostFunc.load_data key);
  return_buf host_function buf.

Definition store_data (key_offset key_size data_offset data_size : Z) : st (Result Z WasmError) :=
  _ <-? mem_from;
  key <-? str_from key_offset key_size;
  data <-? slice_from data_offset data_size;
  on_host (HostFunc.store_data key data) ;;
  mret (Ok 0).

Definition remove_data (key_offset key_size : Z) : st (Result Z WasmError) :=
  _ <-? mem_from;
  key <-? str_from key_offset key_size;
  on_host (HostFunc.remove_data key) ;;
  mret (Ok 0).

Definition is_callable (account_offset account_size method_offset method_size : Z) : st (Result Z WasmError) :=
  _ <-? mem_from;
  account <-? str_from account_offset account_size;
  method <-? str_from method_offset method_size;
  fuel ← remaining_fuel;
  r ← on_host (HostFunc.is_callable account method fuel);
  fuel ← remaining_fuel;
  _ <-? charge (fuel -u64 fst r);
  mret (Ok (match snd r with Ok val => val | Err _ => 0 end)).

Definition load_asset (account_id_offset account_id_size : Z) : st (Result Z WasmError) :=
  _ <-? mem_from;
  account_id <-? lossy_from account_id_offset account_id_size;
  value ← on_host (HostFunc.load_asset account_id);
  return_buf host_function value.

Definition store_asset (account_id_offset account_id_length value_offset value_length : Z) : st (Result Z WasmError) :=
  _ <-? mem_from;
  account_id <-? lossy_from account_id_offset account_id_length;
  value <-? slice_from value_offset value_length;
  on_host (HostFunc.store_asset account_id value) ;;
  mret (Ok 0).

Definition remove_asset (account_id_offset account_id_length : Z) : st (Result Z WasmError) :=
  _ <-? mem_from;
  account_id <-? lossy_from account_id_offset account_id_length;
  on_host (HostFunc.remove_asset account_id) ;;
  mret (Ok 0).

Definition get_account_contract (account_id_offset account_id_length : Z) : st (Result Z WasmError) :=
  _ <-? mem_from;
  account_id <-? lossy_from account_id_offset account_id_length;
  contract ← on_host (HostFunc.get_account_contract account_id);
  hash ← expect (hash_bytes contract);
  return_buf host_function hash.

(** [&pattern[pattern.len() - 1..]], which panics inside a character *)
Definition last_of (pattern : string) : option string :=
  let n := (String.length pattern - 1)%nat in
  if ErrorText.is_char_boundary pattern n then Some (String.substring n 1 pattern) else None.

Definition get_keys (pattern_offset pattern_size : Z) : st (Result Z WasmError) :=
  _ <-? mem_from;
  pattern <-? str_from pattern_offset pattern_size;
  last ← (if bool_decide (pattern = EmptyString) then mret EmptyString else expect (last_of pattern));
  output ←
    (if bool_decide (pattern = EmptyString) || negb (bool_decide (last = "*")) then
       mret (MkAppOutput false (into_bytes "last char of search pattern must be '*'"))
     else
       data ← on_host (HostFunc.get_keys (String.substring 0 (String.length pattern - 1) pattern));
       mret (MkAppOutput true (msgpack data)));
  return_buf host_function (msgpack output).

(** What a nested call gives its caller: the text of an error may panic. *)
Definition nested_output (r : Result (list Z) WasmError) : st (list Z) :=
  match r with
  | Ok buf => mret (msgpack (MkAppOutput true buf))
  | Err err => text ← expect (ErrorText.to_string err); mret (msgpack (MkAppOutput false (into_bytes text)))
  end.

Definition nested_call (account : string) (contract : option Hash) (method : string) (args : list Z) :
    st (Result Z WasmError) :=
  fuel ← remaining_fuel;
  r ← on_host (HostFunc.call account contract method args fuel);
  buf ← nested_output (snd r);
  _ <-? charge (fuel -u64 fst r);
  return_buf host_function buf.

Definition hf_call (account_offset account_size method_offset method_size args_offset args_size : Z) :
    st (Result Z WasmError) :=
  _ <-? mem_from;
  account <-? lossy_from account_offset account_size;
  method <-? lossy_from method_offset method_size;
  args <-? slice_from args_offset args_size;
  nested_call account None method args.

Definition s_call (account_offset account_size contract_offset contract_size method_offset method_size
    args_offset args_size : Z) : st (Result Z WasmError) :=
  _ <-? mem_from;
  account <-? lossy_from account_offset account_size;
  buf <-? slice_from contract_offset contract_size;
  contract <-? mret (match Hashes.from_bytes buf with Ok h => Ok h | Err e => fault (crypto_error_text e) end);
  method <-? lossy_from method_offset method_size;
  args <-? slice_from args_offset args_size;
  nested_call account (Some contract) method args.

Definition verify (pk_offset pk_length data_offset data_length sign_offset sign_length : Z) : st (Result Z WasmError) :=
  _ <-? mem_from;
  buf <-? slice_from pk_offset pk_length;
  pk <-? mret (match msgunpack buf with Some pk => Ok pk | None => fault (decode_error_text buf) end);
  data <-? slice_from data_offset data_length;
  sign <-? slice_from sign_offset sign_length;
  r ← on_host (HostFunc.verify pk data sign);
  mret (Ok r).

Definition sha256 (data_offset data_size : Z) : st (Result Z WasmError) :=
  _ <-? mem_from;
  data <-? slice_from data_offset data_size;
  hash ← on_host (HostFunc.sha256 data);
  return_buf host_function hash.

Definition drand (max : Z) : st (Result Z WasmError) :=
  r ← on_host (HostFunc.drand max);
  mret (match r with Some drand => Ok drand | None => fault "Problems with drand number retrieval" end).

Definition get_block_time : st (Result Z WasmError) := t ← on_host HostFunc.get_block_time; mret (Ok t).

(** The closures [host_functions_register] wraps *)
Definition trampoline (c : HostCall) : st (Result Z WasmError) :=
  match c with
  | HfLog o s => log o s
  | HfEmit no ns o s => emit no ns o s
  | HfLoadData o s => load_data o s
  | HfStoreData ko ks o s => store_data ko ks o s
  | HfRemoveData o s => remove_data o s
  | HfIsCallable ao als mo ms => is_callable ao als mo ms
  | HfLoadAsset o s => load_asset o s
  | HfStoreAsset ao als o s => store_asset ao als o s
  | HfRemoveAsset o s => remove_asset o s
  | HfGetAccountContract o s => get_account_contract o s
  | HfGetKeys o s => get_keys o s
  | HfCall ao als mo ms o s => hf_call ao als mo ms o s
  | HfSCall ao als co cs mo ms o s => s_call ao als co cs mo ms o s
  | HfVerify po pl o l so sl => verify po pl o l so sl
  | HfSha256 o s => sha256 o s
  | HfDrand max => drand max
  | HfGetBlockTime => get_block_time
  end.
End trampolines.

Fixpoint host_function (n : nat) : HostCall -> st (Result Z WasmError) :=
  match n with
  | O => fun _ => panic
  | S n => trampoline (host_function n)
  end.

(** The machine on a stack with room for [n] nested calls *)
Definition machine (n : nat) : Wm t F := ops (host_function n).
End wm_local.
End WmLocal.
