(* ===== verification/WmLocalTheorems.v ===== *)
(** * The WASM machine: slices, frames, cache and contracts of accounts

    What holds of the machine over every wasmtime, every fork of a database and however
    calls nest. *)

From stdpp Require Import base gmap strings list fin_maps.
From S2P Require Import Prelude.
From S2P Require Import Exec.
From S2P Require Import Hash.
From S2P Require Import Crypto.
From S2P Require Import DRand.
From S2P Require Import Messages.
From S2P Require Import Utf8.
From S2P Require Import NodeModels.
From S2P Require Import NodeErrors.
From S2P Require Import Database.
From S2P Require Import WasmMachine.
From S2P Require Import HostFunc.
From S2P Require Import Wasmtime.
From S2P Require Import WmLocal.
Open Scope Z_scope.
Import WmLocal.

(** ** Slices *)
Definition is_i32 (x : Z) : Prop := - 2 ^ 31 <= x < 2 ^ 31.

Lemma i32_wrap_mod x y : is_i32 y -> x mod 2 ^ 32 = y mod 2 ^ 32 -> i32_wrap x = y.
Proof.
  intros Hy Hm. unfold i32_wrap, is_i32 in *.
  rewrite <- Z.add_mod_idemp_l, Hm, Z.add_mod_idemp_l by lia. rewrite Z.mod_small; lia.
Qed.

Lemma high_half o l : 0 <= l < 2 ^ 32 ->
  Z.shiftr (Z.land (Z.lor (Z.shiftl o 32 mod 2 ^ 64) l) 18446744069414584320) 32 = o mod 2 ^ 32.
Proof.
  intros Hl. apply Z.bits_inj'. intros i Hi. rewrite Z.shiftr_spec, Z.land_spec, Z.lor_spec by lia.
  change 18446744069414584320 with (Z.shiftl (Z.ones 32) 32).
  rewrite <- Z.land_ones, Z.land_spec by lia. rewrite !Z.shiftl_spec by lia. rewrite <- (Z.land_ones o), Z.land_spec by lia.
  assert (Z.testbit l (i + 32) = false) as ->.
  { destruct (Z.eq_dec l 0) as [->|]; [apply Z.testbit_0_l|]. apply Z.bits_above_log2; [lia|].
    apply Z.log2_lt_pow2; [lia|]. apply (Z.lt_le_trans _ (2 ^ 32)); [lia|]. apply Z.pow_le_mono_r; lia. }
  rewrite orb_false_r. replace (i + 32 - 32) with i by lia.
  destruct (Z.ltb_spec i 32) as [Hi2|Hi2].
  - rewrite !Z.ones_spec_low by lia. by rewrite !andb_true_r.
  - rewrite (Z.ones_spec_high 32 i) by lia. by rewrite !andb_false_r.
Qed.

Lemma low_half o l : 0 <= l < 2 ^ 32 -> Z.land (Z.lor (Z.shiftl o 32 mod 2 ^ 64) l) 4294967295 = l.
Proof.
  intros Hl. change 4294967295 with (Z.ones 32). apply Z.bits_inj'. intros i Hi.
  rewrite Z.land_spec, Z.lor_spec. rewrite <- Z.land_ones, Z.land_spec by lia. rewrite Z.shiftl_spec by lia.
  destruct (Z.ltb_spec i 32) as [Hi2|Hi2].
  - rewrite (Z.testbit_neg_r o) by lia. simpl. rewrite (Z.ones_spec_low 32 i) by lia. by rewrite andb_true_r.
  - rewrite (Z.ones_spec_high 32 i) by lia. rewrite andb_false_r. symmetry.
    destruct (Z.eq_dec l 0) as [->|]; [apply Z.testbit_0_l|]. apply Z.bits_above_log2; [lia|].
    apply Z.log2_lt_pow2; [lia|]. apply (Z.lt_le_trans _ (2 ^ 32)); [lia|]. apply Z.pow_le_mono_r; lia.
Qed.

(** The offset and the length packed into a slice for a contract are read back from it, for
    all 32-bit values, negative ones included. *)
Theorem wslice_roundtrip offset length :
  is_i32 offset -> is_i32 length -> wslice_split (wslice_create offset length) = (offset, length).
Proof.
  intros Ho Hl. unfold wslice_split, wslice_create, u64_wrap.
  replace (Z.land (length mod 2 ^ 64) 4294967295) with ((length mod 2 ^ 64) mod 2 ^ 32)
    by (change 4294967295 with (Z.ones 32); by rewrite Z.land_ones).
  assert (Hr : 0 <= (length mod 2 ^ 64) mod 2 ^ 32 < 2 ^ 32) by (apply Z.mod_pos_bound; lia).
  assert (Hm : forall x, (x mod 2 ^ 64) mod 2 ^ 32 = x mod 2 ^ 32).
  { intros x. change (2 ^ 64) with (2 ^ 32 * 2 ^ 32). rewrite Z.rem_mul_r by lia.
    rewrite (Z.mul_comm (2 ^ 32) (_ mod _)), Z.mod_add by lia. apply Z.mod_mod. lia. }
  rewrite high_half, low_half by done. rewrite !Hm. f_equal; apply i32_wrap_mod; try done; apply Z.mod_mod; lia.
Qed.

Lemma as_usize_i32 x : is_i32 x -> as_usize x = if x <? 0 then x + 2 ^ 64 else x.
Proof.
  intros H. unfold as_usize, u64_wrap, is_i32 in *. destruct (Z.ltb_spec x 0).
  - replace (x mod 2 ^ 64) with ((x + 2 ^ 64) mod 2 ^ 64); [apply Z.mod_small; lia|].
    rewrite <- (Z.mul_1_l (2 ^ 64)) at 1. apply Z.mod_add. lia.
  - apply Z.mod_small. lia.
Qed.

(** Whatever offset and size a contract gives, negative ones included, a slice of its memory is
    read exactly when it lies in the memory, and is then the bytes there; the additions that
    overflow never make it lie there. *)
Theorem get_range_spec data offset size :
  is_i32 offset -> is_i32 size -> len data < 2 ^ 62 ->
  get_range data offset size =
    if (0 <=? offset) && (0 <=? size) && (offset + size <=? len data)
    then Some (take (Z.to_nat size) (drop (Z.to_nat offset) data)) else None.
Proof.
  intros Ho Hs Hd. unfold get_range. rewrite !as_usize_i32 by done. unfold is_i32 in *. pose proof (len_nonneg data).
  unfold u64_add, u64_wrap.
  destruct (Z.ltb_spec offset 0), (Z.ltb_spec size 0), (Z.leb_spec 0 offset), (Z.leb_spec 0 size); try lia; cbn [andb].
  - replace ((offset + 2 ^ 64 + (size + 2 ^ 64)) mod 2 ^ 64) with (offset + size + 2 ^ 64).
    + destruct (Z.leb_spec (offset + 2 ^ 64) (offset + size + 2 ^ 64)); [lia|done].
    + symmetry. replace (offset + 2 ^ 64 + (size + 2 ^ 64)) with (offset + size + 2 ^ 64 + 1 * 2 ^ 64) by lia.
      rewrite Z.mod_add by lia. apply Z.mod_small. lia.
  - destruct (Z.ltb_spec (offset + size) 0).
    + rewrite Z.mod_small by lia. destruct (Z.leb_spec (offset + 2 ^ 64 + size) (len data)); [lia|]. by rewrite andb_false_r.
    + replace ((offset + 2 ^ 64 + size) mod 2 ^ 64) with (offset + size).
      * destruct (Z.leb_spec (offset + 2 ^ 64) (offset + size)); [lia|done].
      * replace (offset + 2 ^ 64 + size) with (offset + size + 1 * 2 ^ 64) by lia.
        rewrite Z.mod_add by lia. symmetry. apply Z.mod_small. lia.
  - destruct (Z.ltb_spec (offset + size) 0).
    + rewrite Z.mod_small by lia. destruct (Z.leb_spec (offset + (size + 2 ^ 64)) (len data)); [lia|]. by rewrite andb_false_r.
    + replace ((offset + (size + 2 ^ 64)) mod 2 ^ 64) with (offset + size).
      * destruct (Z.leb_spec offset (offset + size)); [lia|done].
      * replace (offset + (size + 2 ^ 64)) with (offset + size + 1 * 2 ^ 64) by lia.
        rewrite Z.mod_add by lia. symmetry. apply Z.mod_small. lia.
  - rewrite Z.mod_small by lia. destruct (Z.leb_spec offset (offset + size)); [|lia]. cbn [andb].
    by replace (offset + size - offset) with size by lia.
Qed.

(** ** Frames of calls

    A preorder on the machine, its fork and its events that the loading of a contract,
    the writes of contracts and changes of the events respect holds of everything a call
    does, however calls nest. *)
Section machine.
Context `{Hdig : Digest} `{Hring : Ring} `{Hhex : Hex} `{Hcodecs : WmCodecs} `{Hiter : !HashMapIter Hash}.
Context `{Hwt : Wasmtime} {F : Type} `{Hfork : DbFork F}.

Abbreviation ws := (WmState t F).
Abbreviation wsw := (world ws core_effect core_answer).
Abbreviation hfw := (world (HostFunc.t (W := t) (F := F)) core_effect core_answer).
Abbreviation stw := (world (StoreState (F := F)) core_effect core_answer).

(** The writes of contracts: the data of accounts, and accounts *)
Inductive contract_write : F -> F -> Prop :=
| cw_data id k d f : contract_write f (store_account_data id k d f)
| cw_removal id k f : contract_write f (remove_account_data id k f)
| cw_account a f : contract_write f (store_account a f).
#[local] Hint Constructors contract_write : trinci.

Lemma contract_write_writes f f' : contract_write f f' -> writes f f'.
Proof. destruct 1; constructor. Qed.

Class WmFrame (R : ws -> ws -> Prop) : Prop := {
  frame_pre :: PreOrder R;
  frame_load : forall target, rel (via id R) (get_module target);
  frame_write : forall m ev f f', contract_write f f' -> R (MkWmState m f ev) (MkWmState m f' ev);
  frame_events : forall m f ev ev', R (MkWmState m f ev) (MkWmState m f ev')
}.

Section frames.
Context (R : ws -> ws -> Prop) `{HR : !WmFrame R}.
Abbreviation hostly := (via HostFunc.machine R : hfw -> hfw -> Prop).
Abbreviation storely := (via (fun s : StoreState (F := F) => HostFunc.machine (host s)) R : stw -> stw -> Prop).

Lemma on_db_frame (g : F -> F) (s : HostFunc.t) :
  (forall f, contract_write f (g f)) -> R (HostFunc.machine s) (HostFunc.machine (HostFunc.on_db g s)).
Proof. intros H. destruct s as [[m f ev] c]. by apply frame_write. Qed.

Lemma push_event_frame e (s : HostFunc.t) : R (HostFunc.machine s) (HostFunc.machine (HostFunc.push_event e s)).
Proof. destruct s as [[m f ev] c]. apply frame_events. Qed.

(** *** The host functions, over a machine that keeps the frame *)
Section host_func.
Context `{Hwm : Wm t F}.
Hypothesis nested_call : forall args, rel (via id R) (WasmMachine.call args).
Hypothesis nested_callable : forall args, rel (via id R) (WasmMachine.callable_call args).
Hypothesis nested_check : forall h c ts, rel (via id R) (WasmMachine.app_hash_check h c ts).

Lemma on_machine_frame {A} (m : wm_handler t F A) : rel (via id R) m -> rel hostly (HostFunc.on_machine m).
Proof. intros H. eapply rel_zoom; [exact H|]. intros w w' Hw. exact Hw. Qed.

Lemma hf_emit_frame n d : rel hostly (HostFunc.emit n d).
Proof. apply rel_via_modify. intros s. apply push_event_frame. Qed.
Lemma hf_same_frame {A} (m : M (HostFunc.t (W := t) (F := F)) core_effect core_answer A) :
  rel (same_proj HostFunc.machine) m -> rel hostly m.
Proof. apply rel_via_same. typeclasses eauto. Qed.
Lemma hf_store_data_frame k d : rel hostly (HostFunc.store_data k d).
Proof. apply rel_via_modify. intros s. apply (on_db_frame _ s). auto with trinci. Qed.
Lemma hf_remove_data_frame k : rel hostly (HostFunc.remove_data k).
Proof. apply rel_via_modify. intros s. apply (on_db_frame _ s). auto with trinci. Qed.
Lemma hf_remove_asset_frame k : rel hostly (HostFunc.remove_asset k).
Proof. apply rel_via_modify. intros s. apply (on_db_frame _ s). auto with trinci. Qed.
Lemma hf_store_asset_frame k v : rel hostly (HostFunc.store_asset k v).
Proof.
  apply rel_when; [typeclasses eauto|]. apply rel_bind; [typeclasses eauto| |intros _; apply hf_emit_frame].
  apply rel_via_modify. intros s. apply (on_db_frame _ s). auto with trinci.
Qed.
Lemma hf_is_callable_frame a m n : rel hostly (HostFunc.is_callable a m n).
Proof.
  unfold HostFunc.is_callable, HostFunc.get_account_contract. apply rel_bind; [typeclasses eauto|apply rel_gets; typeclasses eauto|].
  intros [h|]; [|apply rel_ret; typeclasses eauto].
  apply rel_bind; [typeclasses eauto|apply rel_gets; typeclasses eauto|]. intros c. destruct (cx_wm c); [|apply rel_ret; typeclasses eauto].
  apply rel_bind; [typeclasses eauto|by apply on_machine_frame|]. intros [h'|e]; [by apply on_machine_frame|apply rel_ret; typeclasses eauto].
Qed.
Lemma hf_call_frame o h m d n : rel hostly (HostFunc.call o h m d n).
Proof.
  unfold HostFunc.call. apply rel_bind; [typeclasses eauto|apply rel_gets; typeclasses eauto|].
  intros c. destruct (cx_wm c); [|apply rel_ret; typeclasses eauto].
  apply rel_bind; [typeclasses eauto|by apply on_machine_frame|]. intros [h'|e]; [by apply on_machine_frame|apply rel_ret; typeclasses eauto].
Qed.
Lemma hf_drand_frame n : rel hostly (HostFunc.drand n).
Proof. apply hf_same_frame. apply rel_bind; [typeclasses eauto|apply send_req_proj|]. intros r. frames. Qed.
End host_func.

(** *** The store of a call *)
Section store.
Context (host_function : HostCall -> M (StoreState (F := F)) core_effect core_answer (Result Z WasmError)).
Hypothesis served : forall c, rel storely (host_function c).

Lemma st_same_frame {A} (m : M (StoreState (F := F)) core_effect core_answer A) :
  rel (same_proj (fun s => HostFunc.machine (host s))) m -> rel storely m.
Proof. apply rel_via_same. typeclasses eauto. Qed.

Lemma put_store_frame s : rel storely (put_store s).
Proof. by apply st_same_frame. Qed.

Lemma on_host_frame {A} (m : M (HostFunc.t (W := t) (F := F)) core_effect core_answer A) : rel hostly m -> rel storely (on_host m).
Proof. intros H. eapply rel_zoom; [exact H|]. intros w w' Hw. exact Hw. Qed.

Lemma gets_store_frame {A} (g : StoreState -> A) : rel storely (gets g).
Proof. apply rel_gets. typeclasses eauto. Qed.
#[local] Hint Resolve put_store_frame gets_store_frame : frames.

Lemma exec_frame {A} (r : Run Store A) : rel storely (exec host_function r).
Proof.
  induction r as [r s|c s resume IH unwind]; cbn [exec]; [frames|].
  frames.
Qed.
#[local] Hint Resolve exec_frame : frames.

Lemma write_mem_frame data : rel storely (write_mem host_function data).
Proof. unfold write_mem, alloc_mem. frames. Qed.
Lemma mem_from_frame : rel storely mem_from.
Proof. unfold mem_from. frames. Qed.
Lemma slice_from_frame o s : rel storely (slice_from o s).
Proof. unfold slice_from. frames. Qed.
#[local] Hint Resolve write_mem_frame mem_from_frame slice_from_frame : frames.
Lemma str_from_frame o s : rel storely (str_from o s).
Proof. unfold str_from. frames. Qed.
Lemma lossy_from_frame o s : rel storely (lossy_from o s).
Proof. unfold lossy_from. frames. Qed.
Lemma return_buf_frame buf : rel storely (return_buf host_function buf).
Proof. unfold return_buf. frames. Qed.
Lemma charge_frame n : rel storely (charge n).
Proof. unfold charge. frames. Qed.
#[local] Hint Resolve str_from_frame lossy_from_frame return_buf_frame charge_frame : frames.

Lemma set_wm_frame :
  rel storely (modify (fun x => MkStore (store x) (HostFunc.Mk (HostFunc.machine (host x)) (HostFunc.set_wm (HostFunc.ctx (host x)))))).
Proof. by apply st_same_frame. Qed.
#[local] Hint Resolve set_wm_frame : frames.

Lemma prepare_frame text module args input : rel storely (prepare host_function text module args input).
Proof. unfold prepare. frames. Qed.

Lemma update_data_hash_frame : rel storely update_data_hash.
Proof.
  apply on_host_frame. apply rel_bind; [typeclasses eauto|apply rel_get_state; typeclasses eauto|]. intros s.
  destruct (cx_data_updated _); [|apply rel_ret; typeclasses eauto].
  destruct (fork_load_account _ _) as [a|]; [|apply rel_ret; typeclasses eauto].
  apply rel_bind; [typeclasses eauto| |intros _; apply rel_ret; typeclasses eauto].
  apply rel_via_modify. intros x. apply (on_db_frame (fun f => store_account _ f) x). auto with trinci.
Qed.
#[local] Hint Resolve prepare_frame update_data_hash_frame : frames.

Lemma run_contract_frame module args input : rel storely (run_contract host_function module args input).
Proof. unfold run_contract. frames. Qed.
Lemma run_is_callable_frame module args input : rel storely (run_is_callable host_function module args input).
Proof. unfold run_is_callable. frames. Qed.

(** *** The machine *)
Lemma in_store_frame {A} module args (m : M (StoreState (F := F)) core_effect core_answer A) :
  rel storely m -> rel (via id R) (in_store module args m).
Proof. intros H. eapply rel_zoom; [exact H|]. intros w w' Hw. exact Hw. Qed.

Lemma call_frame args : rel (via id R) (call host_function args).
Proof.
  apply rel_bind; [typeclasses eauto|apply frame_load|]. intros [module|e]; [|apply rel_ret; typeclasses eauto].
  apply in_store_frame. apply rel_bind; [typeclasses eauto|apply run_contract_frame|]. intros r. frames.
Qed.

Lemma callable_call_frame args : rel (via id R) (callable_call host_function args).
Proof.
  apply rel_bind; [typeclasses eauto|apply frame_load|]. intros [module|e]; [|apply rel_ret; typeclasses eauto].
  apply in_store_frame. apply rel_bind; [typeclasses eauto|apply run_is_callable_frame|]. intros r. frames.
Qed.

Lemma with_events_frame {A} (m : wm_handler t F A) : rel (via id R) m ->
  rel (via id R) (zoom id (fun s' s : ws => MkWmState (ws_wm s') (ws_fork s') (ws_events s)) id
    (modify (fun s => MkWmState (ws_wm s) (ws_fork s) []) ;; m)).
Proof.
  intros H. apply rel_zoom with (P' := via id R).
  - apply rel_bind; [typeclasses eauto| |intros _; exact H]. apply rel_via_modify. intros [m0 f ev]. apply frame_events.
  - intros [s a c o] [s' a' c' o'] Hw. unfold via in *. simpl in *. unfold id in *. etrans; [exact Hw|].
    destruct s' as [m0 f ev]. apply frame_events.
Qed.

Lemma contract_updatable_frame a h h' ctx ts : rel (via id R) (contract_updatable host_function a h h' ctx ts).
Proof.
  unfold contract_updatable. frames. apply with_events_frame, call_frame.
Qed.

Lemma app_hash_check_frame h ctx ts : rel (via id R) (app_hash_check host_function h ctx ts).
Proof.
  unfold app_hash_check. apply rel_bind; [typeclasses eauto|apply rel_gets; typeclasses eauto|]. intros f.
  assert (Hs : forall g : F -> F, (forall f, contract_write f (g f)) ->
    rel (via id R) (modify (fun s : ws => MkWmState (ws_wm s) (g (ws_fork s)) (ws_events s)) : wm_handler t F unit)).
  { intros g Hg. apply rel_via_modify. intros [m f' ev]. by apply frame_write. }
  frames; [apply contract_updatable_frame|apply (Hs (store_account _)); auto with trinci].
Qed.
End store.

(** *** The trampolines *)
Section trampolines.
Context (host_function : HostCall -> M (StoreState (F := F)) core_effect core_answer (Result Z WasmError)).
Hypothesis served : forall c, rel storely (host_function c).

#[local] Hint Resolve gets_store_frame mem_from_frame slice_from_frame str_from_frame lossy_from_frame charge_frame : frames.
#[local] Hint Extern 1 (rel _ (return_buf _ _)) => apply return_buf_frame; exact served : frames.
#[local] Hint Extern 1 (rel _ (on_host _)) => apply on_host_frame : frames.
#[local] Hint Resolve hf_emit_frame hf_store_data_frame hf_remove_data_frame hf_remove_asset_frame hf_store_asset_frame
  hf_drand_frame : frames.

Lemma ops_call args : rel (via id R) (WasmMachine.call (Wm := ops host_function) args).
Proof. by apply call_frame. Qed.
Lemma ops_callable_call args : rel (via id R) (WasmMachine.callable_call (Wm := ops host_function) args).
Proof. by apply callable_call_frame. Qed.
Lemma ops_app_hash_check h c ts : rel (via id R) (WasmMachine.app_hash_check (Wm := ops host_function) h c ts).
Proof. by apply app_hash_check_frame. Qed.

Lemma nested_frame a h m d : rel storely (nested_call host_function a h m d).
Proof.
  unfold nested_call, remaining_fuel. frames.
  - apply on_host_frame. apply hf_call_frame; [apply ops_call|apply ops_app_hash_check].
  - unfold nested_output. frames.
Qed.

Lemma trampoline_frame c : rel storely (trampoline host_function c).
Proof.
  destruct c; cbn [trampoline];
    unfold log, emit, load_data, store_data, remove_data, is_callable, load_asset, store_asset, remove_asset, remaining_fuel,
      get_account_contract, get_keys, hf_call, s_call, verify, sha256, drand, get_block_time; frames.
  - apply on_host_frame. apply hf_is_callable_frame; [apply ops_callable_call|apply ops_app_hash_check].
  - apply nested_frame.
  - apply nested_frame.
Qed.
End trampolines.

(** *** Nested calls *)
Lemma host_function_frame n c : rel storely (host_function n c).
Proof. revert c. induction n as [|n IH]; intros c; simpl; [apply rel_panic; typeclasses eauto|]. by apply trampoline_frame. Qed.

Lemma machine_call_frame n args : rel (via id R) (WasmMachine.call (Wm := machine n) args).
Proof. apply call_frame. intros c. apply host_function_frame. Qed.
Lemma machine_callable_frame n args : rel (via id R) (WasmMachine.callable_call (Wm := machine n) args).
Proof. apply callable_call_frame. intros c. apply host_function_frame. Qed.
Lemma machine_check_frame n h c ts : rel (via id R) (WasmMachine.app_hash_check (Wm := machine n) h c ts).
Proof. apply app_hash_check_frame. intros c'. apply host_function_frame. Qed.
End frames.

(** ** The laws of the interface *)
Definition fork_written (s s' : ws) : Prop := rtc contract_write (ws_fork s) (ws_fork s').

Lemma on_cache_state {P : ws -> ws -> Prop} g :
  (forall s, P s (MkWmState (set_cache (g (cache (ws_wm s))) (ws_wm s)) (ws_fork s) (ws_events s))) ->
  rel (via id P) (on_cache (F := F) g).
Proof. intros H. apply rel_via_modify. intros s. apply H. Qed.

Lemma get_module_rel (P : ws -> ws -> Prop) `{!PreOrder P} target :
  (forall g s, P s (MkWmState (set_cache (g (cache (ws_wm s))) (ws_wm s)) (ws_fork s) (ws_events s))) ->
  rel (via id P) (get_module target).
Proof.
  intros Hp. assert (Hc : forall g, rel (via id P) (on_cache (F := F) g)) by (intros g; by apply on_cache_state).
  assert (Ht : rel (via id P) (timestamp : wm_handler t F Z)) by (apply rel_via_same; [typeclasses eauto|apply rel_timestamp_proj]).
  unfold get_module, load_module. frames.
Qed.

#[export] Instance fork_written_frame : WmFrame fork_written.
Proof.
  assert (PreOrder fork_written).
  { split; [intros s; apply rtc_refl|]. intros x y z. unfold fork_written. apply rtc_trans. }
  split; try done.
  - intros target. apply get_module_rel; [done|]. intros g s. apply rtc_refl.
  - intros m ev f f' H'. by apply rtc_once.
  - intros m f ev ev'. apply rtc_refl.
Qed.

Lemma written_writes {A} (m : wm_handler t F A) : rel (via id fork_written) m ->
  rel (fun w w' => rtc writes (ws_fork (w_state w)) (ws_fork (w_state w'))) m.
Proof.
  intros H w. specialize (H w). unfold via, fork_written, id in H.
  induction H as [|f1 f2 f3 H12 _ IH]; [apply rtc_refl|]. eapply rtc_l; [by apply contract_write_writes|exact IH].
Qed.

Lemma call_fuel_u64 host_function args :
  ensures (fun _ : wsw => True) (call host_function args) (fun r _ => is_u64 (fst r)).
Proof.
  apply ensures_bind with (Q := fun _ _ => True); [by intros w _; destruct (get_module _ w)|]. intros [module|e].
  - intros w _. unfold in_store, zoom. rewrite bind_eq. destruct (run_contract _ _ _ _ _) as [r w1|w1]; [|done]. apply u64_wrap_range.
  - by apply ensures_ret.
Qed.

Lemma machine_writes n :
  (forall args, rel (fun w w' => rtc writes (ws_fork (w_state w)) (ws_fork (w_state w'))) (WasmMachine.call (Wm := machine n) args)) /\
  (forall args, rel (fun w w' => rtc writes (ws_fork (w_state w)) (ws_fork (w_state w')))
     (WasmMachine.callable_call (Wm := machine n) args)) /\
  (forall h c ts, rel (fun w w' => rtc writes (ws_fork (w_state w)) (ws_fork (w_state w')))
     (WasmMachine.app_hash_check (Wm := machine n) h c ts)).
Proof.
  split_and!; intros; apply written_writes; [apply machine_call_frame|apply machine_callable_frame|apply machine_check_frame]; exact _.
Qed.

#[export] Instance machine_wm_laws n : @WmLaws t F _ (machine n).
Proof.
  destruct (machine_writes n) as (Hcall & Hcallable & Hcheck). split; [|exact Hcall|exact Hcallable|exact Hcheck].
  intros args w. exact (call_fuel_u64 (host_function n) args w I).
Qed.

(** C15: the machine implements what the WASM service relies on, over every fork of a database and
    whatever contracts do and however they call each other: calls and checks of contracts
    neither flush nor roll back the fork but only write to it, and the fuel a call reports
    is a number of 64 bits. *)
Theorem machine_refines n :
  (forall args w, match WasmMachine.call (Wm := machine n) args w with Ret r _ => is_u64 (fst r) | Panic _ => True end) /\
  (forall args, rel (fun w w' => rtc writes (ws_fork (w_state w)) (ws_fork (w_state w'))) (WasmMachine.call (Wm := machine n) args)) /\
  (forall args, rel (fun w w' => rtc writes (ws_fork (w_state w)) (ws_fork (w_state w')))
     (WasmMachine.callable_call (Wm := machine n) args)) /\
  (forall h c ts, rel (fun w w' => rtc writes (ws_fork (w_state w)) (ws_fork (w_state w')))
     (WasmMachine.app_hash_check (Wm := machine n) h c ts)).
Proof.
  split; [|exact (machine_writes n)]. intros args w. exact (call_fuel_u64 (host_function n) args w I).
Qed.

(** ** The cache *)
Definition cache_bounded (max : Z) (s : ws) : Prop :=
  cache_max (ws_wm s) = max /\ 0 < max /\ map_len (cache (ws_wm s)) <= max + 1.

Lemma older_in first rest : older first rest ∈ first :: rest.
Proof.
  revert first. induction rest as [|e rest IH]; intros first; [left|]. unfold older in *. cbn [fold_left].
  destruct (_ <? _); specialize (IH e) as IHe; specialize (IH first) as IHf.
  - right. exact IHe.
  - apply elem_of_cons in IHf as [->|Hin]; [left|right; by right].
Qed.

Lemma older_least first rest e : e ∈ first :: rest -> last_used (snd (older first rest)) <= last_used (snd e).
Proof.
  revert first e. induction rest as [|x rest IH]; intros first e; [intros ->%list_elem_of_singleton; simpl; lia|].
  unfold older in *. cbn [fold_left]. destruct (Z.ltb_spec (last_used (snd x)) (last_used (snd first))).
  - intros [->|He]%elem_of_cons; [|by apply IH]. etrans; [by apply (IH x x); left|lia].
  - intros [->|[->|He]%elem_of_cons]%elem_of_cons; [apply IH; left| |apply IH; by right].
    etrans; [by apply (IH first first); left|lia].
Qed.

Lemma map_len_insert {A} (c : gmap Hash A) h x : map_len (<[h := x]> c) <= map_len c + 1.
Proof. unfold map_len. rewrite map_size_insert. destruct (c !! h); simpl; lia. Qed.

Lemma map_len_delete {A} (c : gmap Hash A) h : is_Some (c !! h) -> map_len (delete h c) = map_len c - 1.
Proof.
  intros Hh. unfold map_len. rewrite map_size_delete. destruct (c !! h) as [x|] eqn:E; [|by destruct Hh]. simpl.
  assert (size c <> 0%nat); [|lia]. intros H%map_size_empty_inv. subst c. by rewrite lookup_empty in E.
Qed.

(** Making room for a module takes the least recently used one out. *)
Lemma evicted (c : gmap Hash CachedModule) first rest :
  map_iter c = first :: rest ->
  map_len (delete (fst (older first rest)) c) = map_len c - 1 /\
  (forall h e, c !! h = Some e -> last_used (snd (older first rest)) <= last_used e).
Proof.
  intros Hi. split.
  - apply map_len_delete. pose proof (older_in first rest) as Hin. rewrite <- Hi in Hin.
    destruct (older first rest) as [h e]. apply elem_of_map_iter in Hin. simpl. by exists e.
  - intros h e He. apply elem_of_map_iter in He. rewrite Hi in He. apply (older_least _ _ _ He).
Qed.

(** The cache once there is room for one more *)
Definition room (m : t) : gmap Hash CachedModule :=
  if cache_max m <? map_len (cache m) then
    match map_iter (cache m) with [] => cache m | first :: rest => delete (fst (older first rest)) (cache m) end
  else cache m.
Definition with_cache (g : gmap Hash CachedModule -> gmap Hash CachedModule) (s : ws) : ws :=
  MkWmState (set_cache (g (cache (ws_wm s))) (ws_wm s)) (ws_fork s) (ws_events s).

(** The compiled code of a contract, as the service account stores it *)
Definition compiled (target : Hash) (f : F) : Result WasmModule WasmError :=
  match fork_load_account_data NodeConsts.SERVICE_ACCOUNT_ID (code_key target) f with
  | None => Err (ResourceNotFound "smart contract not found")
  | Some wasm_bin => match module_new wasm_bin with Ok m => Ok m | Err e => Err (ResourceNotFound e) end
  end.

Lemma load_module_eq target (w : wsw) : 0 <= cache_max (ws_wm (w_state w)) ->
  load_module target w =
    let w1 := upd (with_cache (fun _ => room (ws_wm (w_state w)))) w in
    match compiled target (ws_fork (w_state w)) with
    | Ok m => Ret (Ok tt) (upd (with_cache (insert target (MkCached m 0))) w1)
    | Err e => Ret (Err e) w1
    end.
Proof.
  intros Hmax. destruct w as [[[c max] f ev] a k o]. simpl in *. unfold load_module, room, compiled. rewrite bind_eq. cbn [gets].
  simpl. destruct (Z.ltb_spec max (map_len c)) as [Hlt|_].
  - destruct (map_iter c) as [|first rest] eqn:Ei.
    + rewrite <- length_map_iter, Ei in Hlt. unfold len in Hlt. simpl in Hlt. lia.
    + rewrite !bind_eq. unfold on_cache at 1. rewrite modify_eq, bind_eq. cbn [gets]. simpl.
      destruct (fork_load_account_data _ _ f) as [bin|]; [|done]. destruct (module_new bin); [|done]. done.
  - rewrite bind_eq. cbn [mret M_ret]. rewrite bind_eq. cbn [gets]. simpl.
    destruct (fork_load_account_data _ _ f) as [bin|]; [|done]. destruct (module_new bin); done.
Qed.

Lemma map_len_room m : map_len (room m) <= map_len (cache m).
Proof.
  unfold room. destruct (_ <? _); [|lia]. destruct (map_iter (cache m)) as [|first rest] eqn:E; [lia|].
  destruct (evicted _ _ _ E) as [-> _]. lia.
Qed.

Lemma room_bounded max s : cache_bounded max s -> map_len (room (ws_wm s)) <= max.
Proof.
  intros (Hm & H0 & Hl). unfold room. rewrite Hm. destruct (Z.ltb_spec max (map_len (cache (ws_wm s)))); [|lia].
  destruct (map_iter (cache (ws_wm s))) as [|first rest] eqn:E.
  - rewrite <- length_map_iter, E in H. unfold len in H. simpl in H. lia.
  - destruct (evicted _ _ _ E) as [-> _]. lia.
Qed.

Lemma room_lookup m h e : room m !! h = Some e -> cache m !! h = Some e.
Proof.
  unfold room. destruct (_ <? _); [|done]. destruct (map_iter (cache m)) as [|first rest]; [done|].
  intros H. apply lookup_delete_Some in H. tauto.
Qed.

(** What a module found or loaded leaves: it is stamped with the time. *)
Lemma get_module_eq target (w : wsw) : 0 <= cache_max (ws_wm (w_state w)) ->
  get_module target w =
    match cache (ws_wm (w_state w)) !! target with
    | Some entry =>
        Ret (Ok (module entry)) (upd (with_cache (insert target (MkCached (module entry) (now w)))) (tick w))
    | None =>
        let w1 := upd (with_cache (fun _ => room (ws_wm (w_state w)))) w in
        match compiled target (ws_fork (w_state w)) with
        | Ok m => Ret (Ok m) (upd (with_cache (insert target (MkCached m (now w)))) (tick w1))
        | Err e => Ret (Err e) w1
        end
    end.
Proof.
  intros Hmax. unfold get_module. rewrite bind_eq. cbn [gets]. unfold try_bind. rewrite bind_eq.
  destruct (cache (ws_wm (w_state w)) !! target) as [entry|] eqn:E.
  - rewrite bool_decide_true by by exists entry. cbn [mret M_ret]. rewrite bind_eq. cbn [gets]. rewrite E. cbn [expect].
    rewrite bind_eq. cbn [mret M_ret]. rewrite bind_eq, timestamp_eq, bind_eq. by destruct w as [[[c m] f ev] a k o].
  - rewrite bool_decide_false by (intros [? ?]; congruence). rewrite load_module_eq by done.
    destruct (compiled _ _) as [m|e]; [|done]. cbv beta iota zeta. rewrite bind_eq. cbn [gets].
    destruct w as [[[c max] f ev] a k o]. simpl in *. rewrite lookup_insert_eq. cbn [expect].
    rewrite bind_eq. cbn [mret M_ret]. rewrite bind_eq, timestamp_eq, bind_eq. unfold on_cache. rewrite modify_eq.
    unfold upd, tick, now, with_cache, set_cache. simpl. by rewrite insert_insert_eq.
Qed.

#[export] Instance cache_bounded_frame max : WmFrame (fun s s' => cache_bounded max s -> cache_bounded max s').
Proof.
  split.
  - split; [by intros s|]. intros x y z Hxy Hyz Hx. auto.
  - intros target w Hb. destruct Hb as (Hm & H0 & Hl). unfold id in *. rewrite get_module_eq by lia.
    destruct (cache _ !! target) as [entry|] eqn:E; [|destruct (compiled _ _) as [m|e]]; simpl.
    + repeat split; [done|done|]. simpl. unfold map_len in *. rewrite map_size_insert, E. simpl. lia.
    + repeat split; [done|done|]. simpl. etrans; [apply map_len_insert|].
      pose proof (room_bounded max (w_state w) ltac:(done)). lia.
    + repeat split; [done|done|]. simpl. pose proof (room_bounded max (w_state w) ltac:(done)). lia.
  - intros m ev f f' _ Hb. exact Hb.
  - intros m f ev ev' Hb. exact Hb.
Qed.

(** The operations of a machine, as its users call them *)
Inductive WmOp : Type :=
| OpCall (args : CallArgs)
| OpCallable (args : CallArgs)
| OpCheck (app_hash : option Hash) (ctx_args : CtxArgs) (block_timestamp : Z).
Definition perform (n : nat) (op : WmOp) : wm_handler t F unit :=
  match op with
  | OpCall args => _ ← WasmMachine.call (Wm := machine n) args; mret tt
  | OpCallable args => _ ← WasmMachine.callable_call (Wm := machine n) args; mret tt
  | OpCheck h c ts => _ ← WasmMachine.app_hash_check (Wm := machine n) h c ts; mret tt
  end.

Lemma perform_frame (R : ws -> ws -> Prop) `{!WmFrame R} n op : rel (via id R) (perform n op).
Proof.
  destruct op; (apply rel_bind; [typeclasses eauto| |intros ?; apply rel_ret; typeclasses eauto]).
  - by apply machine_call_frame.
  - by apply machine_callable_frame.
  - by apply machine_check_frame.
Qed.

(** Whatever contracts a machine made for [max] modules is asked to run, on whatever forks, its
    cache never holds more than one above [max]; when room is made it is the least recently
    used module that goes. *)
Theorem cache_within_bound max m n ops (w : wsw) :
  new max = Some m -> 0 <= max -> ws_wm (w_state w) = m ->
  map_len (cache (ws_wm (w_state (exec_world (for_each ops (perform n) w))))) <= max + 1 /\
  (forall c first rest, map_iter c = first :: rest ->
     forall h e, c !! h = Some e -> last_used (snd (older first rest)) <= last_used e).
Proof.
  intros Hn Hmax Hw. split; [|intros c first rest Hi; exact (proj2 (evicted c first rest Hi))].
  unfold new in Hn. destruct (Z.eqb_spec max 0); [done|]. injection Hn as <-.
  assert (Hf : rel (via id (fun s s' => cache_bounded max s -> cache_bounded max s')) (for_each ops (perform n))).
  { apply rel_for_each; [typeclasses eauto|]. intros op _. apply perform_frame, _. }
  apply (Hf w). unfold id, cache_bounded. rewrite Hw. simpl. unfold map_len. rewrite map_size_empty. simpl. lia.
Qed.

(** Every cached module is what the code in the fork compiles to. *)
Definition cache_consistent (s : ws) : Prop :=
  forall h entry, cache (ws_wm s) !! h = Some entry -> compiled h (ws_fork s) = Ok (module entry).

(** As long as the cached modules are what the code in the fork compiles to, the cache makes
    no difference: a contract is the compiled code of the fork, or the error its absence or
    its compilation gives, and the cache stays so. *)
Theorem get_module_compiles target (w : wsw) :
  0 <= cache_max (ws_wm (w_state w)) -> cache_consistent (w_state w) ->
  exists w', get_module target w = Ret (compiled target (ws_fork (w_state w))) w' /\
    ws_fork (w_state w') = ws_fork (w_state w) /\ cache_consistent (w_state w').
Proof.
  intros Hmax Hc. rewrite get_module_eq by done. destruct (cache _ !! target) as [entry|] eqn:E.
  - rewrite (Hc _ _ E). eexists. split; [done|]. split; [done|]. intros h e. simpl.
    destruct (decide (h = target)) as [->|Hh].
    + rewrite lookup_insert_eq. intros [= <-]. exact (Hc _ _ E).
    + rewrite lookup_insert_ne by done. apply Hc.
  - cbv zeta. destruct (compiled target _) as [m|err] eqn:Em; (eexists; split; [done|]; split; [done|]); intros h e; simpl.
    + destruct (decide (h = target)) as [->|Hh].
      * rewrite lookup_insert_eq. intros [= <-]. exact Em.
      * rewrite lookup_insert_ne by done. intros He%room_lookup. by apply Hc.
    + intros He%room_lookup. by apply Hc.
Qed.

(** ** Keys by pattern *)

(** A contract that asks for the keys of a pattern that is UTF-8 and ends in a character of more
    than one byte panics the machine, which looks at the last byte of the pattern. *)
Theorem get_keys_panics hf offset size buf pattern (w : stw) :
  is_Some (memory (store (w_state w))) -> get_range (default [] (memory (store (w_state w)))) offset size = Some buf ->
  Utf8.from_utf8 buf = Ok pattern -> pattern <> EmptyString ->
  ErrorText.is_char_boundary pattern (String.length pattern - 1) = false ->
  panicked (get_keys hf offset size w) = true.
Proof.
  intros [mem Hm] Hr Hu Hp Hb. unfold get_keys, mem_from, str_from, slice_from, try_bind. rewrite !bind_eq. cbn [gets].
  rewrite Hm in *. cbn [mret M_ret]. rewrite !bind_eq. cbn [gets]. rewrite Hm. rewrite Hr. cbn [mret M_ret]. rewrite Hu.
  rewrite bind_eq. rewrite bool_decide_false by done. unfold last_of. by rewrite Hb.
Qed.

(** ** The contract of an account *)
Definition bound_account (owner : string) (h : Hash) (f : F) : Account.t :=
  let a := default (Account.new owner None) (fork_load_account owner f) in
  Account.Mk (Account.id a) (Account.assets a) (Some h) (Account.data_hash a).
Definition bind_contract (a : Account.t) (s : ws) : ws := MkWmState (ws_wm s) (store_account a (ws_fork s)) (ws_events s).

(** The contract of a call is settled by what its account is bound to and what the call names:
    the bound one when it is named or none is; an error when there is none at all; another
    one only when the service contract agrees, and then the account is bound to it. *)
Theorem app_hash_check_spec hf named ctx_args ts (w : wsw) :
  let a := default (Account.new (owner ctx_args) None) (fork_load_account (owner ctx_args) (ws_fork (w_state w))) in
  app_hash_check hf named ctx_args ts w =
  match Account.contract a, named with
  | None, None => Ret (Err (ResourceNotFound "smart contract not specified")) w
  | Some bound, None => Ret (Ok bound) (upd (bind_contract (bound_account (owner ctx_args) bound (ws_fork (w_state w)))) w)
  | bound, Some h =>
      if bool_decide (bound = Some h) then Ret (Ok h) w
      else
        match contract_updatable hf (owner ctx_args) bound (Some h) ctx_args ts w with
        | Ret true w' => Ret (Ok h) (upd (bind_contract (bound_account (owner ctx_args) h (ws_fork (w_state w)))) w')
        | Ret false w' => Ret (Err (InvalidContract "cannot bind the contract to the account")) w'
        | Panic w' => Panic w'
        end
  end.
Proof.
  cbv zeta. unfold app_hash_check, bound_account. rewrite bind_eq. cbn [gets].
  set (a := default _ _). destruct (Account.contract a) as [bound|] eqn:Ea, named as [h|].
  - destruct (decide (bound = h)) as [->|Hne].
    + by rewrite !bool_decide_true by done.
    + rewrite !(bool_decide_false (Some bound = Some h)) by congruence. cbn [negb]. rewrite bind_eq.
      destruct (contract_updatable _ _ _ _ _ _ w) as [[|] w'|w']; done.
  - rewrite (bool_decide_false (Some bound = None)) by done. cbn [negb]. by rewrite bool_decide_true by done.
  - rewrite !(bool_decide_false (None = Some h)) by done. cbn [negb]. rewrite bind_eq.
    destruct (contract_updatable _ _ _ _ _ _ w) as [[|] w'|w']; done.
  - by rewrite bool_decide_true by done.
Qed.
End machine.
