(* ===== verification/WmFuel.v ===== *)
(** * The WASM machine: fuel and nested calls

    What a call burns is within the fuel it is given, as long as contracts do not call
    others while they are instantiated; and the room for nested calls makes no
    difference to a call that fits in it. *)

From stdpp Require Import base gmap strings list fin_maps.
From S2P Require Import Prelude.
From S2P Require Import Exec.
From S2P Require Import Hash.
From S2P Require Import Crypto.
From S2P Require Import DRand.
From S2P Require Import Messages.
From S2P Require Import NodeModels.
From S2P Require Import NodeErrors.
From S2P Require Import Database.
From S2P Require Import WasmMachine.
From S2P Require Import HostFunc.
From S2P Require Import Wasmtime.
From S2P Require Import WmLocal.
Open Scope Z_scope.
Import WmLocal.

(** A run that starts with [n] units of fuel only burns them: whatever a host function
    leaves is all there is to go on with. *)
Fixpoint burns `{Wasmtime} {A} (n : Z) (r : Run Store A) : Prop :=
  match r with
  | Done _ s => get_fuel s <= n
  | Calls _ s resume _ =>
      get_fuel s <= n /\ forall v s', get_fuel s' <= get_fuel s -> burns (get_fuel s') (resume v s')
  end.

Lemma burns_mono `{Wasmtime} {A} n n' (r : Run Store A) : burns n r -> n <= n' -> burns n' r.
Proof. destruct r; cbn [burns]; [lia|]. intros [H1 H2] Hn. split; [lia|exact H2]. Qed.

(** wasmtime meters what runs. *)
Class Metered `{Wasmtime} : Prop := {
  metered_instance : forall m s, burns (get_fuel s) (instance_new m s);
  metered_alloc : forall n s, burns (get_fuel s) (call_alloc n s);
  metered_run : forall p s, burns (get_fuel s) (call_run p s);
  metered_is_callable : forall p s, burns (get_fuel s) (call_is_callable p s)
}.

(** No contract asks the host for anything while it is instantiated. *)
Definition silent_start `{Wasmtime} : Prop := forall m s, exists r s', instance_new m s = Done r s'.

Section machine.
Context `{Hdig : Digest} `{Hring : Ring} `{Hhex : Hex} `{Hcodecs : WmCodecs} `{Hiter : !HashMapIter Hash}.
Context `{Hwt : Wasmtime} {F : Type} `{Hfork : DbFork F}.
Context `{Hlaws : !WasmtimeLaws} `{Hmet : !Metered}.

Abbreviation ws := (WmState t F).
Abbreviation wsw := (world ws core_effect core_answer).
Abbreviation hst := (M (HostFunc.t (W := t) (F := F)) core_effect core_answer).
Abbreviation hfw := (world (HostFunc.t (W := t) (F := F)) core_effect core_answer).
Abbreviation st := (M (StoreState (F := F)) core_effect core_answer).
Abbreviation stw := (world (StoreState (F := F)) core_effect core_answer).

Definition fuel (w : stw) : Z := get_fuel (store (w_state w)).
Definition wm_set (w : stw) : Prop := cx_wm (HostFunc.ctx (host (w_state w))) = true.

(** Once the machine is set, nothing but burns the fuel. *)
Definition burning (w w' : stw) : Prop := wm_set w -> wm_set w' /\ fuel w' <= fuel w.

#[local] Instance burning_preorder : PreOrder burning.
Proof.
  split; [by intros w|]. intros x y z Hxy Hyz Hx. destruct (Hxy Hx) as [Hy ?], (Hyz (proj1 (Hxy Hx))). split; [done|lia].
Qed.

Definition spent (n : Z) (w : stw) : Prop := wm_set w /\ fuel w <= n.

Lemma burning_spent {A} n (m : st A) : rel burning m -> ensures (spent n) m (fun _ => spent n).
Proof. intros H. eapply ensures_rel; [exact H|]. intros w w' Hb [Hw Hf]. destruct (Hb Hw). split; [done|lia]. Qed.

(** *** The host functions keep the machine set. *)
Definition keeps_wm : hfw -> hfw -> Prop := same_proj (fun s => cx_wm (HostFunc.ctx s)).

Lemma on_machine_keeps `{Hwm : Wm t F} {A} (m : wm_handler t F A) : rel keeps_wm (HostFunc.on_machine m).
Proof. apply rel_zoom with (P' := fun _ _ => True); [done|]. intros w w' _. done. Qed.

Lemma gets_keeps {A} (g : HostFunc.t (W := t) (F := F) -> A) : rel keeps_wm (gets g).
Proof. apply rel_gets. typeclasses eauto. Qed.

Lemma modify_keeps (g : HostFunc.t (W := t) (F := F) -> HostFunc.t) :
  (forall s, cx_wm (HostFunc.ctx (g s)) = cx_wm (HostFunc.ctx s)) -> rel keeps_wm (modify g).
Proof. intros H w. apply H. Qed.

Lemma on_host_burning {A} (m : hst A) : rel keeps_wm m -> rel burning (on_host m).
Proof.
  intros H. apply rel_zoom with (P' := keeps_wm); [exact H|]. intros w w' Hk Hw. unfold wm_set, fuel, keeps_wm, same_proj in *.
  simpl in *. rewrite Hk. done.
Qed.

Section served.
Context (host_function : HostCall -> st (Result Z WasmError)).
Hypothesis served : forall c, rel burning (host_function c).

Lemma exec_burns {A} (r : Run Store A) n w : burns n r -> wm_set w -> spent n (exec_world (exec host_function r w)).
Proof.
  revert n w. induction r as [r s|c s resume IH unwind]; intros n w Hb Hw; cbn [exec burns] in *.
  { split; [exact Hw|exact Hb]. }
  destruct Hb as [Hs Hb]. rewrite bind_eq. unfold put_store. rewrite modify_eq, bind_eq. set (w0 := upd _ w).
  assert (Hw0 : wm_set w0) by exact Hw. destruct (served c w0 Hw0) as [Hw1 Hf1]. assert (Hf0 : fuel w0 = get_fuel s) by done.
  destruct (host_function c w0) as [res w1|w1]; simpl in Hw1, Hf1; [|split; [done|simpl; lia]].
  rewrite bind_eq. cbn [gets]. destruct res as [v|e]; [|split; [done|simpl; lia]].
  assert (Hf1' : get_fuel (store (w_state w1)) <= get_fuel s) by (unfold fuel in *; lia).
  destruct (IH v (store (w_state w1)) (get_fuel (store (w_state w1))) w1 (Hb v _ Hf1') Hw1) as [Hw2 Hf2]. split; [done|lia].
Qed.

Lemma exec_burning {A} (g : Store -> Run Store A) :
  (forall s, burns (get_fuel s) (g s)) -> rel burning (s ← gets store; exec host_function (g s)).
Proof. intros Hg w Hw. rewrite bind_eq. cbn [gets]. exact (exec_burns _ _ w (Hg _) Hw). Qed.

Lemma write_mem_burning data : rel burning (write_mem host_function data).
Proof.
  apply rel_try_bind; [typeclasses eauto| |intros offset w Hw].
  - intros w Hw. unfold alloc_mem. rewrite bind_eq. cbn [gets]. rewrite bind_eq.
    pose proof (exec_burns (call_alloc (i32_wrap (len data)) (store (w_state w))) _ w (metered_alloc _ _) Hw) as H.
    by destruct (exec _ _ w) as [r w'|w'].
  - rewrite bind_eq. cbn [gets]. destruct (memory_write _ _ _) as [s|e] eqn:E; [|done].
    rewrite bind_eq. unfold put_store. rewrite modify_eq. split; [done|]. unfold fuel. simpl. rewrite (fuel_write _ _ _ _ E). lia.
Qed.

Lemma ro_burning {A} (m : st A) : rel (same_proj (fun s => s)) m -> rel burning m.
Proof. intros H w Hw. specialize (H w). unfold same_proj, wm_set, fuel in *. by rewrite H. Qed.

Lemma mem_from_burning : rel burning mem_from.
Proof. apply ro_burning. unfold mem_from. frames. Qed.
Lemma slice_from_burning o s : rel burning (slice_from o s).
Proof. apply ro_burning. unfold slice_from. frames. Qed.
Lemma str_from_burning o s : rel burning (str_from o s).
Proof. apply ro_burning. unfold str_from, slice_from. frames. Qed.
Lemma lossy_from_burning o s : rel burning (lossy_from o s).
Proof. apply ro_burning. unfold lossy_from, slice_from. frames. Qed.
Lemma gets_store_burning {A} (g : StoreState -> A) : rel burning (gets g).
Proof. apply rel_gets. typeclasses eauto. Qed.
#[local] Hint Resolve write_mem_burning mem_from_burning slice_from_burning str_from_burning lossy_from_burning
  gets_store_burning : frames.
Lemma return_buf_burning buf : rel burning (return_buf host_function buf).
Proof. unfold return_buf. frames. Qed.
#[local] Hint Resolve return_buf_burning : frames.

(** *** A call *)
Hypothesis quiet : silent_start.

Lemma prepare_spent text module args input n :
  ensures (fun w => fuel w <= n) (prepare host_function text module args input)
    (fun r w => fuel w <= n /\ match r with Ok _ => wm_set w | Err _ => True end).
Proof.
  intros w Hw. unfold prepare, try_bind. rewrite bind_eq. cbn [mret M_ret].
  destruct (host_functions_register module) as [[]|e]; [|done]. rewrite bind_eq. cbn [gets]. rewrite bind_eq.
  pose proof (metered_instance module (store (w_state w))) as Hm. destruct (quiet module (store (w_state w))) as (r & s & Hr).
  rewrite Hr in Hm |- *. cbn [exec burns] in *. rewrite bind_eq. unfold put_store. rewrite modify_eq. cbn [mret M_ret].
  assert (Hs : get_fuel s <= n) by (unfold fuel in Hw; lia).
  rewrite bind_eq. cbn [mret M_ret]. destruct r as [[]|e]; [|done]. rewrite bind_eq, modify_eq.
  match goal with |- context [upd ?g (upd ?h w)] => set (w1 := upd g (upd h w)) end.
  assert (H1 : spent n w1) by done. rewrite bind_eq. cbn [gets].
  match goal with |- match ?m w1 with _ => _ end => assert (Hrest : rel burning m) end.
  { match goal with |- rel _ ?m => change (rel burning m) end. frames. }
  pose proof (burning_spent n _ Hrest w1 H1) as H2. match goal with |- match ?m w1 with _ => _ end => destruct (m w1) as [[p|e] w2|w2] end;
    [|..]; [destruct H2; done| |done]. destruct H2; done.
Qed.
Lemma update_data_hash_burning : rel burning (update_data_hash (F := F)).
Proof.
  apply on_host_burning. apply rel_bind; [typeclasses eauto|apply rel_get_state; typeclasses eauto|]. intros s.
  destruct (cx_data_updated _); [|apply rel_ret; typeclasses eauto].
  destruct (fork_load_account _ _) as [a|]; [|apply rel_ret; typeclasses eauto].
  apply rel_bind; [typeclasses eauto|by apply modify_keeps|intros _; apply rel_ret; typeclasses eauto].
Qed.
#[local] Hint Resolve update_data_hash_burning : frames.

(** From the entry point on: a function looked up and run *)
Lemma entry_burning {A B} (there : Store -> Result unit WasmError) (g : Store -> Run Store A) (k : Result A RunError -> st (Result B WasmError)) :
  (forall s, burns (get_fuel s) (g s)) -> (forall r, rel burning (k r)) ->
  rel burning (s ← gets store; _ <-? mret (there s); r ← exec host_function (g s); k r).
Proof.
  intros Hg Hk w Hw. rewrite bind_eq. cbn [gets]. unfold try_bind. rewrite bind_eq. cbn [mret M_ret].
  destruct (there _) as [[]|e]; [|done]. rewrite bind_eq.
  pose proof (exec_burns (g (store (w_state w))) _ w (Hg _) Hw) as [H1 H2].
  destruct (exec _ _ w) as [r w1|w1]; [|done]. destruct (Hk r w1 H1) as [H3 H4]. split; [done|]. unfold fuel in *. simpl in *. lia.
Qed.

Lemma run_contract_spent module args input n :
  ensures (fun w => fuel w <= n) (run_contract host_function module args input) (fun _ w => fuel w <= n).
Proof.
  eapply ensures_try_bind; [apply prepare_spent| |intros e w [H _]; exact H]. intros params.
  apply ensures_conseq with (P' := spent n) (Q' := fun _ => spent n); [|intros w []; split; done|intros r w []; done].
  apply burning_spent, entry_burning; [intros s; apply metered_run|]. intros r. frames.
Qed.

Lemma run_is_callable_spent module args input n :
  ensures (fun w => fuel w <= n) (run_is_callable host_function module args input) (fun _ w => fuel w <= n).
Proof.
  eapply ensures_try_bind; [apply prepare_spent| |intros e w [H _]; exact H]. intros params.
  apply ensures_conseq with (P' := spent n) (Q' := fun _ => spent n); [|intros w []; split; done|intros r w []; done].
  apply burning_spent, entry_burning; [intros s; apply metered_is_callable|]. intros r. frames.
Qed.

(** What an operation of the machine says it burnt is between nothing and what it was given. *)
Definition within_limit {A} (n : Z) (r : Z * A) : Prop := is_u64 n -> 0 <= fst r <= n.

Lemma in_store_spent {A B} module args (m : st A) (k : A -> st (Z * B)) :
  (is_u64 (ca_initial_fuel args) ->
     ensures (fun w => fuel w <= ca_initial_fuel args) m (fun _ w => fuel w <= ca_initial_fuel args)) ->
  (forall a w, 0 <= fuel w <= ca_initial_fuel args -> is_u64 (ca_initial_fuel args) ->
     exists b, k a w = Ret b w /\ 0 <= fst b <= ca_initial_fuel args) ->
  ensures (fun _ : wsw => True) (in_store module args (a ← m; k a)) (fun r _ => within_limit (ca_initial_fuel args) r).
Proof.
  intros Hm Hk w _. unfold in_store, zoom. rewrite bind_eq. set (w0 := zoom_in _ w).
  destruct (m w0) as [a w1|w1] eqn:E; [|done]. destruct (k a w1) as [b w2|w2] eqn:Ek; [|done]. intros Hi.
  assert (H0 : fuel w0 <= ca_initial_fuel args).
  { unfold fuel, w0, fuelled. simpl. destruct (fuel_set (ca_initial_fuel args) (store_new module) Hi) as (s' & -> & ->). lia. }
  specialize (Hm Hi w0 H0). rewrite E in Hm.
  destruct (Hk a w1) as (b' & Hb & Hr); [|done|rewrite Hb in Ek; by injection Ek as -> _].
  split; [|done]. apply fuel_u64.
Qed.

Lemma call_within_limit args :
  ensures (fun _ : wsw => True) (call host_function args) (fun r _ => within_limit (ca_initial_fuel args) r).
Proof.
  apply ensures_bind with (Q := fun _ _ => True); [by intros w _; destruct (get_module _ w)|]. intros [module|e].
  - apply in_store_spent; [intros _; apply run_contract_spent|]. intros r w Hf Hi. rewrite bind_eq. cbn [gets].
    eexists. split; [done|]. simpl. change (get_fuel (store (w_state w))) with (fuel w). unfold is_u64 in Hi. rewrite u64_sub_small; lia.
  - apply ensures_ret. intros w _ Hi. unfold is_u64 in Hi. simpl. lia.
Qed.

Lemma callable_call_within_limit args :
  ensures (fun _ : wsw => True) (callable_call host_function args) (fun r _ => within_limit (ca_initial_fuel args) r).
Proof.
  apply ensures_bind with (Q := fun _ _ => True); [by intros w _; destruct (get_module _ w)|]. intros [module|e].
  - apply in_store_spent; [intros _; apply run_is_callable_spent|]. intros r w Hf Hi. rewrite bind_eq. cbn [gets].
    unfold is_u64 in Hi. destruct r as [v|e]; (eexists; split; [done|]); simpl; [|lia].
    change (get_fuel (store (w_state w))) with (fuel w). rewrite u64_sub_small; lia.
  - apply ensures_ret. intros w _ Hi. unfold is_u64 in Hi. simpl. lia.
Qed.

(** *** The trampolines *)
#[local] Instance nested : Wm t F := ops host_function.

Lemma on_machine_value {A} (m : wm_handler t F A) (Q : A -> Prop) (w : hfw) :
  ensures (fun _ => True) m (fun r _ => Q r) -> match HostFunc.on_machine m w with Ret r _ => Q r | Panic _ => True end.
Proof. intros H. exact (ensures_zoom _ _ _ _ (fun _ => True) _ H w I). Qed.

Lemma hf_call_within_limit o h m d n :
  ensures (fun w : hfw => cx_wm (HostFunc.ctx (w_state w)) = true) (HostFunc.call o h m d n) (fun r _ => within_limit n r).
Proof.
  intros w Hw. unfold HostFunc.call. rewrite bind_eq. cbn [gets]. rewrite Hw. rewrite bind_eq.
  destruct (HostFunc.on_machine _ w) as [[h'|e] w1|w1]; [| |done].
  - apply (on_machine_value _ (within_limit n)). match goal with |- ensures _ (WasmMachine.call ?a) _ => exact (call_within_limit a) end.
  - intros Hi. unfold is_u64 in Hi. simpl. lia.
Qed.

Lemma hf_is_callable_within_limit a m n :
  ensures (fun w : hfw => cx_wm (HostFunc.ctx (w_state w)) = true) (HostFunc.is_callable a m n) (fun r _ => within_limit n r).
Proof.
  assert (H0 : forall r : Result Z WasmError, within_limit n (0, r)) by (intros r Hi; unfold is_u64 in Hi; simpl; lia).
  intros w Hw. unfold HostFunc.is_callable. rewrite bind_eq. unfold HostFunc.get_account_contract at 1, gets at 1.
  destruct (match fork_load_account _ _ with Some _ => _ | None => _ end) as [h|]; [|apply H0].
  rewrite bind_eq. cbn [gets]. rewrite Hw. rewrite bind_eq.
  destruct (HostFunc.on_machine _ w) as [[h'|e] w1|w1]; [|apply H0|done].
  apply (on_machine_value _ (within_limit n)).
  match goal with |- ensures _ (WasmMachine.callable_call ?a) _ => exact (callable_call_within_limit a) end.
Qed.

Lemma hf_call_keeps o h m d n : rel keeps_wm (HostFunc.call o h m d n).
Proof.
  unfold HostFunc.call. apply rel_bind; [typeclasses eauto|apply gets_keeps|]. intros c.
  destruct (cx_wm c); [|apply rel_ret; typeclasses eauto].
  apply rel_bind; [typeclasses eauto|apply on_machine_keeps|]. intros [h'|e]; [apply on_machine_keeps|apply rel_ret; typeclasses eauto].
Qed.

Lemma hf_is_callable_keeps a m n : rel keeps_wm (HostFunc.is_callable a m n).
Proof.
  unfold HostFunc.is_callable, HostFunc.get_account_contract. apply rel_bind; [typeclasses eauto|apply gets_keeps|].
  intros [h|]; [|apply rel_ret; typeclasses eauto]. apply rel_bind; [typeclasses eauto|apply gets_keeps|]. intros c.
  destruct (cx_wm c); [|apply rel_ret; typeclasses eauto].
  apply rel_bind; [typeclasses eauto|apply on_machine_keeps|]. intros [h'|e]; [apply on_machine_keeps|apply rel_ret; typeclasses eauto].
Qed.

(** A nested operation, and what is taken off the caller's fuel for it *)
Lemma nested_charged {A B} (m : Z -> hst (Z * A)) (k : Z -> Z * A -> st (Result B WasmError)) :
  (forall n, rel keeps_wm (m n)) ->
  (forall n, ensures (fun w : hfw => cx_wm (HostFunc.ctx (w_state w)) = true) (m n) (fun r _ => within_limit n r)) ->
  (forall r (w : stw), 0 <= fst r <= fuel w -> wm_set w ->
     wm_set (exec_world (k (fuel w) r w)) /\ fuel (exec_world (k (fuel w) r w)) <= fuel w) ->
  rel burning (n ← remaining_fuel; r ← on_host (m n); k n r).
Proof.
  intros Hkeep Hlim Hk w Hw. unfold remaining_fuel. rewrite bind_eq. cbn [gets]. set (n := get_fuel (store (w_state w))).
  rewrite bind_eq. pose proof (on_host_burning (m n) (Hkeep n) w Hw) as [H1 _].
  unfold on_host, zoom in *. specialize (Hlim n (zoom_in host w) Hw). destruct (m n (zoom_in host w)) as [r w1|w1]; [|done].
  simpl in H1. assert (Hf : fuel (zoom_out (fun h x => MkStore (store x) h) id w w1) = fuel w) by done.
  specialize (Hlim (fuel_u64 _)). destruct (Hk r (zoom_out (fun h x => MkStore (store x) h) id w w1)) as [H2 H3]; [|done|].
  - rewrite Hf. exact Hlim.
  - split; [done|]. by rewrite Hf in H3.
Qed.

Lemma charge_burning c w : 0 <= c <= fuel w -> wm_set w ->
  wm_set (exec_world (charge (fuel w -u64 c) w)) /\ fuel (exec_world (charge (fuel w -u64 c) w)) <= fuel w.
Proof.
  intros Hc Hw. assert (Hu : is_u64 (fuel w)) by apply fuel_u64. unfold is_u64 in Hu. rewrite u64_sub_small by lia.
  destruct (fuel_set (fuel w - c) (store (w_state w))) as (s' & Hs & Hf); [unfold is_u64; lia|].
  unfold charge. rewrite bind_eq. cbn [gets]. rewrite Hs. split; [done|]. unfold fuel at 1. simpl. lia.
Qed.

Lemma nested_call_burning a h m d : rel burning (nested_call host_function a h m d).
Proof.
  apply (nested_charged (HostFunc.call a h m d)); [apply hf_call_keeps|apply hf_call_within_limit|].
  intros r w Hr Hw. rewrite bind_eq.
  assert (Ho : w_state (exec_world (nested_output (F := F) (snd r) w)) = w_state w).
  { unfold nested_output. destruct (snd r) as [buf|e]; [done|]. by destruct (ErrorText.to_string e). }
  destruct (nested_output (snd r) w) as [buf w1|w1]; simpl in Ho.
  - assert (Hf : fuel w1 = fuel w) by (unfold fuel; by rewrite Ho). assert (Hw1 : wm_set w1) by (unfold wm_set; by rewrite Ho).
    rewrite <- Hf in Hr |- *. pose proof (charge_burning _ w1 Hr Hw1) as [H1 H2]. unfold try_bind. rewrite bind_eq.
    destruct (charge _ w1) as [[[]|e] w2|w2]; [|done|done]. destruct (return_buf_burning buf w2 H1). split; [done|]. simpl in *. lia.
  - simpl. unfold wm_set, fuel. by rewrite Ho.
Qed.

Lemma is_callable_burning ao als mo ms : rel burning (is_callable host_function ao als mo ms).
Proof.
  unfold is_callable.
  apply rel_try_bind; [typeclasses eauto|apply mem_from_burning|intros _].
  apply rel_try_bind; [typeclasses eauto|apply str_from_burning|intros a].
  apply rel_try_bind; [typeclasses eauto|apply str_from_burning|intros m].
  apply (nested_charged (HostFunc.is_callable a m) (fun _ r => n ← remaining_fuel; _ <-? charge (n -u64 fst r); _));
    [apply hf_is_callable_keeps|apply hf_is_callable_within_limit|].
  intros r w Hr Hw. unfold remaining_fuel. rewrite bind_eq. cbn [gets]. unfold try_bind. rewrite bind_eq.
  pose proof (charge_burning _ w Hr Hw) as H. unfold fuel at 1 3 in H. by destruct (charge _ w) as [[[]|e] w2|w2].
Qed.

#[local] Hint Resolve nested_call_burning is_callable_burning : frames.

Lemma hf_modifies g : (forall s, cx_wm (HostFunc.ctx (g s)) = cx_wm (HostFunc.ctx s)) -> rel burning (on_host (modify g)).
Proof. intros H. by apply on_host_burning, modify_keeps. Qed.

Lemma trampoline_burning c : rel burning (trampoline host_function c).
Proof.
  destruct c; cbn [trampoline];
    unfold log, emit, load_data, store_data, remove_data, load_asset, store_asset, remove_asset,
      get_account_contract, get_keys, hf_call, s_call, verify, sha256, drand, get_block_time; frames.
  - apply on_host_burning. apply rel_when; [typeclasses eauto|].
    apply rel_bind; [typeclasses eauto|by apply modify_keeps|intros _; by apply modify_keeps].
  - apply on_host_burning. apply rel_bind; [typeclasses eauto|apply send_req_proj|]. intros r. unfold keeps_wm. frames.
Qed.
End served.

Hypothesis quiet : silent_start.

Lemma host_function_burning n c : rel burning (host_function n c).
Proof. revert c. induction n as [|n IH]; intros c; simpl; [apply rel_panic; typeclasses eauto|]. by apply trampoline_burning. Qed.

(** C37: a call, and the question whether a method can be called, report to have burnt no more than
    the fuel they were given, however deep they nest and whatever fails, when running code
    only burns fuel and no contract asks the host for anything while it is instantiated. *)
Theorem burnt_within_limit n args (w w' : wsw) :
  is_u64 (ca_initial_fuel args) ->
  (forall r, WasmMachine.call (Wm := machine n) args w = Ret r w' -> 0 <= fst r <= ca_initial_fuel args) /\
  (forall r, WasmMachine.callable_call (Wm := machine n) args w = Ret r w' -> 0 <= fst r <= ca_initial_fuel args).
Proof.
  intros Hi. split; intros r Hr.
  - pose proof (call_within_limit _ (host_function_burning n) quiet args w I) as H.
    change (call (host_function n) args w = Ret r w') in Hr. rewrite Hr in H. by apply H.
  - pose proof (callable_call_within_limit _ (host_function_burning n) quiet args w I) as H.
    change (callable_call (host_function n) args w = Ret r w') in Hr. rewrite Hr in H. by apply H.
Qed.
End machine.

(** ** Room for nested calls *)
Section stack.
Context `{Hdig : Digest} `{Hring : Ring} `{Hhex : Hex} `{Hcodecs : WmCodecs} `{Hiter : !HashMapIter Hash}.
Context `{Hwt : Wasmtime} {F : Type} `{Hfork : DbFork F}.
Abbreviation wsw := (world (WmState t F) core_effect core_answer).
Abbreviation st := (M (StoreState (F := F)) core_effect core_answer).

Section served.
Context (hf hf' : HostCall -> st (Result Z WasmError)).
Hypothesis less : forall c, approx (hf c) (hf' c).

Lemma exec_approx {A} (r : Run Store A) : approx (exec hf r) (exec hf' r).
Proof. induction r as [r s|c s resume IH unwind]; cbn [exec]; approximates. Qed.
#[local] Hint Resolve exec_approx : approx.

Lemma write_mem_approx data : approx (write_mem hf data) (write_mem hf' data).
Proof. unfold write_mem, alloc_mem. approximates. Qed.
#[local] Hint Resolve write_mem_approx : approx.
Lemma return_buf_approx buf : approx (return_buf hf buf) (return_buf hf' buf).
Proof. unfold return_buf. approximates. Qed.
Lemma prepare_approx text module args input : approx (prepare hf text module args input) (prepare hf' text module args input).
Proof. unfold prepare. approximates. Qed.
#[local] Hint Resolve return_buf_approx prepare_approx : approx.
Lemma run_contract_approx module args input : approx (run_contract hf module args input) (run_contract hf' module args input).
Proof. unfold run_contract. approximates. Qed.
Lemma run_is_callable_approx module args input :
  approx (run_is_callable hf module args input) (run_is_callable hf' module args input).
Proof. unfold run_is_callable. approximates. Qed.
#[local] Hint Resolve run_contract_approx run_is_callable_approx : approx.
Lemma call_approx args : approx (call hf args) (call hf' args).
Proof. unfold call, in_store. approximates. Qed.
Lemma callable_call_approx args : approx (callable_call hf args) (callable_call hf' args).
Proof. unfold callable_call, in_store. approximates. Qed.
#[local] Hint Resolve call_approx callable_call_approx : approx.
Lemma app_hash_check_approx h c ts : approx (app_hash_check hf h c ts) (app_hash_check hf' h c ts).
Proof. unfold app_hash_check, contract_updatable. approximates. Qed.
#[local] Hint Resolve app_hash_check_approx : approx.

Lemma ops_call_approx args : approx (WasmMachine.call (Wm := ops hf) args) (WasmMachine.call (Wm := ops hf') args).
Proof. apply call_approx. Qed.
Lemma ops_callable_approx args :
  approx (WasmMachine.callable_call (Wm := ops hf) args) (WasmMachine.callable_call (Wm := ops hf') args).
Proof. apply callable_call_approx. Qed.
Lemma ops_check_approx h c ts :
  approx (WasmMachine.app_hash_check (Wm := ops hf) h c ts) (WasmMachine.app_hash_check (Wm := ops hf') h c ts).
Proof. apply app_hash_check_approx. Qed.
#[local] Hint Resolve ops_call_approx ops_callable_approx ops_check_approx : approx.

Lemma nested_call_approx a h m d : approx (nested_call hf a h m d) (nested_call hf' a h m d).
Proof. unfold nested_call, on_host, HostFunc.call, HostFunc.on_machine. approximates. Qed.
#[local] Hint Resolve nested_call_approx : approx.

Lemma trampoline_approx c : approx (trampoline hf c) (trampoline hf' c).
Proof.
  destruct c; cbn [trampoline];
    unfold log, emit, load_data, store_data, remove_data, is_callable, load_asset, store_asset, remove_asset,
      get_account_contract, get_keys, hf_call, s_call, verify, sha256, drand, get_block_time, on_host, HostFunc.is_callable,
      HostFunc.on_machine; approximates.
Qed.
End served.

Lemma host_function_approx n k c : approx (host_function n c) (host_function (n + k) c).
Proof.
  revert c. induction n as [|n IH]; intros c; simpl; [apply approx_panic|]. by apply trampoline_approx.
Qed.

(** A call that returns on a stack returns the same, and leaves the same, on any larger one:
    nodes that run a call to its end agree on it, however much room each has. *)
Theorem larger_stack_agrees n k args (w w' : wsw) r :
  WasmMachine.call (Wm := machine n) args w = Ret r w' -> WasmMachine.call (Wm := machine (n + k)) args w = Ret r w'.
Proof. apply call_approx. intros c. apply host_function_approx. Qed.
End stack.
