(* ===== verification/WasmService.v ===== *)
(** * The WASM service ([trinci-node/src/services/wasm_service.rs])

    It executes blocks on forks of the database, keeps the forks until their block is
    consolidated, merges the one that is, and tells the core.  A transaction runs on
    the fork of its block: its calls go to the WASM machine, a failure rolls the fork
    back, and its fuel is paid through a method of the service account. *)

From stdpp Require Import base gmap strings list fin_maps.
From S2P Require Import Prelude.
From S2P Require Import Exec.
From S2P Require Import Hash.
From S2P Require Import Crypto.
From S2P Require Import CoreModels.
From S2P Require Import DRand.
From S2P Require Import Messages.
From S2P Require Import NodeModels.
From S2P Require Import NodeErrors.
From S2P Require Import Database.
From S2P Require Import Fuel.
From S2P Require Import EventService.
From S2P Require Import WasmMachine.
Open Scope Z_scope.

Record BulkResult : Type := MkBulkResult {
  br_success : bool;
  br_result : list Z;
  br_burnt_wm_fuel : Z
}.

Record BurnFuelReturns : Type := MkBurnFuelReturns { bf_success : bool; bf_units : Z }.

(** The arguments of the method that burns fuel *)
Record BurnArgs : Type := MkBurnArgs { ba_from : string; ba_units : Z }.

Record BurnFuelArgs : Type := MkBurnFuelArgs {
  account : string;
  fuel_to_burn : Z;
  fuel_limit : Z
}.

Record HandleTransactionReturns : Type := MkReturns {
  burn_fuel_args : BurnFuelArgs;
  receipt : Receipt
}.

Inductive ValidatorDbValue : Type :=
| PlayerValue (player : Player)
| BoolValue (b : bool).

Record BlockchainSettings : Type := MkSettings {
  accept_broadcast : bool;
  block_threshold : Z;
  block_timeout : Z;
  bs_burning_fuel_method : string;
  bs_network_name : option string;
  is_production : bool;
  min_node_version : string
}.

Inductive Event : Type :=
| BlockEvent (block : Block) (txs : option (list Hash)) (origin : option string)
| ContractEvent (event : SmartContractEvent).

(** The encodings of the values the service writes and reads *)
Class WasmCodecs : Type := {
  pack_block_data :: MsgPack BlockData;
  pack_tx_data :: MsgPack TransactionData;
  pack_tx :: MsgPack Transaction;
  pack_receipt :: MsgPack Receipt;
  pack_event :: MsgPack Event;
  pack_results :: MsgPack (list (string * BulkResult));
  pack_burn_args :: MsgPack BurnArgs;
  pack_slashed :: MsgPack (string * bool);
  pack_settings :: MsgPack BlockchainSettings;
  unpack_units :: MsgUnpack Z;
  unpack_burn_returns :: MsgUnpack BurnFuelReturns;
  unpack_ids :: MsgUnpack (option (list string));
  unpack_validator :: MsgUnpack ValidatorDbValue;
  unpack_settings :: MsgUnpack BlockchainSettings
}.

Module WasmService.
Section service.
Context `{Hdig : Digest} `{Hb58 : Base58} `{Hring : Ring} `{Hhex : Hex} `{Hcodecs : WasmCodecs}.
(** The database, its forks, the machine, and the channels of the responses *)
Context {D F W Chan : Type} `{Hdb : Db D F} `{Hfork : DbFork F} `{Hwm : Wm W F}.

Record t : Type := Mk {
  burning_fuel_method : string;
  db : D;
  (** whether the lock of the database is poisoned *)
  db_poisoned : bool;
  forks_collector : gmap Hash F;
  node_id : string;
  network_name : string;
  wm : W
}.

Definition set_burning_fuel_method (x : string) (s : t) : t :=
  Mk x (db s) (db_poisoned s) (forks_collector s) (node_id s) (network_name s) (wm s).
Definition set_db (x : D) (s : t) : t :=
  Mk (burning_fuel_method s) x (db_poisoned s) (forks_collector s) (node_id s) (network_name s) (wm s).
Definition set_forks_collector (x : gmap Hash F) (s : t) : t :=
  Mk (burning_fuel_method s) (db s) (db_poisoned s) x (node_id s) (network_name s) (wm s).
Definition set_wm (x : W) (s : t) : t :=
  Mk (burning_fuel_method s) (db s) (db_poisoned s) (forks_collector s) (node_id s) (network_name s) x.

(** A transaction runs on the service and the fork of its block. *)
Record tx_state : Type := MkTx { service : t; fork : F }.
Definition set_service (s : t) (x : tx_state) : tx_state := MkTx s (fork x).
Definition set_fork (f : F) (x : tx_state) : tx_state := MkTx (service x) f.

Inductive effect : Type :=
| Core (e : core_effect)
| Emitted (topic : Z) (event : list Z)
| RepliedGenesis (to : Chan).

Abbreviation h := (M t effect core_answer).
Abbreviation x := (M tx_state effect core_answer).

(** [send_msg] and [send_req] on the channels of the core *)
Definition send_msg (to : Service) (msg : Msg.t Hash Block Confirmation Transaction) : h unit :=
  zoom (fun _ => tt) (fun _ s => s) Core (Messages.send_msg to msg).
Definition send_req (from to : Service) (req : Req.t) :
    h (Result (Res.t Hash Block Confirmation Transaction) (CommError Hash Block Confirmation Transaction)) :=
  zoom (fun _ => tt) (fun _ s => s) Core (Messages.send_req from to req).

(** [emit_events] *)
Definition emit_events (events : list (Z * list Z)) : h unit :=
  for_each events (fun '(topic, event) => emit (Emitted topic event)).

(** Running a transaction on a fork, and a call of the machine on fork and events *)
Definition with_fork {A} (f : F) (m : x A) : h (A * F) :=
  zoom (fun s => MkTx s f) (fun x _ => service x) id (a ← m; f ← gets fork; mret (a, f)).

Definition modify_fork (g : F -> F) : x unit := modify (fun s => set_fork (g (fork s)) s).

Definition on_wm {A} (events : list SmartContractEvent) (m : wm_handler W F A) : x (A * list SmartContractEvent) :=
  zoom (fun s => MkWmState (wm (service s)) (fork s) events)
       (fun ws s => MkTx (set_wm (ws_wm ws) (service s)) (ws_fork ws)) Core
       (a ← m; events ← gets ws_events; mret (a, events)).

Definition check_app_hash (contract : option Hash) (ctx_args : CtxArgs) (block_timestamp : Z) : x (Result Hash WasmError) :=
  r ← on_wm [] (app_hash_check contract ctx_args block_timestamp); mret (fst r).

Definition map_err {A E E'} (g : E -> E') (r : Result A E) : Result A E' :=
  match r with Ok a => Ok a | Err e => Err (g e) end.

(** [to_account_id()?]; [expect] is the panic of the header of a key that is too long. *)
Definition to_account_id (k : Keys.TrinciPublicKey) : x (Result string NodeError) :=
  id ← expect (Keys.to_account_id k); mret (map_err NodeCryptoError id).

(** [e.to_string()] and [e.to_string_kind()], which may panic *)
Definition error_text (e : WasmError) : x (list Z) := text ← expect (ErrorText.to_string e); mret (into_bytes text).
Definition error_kind (e : WasmError) : x (list Z) := text ← expect (ErrorText.to_string_kind e); mret (into_bytes text).

Definition set_event_tx (hash : Hash) (e : SmartContractEvent) : SmartContractEvent :=
  MkEvent hash (emitter_account e) (emitter_smart_contract e) (event_name e) (event_data e).
Definition some_events (events : list SmartContractEvent) : option (list SmartContractEvent) :=
  match events with [] => None | _ => Some events end.

(** The fuel limit of a caller, on the present fork *)
Definition wm_fuel_limit (caller_account_id : string) (height tx_fuel_limit : Z) : x Z :=
  gets (fun s => Fuel.calculate_wm_fuel_limit (fun id => fork_load_account id (fork s)) msgunpack
                   caller_account_id height tx_fuel_limit).

Definition call_burn_fuel (burn_fuel_method origin : string) (fuel block_timestamp : Z) :
    x (Z * Result (list Z) WasmError) :=
  let args := msgpack (MkBurnArgs origin fuel) in
  f ← gets fork;
  match fork_load_account NodeConsts.SERVICE_ACCOUNT_ID f with
  | None => mret (0, Err (AccountFault "Service account not found"))
  | Some account =>
      match Account.contract account with
      | None => mret (0, Err (AccountFault "Service account has no contract"))
      | Some service_app_hash =>
          r ← on_wm [] (call (MkCallArgs 0 NodeConsts.SERVICE_ACCOUNT_ID NodeConsts.SERVICE_ACCOUNT_ID
                 NodeConsts.SERVICE_ACCOUNT_ID NodeConsts.SERVICE_ACCOUNT_ID service_app_hash burn_fuel_method args
                 FuelConsts.MAX_WM_FUEL block_timestamp));
          mret (fst r)
      end
  end.

Definition unexpected_network : list Z := into_bytes "Unexpected transaction network".

Definition handle_unit_transaction (tx : SignedTransaction) (height index : Z) (events : list SmartContractEvent)
    (block_timestamp : Z) : x (Result HandleTransactionReturns NodeError) :=
  let data := s_data tx in
  s ← gets service;
  if negb (bool_decide (TxData.get_network data = network_name s)) && (0 <? height) then
    account <-? to_account_id (TxData.get_caller data);
    mret (Ok (MkReturns (MkBurnFuelArgs account 0 (TxData.get_fuel_limit data))
                        (MkReceipt height index 0 false unexpected_network None)))
  else
    caller_account_id <-? to_account_id (TxData.get_caller data);
    wm_fuel_limit ← wm_fuel_limit caller_account_id height (TxData.get_fuel_limit data);
    let ctx_args := MkCtxArgs caller_account_id (TxData.get_account data) caller_account_id in
    contract ← expect (TxData.get_contract data);
    app_hash ← check_app_hash contract ctx_args block_timestamp;
    match app_hash with
    | Ok app_hash =>
        method ← expect (TxData.get_method data);
        args ← expect (TxData.get_args data);
        r ← on_wm events (call (MkCallArgs 0 (TxData.get_network data) caller_account_id (TxData.get_account data)
               caller_account_id app_hash method args wm_fuel_limit block_timestamp));
        let '(burnt_wm_fuel, unit_transaction_result, events) := r in
        let events := some_events (map (set_event_tx (tx_data_hash data)) events) in
        outcome ←
          (match unit_transaction_result with
           | Ok value => mret (true, value, false)
           | Err err =>
               modify_fork rollback ;;
               match err with
               | SmartContractFault _ | ResourceNotFound _ => msg ← error_text err; mret (false, msg, true)
               | _ => msg ← error_kind err; mret (false, msg, false)
               end
           end);
        let '(success, returns, is_smartcontract_fault) := outcome in
        let burnt_wm_fuel := Z.min burnt_wm_fuel wm_fuel_limit in
        let burnt_bitbell :=
          if FuelConsts.ACTIVATE_FUEL_CONSUMPTION <? height then Fuel.wm_fuel_to_bitbell burnt_wm_fuel
          else if success || is_smartcontract_fault then 1000 else 0 in
        mret (Ok (MkReturns (MkBurnFuelArgs caller_account_id burnt_bitbell (TxData.get_fuel_limit data))
                            (MkReceipt height index burnt_bitbell success returns events)))
    | Err e =>
        msg ← error_text e;
        mret (Ok (MkReturns (MkBurnFuelArgs caller_account_id get_fuel_burnt_for_error (TxData.get_fuel_limit data))
                            (MkReceipt height index get_fuel_burnt_for_error false msg None)))
    end.

(** The fuel of a call of a bulk, up to the activation of the consumption of fuel *)
Definition legacy_fuel (height burnt_wm_fuel : Z) (result : Result (list Z) WasmError) : Z :=
  if (height <? FuelConsts.ACTIVATE_FUEL_CONSUMPTION) && negb (burnt_wm_fuel =? 0) then
    match result with
    | Ok _ => 1000
    | Err (SmartContractFault _) => 1000
    | Err _ => 0
    end
  else burnt_wm_fuel.

Definition hex_hash (hash : Hash) : string := ErrorText.hash_hex hash.

(** The loop over the nodes of a bulk; [break] ends the recursion.  It returns the events
    with those of the nodes, and the results. *)
Fixpoint bulk_nodes (block_timestamp height : Z) (nodes : list SignedTransaction)
    (input_events : list SmartContractEvent) (remaining_wm_fuel : Z) :
    x (list SmartContractEvent * list (string * BulkResult)) :=
  match nodes with
  | [] => mret (input_events, [])
  | node :: nodes =>
      let data := s_data node in
      let hash := hex_hash (tx_data_hash data) in
      s ← gets service;
      if negb (bool_decide (TxData.get_network data = network_name s)) && (0 <? height) then
        mret (input_events, [(hash, MkBulkResult false unexpected_network 0)])
      else
        account_id ← expect (Keys.to_account_id (TxData.get_caller data));
        caller_account_id ← expect (match account_id with Ok id => Some id | Err _ => None end);
        let node_tx_fuel_limit := Z.min remaining_wm_fuel (TxData.get_fuel_limit data) in
        node_wm_fuel_limit ← wm_fuel_limit caller_account_id height node_tx_fuel_limit;
        let ctx_args := MkCtxArgs caller_account_id (TxData.get_account data) caller_account_id in
        contract ← expect (TxData.get_contract data);
        app_hash ← check_app_hash contract ctx_args block_timestamp;
        match app_hash with
        | Ok app_hash =>
            method ← expect (TxData.get_method data);
            args ← expect (TxData.get_args data);
            r ← on_wm [] (call (MkCallArgs 0 (TxData.get_network data) caller_account_id (TxData.get_account data)
                   caller_account_id app_hash method args node_wm_fuel_limit block_timestamp));
            let '(burnt_wm_fuel, bulk_node_result, bulk_nodes_events) := r in
            let burnt_wm_fuel := legacy_fuel height (Z.min burnt_wm_fuel node_wm_fuel_limit) bulk_node_result in
            let remaining_wm_fuel := remaining_wm_fuel -u64 burnt_wm_fuel in
            match bulk_node_result with
            | Ok rcpt =>
                rest ← bulk_nodes block_timestamp height nodes
                         (input_events ++ map (set_event_tx (tx_data_hash data)) bulk_nodes_events) remaining_wm_fuel;
                mret (fst rest, (hash, MkBulkResult true rcpt burnt_wm_fuel) :: snd rest)
            | Err e =>
                msg ← error_text e;
                mret (input_events, [(hash, MkBulkResult false msg burnt_wm_fuel)])
            end
        | Err e =>
            msg ← error_text e;
            mret (input_events, [(hash, MkBulkResult false msg get_fuel_burnt_for_error)])
        end
  end.

Definition handle_bulk_nodes_execution (block_timestamp : Z) (bulk_tx_data : TransactionDataBulkV1) (height : Z)
    (input_events : list SmartContractEvent) (remaining_wm_fuel : Z) :
    x (list SmartContractEvent * list (string * BulkResult)) :=
  match bt_nodes (txs bulk_tx_data) with
  | Some bulk_nodes_txs => bulk_nodes block_timestamp height bulk_nodes_txs input_events remaining_wm_fuel
  | None => mret (input_events, [])
  end.

Definition fault_receipt (height index burned_fuel : Z) (returns : list Z) : WasmError :=
  BulkExecutionFault (MkReceipt height index burned_fuel false returns None).

(** The root of a bulk: its result, burnt fuel and events, or the fault of the bulk *)
Definition bulk_root (block_timestamp : Z) (bulk_caller_account_id : string) (root_tx : TransactionData)
    (bulk_wm_fuel_limit height index : Z) :
    x (Result (Z * Result (list Z) WasmError * list SmartContractEvent) WasmError) :=
  s ← gets service;
  let ctx_args := MkCtxArgs bulk_caller_account_id (TxData.get_account root_tx) bulk_caller_account_id in
  match root_tx with
  | BulkRootV1 tx_data =>
      if negb (bool_decide (v1_network tx_data = network_name s)) && (0 <? height) then
        mret (Err (fault_receipt height index 0 unexpected_network))
      else
        app_hash ← check_app_hash (v1_contract tx_data) ctx_args block_timestamp;
        match app_hash with
        | Ok app_hash =>
            r ← on_wm [] (call (MkCallArgs 0 (v1_network tx_data) bulk_caller_account_id (v1_account tx_data)
                   bulk_caller_account_id app_hash (v1_method tx_data) (v1_args tx_data) bulk_wm_fuel_limit
                   block_timestamp));
            mret (Ok r)
        | Err e => msg ← error_text e; mret (Err (fault_receipt height index get_fuel_burnt_for_error msg))
        end
  | BulkEmptyRoot _ => mret (Ok (0, Ok [192], []))
  | _ => mret (Err (fault_receipt height index get_fuel_burnt_for_error (into_bytes "wrong transaction schema")))
  end.

Definition handle_bulk_v1 (block_timestamp : Z) (bulk_caller_account_id : string) (bulk_tx_data : TransactionDataBulkV1)
    (bulk_wm_fuel_limit height index : Z) (input_events : list SmartContractEvent) :
    x (Result (option (list SmartContractEvent) * list (string * BulkResult)) WasmError) :=
  let root_tx := u_data (bt_root (txs bulk_tx_data)) in
  let root_hash := tx_data_hash root_tx in
  root <-? bulk_root block_timestamp bulk_caller_account_id root_tx bulk_wm_fuel_limit height index;
  let '(burnt_wm_fuel, bulk_root_result, bulk_root_events) := root in
  let burnt_wm_fuel := legacy_fuel height (Z.min burnt_wm_fuel bulk_wm_fuel_limit) bulk_root_result in
  let remaining_wm_fuel := bulk_wm_fuel_limit -u64 burnt_wm_fuel in
  match bulk_root_result with
  | Ok rcpt =>
      nodes ← handle_bulk_nodes_execution block_timestamp bulk_tx_data height
                (input_events ++ map (set_event_tx root_hash) bulk_root_events) remaining_wm_fuel;
      mret (Ok (some_events (fst nodes), (hex_hash root_hash, MkBulkResult true rcpt burnt_wm_fuel) :: snd nodes))
  | Err e =>
      msg ← error_text e;
      mret (Ok (some_events input_events, [(hex_hash root_hash, MkBulkResult false msg burnt_wm_fuel)]))
  end.

(** [sum()] of [u64] *)
Definition sum_fuel (results : list (string * BulkResult)) : Z :=
  fold_left (fun total r => total +u64 br_burnt_wm_fuel (snd r)) results 0.

Definition handle_bulk_transaction (tx : SignedTransaction) (height index : Z) (input_events : list SmartContractEvent)
    (block_timestamp : Z) : x (Result HandleTransactionReturns NodeError) :=
  let data := s_data tx in
  bulk_caller_account_id <-? to_account_id (TxData.get_caller data);
  bulk_wm_fuel_limit ← wm_fuel_limit bulk_caller_account_id height (TxData.get_fuel_limit data);
  outcome ←
    (match data with
     | BulkV1 bulk_tx_data =>
         handle_bulk_v1 block_timestamp bulk_caller_account_id bulk_tx_data bulk_wm_fuel_limit height index input_events
     | _ => mret (Ok (None, []))
     end);
  match outcome with
  | Ok (events, results) =>
      let total_burnt_wm_fuel := sum_fuel results in
      let burnt_bitbell :=
        if FuelConsts.ACTIVATE_FUEL_CONSUMPTION <? height then Fuel.wm_fuel_to_bitbell total_burnt_wm_fuel
        else total_burnt_wm_fuel in
      let success :=
        match results with [] => false | _ => forallb (fun r => br_success (snd r)) results end in
      when (negb success) (modify_fork rollback) ;;
      mret (Ok (MkReturns (MkBurnFuelArgs bulk_caller_account_id burnt_bitbell (TxData.get_fuel_limit data))
                          (MkReceipt height index burnt_bitbell success (msgpack results) events)))
  | Err (BulkExecutionFault receipt) =>
      mret (Ok (MkReturns (MkBurnFuelArgs bulk_caller_account_id get_fuel_burnt_for_error (TxData.get_fuel_limit data)) receipt))
  | Err _ => panic
  end.

(** What the burning of fuel came to: whether it was right, and the units burnt *)
Definition burn_outcome (burn_result : Result (list Z) WasmError) : bool * Z :=
  match burn_result with
  | Ok data =>
      match msgunpack data with
      | Some r => (bf_success r, bf_units r)
      | None => match data with [] => (true, 0) | _ => (false, 0) end
      end
  | Err _ => (false, 0)
  end.

Definition execute_transaction (tx : Transaction) (height index : Z) (burn_fuel_method : string) (block_timestamp : Z) :
    x (Result Receipt NodeError) :=
  modify_fork flush ;;
  res <-? (match tx with
           | UnitTransaction tx => handle_unit_transaction tx height index [] block_timestamp
           | BulkTransaction tx => handle_bulk_transaction tx height index [] block_timestamp
           end);
  let args := burn_fuel_args res in
  burn ←
    (if bool_decide (burn_fuel_method = EmptyString) then mret (0, Ok [])
     else call_burn_fuel burn_fuel_method (account args) (fuel_to_burn args) block_timestamp);
  let '(burn_ok, burnt_units) := burn_outcome (snd burn) in
  if (0 <? height) && (negb burn_ok || (fuel_limit args <? fuel_to_burn args)) then
    modify_fork rollback ;;
    mret (Ok (MkReceipt height index 0 false (into_bytes "error burning fuel") (events (receipt res))))
  else
    let r := receipt res in
    mret (Ok (MkReceipt (rx_height r) (rx_index r) burnt_units (success r) (returns r) (events r))).

(** [execute_block_transactions], from the transaction at [index] on; it returns the hashes of the receipts. *)
Fixpoint execute_block_transactions (block : Block) (index : Z) (transactions : list Transaction) :
    x (Result (list Hash) NodeError) :=
  match transactions with
  | [] => mret (Ok [])
  | tx :: transactions =>
      let tx_hash := get_hash tx in
      s ← gets service;
      receipt <-? execute_transaction tx (bd_height (block_data block)) (index mod 2 ^ 32) (burning_fuel_method s)
                    (bd_timestamp (block_data block));
      modify_fork (store_transaction tx_hash tx) ;;
      modify_fork (store_receipt tx_hash receipt) ;;
      receipts_hashes <-? execute_block_transactions block (index + 1) transactions;
      mret (Ok (receipt_hash receipt :: receipts_hashes))
  end.

(** ** Consolidation *)

Definition VALIDATORS_PREFIX : string := "blockchain:validators:".

(** The units of the player [player_id], as the service account stores them *)
Definition player_units (d : D) (player_id : string) : h Z :=
  data ← expect (load_account_data NodeConsts.SERVICE_ACCOUNT_ID (NodeConsts.VALIDATORS_KEY ++ ":" ++ player_id)%string d);
  player ← expect (msgunpack data);
  match player with
  | PlayerValue player => mret (units_in_stake player)
  | BoolValue true => mret 1
  | BoolValue false => panic
  end.

Fixpoint players_units (d : D) (players_ids : list string) : h (list Z) :=
  match players_ids with
  | [] => mret []
  | id :: ids => units ← player_units d id; rest ← players_units d ids; mret (units :: rest)
  end.

(** The players after a block, from the database *)
Definition players_of (d : D) : h Players.t :=
  players_ids ←
    (match load_account_data NodeConsts.SERVICE_ACCOUNT_ID NodeConsts.VALIDATORS_KEY d with
     | Some buf => expect (msgunpack (X := option (list string)) buf)
     | None => mret None
     end);
  match players_ids with
  | Some players_ids => weights ← players_units d players_ids; mret (Players.Mk players_ids weights)
  | None =>
      let players := omap (strip_prefix VALIDATORS_PREFIX)
        (List.filter (starts_with VALIDATORS_PREFIX) (load_account_keys "TRINCI" d)) in
      mret (Players.Mk players (map (fun _ => 1) players))
  end.

(** The events of the contracts, of the receipts of the block's transactions *)
Definition emit_contract_events (d : D) (txs_hashes : list Hash) : h unit :=
  for_each txs_hashes (fun tx_hash =>
    match load_receipt tx_hash d with
    | Some receipt =>
        match events receipt with
        | Some tx_events =>
            emit_events (map (fun evt => (EventService.CONTRACT_EVENTS, msgpack (ContractEvent evt))) tx_events)
        | None => mret tt
        end
    | None => mret tt
    end).

Definition consolidate_block (block : Block) (confirmations : list Confirmation) (txs_hashes : list Hash) :
    h (Result unit NodeError) :=
  s ← get_state;
  match forks_collector s !! block_hash block with
  | None => panic
  | Some db_fork =>
      modify (set_forks_collector (delete (block_hash block) (forks_collector s))) ;;
      let db_fork := store_block block confirmations db_fork in
      if db_poisoned s then mret (Err (NodeDBError MergeFork))
      else
        match merge_fork db_fork (db s) with
        | Err e => mret (Err e)
        | Ok d =>
            modify (set_db d) ;;
            emit_events [(EventService.BLOCK_EXEC, msgpack (BlockEvent block (Some txs_hashes) None))] ;;
            players ← players_of d;
            modify (set_forks_collector ∅) ;;
            emit_contract_events d txs_hashes ;;
            send_msg BlockService (Msg.BlockConsolidated block txs_hashes players) ;;
            mret (Ok tt)
        end
  end.

(** ** Execution of a block *)

(** [block.data.*_hash = ..] *)
Definition with_roots (state_hash txs_root rxs_root : Hash) (b : Block) : Block :=
  with_data (fun d => MkBlockData (validator d) (bd_height d) (bd_size d) (bd_prev_hash d) txs_root rxs_root state_hash
                        (bd_timestamp d)) b.

(** The hash a block lists a transaction under: for the genesis block that of the whole
    transaction *)
Definition listed_hash (block_height : Z) (tx : Transaction) : Hash :=
  if 0 <? block_height then get_hash tx else data_hash tx.

Definition update_db_fork (db_fork : F) (block : Block) (round : Z) (transactions : list Transaction)
    (receipts_hashes : list Hash) : h (Result unit NodeError) :=
  let block_height := bd_height (block_data block) in
  let txs_hashes := map (listed_hash block_height) transactions in
  let state_hash := state_hash "" db_fork in
  let '(db_fork, txs_root) := store_transactions_hashes block_height txs_hashes db_fork in
  let '(db_fork, rxs_root) := store_receipts_hashes block_height receipts_hashes db_fork in
  let collect (b : Block) :=
    modify (fun s => set_forks_collector (<[block_hash b := db_fork]> (forks_collector s)) s) in
  s ← get_state;
  if bool_decide (default EmptyString (block_builder_id block) = node_id s) then
    let block := with_roots state_hash txs_root rxs_root block in
    send_msg ConsensusService (Msg.ProposalAfterBuild block round txs_hashes) ;;
    collect block ;;
    mret (Ok tt)
  else if 0 <? block_height then
    let d := block_data block in
    if negb (bool_decide (bd_state_hash d = state_hash)) || negb (bool_decide (bd_txs_hash d = txs_root)) ||
       negb (bool_decide (bd_rxs_hash d = rxs_root)) then
      mret (Err (NodeWasmError (BlockExecutionMismatch d state_hash txs_root rxs_root)))
    else
      send_msg ConsensusService (Msg.BlockExecutionEnded block txs_hashes) ;;
      collect block ;;
      mret (Ok tt)
  else
    let block := with_roots state_hash txs_root rxs_root block in
    collect block ;;
    consolidate_block block [] txs_hashes.

(** The fork with the mark of the leader, when it did not build the block *)
Definition mark_slashed (expected_leader builder : string) (db_fork : F) : F :=
  if bool_decide (expected_leader = builder)
  then remove_account_data NodeConsts.SERVICE_ACCOUNT_ID NodeConsts.SLASHED_KEY db_fork
  else store_account_data NodeConsts.SERVICE_ACCOUNT_ID NodeConsts.SLASHED_KEY (msgpack (expected_leader, false)) db_fork.

Definition execute_block (block : Block) (round : Z) (transactions : list Transaction) : h (Result unit NodeError) :=
  s ← get_state;
  if db_poisoned s then mret (Err (NodeDBError CreateFork))
  else if bool_decide (is_Some (load_block (bd_height (block_data block)) (db s))) then
    mret (Err (NodeDBError BlockAlreadyInDB))
  else
    let '(d, db_fork) := create_fork (db s) in
    modify (set_db d) ;;
    answer ← send_req NodeInterface ConsensusService Req.GetLeader;
    let db_fork :=
      match answer with
      | Ok (Res.GetLeader expected_leader) =>
          mark_slashed expected_leader (default (node_id s) (block_builder_id block)) db_fork
      | _ => db_fork
      end in
    r ← with_fork db_fork (execute_block_transactions block 0 transactions);
    match r with
    | (Ok receipts_hashes, db_fork) => update_db_fork db_fork block round transactions receipts_hashes
    | (Err e, _) => mret (Err e)
    end.

(** ** Messages and requests *)

(** The messages and requests the service handles; the others are logged. *)
Inductive Msg : Type :=
| ExecuteBlock (block : Block) (round : Z) (transactions : list Transaction)
| StartBlockConsolidation (block : Block) (confirmations : list Confirmation) (txs_hashes : list Hash)
| OtherMsg.
Inductive Req : Type :=
| ExecuteGenesisBlock (block : Block) (bootstrap_txs : list Transaction) (network_name : string)
| OtherReq.

(** Errors are logged. *)
Definition handle_messages (msg : Msg) : h unit :=
  match msg with
  | ExecuteBlock block round transactions => _ ← execute_block block round transactions; mret tt
  | StartBlockConsolidation block confirmations txs_hashes =>
      _ ← consolidate_block block confirmations txs_hashes; mret tt
  | OtherMsg => mret tt
  end.

Definition set_settings_network (name : string) (c : BlockchainSettings) : BlockchainSettings :=
  MkSettings (accept_broadcast c) (block_threshold c) (block_timeout c) (bs_burning_fuel_method c) (Some name)
    (is_production c) (min_node_version c).

Definition handle_requests (req : Req) (res_chan : Chan) : h unit :=
  match req with
  | ExecuteGenesisBlock block bootstrap_txs network_name =>
      res ← execute_block block 0 bootstrap_txs;
      match res with
      | Ok _ =>
          s ← get_state;
          if db_poisoned s then panic
          else
            data ← expect (load_account_data NodeConsts.SERVICE_ACCOUNT_ID NodeConsts.SETTINGS_KEY (db s));
            config ← expect (msgunpack data);
            let config := set_settings_network network_name config in
            modify (set_burning_fuel_method (bs_burning_fuel_method config)) ;;
            let '(d, fork) := create_fork (db s) in
            modify (set_db d) ;;
            let fork := store_configuration NodeConsts.SETTINGS_KEY (msgpack config) fork in
            let fork := fold_left (fun fork tx => store_transaction (data_hash tx) tx fork) bootstrap_txs fork in
            match merge_fork fork d with
            | Ok d => modify (set_db d) ;; emit (RepliedGenesis res_chan)
            | Err _ => panic
            end
      | Err _ => mret tt
      end
  | OtherReq => mret tt
  end.

(** A communication: a request comes with its channel, or panics the service. *)
Inductive Input : Type :=
| InMsg (msg : Msg)
| InReq (req : Req) (res_chan : option Chan).

Definition step (input : Input) : h unit :=
  match input with
  | InMsg msg => handle_messages msg
  | InReq req res_chan => c ← expect res_chan; handle_requests req c
  end.

Definition run (inputs : list Input) : h unit := for_each inputs step.

(** [start], once the machine was made *)
Definition initial (db : D) (db_poisoned : bool) (node_id network_name : string)
    (burning_fuel_method : option string) (wm : W) : t :=
  Mk (default EmptyString burning_fuel_method) db db_poisoned ∅ node_id network_name wm.

Definition start (cache_max : Z) (db : D) (db_poisoned : bool) (node_id network_name : string)
    (burning_fuel_method : option string) : option t :=
  wm ← wm_new cache_max; Some (initial db db_poisoned node_id network_name burning_fuel_method wm).
End service.
End WasmService.
