(* ===== verification/DBService.v ===== *)
(** * The database service ([trinci-node/src/services/db_service.rs])

    It answers what the services of the node and, through them, the peers ask of the
    database, which it only reads. *)

From stdpp Require Import base gmap strings list fin_maps.
From S2P Require Import Prelude.
From S2P Require Import Exec.
From S2P Require Import Hash.
From S2P Require Import Crypto.
From S2P Require Import CoreModels.
From S2P Require Import Messages.
From S2P Require Import NodeModels.
From S2P Require Import NodeErrors.
From S2P Require Import Database.
From S2P Require Import WasmMachine.
From S2P Require Import NodeMessages.
From S2P Require Import WasmService.
Open Scope Z_scope.

Module DBService.
Section service.
Context `{Hdig : Digest} `{Hb58 : Base58} `{Hring : Ring} `{!MsgPack BlockData} `{!MsgPack TransactionData}.
Context `{!MsgPack (list string), !MsgUnpack string, !MsgUnpack (option (list string)), !MsgUnpack ValidatorDbValue}.
Context {D F : Type} `{Hdb : Db D F}.

(** The database is shared; its lock may be poisoned. *)
Record t : Type := Mk { db : D; db_poisoned : bool; node_id : string }.

Abbreviation h := (M t NodeEffect NodeAnswer).

Definition handle_messages (msg : NodeMsg.t) : h unit :=
  match msg with
  | NodeMsg.VerifyIfConsolidated height round =>
      s ← get_state;
      if db_poisoned s then mret tt
      else
        when (bool_decide (load_block height (db s) = None))
          (tell_core ConsensusService (Msg.BlockElectionFailed height (round +u8 1)))
  | _ => mret tt
  end.

(** The block a peer gets with its confirmations, as its transactions *)
Definition block_to_peer (block : Block) (block_height : Z) (d : D) : h (Block * list Hash) :=
  txs_hashes ← expect (load_transactions_hashes block_height d);
  mret (block, txs_hashes).

Definition get_confirmations (block_height : Z) (hash : Hash) (ask_for_block : bool) (d : D) :
    h (option (list Confirmation) * option (Block * list Hash)) :=
  match load_block block_height d with
  | Some block =>
      let confirmations := load_confirmations block_height d in
      if bool_decide (block_hash block = hash) then
        if ask_for_block then b ← block_to_peer block block_height d; mret (confirmations, Some b)
        else mret (confirmations, None)
      else b ← block_to_peer block block_height d; mret (confirmations, Some b)
  | None => mret (None, None)
  end.

(** The last block of the chain: its height and what [g] takes of it *)
Definition last_block {A} (g : Block -> A) (none : A) (d : D) : Z * A :=
  match load_block u64_max d with
  | Some last_block => (bd_height (block_data last_block), g last_block)
  | None => (0, none)
  end.

Fixpoint players_stored (d : D) (players_id : list string) : h (list Player) :=
  match players_id with
  | [] => mret []
  | player_id :: ids =>
      data ← expect (load_account_data NodeConsts.SERVICE_ACCOUNT_ID (NodeConsts.VALIDATORS_KEY ++ ":" ++ player_id)%string d);
      value ← expect (msgunpack data);
      player ← (match value with
                | PlayerValue player => mret player
                | BoolValue true => mret (MkPlayer player_id 1 3)
                | BoolValue false => panic
                end);
      players ← players_stored d ids;
      mret (player :: players)
  end.

Definition get_players (d : D) : h (list Player) :=
  players_id ←
    (match load_account_data NodeConsts.SERVICE_ACCOUNT_ID NodeConsts.VALIDATORS_KEY d with
     | Some buf => expect (msgunpack (X := option (list string)) buf)
     | None => mret None
     end);
  match players_id with
  | Some players_id => players_stored d players_id
  | None =>
      mret (map (fun player => MkPlayer player 1 3)
        (omap (strip_prefix WasmService.VALIDATORS_PREFIX)
           (List.filter (starts_with WasmService.VALIDATORS_PREFIX) (load_account_keys "TRINCI" d))))
  end.

(** The transactions in the database, then those the core has that were missing *)
Definition get_txs (missing_tx_hashes : list Hash) (d : D) : h (list Transaction) :=
  let txs_collector := omap (fun tx_hash => load_transaction tx_hash d) missing_tx_hashes in
  let remaining := List.filter (fun tx_hash => bool_decide (load_transaction tx_hash d = None)) missing_tx_hashes in
  if len txs_collector <? len missing_tx_hashes then
    r ← ask_core TransactionService (Req.GetTxs remaining);
    mret (match r with
          | Ok (Res.GetTxs missing_txs) => txs_collector ++ map (fun x => fst (fst x)) missing_txs
          | _ => txs_collector
          end)
  else mret txs_collector.

(** The other answers, from the database alone *)
Definition get_account_data (account_id key : string) (d : D) : NodeRes.t :=
  NodeRes.GetAccountData
    (if bool_decide (key = "*"%string) then Some (msgpack (load_account_keys account_id d))
     else load_account_data account_id key d).
Definition get_full_block (block_height : Z) (s : t) : NodeRes.t :=
  NodeRes.GetFullBlock (load_full_block block_height (db s)) (node_id s).
Definition get_height (d : D) : NodeRes.t := NodeRes.GetHeight (fst (last_block (fun _ => tt) tt d)).
Definition get_last_block_info (d : D) : NodeRes.t :=
  let last := last_block block_hash Hashes.default d in NodeRes.GetLastBlockInfo (MkBlockInfo (fst last) (snd last)).
Definition get_mining_account (d : D) : NodeRes.t :=
  NodeRes.GetMiningAccount
    (match load_account_data NodeConsts.SERVICE_ACCOUNT_ID NodeConsts.MINING_COIN_KEY d with
     | Some buf => msgunpack buf
     | None => None
     end).
Definition get_status (d : D) : NodeRes.t :=
  let last := last_block (fun block => bd_state_hash (block_data block)) Hashes.default d in NodeRes.GetStatus (fst last) (snd last).
Definition has_block (height : Z) (d : D) : NodeRes.t := NodeRes.HasBlock (bool_decide (is_Some (load_block height d))).
Definition has_txs (txs_hashes : list Hash) (d : D) : NodeRes.t :=
  NodeRes.HasTxs (map (fun tx_hash => contains_transaction tx_hash d) txs_hashes).

(** The answer to a request; [None] when the service does not handle it *)
Definition answer (req : NodeReq.t) (s : t) : h (option NodeRes.t) :=
  let d := db s in
  match req with
  | NodeReq.GetAccount account_id => mret (Some (NodeRes.GetAccount (load_account account_id d)))
  | NodeReq.GetAccountData account_id key => mret (Some (get_account_data account_id key d))
  | NodeReq.GetConfirmations block_height hash ask_for_block =>
      '(confirmations, block) ← get_confirmations block_height hash ask_for_block d;
      mret (Some (NodeRes.GetConfirmations confirmations block))
  | NodeReq.GetFullBlock block_height _ => mret (Some (get_full_block block_height s))
  | NodeReq.GetHeight => mret (Some (get_height d))
  | NodeReq.GetLastBlockInfo _ => mret (Some (get_last_block_info d))
  | NodeReq.GetMiningAccount => mret (Some (get_mining_account d))
  | NodeReq.GetPlayers => players ← get_players d; mret (Some (NodeRes.GetPlayers (Some players)))
  | NodeReq.GetRx tx_hash => mret (Some (NodeRes.GetRx (load_receipt tx_hash d)))
  | NodeReq.GetStatus => mret (Some (get_status d))
  | NodeReq.GetTxs hashes => txs ← get_txs hashes d; mret (Some (NodeRes.GetTxs txs))
  | NodeReq.HasBlock height => mret (Some (has_block height d))
  | NodeReq.HasTx tx_hash => mret (Some (NodeRes.HasTx (contains_transaction tx_hash d)))
  | NodeReq.HasTxs txs_hashes => mret (Some (has_txs txs_hashes d))
  | _ => mret None
  end.

Definition handle_requests (req : NodeReq.t) (res_chan : Chan) : h unit :=
  s ← get_state;
  if db_poisoned s then mret tt
  else
    res ← answer req s;
    match res with Some res => reply res_chan res | None => mret tt end.

Definition step (int_comm : NodeComm) : h unit :=
  match n_kind int_comm with
  | NMsg msg => handle_messages msg
  | NReq req => res_chan ← expect (n_res_chan int_comm); handle_requests req res_chan
  end.

Definition run (comms : list NodeComm) : h unit := for_each comms step.

Definition start (db : D) (db_poisoned : bool) (node_id : string) : t := Mk db db_poisoned node_id.
End service.
End DBService.
