(* ===== verification/DBServiceTheorems.v ===== *)
(** * The database service: what it answers *)

From stdpp Require Import base gmap strings list fin_maps.
From S2P Require Import Prelude.
From S2P Require Import Exec.
From S2P Require Import Hash.
From S2P Require Import Crypto.
From S2P Require Import CoreModels.
From S2P Require Import Messages.
From S2P Require Import Samples.
From S2P Require Import NodeModels.
From S2P Require Import NodeErrors.
From S2P Require Import Database.
From S2P Require Import DatabaseTheorems.
From S2P Require Import WasmMachine.
From S2P Require Import NodeMessages.
From S2P Require Import WasmService.
From S2P Require Import DBService.
Open Scope Z_scope.
Import DBService.

(** The response is of the kind of the request, which is one the service handles. *)
Definition db_responds (req : NodeReq.t) (res : NodeRes.t) : bool :=
  match req, res with
  | NodeReq.GetAccount _, NodeRes.GetAccount _ | NodeReq.GetAccountData _ _, NodeRes.GetAccountData _
  | NodeReq.GetConfirmations _ _ _, NodeRes.GetConfirmations _ _ | NodeReq.GetFullBlock _ _, NodeRes.GetFullBlock _ _
  | NodeReq.GetHeight, NodeRes.GetHeight _ | NodeReq.GetLastBlockInfo _, NodeRes.GetLastBlockInfo _
  | NodeReq.GetMiningAccount, NodeRes.GetMiningAccount _ | NodeReq.GetPlayers, NodeRes.GetPlayers _
  | NodeReq.GetRx _, NodeRes.GetRx _ | NodeReq.GetStatus, NodeRes.GetStatus _ _ | NodeReq.GetTxs _, NodeRes.GetTxs _
  | NodeReq.HasBlock _, NodeRes.HasBlock _ | NodeReq.HasTx _, NodeRes.HasTx _ | NodeReq.HasTxs _, NodeRes.HasTxs _ => true
  | _, _ => false
  end.
Definition db_handles (req : NodeReq.t) : bool :=
  match req with
  | NodeReq.Disconnect _ | NodeReq.ExecuteGenesisBlock _ _ _ | NodeReq.GetNeighbors | NodeReq.GetP2pAddresses
  | NodeReq.Subscribe _ _ _ | NodeReq.Unsubscribe _ _ => false
  | _ => true
  end.

Section theorems.
Context `{Hdig : Digest} `{Hb58 : Base58} `{Hring : Ring} `{!MsgPack BlockData} `{!MsgPack TransactionData}.
Context `{!MsgPack (list string), !MsgUnpack string, !MsgUnpack (option (list string)), !MsgUnpack ValidatorDbValue}.
Context {D F : Type} `{Hdb : Db D F}.
Abbreviation dbw := (world (t (D := D)) NodeEffect NodeAnswer).
Abbreviation dbm A := (M (t (D := D)) NodeEffect NodeAnswer A).
Implicit Types (w : dbw) (d : D).

(** ** Frames *)
Definition asked (e : NodeEffect) : Prop := match e with InCore (Sent TransactionService (MkComm (KReq (Req.GetTxs _)) _)) => True | _ => False end.

Lemma rel_players_stored P `{!PreOrder P} d ids : rel P (players_stored d ids : dbm _).
Proof.
  induction ids as [|id ids IH]; cbn [players_stored]; [by apply rel_ret|].
  apply rel_bind; [done|by apply rel_expect|intros data]. apply rel_bind; [done|by apply rel_expect|intros value].
  apply rel_bind; [done|destruct value as [|[|]]; [by apply rel_ret|by apply rel_ret|by apply rel_panic]|intros player].
  apply rel_bind; [done|exact IH|]. intros ps. by apply rel_ret.
Qed.

Lemma rel_get_players P `{!PreOrder P} d : rel P (get_players d : dbm _).
Proof.
  unfold get_players. apply rel_bind; [done| |].
  - destruct (load_account_data _ _ d); [by apply rel_expect|by apply rel_ret].
  - intros [ids|]; [by apply rel_players_stored|by apply rel_ret].
Qed.

Lemma rel_get_confirmations P `{!PreOrder P} n hash ask d : rel P (get_confirmations n hash ask d : dbm _).
Proof.
  assert (Hb : forall b, rel P (block_to_peer b n d : dbm _)).
  { intros b. apply rel_bind; [done|by apply rel_expect|]. intros hs. by apply rel_ret. }
  unfold get_confirmations. destruct (load_block n d) as [b|]; [|by apply rel_ret].
  destruct (bool_decide _); [destruct ask; [|by apply rel_ret]|];
    (apply rel_bind; [done|apply Hb|intros x; by apply rel_ret]).
Qed.

(** What an answer takes: nothing of the state, and one request at most *)
Lemma answer_frame P `{!PreOrder P} req s :
  (forall hashes, rel P (ask_core TransactionService (Req.GetTxs hashes) : dbm _)) -> rel P (answer req s : dbm _).
Proof.
  intros Ha. destruct req; cbn [answer]; try (by apply rel_ret).
  - apply rel_bind; [done|by apply rel_get_confirmations|]. intros [c b]. by apply rel_ret.
  - apply rel_bind; [done|by apply rel_get_players|]. intros ps. by apply rel_ret.
  - apply rel_bind; [done| |intros txs; by apply rel_ret]. unfold get_txs. destruct (_ <? _); [|by apply rel_ret].
    apply rel_bind; [done|apply Ha|]. intros r. by apply rel_ret.
Qed.

Lemma answer_asks req s : rel (adds asked) (answer req s : dbm _).
Proof. apply answer_frame; [typeclasses eauto|]. intros hashes. by apply ask_core_adds. Qed.

Lemma answer_reads req s : rel (same_proj id) (answer req s : dbm _).
Proof. apply answer_frame; [typeclasses eauto|]. intros hashes. apply ask_core_proj. Qed.

(** Every answer is of the kind of its request. *)
Lemma answer_kind req s : ensures (fun _ : dbw => True) (answer req s)
  (fun res _ => match res with Some res => db_responds req res = true | None => db_handles req = false end).
Proof.
  destruct req; cbn [answer]; try (by apply ensures_ret).
  - apply ensures_bind with (Q := fun _ _ => True); [by intros w _; destruct (get_confirmations _ _ _ _ w)|].
    intros [c b]. by apply ensures_ret.
  - apply ensures_bind with (Q := fun _ _ => True); [by intros w _; destruct (get_players _ w)|]. intros ps. by apply ensures_ret.
  - apply ensures_bind with (Q := fun _ _ => True); [by intros w _; destruct (get_txs _ _ w)|]. intros txs. by apply ensures_ret.
Qed.

(** The database service only reads: whatever is asked its state stays, and a request it
    handles is answered on its channel once, after at most questions to the core's pool,
    by a response of the kind of the request, unless answering panics. *)
Theorem request_answered req chan w :
  w_state (exec_world (handle_requests req chan w)) = w_state w /\
  (panicked (handle_requests req chan w) = false -> db_poisoned (w_state w) = false -> db_handles req = true ->
   exists es res, w_out (exec_world (handle_requests req chan w)) = w_out w ++ es ++ [Answered chan res] /\
     Forall asked es /\ db_responds req res = true).
Proof.
  unfold handle_requests. rewrite bind_eq. cbn [get_state]. destruct (db_poisoned (w_state w)); [done|]. rewrite bind_eq.
  pose proof (answer_reads req (w_state w) w) as Hr. pose proof (answer_asks req (w_state w) w) as (es & Ho & Hes).
  pose proof (answer_kind req (w_state w) w I) as Hk.
  destruct (answer req (w_state w) w) as [[res|] w'|w']; cbn [exec_world] in *; unfold same_proj, id in Hr.
  - split; [exact Hr|]. intros _ _ _. exists es, res. simpl. by rewrite Ho, <- app_assoc.
  - split; [exact Hr|]. intros _ _ Hh. congruence.
  - by split.
Qed.
(** ** Transactions *)
Lemma omap_complete {A B} (g : A -> option B) (l : list A) :
  Forall (fun x => is_Some (g x)) l -> len (omap g l) = len l.
Proof. unfold len. induction 1 as [|x l [y Hy] _ IH]; [done|]. cbn [omap list_omap]. rewrite Hy. cbn [length]. lia. Qed.

(** The transactions of an answer are those of the hashes asked for that the database has, in
    their order, then those the core's pool answers for exactly the hashes it has not; the
    pool is asked only when one is missing. *)
Theorem get_txs_spec hashes d w :
  exists pool w' es, get_txs hashes d w = Ret (omap (fun hash => load_transaction hash d) hashes ++ pool) w' /\
    (Forall (fun hash => is_Some (load_transaction hash d)) hashes -> pool = [] /\ w' = w) /\
    (pool = [] \/ exists txs, head (w_answers w) = Some (FromCore (Res.GetTxs txs)) /\ pool = map (fun x => fst (fst x)) txs) /\
    w_out w' = w_out w ++ es /\
    (es = [] \/ exists missing, es = [InCore (Sent TransactionService (MkComm (KReq (Req.GetTxs missing)) (Some NodeInterface)))] /\
       forall hash, hash ∈ missing <-> hash ∈ hashes /\ load_transaction hash d = None).
Proof.
  unfold get_txs. set (stored := omap _ _). set (missing := List.filter _ _).
  assert (Hm : forall hash, hash ∈ missing <-> hash ∈ hashes /\ load_transaction hash d = None).
  { intros hash. unfold missing. rewrite !list_elem_of_In, filter_In, bool_decide_eq_true. done. }
  destruct (Z.ltb_spec (len stored) (len hashes)) as [Hl|Hl].
  - assert (Hall : ~ Forall (fun hash => is_Some (load_transaction hash d)) hashes).
    { intros Hall%omap_complete. unfold stored in Hl. lia. }
    destruct (ask_core_eq TransactionService (Req.GetTxs missing) w) as (out & w' & es & Ha & Ho & _ & Hout).
    assert (He : es = [] \/ es = [InCore (Sent TransactionService (MkComm (KReq (Req.GetTxs missing)) (Some NodeInterface)))]).
    { cbv zeta in Hout. destruct out; tauto. }
    rewrite bind_eq, Ha.
    exists (match out with Ok (Res.GetTxs txs) => map (fun x => fst (fst x)) txs | _ => [] end), w', es.
    split_and!; [|by intros H%Hall| |exact Ho|destruct He; [by left|right; by exists missing]].
    + destruct out as [[]|]; cbn [mret M_ret]; by rewrite ?app_nil_r.
    + destruct out as [[]|]; try by left. right. destruct Hout as [_ Hout]. by eexists.
  - exists [], w, []. rewrite !app_nil_r. split_and!; [done|done|by left|done|by left].
Qed.

(** ** Consolidated blocks *)

(** Asked whether a height was consolidated at a round, the service tells the consensus service
    that the election of the next round is due exactly when it has no block there; after the
    last round of 8 bits the next one is round zero. *)
Theorem verify_if_consolidated_spec height round w :
  handle_messages (NodeMsg.VerifyIfConsolidated height round) w =
    Ret tt (if db_poisoned (w_state w) || bool_decide (is_Some (load_block height (db (w_state w)))) then w
            else outs [InCore (Sent ConsensusService (MkComm (KMsg
                   (Msg.BlockElectionFailed height (if round =? u8_max then 0 else u8_wrap (round + 1)))) None))] w).
Proof.
  cbn [handle_messages]. rewrite bind_eq. cbn [get_state]. destruct (db_poisoned (w_state w)); [done|]. cbn [orb].
  destruct (load_block height (db (w_state w))) as [b|].
  - reflexivity.
  - cbn [is_Some]. simpl. unfold outs, u8_add. by destruct (Z.eqb_spec round u8_max) as [->|].
Qed.

(** ** Confirmations *)

(** A request for the confirmations of a block the database has but lists no transactions
    of, for another hash or with the block, panics the service: it is so for a block
    without transactions, and for the last block asked for as the one at the largest height. *)
Lemma confirmations_panic height hash ask_for_block chan block w :
  db_poisoned (w_state w) = false ->
  load_block height (db (w_state w)) = Some block -> load_transactions_hashes height (db (w_state w)) = None ->
  ask_for_block = true \/ block_hash block <> hash ->
  panicked (handle_requests (NodeReq.GetConfirmations height hash ask_for_block) chan w) = true.
Proof.
  intros Hp Hb Ht Ha. unfold handle_requests. rewrite bind_eq. cbn [get_state]. rewrite Hp, bind_eq. cbn [answer].
  rewrite bind_eq. unfold get_confirmations. rewrite Hb.
  destruct (decide (block_hash block = hash)) as [Heq|Hne].
  - rewrite bool_decide_true by done. destruct Ha as [->|]; [|congruence]. rewrite bind_eq. unfold block_to_peer. by rewrite bind_eq, Ht.
  - rewrite bool_decide_false by done. rewrite bind_eq. unfold block_to_peer. by rewrite bind_eq, Ht.
Qed.
End theorems.

(** ** The players, as the WASM service tells the core of them *)
Section alike.
Context {S E R S' E' R' : Type}.
(** Two programs end alike: both panic, or both end with values related by [Q]. *)
Definition alike {A B} (Q : A -> B -> Prop) (m : M S E R A) (m' : M S' E' R' B) : Prop :=
  forall v v', match m v, m' v' with Ret a _, Ret b _ => Q a b | Panic _, Panic _ => True | _, _ => False end.

Lemma alike_bind {A B A' B'} (Q : A -> B -> Prop) (Q' : A' -> B' -> Prop) m m' k k' :
  alike Q m m' -> (forall a b, Q a b -> alike Q' (k a) (k' b)) -> alike Q' (m ≫= k) (m' ≫= k').
Proof.
  intros Hm Hk v v'. specialize (Hm v v'). rewrite !bind_eq. destruct (m v) as [a v1|v1], (m' v') as [b v1'|v1']; try done.
  by apply Hk.
Qed.
Lemma alike_ret {A B} (Q : A -> B -> Prop) a b : Q a b -> alike Q (mret a) (mret b).
Proof. by intros H v v'. Qed.
Lemma alike_expect {A} (o : option A) : alike (fun a b => a = b /\ o = Some a) (expect o) (expect o).
Proof. by destruct o; intros v v'. Qed.
Lemma alike_panic {A B} (Q : A -> B -> Prop) : alike Q panic panic.
Proof. by intros v v'. Qed.
End alike.

Section players.
Context `{Hcodecs : WasmCodecs} {D F : Type} `{Hdb : Db D F} `{Hdig : Digest} `{Hring : Ring} `{Hhex : Hex}.
Context {W C : Type}.
Implicit Types d : D.
Abbreviation db_handler A := (M (t (D := D)) NodeEffect NodeAnswer A).
Abbreviation wasm_handler A := (M (WasmService.t (D := D) (F := F) (W := W)) (WasmService.effect (Chan := C)) core_answer A).

(** The stored value of each player names it. *)
Definition named d : Prop :=
  forall id data player,
    load_account_data NodeConsts.SERVICE_ACCOUNT_ID (NodeConsts.VALIDATORS_KEY ++ ":" ++ id)%string d = Some data ->
    msgunpack data = Some (PlayerValue player) -> CoreModels.account_id player = id.

(** The players of the one and of the other: the same units, and the same ids if they are named *)
Definition same_players d (players : list Player) (p : Players.t) : Prop :=
  map units_in_stake players = Players.weights p /\
  (named d -> map CoreModels.account_id players = Players.players_ids p).

Lemma stored_units d ids :
  alike (fun players units => map units_in_stake players = units /\ (named d -> map CoreModels.account_id players = ids))
    (players_stored d ids : db_handler _) (WasmService.players_units d ids : wasm_handler _).
Proof.
  induction ids as [|id ids IH]; cbn [players_stored WasmService.players_units]; [by apply alike_ret|].
  intros v v'. unfold WasmService.player_units. rewrite !bind_eq.
  destruct (load_account_data _ _ d) as [data|] eqn:Ed; [|done]. cbn [expect mret M_ret]. rewrite !bind_eq.
  destruct (msgunpack data) as [value|] eqn:Ev; [|done]. cbn [expect mret M_ret]. rewrite bind_eq.
  specialize (IH v v'). destruct value as [player|[|]]; [| |done]; cbn [mret M_ret]; rewrite !bind_eq;
    destruct (players_stored d ids v) as [players v1|v1], (WasmService.players_units d ids v') as [units v1'|v1'];
    try done; cbn [mret M_ret map]; destruct IH as [Hu Hn].
  - split; [simpl; by rewrite Hu|]. intros Hd. rewrite (Hd _ _ _ Ed Ev), Hn by done. done.
  - split; [simpl; by rewrite Hu|]. intros Hd. by rewrite Hn.
Qed.

(** C19: the players the database service answers and those the WASM service tells the core of after
    a block are the same function of the database: the two panic alike, give the same units
    and, if the stored value of each player names it, the same ids. *)
Theorem players_agree d :
  alike (same_players d) (get_players d : db_handler _) (WasmService.players_of d : wasm_handler _).
Proof.
  unfold get_players, WasmService.players_of. apply alike_bind with (Q := eq).
  - destruct (load_account_data _ _ d) as [buf|]; [|by apply alike_ret]. by destruct (msgunpack buf); intros v v'.
  - intros ids ? <-. destruct ids as [ids|].
    + intros v v'. pose proof (stored_units d ids v v') as H. rewrite bind_eq.
      by destruct (players_stored d ids v), (WasmService.players_units d ids v').
    + apply alike_ret. split; simpl; rewrite map_map; [done|]. intros _. apply map_id.
Qed.
End players.

(** ** Witnesses *)
Module DBServiceSample.
Import DatabaseSample.
#[local] Existing Instances Samples.digest Samples.ring MemDb.mem_db MemDb.mem_db_laws DatabaseSample.tx_pack.
#[local] Instance block_pack : MsgPack BlockData := {| msgpack := fun d => [bd_height d] |}.
#[local] Instance list_pack : MsgPack (list string) := {| msgpack := fun l => [len l] |}.
#[local] Instance string_unpack : MsgUnpack string := {| msgunpack := fun _ => None |}.
#[local] Instance ids_unpack : MsgUnpack (option (list string)) := {| msgunpack := fun _ => None |}.
#[local] Instance value_unpack : MsgUnpack ValidatorDbValue := {| msgunpack := fun _ => None |}.

(** A chain of one block with the transaction [bulk_hash] *)
Definition chain : RocksDb.t :=
  merged (fst (store_transactions_hashes 0 [bulk_hash] (store_block block [] fork))).
Definition service : DBService.t := DBService.start chain false "node".
Definition idle : world DBService.t NodeEffect NodeAnswer := World service [] (0, []) [].

End DBServiceSample.
