(* ===== verification/CoreInterface.v ===== *)
(** * The interface between the core and the node
    ([trinci-node/src/services/core_interface.rs])

    It passes what the core sends to the node on to the service that handles it, and the
    answers of the peers back.  It keeps no state: each message and request has a thread
    of its own. *)

From stdpp Require Import base gmap strings list fin_maps.
From S2P Require Import Prelude.
From S2P Require Import Exec.
From S2P Require Import Hash.
From S2P Require Import Crypto.
From S2P Require Import CoreModels.
From S2P Require Import Messages.
From S2P Require Import NodeModels.
From S2P Require Import WasmMachine.
From S2P Require Import NodeMessages.
From S2P Require Import EventService.
From S2P Require Import WasmService.
From S2P Require Import System.
Open Scope Z_scope.

Module CoreInterface.
Section interface.
Context `{Hdig : Digest} `{!MsgPack TransactionData, !MsgPack Transaction, !MsgPack Event}.

(** The channels of the other services never change. *)
Abbreviation h := (M unit NodeEffect NodeAnswer).

Definition handle_messages (msg : core_msg) : h unit :=
  match msg with
  | Msg.ExecuteBlock block round transactions => tell NWasm (NodeMsg.ExecuteBlock block round transactions)
  | Msg.PropagateBlockToPeers block confirmation txs_hashes =>
      emit (Emitted EventService.BLOCK (msgpack (BlockEvent block (Some txs_hashes) None))) ;;
      tell NP2P (NodeMsg.PropagateBlockToPeers block confirmation txs_hashes)
  | Msg.PropagateConfirmationToPeers confirmation => tell NP2P (NodeMsg.PropagateConfirmationToPeers confirmation)
  | Msg.PropagateOldTxs txs => tell NP2P (NodeMsg.PropagateOldTxs txs)
  | Msg.StartBlockConsolidation block confirmations txs_hashes =>
      tell NWasm (NodeMsg.StartBlockConsolidation block confirmations txs_hashes)
  | Msg.VerifyIfConsolidated height round => tell NDB (NodeMsg.VerifyIfConsolidated height round)
  | _ => mret tt
  end.

(** A transaction with its size and its attachments *)
Definition with_size (tx : Transaction) : Transaction * Z * option (list Hash) :=
  (tx, len (msgpack tx), retrieve_attachments_from_tx tx).

Definition handle_requests (req : Req.t) (res_chan : Service) : h unit :=
  match req with
  | Req.GetConfirmations block_height block_hash ask_for_block =>
      r ← ask_node NP2P (NodeReq.GetConfirmations block_height block_hash ask_for_block);
      match r with
      | Ok (NodeRes.GetConfirmations confirmations block) => reply_core res_chan (Res.GetConfirmations confirmations block)
      | _ => mret tt
      end
  | Req.GetFullBlock block_height trusted_peers =>
      r ← ask_node NP2P (NodeReq.GetFullBlock block_height trusted_peers);
      match r with
      | Ok (NodeRes.GetFullBlock full_block account_id) => reply_core res_chan (Res.GetFullBlock full_block account_id)
      | _ => mret tt
      end
  | Req.GetLastBlockInfo neighbor =>
      r ← ask_node NP2P (NodeReq.GetLastBlockInfo neighbor);
      match r with
      | Ok (NodeRes.GetLastBlockInfo block_info) => reply_core res_chan (Res.GetLastBlockInfo block_info)
      | _ => mret tt
      end
  | Req.GetNeighbors =>
      r ← ask_node NP2P NodeReq.GetNeighbors;
      match r with
      | Ok (NodeRes.GetNeighbors neighbors) => reply_core res_chan (Res.GetNeighbors neighbors)
      | _ => mret tt
      end
  | Req.GetTxs missing_txs_hashes =>
      r ← ask_node NP2P (NodeReq.GetTxs missing_txs_hashes);
      match r with
      | Ok (NodeRes.GetTxs txs) => reply_core res_chan (Res.GetTxs (map with_size txs))
      | _ => mret tt
      end
  | _ => mret tt
  end.

(** What [run] does with a communication, in a thread; [expect] is of the channel. *)
Definition step (core_comm : Comm Hash Block Confirmation Transaction) : h unit :=
  match kind core_comm with
  | KMsg msg => handle_messages msg
  | KReq req => res_chan ← expect (res_chan core_comm); handle_requests req res_chan
  end.

(** ** What each service of the node handles *)
Definition node_handles (to : NodeService) (m : NodeMsg.t) : bool :=
  match to, m with
  | NWasm, (NodeMsg.ExecuteBlock _ _ _ | NodeMsg.StartBlockConsolidation _ _ _)
  | NDB, NodeMsg.VerifyIfConsolidated _ _
  | NP2P, (NodeMsg.PropagateBlockToPeers _ _ _ | NodeMsg.PropagateConfirmationToPeers _ | NodeMsg.PropagateOldTxs _
          | NodeMsg.PropagateTxToPeers _) => true
  | _, _ => false
  end.
Definition p2p_handles (r : NodeReq.t) : bool :=
  match r with
  | NodeReq.GetFullBlock _ _ | NodeReq.GetLastBlockInfo _ | NodeReq.GetNeighbors | NodeReq.GetP2pAddresses
  | NodeReq.GetTxs _ | NodeReq.GetConfirmations _ _ _ => true
  | _ => false
  end.

(** The message of the core a message of the node carries on *)
Definition carries (m : core_msg) (n : NodeMsg.t) : Prop :=
  match m, n with
  | Msg.ExecuteBlock b r txs, NodeMsg.ExecuteBlock b' r' txs' => (b, r, txs) = (b', r', txs')
  | Msg.PropagateBlockToPeers b c hs, NodeMsg.PropagateBlockToPeers b' c' hs' => (b, c, hs) = (b', c', hs')
  | Msg.PropagateConfirmationToPeers c, NodeMsg.PropagateConfirmationToPeers c' => c = c'
  | Msg.PropagateOldTxs txs, NodeMsg.PropagateOldTxs txs' => txs = txs'
  | Msg.StartBlockConsolidation b cs hs, NodeMsg.StartBlockConsolidation b' cs' hs' => (b, cs, hs) = (b', cs', hs')
  | Msg.VerifyIfConsolidated n r, NodeMsg.VerifyIfConsolidated n' r' => (n, r) = (n', r')
  | _, _ => False
  end.

Definition routes (es : list NodeEffect) : list (NodeService * NodeMsg.t) :=
  omap (fun e => match e with Told to n => Some (to, n) | _ => None end) es.

(** Each message the core sends to the node reaches exactly one service of the node, one that
    handles it, with everything it carries; a message the core does not send to the node
    reaches none. *)
Theorem core_messages_routed (m : core_msg) (w : world unit NodeEffect NodeAnswer) :
  exists es w', handle_messages m w = Ret tt w' /\ w_out w' = w_out w ++ es /\
    if handles_msg NodeInterface m
    then exists to n, routes es = [(to, n)] /\ node_handles to n = true /\ carries m n
    else es = [].
Proof.
  destruct m; cbn [handle_messages handles_msg]; first
    [ exists [], w; split; [reflexivity|]; split; [by rewrite app_nil_r|reflexivity]
    | eexists [Told _ _], _; split; [reflexivity|]; split; [reflexivity|]; eexists _, _; by split_and!
    | eexists [Emitted _ _; Told _ _], _; split; [reflexivity|]; split; [simpl; by rewrite <- app_assoc|]; eexists _, _; by split_and!].
Qed.

(** The peer to peer service is asked and what it answers is turned into a response by [k]. *)
Definition asks_p2p (chan : Service) (req : Req.t) (w : world unit NodeEffect NodeAnswer) (es : list NodeEffect) : Prop :=
  match es with
  | [] => True
  | [Asked NP2P r] => handles_req NodeInterface req = true /\ p2p_handles r = true
  | [Asked NP2P r; InCore (Replied to res)] =>
      handles_req NodeInterface req = true /\ p2p_handles r = true /\ to = chan /\ responds req res = true /\
      exists res', head (w_answers w) = Some (FromNode res')
  | _ => False
  end.

Lemma ask_p2p chan req r (k : Result NodeRes.t NodeCommError -> h unit) w :
  handles_req NodeInterface req = true -> p2p_handles r = true ->
  (forall e, k (Err e) = mret tt) ->
  (forall res, k (Ok res) = mret tt \/ exists res', k (Ok res) = reply_core chan res' /\ responds req res' = true) ->
  exists es w', (ask_node NP2P r ≫= k) w = Ret tt w' /\ w_out w' = w_out w ++ es /\ asks_p2p chan req w es.
Proof.
  intros Hh Hp Herr Hk. rewrite bind_eq. destruct (ask_node_eq NP2P r w) as ([res|e] & w' & es & -> & Ho & _ & Hout).
  - destruct Hout as [-> Hout]. destruct (Hk res) as [-> | (res' & -> & Hr)].
    + exists [Asked NP2P r], w'. by split_and!.
    + exists [Asked NP2P r; InCore (Replied chan res')]. eexists. split; [reflexivity|]. simpl. rewrite Ho, <- app_assoc.
      split; [done|]. split_and!; try done. by eexists.
  - rewrite Herr. exists es, w'. split; [done|]. split; [done|]. by destruct Hout as [-> | ->].
Qed.

(** Each request the core makes of the node is asked of the peer to peer service, which handles
    it, and answered at most once, by a response of the kind of the request and only after
    the peer to peer service answered; any other request gets nothing. *)
Theorem core_requests_answered (req : Req.t) (chan : Service) (w : world unit NodeEffect NodeAnswer) :
  exists es w', handle_requests req chan w = Ret tt w' /\ w_out w' = w_out w ++ es /\ asks_p2p chan req w es.
Proof.
  destruct req; cbn [handle_requests]; try (exists [], w; split; [reflexivity|]; split; [by rewrite app_nil_r|done]);
    (apply ask_p2p; [done|done|done|]; intros res; destruct res; try (by left); right; eexists; by split).
Qed.
End interface.
End CoreInterface.
