(* ===== verification/P2PService.v ===== *)
(** * The peer to peer service ([trinci-node/src/services/p2p_service.rs])

    It publishes what the node has for its peers, passes on what they publish, asks them
    for blocks, confirmations and transactions, and answers their requests from the
    database.  The libp2p crate is a parameter: a swarm that sends requests, publishes,
    and knows peers and addresses. *)

From stdpp Require Import base gmap strings list fin_maps.
From Stdlib Require Import Ascii.
From S2P Require Import Prelude.
From S2P Require Import Exec.
From S2P Require Import Hash.
From S2P Require Import Crypto.
From S2P Require Import CoreModels.
From S2P Require Import Messages.
From S2P Require Import NodeModels.
From S2P Require Import WasmMachine.
From S2P Require Import NodeMessages.
Open Scope Z_scope.

(** ** The crates *)
Class Libp2p : Type := {
  Swarm : Type;
  PeerId : Type;
  (** [peer_id_from_str], and [to_string] *)
  peer_id_from_str : string -> option PeerId;
  peer_to_string : PeerId -> string;
  (** the id of the request that was sent *)
  send_request : PeerId -> list Z -> Swarm -> Swarm * Z;
  (** whether the response, or what was published, went out *)
  send_response : Z -> list Z -> Swarm -> Swarm * bool;
  publish : string -> list Z -> Swarm -> Swarm * bool;
  closest_local_peers : Swarm -> list PeerId;
  external_addresses : Swarm -> list string;
  connected_peers : Swarm -> Z;
  add_address : PeerId -> string -> Swarm -> Swarm;
  remove_peer : PeerId -> Swarm -> Swarm;
  add_external_address : string -> Swarm -> Swarm;
  (** [PeerId::from_str], whether a text is an address, and dialling one *)
  peer_from_str : string -> option PeerId;
  is_multiaddr : string -> bool;
  dial : string -> Swarm -> Swarm * bool;
  add_peer_address : PeerId -> string -> Swarm -> Swarm;
  (** the rand crate: a number from zero up to the end *)
  Rng : Type;
  gen_range : Z -> Rng -> Rng * Z
}.

Record Peer : Type := MkPeer { addresses : list string; peer_id : string }.

(** [LatestKnownPeers] *)
Record LatestKnownPeers : Type := MkLatest { bootstrap_peer : option Peer; latest_peers : list Peer }.
Definition latest_new (bootstrap_addresses : option (list string)) (bootstrap_peer_id : option string) : LatestKnownPeers :=
  MkLatest
    (match bootstrap_addresses, bootstrap_peer_id with
     | Some bootstrap_addresses, Some peer_id => Some (MkPeer bootstrap_addresses peer_id)
     | _, _ => None
     end) [].

(** ** Public addresses *)

(** An address that was read: the four bytes or the eight segments of it *)
Inductive IpAddr : Type :=
| V4 (a b c d : Z)
| V6 (segments : list Z).

Definition ipv4_as_u32 (a b c d : Z) : Z := Z.lor (Z.shiftl a 24) (Z.lor (Z.shiftl b 16) (Z.lor (Z.shiftl c 8) d)).

(** What the standard library reads a text as *)
Class IpText : Type := { parse_ip : string -> option IpAddr }.

Definition is_public_addr (addr : option IpAddr) : bool :=
  match addr with
  | Some (V4 a b c d) =>
      let private_ranges := [(10, 8); (172 * 256 + 16, 12); (192 * 256 + 168, 16)] in
      let ip_as_u32 := ipv4_as_u32 a b c d in
      negb (existsb (fun '(base, mask) => Z.shiftr ip_as_u32 (32 - mask) =? base) private_ranges)
  | Some (V6 segments) =>
      let first := nth 0 segments 0 in
      if Z.land first 65024 =? 64512 then false
      else if Z.land first 65472 =? 65152 then false
      else true
  | None => false
  end.

Definition is_public_ip `{IpText} (ip : string) : bool := is_public_addr (parse_ip ip).

(** [split_terminator('/')] *)
Fixpoint split_slash (s : string) : list string :=
  match s with
  | EmptyString => [EmptyString]
  | String c rest =>
      if Ascii.eqb c "/"%char then EmptyString :: split_slash rest
      else match split_slash rest with part :: parts => String c part :: parts | [] => [String c EmptyString] end
  end.
Definition split_terminator (s : string) : list string :=
  let parts := split_slash s in
  match last parts with Some EmptyString => removelast parts | _ => parts end.

(** The part of an address before the id of its peer, which libp2p adds *)
Fixpoint before_p2p (address : string) : string :=
  match address with
  | EmptyString => EmptyString
  | String c rest => if starts_with "/p2p/" address then EmptyString else String c (before_p2p rest)
  end.

Module P2PService.
Definition NUM_OF_NEIGHBORS : nat := 4.
Definition MAX_KNOWN_PEERS : Z := 5.

Section service.
Context `{Hdig : Digest} `{!MsgPack TransactionData, !MsgPack Transaction, !MsgPack Payload, !MsgUnpack Payload}.
Context `{!MsgPack NodeReq.t, !MsgUnpack NodeReq.t, !MsgPack NodeRes.t, !MsgUnpack NodeRes.t}.
Context `{Hp2p : Libp2p} `{!IpText}.

Record t : Type := Mk {
  network_name : string;
  (** the requests the peers have not answered, with the channel that waits, if one does *)
  pending_req : gmap Z (option Chan);
  swarm : Swarm;
  latest_known_peers : LatestKnownPeers;
  rng : Rng
}.
Definition set_pending_req (x : gmap Z (option Chan)) (s : t) : t := Mk (network_name s) x (swarm s) (latest_known_peers s) (rng s).
Definition set_swarm (x : Swarm) (s : t) : t := Mk (network_name s) (pending_req s) x (latest_known_peers s) (rng s).
Definition set_latest_peers (x : list Peer) (s : t) : t :=
  Mk (network_name s) (pending_req s) (swarm s) (MkLatest (bootstrap_peer (latest_known_peers s)) x) (rng s).
Definition set_rng (x : Rng) (s : t) : t := Mk (network_name s) (pending_req s) (swarm s) (latest_known_peers s) x.

(** What goes to the other services, and to the peers *)
Inductive effect : Type :=
| ToNode (e : NodeEffect)
| Published (topic : TrinciTopics) (payload : Payload)
| Requested (id : Z) (peer : PeerId) (req : NodeReq.t)
| Responded (channel : Z) (res : NodeRes.t)
| Slept (seconds : Z).

Abbreviation h := (M t effect NodeAnswer).
Definition to_node {A} (m : M unit NodeEffect NodeAnswer A) : h A := zoom (fun _ => tt) (fun _ s => s) ToNode m.

Definition on_swarm (g : Swarm -> Swarm) : h unit := modify (fun s => set_swarm (g (swarm s)) s).

(** [random_number_in_range_from_zero] *)
Definition random_number_in_range_from_zero (max : Z) : h Z :=
  if max =? 0 then mret 0
  else
    s ← get_state;
    let '(r, n) := gen_range max (rng s) in
    modify (set_rng r) ;; mret n.

(** [reqres.send_request], and the entry of the request among those that wait *)
Definition request (peer : PeerId) (req : NodeReq.t) (waiting : option Chan) : h unit :=
  s ← get_state;
  let '(sw, req_id) := send_request peer (msgpack req) (swarm s) in
  modify (set_swarm sw) ;;
  emit (Requested req_id peer req) ;;
  modify (fun s => set_pending_req (<[req_id := waiting]> (pending_req s)) s).

(** [gossipsub.publish]; what fails is logged *)
Definition gossip (topic : TrinciTopics) (payload : Payload) : h unit :=
  s ← get_state;
  let '(sw, published) := publish (topic_to_string topic) (msgpack payload) (swarm s) in
  modify (set_swarm sw) ;;
  when published (emit (Published topic payload)).

(** A transaction with its size and its attachments *)
Definition with_size (tx : Transaction) : Transaction * Z * option (list Hash) :=
  (tx, len (msgpack tx), retrieve_attachments_from_tx tx).

Definition handle_gossip_msg (gossip_msg : Payload) : h unit :=
  match gossip_msg with
  | PConfirmation confirmation => to_node (tell_core ConsensusService (Msg.BlockConfirmationFromPeer confirmation))
  | PBlock block confirmation txs_hashes =>
      to_node (tell_core ConsensusService (Msg.BlockFromPeer block confirmation txs_hashes))
  | POldTransactions txs =>
      r ← to_node (ask_node NDB (NodeReq.HasTxs (map get_hash txs)));
      match r with
      | Ok (NodeRes.HasTxs mask) =>
          let txs := omap (fun '(tx, in_db) => if negb in_db then Some tx else None) (zip txs mask) in
          to_node (tell_core TransactionService (Msg.AddTxs (map with_size txs)))
      | _ => mret tt
      end
  | PTransaction tx =>
      s ← get_state;
      if negb (bool_decide (TxData.get_network (s_data (signed tx)) = network_name s)) then mret tt
      else
        r ← to_node (ask_node NDB (NodeReq.HasTx (get_hash tx)));
        match r with
        | Ok (NodeRes.HasTx false) => to_node (tell_core TransactionService (Msg.AddTx (with_size tx)))
        | _ => mret tt
        end
  end.

(** A peer says who it is and where it listens. *)
Definition handle_identify_event (peer : PeerId) (listen_addrs : list string) : h unit :=
  for_each listen_addrs (fun addr => on_swarm (add_address peer addr)) ;;
  s ← get_state;
  (if len (latest_peers (latest_known_peers s)) =? MAX_KNOWN_PEERS
   then modify (fun s => set_latest_peers (tail (latest_peers (latest_known_peers s))) s) else mret tt) ;;
  modify (fun s => set_latest_peers (latest_peers (latest_known_peers s) ++ [MkPeer listen_addrs (peer_to_string peer)]) s) ;;
  request peer NodeReq.GetHeight None.

(** The request of a peer is asked of the database service. *)
Definition handle_peer_requests (req : list Z) (channel : Z) : h unit :=
  match msgunpack (X := NodeReq.t) req with
  | None => mret tt
  | Some req =>
      r ← to_node (ask_node NDB req);
      match r with
      | Ok response =>
          s ← get_state;
          let '(sw, sent) := send_response channel (msgpack response) (swarm s) in
          modify (set_swarm sw) ;; when sent (emit (Responded channel response))
      | Err _ => mret tt
      end
  end.

Definition handle_peer_response (response : list Z) (request_id : Z) : h unit :=
  match msgunpack (X := NodeRes.t) response with
  | None => mret tt
  | Some res =>
      s ← get_state;
      modify (set_pending_req (delete request_id (pending_req s))) ;;
      match pending_req s !! request_id with
      | Some (Some res_sender) => to_node (reply res_sender res)
      | Some None =>
          match res with
          | NodeRes.GetHeight height => to_node (tell_core BlockService (Msg.HeightFromPeer height))
          | _ => mret tt
          end
      | None => mret tt
      end
  end.

(** ** Joining the network again *)

(** The peer to dial: the one the node was started with, or a random one of the latest *)
Definition random_peer : h Peer :=
  s ← get_state;
  match bootstrap_peer (latest_known_peers s) with
  | Some peer => mret peer
  | None =>
      let '(r, n) := gen_range u64_max (rng s) in
      let latest := latest_peers (latest_known_peers s) in
      modify (set_rng r) ;;
      expect (if len latest =? 0 then None else latest !! Z.to_nat (n mod len latest))
  end.

(** The addresses of a peer with a public third part, which are read as addresses *)
Fixpoint public_addresses (addrs : list string) : h (list string) :=
  match addrs with
  | [] => mret []
  | addr :: addrs =>
      ip ← expect (split_terminator addr !! 2%nat);
      rest ← (if is_public_ip ip then (expect (if is_multiaddr addr then Some tt else None) ;; mret [addr]) else mret []);
      others ← public_addresses addrs;
      mret (rest ++ others)
  end.

Fixpoint dial_all (addrs : list string) (reachable : bool) : h bool :=
  match addrs with
  | [] => mret reachable
  | addr :: addrs =>
      s ← get_state;
      let '(sw, dialled) := dial addr (swarm s) in
      modify (set_swarm sw) ;; dial_all addrs (reachable || dialled)
  end.

(** The loop has no bound: after [attempts] rounds without success the service is still in
    it and handles nothing else. *)
Fixpoint dial_until (attempts : nat) (peer : Peer) : h Peer :=
  match attempts with
  | O => panic
  | S attempts =>
      multi_addresses ← public_addresses (addresses peer);
      reachable ← dial_all multi_addresses false;
      emit (Slept 10) ;;
      next ← random_peer;
      if (reachable : bool) then mret next else dial_until attempts next
  end.

Definition reconnect_to_network (attempts : nat) : h unit :=
  first ← random_peer;
  peer ← dial_until attempts first;
  for_each (addresses peer) (fun addr =>
    id ← expect (peer_from_str (peer_id peer));
    expect (if is_multiaddr addr then Some tt else None) ;;
    on_swarm (add_peer_address id addr)).

(** How often the node dials *)
Context (attempts : nat).

(** What the swarm tells: an event of a protocol, connections and addresses *)
Inductive SwarmEvent : Type :=
| GossipMessage (data : list Z)
| IdentifyReceived (peer : PeerId) (listen_addrs : list string)
| ReqresRequest (request : list Z) (channel : Z)
| ReqresResponse (request_id : Z) (response : list Z)
| ReqresOutboundFailure (request_id : Z)
| ConnectionClosed (peer : PeerId)
| NewListenAddr (address : string)
| OtherEvent.

Definition handle_reqres_event (event : SwarmEvent) : h unit :=
  match event with
  | ReqresRequest request channel => handle_peer_requests request channel
  | ReqresResponse request_id response => handle_peer_response response request_id
  | ReqresOutboundFailure request_id => modify (fun s => set_pending_req (delete request_id (pending_req s)) s)
  | _ => mret tt
  end.

Definition handle_behaviour_event (event : SwarmEvent) : h unit :=
  match event with
  | GossipMessage data =>
      match msgunpack (X := Payload) data with Some payload => handle_gossip_msg payload | None => mret tt end
  | IdentifyReceived peer listen_addrs => handle_identify_event peer listen_addrs
  | _ => handle_reqres_event event
  end.

Definition handle_event (event : SwarmEvent) : h unit :=
  match event with
  | ConnectionClosed peer =>
      on_swarm (remove_peer peer) ;;
      s ← get_state;
      when ((connected_peers (swarm s) =? 0) && negb (len (latest_peers (latest_known_peers s)) =? 0))
        (reconnect_to_network attempts)
  | NewListenAddr address => on_swarm (add_external_address address)
  | _ => handle_behaviour_event event
  end.

Definition handle_messages (msg : NodeMsg.t) : h unit :=
  match msg with
  | NodeMsg.PropagateBlockToPeers block confirmation txs_hashes => gossip TBlocks (PBlock block confirmation txs_hashes)
  | NodeMsg.PropagateConfirmationToPeers confirmation => gossip TConsensus (PConfirmation confirmation)
  | NodeMsg.PropagateOldTxs txs => for_each txs (fun tx => gossip TTxs (POldTransactions [tx]))
  | NodeMsg.PropagateTxToPeers tx => gossip TTxs (PTransaction tx)
  | _ => mret tt
  end.

Definition neighbors (s : t) : list PeerId := take NUM_OF_NEIGHBORS (closest_local_peers (swarm s)).

Definition get_random_neighbor : h PeerId :=
  s ← get_state;
  let neighbors := neighbors s in
  n ← random_number_in_range_from_zero (Z.min (len neighbors) (Z.of_nat NUM_OF_NEIGHBORS) -u64 1);
  expect (neighbors !! Z.to_nat n).

Definition handle_requests (req : NodeReq.t) (res_chan : Chan) : h unit :=
  match req with
  | NodeReq.GetFullBlock _ trusted_peers =>
      n ← random_number_in_range_from_zero (len trusted_peers -u64 1);
      neighbor ← expect (trusted_peers !! Z.to_nat n);
      peer ← expect (peer_id_from_str neighbor);
      request peer req (Some res_chan)
  | NodeReq.GetLastBlockInfo neighbor =>
      peer ← expect (peer_id_from_str neighbor);
      request peer req (Some res_chan)
  | NodeReq.GetNeighbors =>
      s ← get_state;
      to_node (reply res_chan (NodeRes.GetNeighbors (map peer_to_string (neighbors s))))
  | NodeReq.GetP2pAddresses =>
      s ← get_state;
      to_node (reply res_chan (NodeRes.GetP2pAddresses (map before_p2p (external_addresses (swarm s)))))
  | NodeReq.GetTxs _ | NodeReq.GetConfirmations _ _ _ =>
      peer ← get_random_neighbor;
      request peer req (Some res_chan)
  | _ => mret tt
  end.

Definition handle_int_comm (int_comm : NodeComm) : h unit :=
  match n_kind int_comm with
  | NMsg msg => handle_messages msg
  | NReq req => res_chan ← expect (n_res_chan int_comm); handle_requests req res_chan
  end.

(** What [select] gives the loop *)
Inductive Input : Type :=
| InEvent (event : SwarmEvent)
| InComm (int_comm : NodeComm).
Definition step (i : Input) : h unit :=
  match i with InEvent event => handle_event event | InComm int_comm => handle_int_comm int_comm end.
Definition run (inputs : list Input) : h unit := for_each inputs step.

Definition initial (network_name : string) (sw : Swarm) (bootstrap_addresses : option (list string))
    (bootstrap_peer_id : option string) (r : Rng) : t :=
  Mk network_name ∅ sw (latest_new bootstrap_addresses bootstrap_peer_id) r.
End service.
End P2PService.
