(* ===== verification/P2PTheorems.v ===== *)
(** * The peer to peer service: what it does for peers and for the node *)

From stdpp Require Import base gmap strings list fin_maps.
From S2P Require Import Prelude.
From S2P Require Import Exec.
From S2P Require Import Hash.
From S2P Require Import Crypto.
From S2P Require Import CoreModels.
From S2P Require Import Messages.
From S2P Require Import NodeModels.
From S2P Require Import NodeErrors.
From S2P Require Import Database.
From S2P Require Import WasmMachine.
From S2P Require Import NodeMessages.
From S2P Require Import WasmService.
From S2P Require Import DBService.
From S2P Require Import DBServiceTheorems.
From S2P Require Import P2PService.
Open Scope Z_scope.
Import P2PService.

(** ** Public addresses *)
Definition is_byte (x : Z) : Prop := 0 <= x < 2 ^ 8.

Lemma shiftl_land x y n : 0 <= n -> 0 <= y < 2 ^ n -> Z.land (Z.shiftl x n) y = 0.
Proof.
  intros Hn Hy. apply Z.bits_inj'. intros i Hi. rewrite Z.land_spec, Z.bits_0, Z.shiftl_spec by lia.
  destruct (Z.ltb_spec i n); [by rewrite Z.testbit_neg_r by lia|].
  rewrite <- (Z.mod_small y (2 ^ n)) by lia. rewrite Z.mod_pow2_bits_high by lia. apply andb_false_r.
Qed.

Lemma shiftl_lor x y n : 0 <= n -> 0 <= y < 2 ^ n -> Z.lor (Z.shiftl x n) y = x * 2 ^ n + y.
Proof.
  intros Hn Hy. pose proof (shiftl_land x y n Hn Hy) as H. rewrite <- Z.shiftl_mul_pow2 by lia.
  by rewrite Z.add_nocarry_lxor, Z.lxor_lor by done.
Qed.

Lemma ipv4_value a b c d : is_byte a -> is_byte b -> is_byte c -> is_byte d ->
  ipv4_as_u32 a b c d = a * 2 ^ 24 + (b * 2 ^ 16 + (c * 2 ^ 8 + d)).
Proof.
  unfold is_byte, ipv4_as_u32. intros Ha Hb Hc Hd.
  rewrite (shiftl_lor c d 8), (shiftl_lor b _ 16), (shiftl_lor a _ 24) by lia. done.
Qed.

(** Of the addresses of four bytes exactly those that start with 10 or with 192.168 are private:
    those of 172.16.0.0/12, which the code lists as well, are taken for public ones. *)
Theorem public_addr_spec a b c d : is_byte a -> is_byte b -> is_byte c -> is_byte d ->
  is_public_addr (Some (V4 a b c d)) = negb ((a =? 10) || ((a =? 192) && (b =? 168))).
Proof.
  intros Ha Hb Hc Hd. unfold is_public_addr. cbn [existsb]. rewrite ipv4_value by done. unfold is_byte in *.
  rewrite !Z.shiftr_div_pow2 by lia. f_equal. change (32 - 8) with 24. change (32 - 12) with 20. change (32 - 16) with 16.
  replace ((a * 2 ^ 24 + (b * 2 ^ 16 + (c * 2 ^ 8 + d))) / 2 ^ 24) with a
    by (apply (Z.div_unique _ _ _ (b * 2 ^ 16 + (c * 2 ^ 8 + d))); lia).
  replace ((a * 2 ^ 24 + (b * 2 ^ 16 + (c * 2 ^ 8 + d))) / 2 ^ 16) with (a * 256 + b)
    by (apply (Z.div_unique _ _ _ (c * 2 ^ 8 + d)); lia).
  assert (H20 : (a * 2 ^ 24 + (b * 2 ^ 16 + (c * 2 ^ 8 + d))) / 2 ^ 20 < 2 ^ 12) by (apply Z.div_lt_upper_bound; lia).
  destruct (Z.eqb_spec ((a * 2 ^ 24 + (b * 2 ^ 16 + (c * 2 ^ 8 + d))) / 2 ^ 20) (172 * 256 + 16)); [lia|].
  destruct (Z.eqb_spec a 10), (Z.eqb_spec (a * 256 + b) (192 * 256 + 168)), (Z.eqb_spec a 192), (Z.eqb_spec b 168); try done; lia.
Qed.

(** ** Responses *)
Section service.
Context `{Hdig : Digest} `{!MsgPack TransactionData, !MsgPack Transaction, !MsgPack Payload, !MsgUnpack Payload}.
Context `{!MsgPack NodeReq.t, !MsgUnpack NodeReq.t, !MsgPack NodeRes.t, !MsgUnpack NodeRes.t}.
Context `{Hp2p : Libp2p} `{!IpText}.
Abbreviation pw := (world t effect NodeAnswer).
Abbreviation pm A := (M t effect NodeAnswer A).
Implicit Types w : pw.

Lemma to_node_emit e w : to_node (emit e) w = Ret tt (outs [ToNode e] w).
Proof. done. Qed.

(** What a response is to the entry of its request *)
Definition delivered (waiting : option (option Chan)) (res : NodeRes.t) : list effect :=
  match waiting, res with
  | Some (Some chan), _ => [ToNode (Answered chan res)]
  | Some None, NodeRes.GetHeight height => [ToNode (InCore (Sent BlockService (MkComm (KMsg (Msg.HeightFromPeer height)) None)))]
  | _, _ => []
  end.

Lemma response_eq response id res w : msgunpack response = Some res ->
  handle_peer_response response id w =
    Ret tt (outs (delivered (pending_req (w_state w) !! id) res) (upd (fun s => set_pending_req (delete id (pending_req s)) s) w)).
Proof.
  intros Hr. unfold handle_peer_response. rewrite Hr, bind_eq. cbn [get_state]. rewrite bind_eq, modify_eq.
  destruct (pending_req (w_state w) !! id) as [[chan|]|]; [done| |]; simpl.
  - destruct res; by rewrite ?outs_nil.
  - by rewrite outs_nil.
Qed.

(** C20: the response to a request goes to the channel that waits for it and to no other, and only
    once: a second response under the same id is dropped. *)
Theorem response_delivered_once response id res w :
  msgunpack response = Some res ->
  exists w', handle_peer_response response id w = Ret tt w' /\
    w_out w' = w_out w ++ delivered (pending_req (w_state w) !! id) res /\
    pending_req (w_state w') = delete id (pending_req (w_state w)) /\
    forall response', w_out (exec_world (handle_peer_response response' id w')) = w_out w'.
Proof.
  intros Hr. rewrite (response_eq _ _ _ _ Hr). eexists. split; [done|]. split; [done|]. split; [done|]. intros response'.
  destruct (msgunpack (X := NodeRes.t) response') as [res'|] eqn:Hr'; [|unfold handle_peer_response; by rewrite Hr'].
  rewrite (response_eq _ _ _ _ Hr'). simpl. rewrite lookup_delete_eq. simpl. by rewrite !app_nil_r.
Qed.

(** ** Requests of the node *)

(** Without a neighbor, asking the peers for transactions or confirmations panics the service;
    so does asking for a block with no trusted peer to ask. *)
Theorem nobody_to_ask_panics w chan :
  closest_local_peers (swarm (w_state w)) = [] ->
  (forall hashes, panicked (handle_requests (NodeReq.GetTxs hashes) chan w) = true) /\
  (forall n hash ask, panicked (handle_requests (NodeReq.GetConfirmations n hash ask) chan w) = true) /\
  (forall n, panicked (handle_requests (NodeReq.GetFullBlock n []) chan w) = true).
Proof.
  intros Hn. assert (Hr : panicked (get_random_neighbor w) = true).
  { unfold get_random_neighbor. rewrite bind_eq. cbn [get_state]. unfold neighbors. rewrite Hn, bind_eq.
    unfold random_number_in_range_from_zero. destruct (_ =? 0); [done|]. rewrite bind_eq. cbn [get_state].
    destruct (gen_range _ _) as [r n]. rewrite bind_eq, modify_eq. done. }
  split_and!; intros; cbn [handle_requests]; rewrite bind_eq.
  - by destruct (get_random_neighbor w).
  - by destruct (get_random_neighbor w).
  - unfold random_number_in_range_from_zero. destruct (_ =? 0); [done|]. rewrite bind_eq. cbn [get_state].
    destruct (gen_range _ _) as [r m]. rewrite bind_eq, modify_eq. done.
Qed.

(** ** The latest known peers *)
Definition few_latest (s : t) : Prop := len (latest_peers (latest_known_peers s)) <= MAX_KNOWN_PEERS.
Abbreviation keeps_latest := (same_proj (fun s => latest_known_peers s) : pw -> pw -> Prop).

Lemma to_node_latest {A} (m : M unit NodeEffect NodeAnswer A) : rel keeps_latest (to_node m).
Proof. intros w. unfold to_node, zoom. by destruct (m _). Qed.
Lemma on_swarm_latest g : rel keeps_latest (on_swarm g).
Proof. by apply rel_modify_proj. Qed.
Lemma set_swarm_latest sw : rel keeps_latest (modify (set_swarm sw)).
Proof. by apply rel_modify_proj. Qed.
Lemma set_rng_latest r : rel keeps_latest (modify (set_rng r)).
Proof. by apply rel_modify_proj. Qed.
#[local] Hint Resolve to_node_latest on_swarm_latest set_swarm_latest set_rng_latest : frames.
#[local] Hint Extern 1 (rel _ (modify _)) => apply rel_modify_proj; reflexivity : frames.

Lemma random_latest n : rel keeps_latest (random_number_in_range_from_zero n).
Proof. unfold random_number_in_range_from_zero. frames; done. Qed.
Lemma request_latest peer req waiting : rel keeps_latest (request peer req waiting).
Proof. unfold request. frames; done. Qed.
Lemma gossip_latest topic payload : rel keeps_latest (gossip topic payload).
Proof. unfold gossip. frames; done. Qed.
#[local] Hint Resolve random_latest request_latest gossip_latest : frames.
Lemma neighbor_latest : rel keeps_latest get_random_neighbor.
Proof. unfold get_random_neighbor. frames; done. Qed.
Lemma random_peer_latest : rel keeps_latest random_peer.
Proof. unfold random_peer. frames; done. Qed.
Lemma public_addresses_latest addrs : rel keeps_latest (public_addresses addrs).
Proof. induction addrs as [|addr addrs IH]; cbn [public_addresses]; frames; done. Qed.
Lemma dial_all_latest addrs reachable : rel keeps_latest (dial_all addrs reachable).
Proof. revert reachable. induction addrs as [|addr addrs IH]; intros reachable; cbn [dial_all]; frames; try done; apply IH. Qed.
#[local] Hint Resolve neighbor_latest random_peer_latest public_addresses_latest dial_all_latest : frames.
Lemma dial_until_latest attempts peer : rel keeps_latest (dial_until attempts peer).
Proof. revert peer. induction attempts as [|attempts IH]; intros peer; cbn [dial_until]; frames; try done; apply IH. Qed.
#[local] Hint Resolve dial_until_latest : frames.
Lemma reconnect_latest attempts : rel keeps_latest (reconnect_to_network attempts).
Proof. unfold reconnect_to_network. frames; done. Qed.
#[local] Hint Resolve reconnect_latest : frames.

Lemma int_comm_latest c : rel keeps_latest (handle_int_comm c).
Proof.
  unfold handle_int_comm. destruct (n_kind c) as [m|r]; [destruct m; cbn [handle_messages]|destruct r; cbn [handle_requests]]; frames; done.
Qed.
Lemma gossip_msg_latest m : rel keeps_latest (handle_gossip_msg m).
Proof. destruct m; cbn [handle_gossip_msg]; frames; done. Qed.
Lemma peer_requests_latest r c : rel keeps_latest (handle_peer_requests r c).
Proof. unfold handle_peer_requests. frames; done. Qed.
Lemma peer_response_latest r id : rel keeps_latest (handle_peer_response r id).
Proof. unfold handle_peer_response. frames; done. Qed.
#[local] Hint Resolve gossip_msg_latest peer_requests_latest peer_response_latest : frames.

Lemma latest_few {A} (m : pm A) : rel keeps_latest m -> rel (keeps few_latest) m.
Proof. apply (rel_proj_keeps _ (fun l => len (latest_peers l) <= MAX_KNOWN_PEERS)). Qed.

Lemma identify_few peer addrs : rel (keeps few_latest) (handle_identify_event peer addrs).
Proof.
  unfold handle_identify_event. apply rel_bind; [typeclasses eauto|apply latest_few; frames|]. intros _ w Hw.
  rewrite bind_eq. cbn [get_state]. rewrite bind_eq.
  set (l := latest_peers (latest_known_peers (w_state w))) in *.
  assert (Hlen : len l <= MAX_KNOWN_PEERS) by exact Hw.
  destruct (Z.eqb_spec (len l) MAX_KNOWN_PEERS) as [El|El]; cbn [mret M_ret]; rewrite ?modify_eq;
    rewrite bind_eq, modify_eq; apply (latest_few _ (request_latest peer NodeReq.GetHeight None)); unfold few_latest; simpl;
    rewrite len_app; fold l; unfold len in *; cbn [length].
  - destruct l as [|x l]; simpl in *; [by vm_compute in El|lia].
  - lia.
Qed.

Lemma step_few attempts i : rel (keeps few_latest) (step attempts i).
Proof.
  destruct i as [e|c]; [|apply latest_few, int_comm_latest]. cbn [step].
  destruct e; cbn [handle_event handle_behaviour_event handle_reqres_event]; try (apply latest_few; frames; done). apply identify_few.
Qed.

(** From its start, whatever peers and services do, the service remembers at most five peers. *)
Theorem latest_peers_bounded attempts network sw addrs id r answers clock inputs :
  few_latest (w_state (exec_world (run attempts inputs (World (initial network sw addrs id r) answers clock [])))).
Proof.
  assert (Hr : rel (keeps few_latest) (run attempts inputs)).
  { apply rel_for_each; [typeclasses eauto|]. intros i _. apply step_few. }
  apply Hr. unfold few_latest, initial, latest_new, MAX_KNOWN_PEERS. by destruct addrs, id.
Qed.

(** ** Transactions of the peers *)
Lemma to_node_eq {A} (m : M unit NodeEffect NodeAnswer A) (a : A) v es w :
  m (World tt (w_answers w) (w_clock w) []) = Ret a v -> w_out v = es ->
  to_node m w = Ret a (World (w_state w) (w_answers v) (w_clock v) (w_out w ++ map ToNode es)).
Proof. intros Hm <-. unfold to_node, zoom, zoom_in. by rewrite Hm. Qed.

(** The messages to the pool of the core among effects *)
Definition pooled (es : list effect) : list (list (Transaction * Z * option (list Hash))) :=
  omap (fun e => match e with
    | ToNode (InCore (Sent TransactionService (MkComm (KMsg (Msg.AddTx x)) _))) => Some [x]
    | ToNode (InCore (Sent TransactionService (MkComm (KMsg (Msg.AddTxs xs)) _))) => Some xs
    | _ => None
    end) es.

(** A transaction a peer publishes reaches the pool only if it is for the network of the node
    and the database answers that it has not got it; of old transactions exactly those the
    database has not got reach it, whatever network they are for. *)
Theorem gossip_transactions_spec w :
  (forall tx, exists es w', handle_gossip_msg (PTransaction tx) w = Ret tt w' /\ w_out w' = w_out w ++ es /\
     (pooled es = [] \/
      pooled es = [[with_size tx]] /\ TxData.get_network (s_data (signed tx)) = network_name (w_state w) /\
      head (w_answers w) = Some (FromNode (NodeRes.HasTx false)))) /\
  (forall txs, exists es w', handle_gossip_msg (POldTransactions txs) w = Ret tt w' /\ w_out w' = w_out w ++ es /\
     (pooled es = [] \/
      exists mask, head (w_answers w) = Some (FromNode (NodeRes.HasTxs mask)) /\
        pooled es = [map with_size (omap (fun '(tx, in_db) => if negb in_db then Some tx else None) (zip txs mask))])).
Proof.
  assert (Hask : forall r (k : Result NodeRes.t NodeCommError -> pm unit) (Q : list effect -> Prop),
    (forall out w', match out with Ok res => head (w_answers w) = Some (FromNode res) | Err _ => True end ->
       exists es, k out w' = Ret tt (outs es w') /\ Q es) ->
    exists es w', (to_node (ask_node NDB r) ≫= k) w = Ret tt w' /\ w_out w' = w_out w ++ es /\
      exists es', Q es' /\ pooled es = pooled es').
  { intros r k Q Hk. destruct (ask_node_eq NDB r (World tt (w_answers w) (w_clock w) [])) as (out & v & es & Ha & Ho & _ & Hout).
    simpl in Ho. rewrite bind_eq, (to_node_eq _ _ _ _ w Ha Ho). cbv beta iota.
    destruct (Hk out (World (w_state w) (w_answers v) (w_clock v) (w_out w ++ map ToNode es))) as (es' & -> & HQ).
    { destruct out; [tauto|done]. }
    exists (map ToNode es ++ es'). eexists. split; [done|]. simpl. split; [by rewrite app_assoc|].
    exists es'. split; [done|]. unfold pooled. rewrite omap_app.
    assert (es = [] \/ es = [Asked NDB r]) as [-> | ->] by (destruct out; tauto); done. }
  split.
  - intros tx. cbn [handle_gossip_msg]. rewrite bind_eq. cbn [get_state].
    destruct (decide (TxData.get_network (s_data (signed tx)) = network_name (w_state w))) as [Hn|Hn].
    + rewrite bool_decide_true by done. cbn [negb].
      edestruct (Hask (NodeReq.HasTx (get_hash tx))) as (es & w' & He & Ho & es' & HQ & Hp).
      2: { exists es, w'. split; [exact He|]. split; [exact Ho|]. rewrite Hp. exact HQ. }
      intros [[]|] w1 Hres; try (exists []; rewrite outs_nil; split; [done|by left]).
      destruct b; [exists []; rewrite outs_nil; split; [done|by left]|]. eexists [_]. split; [reflexivity|]. by right.
    + rewrite bool_decide_false by done. exists [], w. rewrite app_nil_r. split_and!; [done|done|by left].
  - intros txs. cbn [handle_gossip_msg].
    edestruct (Hask (NodeReq.HasTxs (map get_hash txs))) as (es & w' & He & Ho & es' & HQ & Hp).
    2: { exists es, w'. split; [exact He|]. split; [exact Ho|]. rewrite Hp. exact HQ. }
    intros [[]|] w1 Hres; try (exists []; rewrite outs_nil; split; [done|by left]).
    eexists [_]. split; [reflexivity|]. right. eexists. split; [exact Hres|reflexivity].
Qed.
End service.

(** ** A request of a peer and the database service *)
Section together.
Context `{Hdig : Digest} `{Hb58 : Base58} `{Hring : Ring} `{!MsgPack BlockData} `{!MsgPack TransactionData}.
Context `{!MsgPack (list string), !MsgUnpack string, !MsgUnpack (option (list string)), !MsgUnpack ValidatorDbValue}.
Context `{!MsgPack NodeReq.t, !MsgUnpack NodeReq.t, !MsgPack NodeRes.t, !MsgUnpack NodeRes.t}.
Context `{Hp2p : Libp2p} {D F : Type} `{Hdb : Db D F}.

(** C18: any request a peer sends is asked of the database service as it is; so a peer that asks, with
    the block, for the confirmations of the block at the largest height, which is the last
    one of the chain and has no transactions listed under that height, panics the database
    service of a node. *)
Theorem peer_panics_database request channel hash chan block (w : world P2PService.t P2PService.effect NodeAnswer)
    (v : world (DBService.t (D := D)) NodeEffect NodeAnswer) :
  let req := NodeReq.GetConfirmations u64_max hash true in
  msgunpack request = Some req -> head (w_answers w) <> Some NDisconnected ->
  DBService.db_poisoned (w_state v) = false ->
  load_block u64_max (DBService.db (w_state v)) = Some block ->
  load_transactions_hashes u64_max (DBService.db (w_state v)) = None ->
  ToNode (Asked NDB req) ∈ w_out (exec_world (handle_peer_requests request channel w)) /\
  panicked (DBService.step (MkNodeComm (NReq req) (Some chan)) v) = true.
Proof.
  intros req Hu Ha Hp Hb Ht. split.
  - unfold handle_peer_requests. rewrite Hu.
    destruct w as [s [|[res|res| |] rest] k o]; [|.. |by destruct Ha];
      cbv [mbind M_bind to_node zoom zoom_in zoom_out ask_node next_answer emit mret M_ret get_state modify when w_answers w_state
           w_clock w_out exec_world map].
    2: destruct (send_response _ _ _) as [sw [|]].
    all: rewrite !elem_of_app; set_solver.
  - unfold DBService.step. cbn [n_kind n_res_chan]. rewrite bind_eq. cbn [expect mret M_ret].
    apply (confirmations_panic u64_max hash true chan block v Hp Hb Ht). by left.
Qed.
End together.

(** ** A sample *)
Module P2PSample.
Import DatabaseTheorems.DatabaseSample.
Import DBServiceSample.
#[local] Existing Instances Samples.Samples.digest Samples.Samples.ring DatabaseTheorems.MemDb.mem_db DatabaseTheorems.MemDb.mem_db_laws
  DatabaseTheorems.DatabaseSample.tx_pack DBServiceSample.block_pack DBServiceSample.list_pack DBServiceSample.string_unpack
  DBServiceSample.ids_unpack DBServiceSample.value_unpack.

(** A swarm that sends and reaches nothing, with one neighbor *)
#[local] Instance swarm : Libp2p := {|
  Swarm := Z; PeerId := Z;
  peer_id_from_str := fun _ => Some 1; peer_to_string := fun _ => "peer"%string;
  send_request := fun _ _ n => (n + 1, n); send_response := fun _ _ n => (n, true); publish := fun _ _ n => (n, true);
  closest_local_peers := fun _ => []; external_addresses := fun _ => []; connected_peers := fun _ => 0;
  add_address := fun _ _ n => n; remove_peer := fun _ n => n; add_external_address := fun _ n => n;
  peer_from_str := fun _ => Some 1; is_multiaddr := fun _ => true; dial := fun _ n => (n, true); add_peer_address := fun _ _ n => n;
  Rng := unit; gen_range := fun n r => (r, 0)
|}.
#[local] Instance req_pack : MsgPack NodeReq.t := {| msgpack := fun _ => [] |}.
#[local] Instance req_unpack : MsgUnpack NodeReq.t :=
  {| msgunpack := fun l => match l with [] => None | _ => Some (NodeReq.GetConfirmations u64_max (Samples.Samples.hash 7) true) end |}.
#[local] Instance res_pack : MsgPack NodeRes.t := {| msgpack := fun _ => [] |}.
#[local] Instance res_unpack : MsgUnpack NodeRes.t := {| msgunpack := fun l => Some (NodeRes.HasTx true) |}.

Definition p2p : P2PService.t := P2PService.Mk "net" {[ 4 := Some 9 ]} 5 (MkLatest None []) tt.
Definition quiet : world P2PService.t P2PService.effect NodeAnswer := World p2p [] (0, []) [].

Lemma public_addr_spec_witness :
  is_public_addr (Some (V4 172 16 0 1)) = true /\ is_public_addr (Some (V4 192 168 1 1)) = false.
Proof. split; apply public_addr_spec; unfold is_byte; lia. Defined.

Lemma response_delivered_once_witness :
  w_out (exec_world (handle_peer_response [1] 4 quiet)) = [ToNode (Answered 9 (NodeRes.HasTx true))].
Proof.
  assert (Hr : msgunpack [1] = Some (NodeRes.HasTx true)) by reflexivity.
  destruct (response_delivered_once [1] 4 (NodeRes.HasTx true) quiet Hr) as (w' & Hw & Ho & _).
  rewrite Hw. exact Ho.
Defined.

Lemma nobody_to_ask_panics_witness : panicked (handle_requests (NodeReq.GetTxs []) 0 quiet) = true.
Proof. destruct (nobody_to_ask_panics quiet 0 eq_refl) as (H & _). exact (H []). Defined.

Lemma peer_panics_database_witness :
  panicked (DBService.step (F := Fork) (MkNodeComm (NReq (NodeReq.GetConfirmations u64_max (Samples.Samples.hash 7) true)) (Some 3)) idle) = true.
Proof.
  assert (Hb : load_block u64_max chain = Some block) by (vm_compute; reflexivity).
  assert (Ht : load_transactions_hashes u64_max chain = None) by (vm_compute; reflexivity).
  assert (Hn : head (w_answers quiet) <> Some NDisconnected) by discriminate.
  assert (Hr : msgunpack [1] = Some (NodeReq.GetConfirmations u64_max (Samples.Samples.hash 7) true)) by reflexivity.
  exact (proj2 (peer_panics_database [1] 0 (Samples.Samples.hash 7) 3 block quiet idle Hr Hn eq_refl Hb Ht)).
Defined.
End P2PSample.
