(* ===== verification/SocketService.v ===== *)
(** * The socket service ([trinci-node/src/services/socket_service.rs])

    A client connects, is told who the node is, subscribes to events and gets them; the
    mining tool submits transactions the node signs.  Here is what a connection does in a
    turn, with the id the event service gave it as state; [SocketRun] has the connection as
    a whole, from the bytes it reads, and the listener. *)

From stdpp Require Import base gmap strings list fin_maps.
From S2P Require Import Prelude.
From S2P Require Import Exec.
From S2P Require Import Hash.
From S2P Require Import Crypto.
From S2P Require Import CoreModels.
From S2P Require Import Messages.
From S2P Require Import NodeModels.
From S2P Require Import WasmMachine.
From S2P Require Import NodeMessages.
From S2P Require Import EventService.
Open Scope Z_scope.

(** ** Datagrams: the length in four bytes, big endian, and the bytes *)
Definition u32_to_be_bytes (n : Z) : list Z :=
  [(n / 2 ^ 24) mod 2 ^ 8; (n / 2 ^ 16) mod 2 ^ 8; (n / 2 ^ 8) mod 2 ^ 8; n mod 2 ^ 8].
Definition u32_from_be_bytes (bs : list Z) : Z := fold_left (fun n b => n * 2 ^ 8 + b) bs 0.

(** [read_exact] of [n] bytes; [None] is the error of a stream that ends before *)
Definition read_exact (n : Z) (stream : list Z) : option (list Z * list Z) :=
  if len stream <? n then None else Some (take (Z.to_nat n) stream, drop (Z.to_nat n) stream).

Definition read_datagram (stream : list Z) : option (list Z * list Z) :=
  '(head, stream) ← read_exact 4 stream;
  read_exact (u32_from_be_bytes head) stream.

(** What a single vectored write of [written] bytes puts on the stream; the rest of the
    datagram is only warned of. *)
Definition write_datagram (written : Z) (buf : list Z) : list Z :=
  take (Z.to_nat written) (u32_to_be_bytes (len buf mod 2 ^ 32) ++ buf).

Record NodeInfo : Type := MkNodeInfo {
  addr : string;
  mining_account_id : option string;
  network : string;
  nonce : list Z;
  ni_public_key : Keys.TrinciPublicKey;
  rest_port : Z
}.

(** A request as it is read, before its topics are *)
Inductive SocketRequest : Type :=
| SubscribeTo (id : string) (events : Z)
| UnsubscribeFrom (id : string) (events : Z)
| SubmitTx (tx_data : TransactionDataV1) (signature : list Z).

(** [EventTopics::from_bits]: no bit but those of the topics *)
Definition topics_from_bits (bits : Z) : option Z :=
  let all := Z.lor EventService.BLOCK (Z.lor EventService.CONTRACT_EVENTS EventService.BLOCK_EXEC) in
  if Z.land bits all =? bits then Some bits else None.

Module SocketService.
Inductive error : Type :=
| GenericError
| InvalidComm
| CommFault (e : NodeCommError)
| DecodeError
| IoError.

(** ** The key of the mining tool

    It is read once from the file the pairing left, and kept. *)
Section key.
Context `{!MsgUnpack Keys.TrinciPublicKey}.

(** What [new] makes of the file, [None] when there is none; [None] of the result is a panic. *)
Definition new_pub_key (file : option (list Z)) : option (option Keys.TrinciPublicKey) :=
  match file with
  | Some buf => match msgunpack buf with Some pub_key => Some (Some pub_key) | None => None end
  | None => Some None
  end.

(** [None] is a file that does not open. *)
Definition get_mining_tool_pub_key (file : option (list Z)) (mining_tool_pub_key : option Keys.TrinciPublicKey) :
    Result Keys.TrinciPublicKey error * option Keys.TrinciPublicKey :=
  match mining_tool_pub_key with
  | Some pub_key => (Ok pub_key, Some pub_key)
  | None =>
      match file with
      | None => (Err GenericError, None)
      | Some buf =>
          match msgunpack buf with
          | Some pub_key => (Ok pub_key, Some pub_key)
          | None => (Err DecodeError, None)
          end
      end
  end.
End key.

Section service.
Context `{Hdig : Digest} `{Hring : Ring} `{!MsgPack TransactionDataV1, !MsgPack TransactionData, !MsgPack Transaction}.
Context `{!MsgPack bool, !MsgPack string, !MsgUnpack SocketRequest}.
(** the key of the paired mining tool, the keys of the node, and what its random generator draws; the
    hexadecimal text of a hash *)
Context (mining_tool_pub_key : option Keys.TrinciPublicKey) (keypair : Keys.TrinciKeyPair) (rnd : Z) (hex_encode : Hash -> string).

(** What goes to the services and to the client *)
Inductive effect : Type :=
| ToNode (e : NodeEffect)
| Written (buf : list Z).

(** The state of a connection: the id it has at the event service *)
Abbreviation h := (M (option Z) effect NodeAnswer).
Definition to_node {A} (m : M unit NodeEffect NodeAnswer A) : h A := zoom (fun _ => tt) (fun _ s => s) ToNode m.

(** ** The mining tool *)

(** What the signer does with a request of the tool: the hash it answers, or none, when the
    channel of the response is dropped *)
Definition sign_and_submit (data : TransactionDataV1) (signature : list Z) : h (option string) :=
  match mining_tool_pub_key with
  | None => mret None
  | Some pub_key =>
      if negb (Keys.verify pub_key (msgpack data) signature) then mret None
      else
        let tx_data := V1 data in
        match Keys.sign rnd keypair (msgpack tx_data) with
        | Err _ => mret None
        | Ok signature =>
            let tx := UnitTransaction (MkSigned tx_data signature) in
            to_node (tell NP2P (NodeMsg.PropagateTxToPeers tx)) ;;
            to_node (tell_core TransactionService (Msg.AddTx (tx, len (msgpack tx), None))) ;;
            mret (Some (hex_encode (get_hash tx)))
        end
  end.

(** ** Requests *)
Definition handle_disconnected_client (id : Z) : h (Result unit error) :=
  r ← to_node (ask_node NEvent (NodeReq.Disconnect id));
  mret (match r with
        | Ok (NodeRes.Disconnect success) => if (success : bool) then Ok tt else Err GenericError
        | Ok _ => Err InvalidComm
        | Err e => Err (CommFault e)
        end).

(** [event_sender] is the channel of the events of the connection. *)
Definition handle_socket_requests (req : SocketRequest) (event_sender : Chan) : h (Result (list Z) error) :=
  match req with
  | SubscribeTo _ events =>
      topics ← expect (topics_from_bits events);
      id ← get_state;
      r ← to_node (ask_node NEvent (NodeReq.Subscribe topics event_sender id));
      match r with
      | Ok (NodeRes.Subscribe (Some connection_id)) =>
          when (bool_decide (id = None)) (modify (fun _ => Some connection_id)) ;;
          mret (Ok (msgpack true))
      | Ok _ => mret (Err InvalidComm)
      | Err e => mret (Err (CommFault e))
      end
  | UnsubscribeFrom _ events =>
      topics ← expect (topics_from_bits events);
      id ← get_state;
      match id with
      | None => mret (Ok (msgpack true))
      | Some id =>
          r ← to_node (ask_node NEvent (NodeReq.Unsubscribe topics id));
          mret (match r with
                | Ok (NodeRes.Unsubscribe success) => if (success : bool) then Ok (msgpack true) else Err GenericError
                | Ok _ => Err InvalidComm
                | Err e => Err (CommFault e)
                end)
      end
  | SubmitTx tx_data signature =>
      tx_hash ← sign_and_submit tx_data signature;
      match tx_hash with
      | Some tx_hash => mret (Ok (msgpack tx_hash))
      | None => panic
      end
  end.

(** ** A connection *)

(** What [select] gives the loop: a datagram, or an event; with each whether the write that follows works.
    [None] is a read that failed, and a channel that is closed. *)
Inductive Input : Type :=
| InDatagram (buf : option (list Z)) (written : bool)
| InEvent (event : option (list Z)) (written : bool).

Definition disconnect : h (Result unit error) :=
  id ← get_state;
  match id with Some id => handle_disconnected_client id | None => mret (Ok tt) end.

(** One turn of the loop: [Some] is how the connection ends. *)
Definition turn (event_sender : Chan) (i : Input) : h (option (Result unit error)) :=
  match i with
  | InDatagram None _ => r ← disconnect; mret (Some r)
  | InDatagram (Some buf) written =>
      match msgunpack buf with
      | None => mret (Some (Err DecodeError))
      | Some req =>
          res ← handle_socket_requests req event_sender;
          match res with
          | Err e => mret (Some (Err e))
          | Ok buf => if (written : bool) then emit (Written buf) ;; mret None else mret (Some (Err IoError))
          end
      end
  | InEvent None _ => mret None
  | InEvent (Some event) written =>
      if (written : bool) then emit (Written event) ;; mret None
      else
        r ← disconnect;
        mret (Some r)
  end.
End service.
End SocketService.
