(* ===== verification/SocketTheorems.v ===== *)
(** * The socket service: datagrams, subscriptions and signed transactions *)

From stdpp Require Import base gmap strings list fin_maps.
From S2P Require Import Prelude.
From S2P Require Import Exec.
From S2P Require Import Hash.
From S2P Require Import Crypto.
From S2P Require Import CoreModels.
From S2P Require Import Messages.
From S2P Require Import Samples.
From S2P Require Import NodeModels.
From S2P Require Import WasmMachine.
From S2P Require Import NodeMessages.
From S2P Require Import EventService.
From S2P Require Import SocketService.
Open Scope Z_scope.
Import SocketService.

(** ** Datagrams *)
Lemma be_bytes_roundtrip n : 0 <= n < 2 ^ 32 -> u32_from_be_bytes (u32_to_be_bytes n) = n.
Proof.
  intros Hn. unfold u32_from_be_bytes, u32_to_be_bytes. cbn [fold_left].
  rewrite (Z.mod_small (n / 2 ^ 24)) by (split; [apply Z.div_pos; lia|apply Z.div_lt_upper_bound; lia]).
  assert (H : forall k, 0 <= k -> n / 2 ^ k = n / 2 ^ (k + 8) * 2 ^ 8 + (n / 2 ^ k) mod 2 ^ 8).
  { intros k Hk. rewrite Z.pow_add_r, <- Z.div_div by lia. rewrite Z.mul_comm. apply Z.div_mod. lia. }
  pose proof (H 0 ltac:(lia)) as H0. pose proof (H 8 ltac:(lia)) as H8. pose proof (H 16 ltac:(lia)) as H16.
  change (2 ^ 0) with 1 in H0. rewrite Z.div_1_r in H0. change (0 + 8) with 8 in H0. change (8 + 8) with 16 in H8. change (16 + 8) with 24 in H16.
  lia.
Qed.

Lemma read_exact_app n xs ys : n = len xs -> read_exact n (xs ++ ys) = Some (xs, ys).
Proof.
  intros ->. unfold read_exact, len. rewrite length_app. destruct (Z.ltb_spec (Z.of_nat (length xs + length ys)) (Z.of_nat (length xs))); [lia|].
  rewrite Nat2Z.id, take_app_length, drop_app_length. done.
Qed.

Lemma read_exact_short n xs : len xs < n -> read_exact n xs = None.
Proof. intros H. unfold read_exact. by destruct (Z.ltb_spec (len xs) n); [|lia]. Qed.

Lemma whole_datagram_read buf written rest :
  len buf < 2 ^ 32 -> 4 + len buf <= written -> read_datagram (write_datagram written buf ++ rest) = Some (buf, rest).
Proof.
  intros Hb Hw. pose proof (len_nonneg buf) as H0.
  assert (Hh : len (u32_to_be_bytes (len buf)) = 4) by done.
  unfold write_datagram. rewrite Z.mod_small by lia. rewrite take_ge by (rewrite length_app; unfold len in *; lia).
  rewrite <- app_assoc. unfold read_datagram. rewrite (read_exact_app 4) by done. simpl.
  rewrite be_bytes_roundtrip by lia. by apply read_exact_app.
Qed.

(** A datagram below four gigabytes whose write is whole is read back as it was, and what
    follows is left on the stream; of one that the single write cuts short nothing is read:
    the reader waits for the rest, which never comes, and takes the next datagrams for it. *)
Theorem datagram_roundtrip buf written :
  len buf < 2 ^ 32 ->
  (4 + len buf <= written -> forall rest, read_datagram (write_datagram written buf ++ rest) = Some (buf, rest)) /\
  (0 <= written < 4 + len buf -> read_datagram (write_datagram written buf) = None).
Proof.
  intros Hb. split; [intros Hw rest; by apply whole_datagram_read|]. pose proof (len_nonneg buf) as H0.
  assert (Hh : len (u32_to_be_bytes (len buf)) = 4) by done.
  unfold write_datagram. rewrite Z.mod_small by lia. intros Hw. destruct (Z.ltb_spec written 4) as [Hs|Hs].
  - unfold read_datagram. rewrite read_exact_short; [done|]. unfold len in *. rewrite length_take, length_app. lia.
  - rewrite take_app. rewrite (take_ge (u32_to_be_bytes _)) by (unfold len in *; lia).
    unfold read_datagram. rewrite (read_exact_app 4) by done. simpl. rewrite be_bytes_roundtrip by lia.
    apply read_exact_short. unfold len in *. rewrite length_take. lia.
Qed.

(** ** Subscriptions, with the event service *)
Section together.
Context `{Hdig : Digest} `{Hring : Ring} `{!MsgPack TransactionDataV1, !MsgPack TransactionData, !MsgPack Transaction}.
Context `{!MsgPack bool, !MsgPack string} `{!HashMapIter Z}.
Context (tool : option Keys.TrinciPublicKey) (keypair : Keys.TrinciKeyPair) (rnd : Z) (hex_encode : Hash -> string).
Abbreviation events := (EventService.t (Sender := Chan)).
Abbreviation handle := (handle_socket_requests tool keypair rnd hex_encode).

(** A request of the node and a response, as the event service has them *)
Definition event_req (r : NodeReq.t) : EventService.Req :=
  match r with
  | NodeReq.Subscribe topics sender id => EventService.Subscribe topics sender id
  | NodeReq.Unsubscribe topics id => EventService.Unsubscribe topics id
  | NodeReq.Disconnect id => EventService.Disconnect id
  | _ => EventService.OtherReq
  end.
Definition event_res (r : EventService.Res) : NodeRes.t :=
  match r with
  | EventService.SubscribeRes id => NodeRes.Subscribe id
  | EventService.UnsubscribeRes b => NodeRes.Unsubscribe b
  | EventService.DisconnectRes b => NodeRes.Disconnect b
  end.

(** The event service handles a request: its state after, and its answers *)
Definition served (r : NodeReq.t) (s : events) : events * list NodeAnswer :=
  let w := exec_world (EventService.handle_requests (Chan := Chan) (event_req r) 0 (World s [] (0, []) [])) in
  (w_state w, omap (fun e => match e with EventService.Replied _ res => Some (FromNode (event_res res)) | _ => None end) (w_out w)).

Lemma served_eq r s :
  served r s = (EventService.after (event_req r) s, map (fun res => FromNode (event_res res)) (EventService.response (event_req r) s)).
Proof.
  unfold served. rewrite EventService.handle_requests_eq. simpl. f_equal.
  induction (EventService.response _ _) as [|res l IH]; [done|]. simpl. f_equal. exact IH.
Qed.

(** What a connection asks of the event service *)
Definition asks (req : SocketRequest) (sender : Chan) (id : option Z) : option NodeReq.t :=
  match req, id with
  | SubscribeTo _ topics, _ => Some (NodeReq.Subscribe topics sender id)
  | UnsubscribeFrom _ topics, Some id => Some (NodeReq.Unsubscribe topics id)
  | _, _ => None
  end.

(** A request of a client: the connection asks the event service, which answers *)
Definition exchange (req : SocketRequest) (sender : Chan) (id : option Z) (s : events) :
    exec (world (option Z) effect NodeAnswer) (Result (list Z) error) * events :=
  let '(s', answers) := match asks req sender id with Some r => served r s | None => (s, []) end in
  (handle req sender (World id answers (0, []) []), s').

(** A client that unsubscribes from all it is subscribed to is taken off the switchboard, but
    its connection keeps the id it had: when it subscribes again the event service does not
    know the id, and the connection is closed with an error. *)
Theorem resubscribing_closes name name' topics sender id mask (s : events) :
  EventService.switchboard s !! id = Some (sender, mask) -> topics_from_bits mask = Some mask ->
  topics_from_bits topics = Some topics ->
  let '(r, s1) := exchange (UnsubscribeFrom name mask) sender (Some id) s in
  (exists w, r = Ret (Ok (msgpack true)) w /\ w_state w = Some id) /\
  EventService.switchboard s1 !! id = None /\
  exists w', fst (exchange (SubscribeTo name' topics) sender (Some id) s1) = Ret (Err InvalidComm) w'.
Proof.
  intros Hs Hm Ht. unfold exchange at 1. cbn [asks]. rewrite served_eq. cbn [event_req EventService.response EventService.after map].
  rewrite bool_decide_true by (rewrite Hs; by eexists). rewrite Hs, Z.lxor_nilpotent. cbn [event_res Z.eqb]. split; [|split].
  - unfold handle_socket_requests. rewrite Hm. eexists. split; reflexivity.
  - simpl. by rewrite lookup_delete_eq.
  - unfold exchange. cbn [asks]. rewrite served_eq. cbn [event_req EventService.response EventService.after map fst].
    simpl. rewrite lookup_delete_eq. unfold handle_socket_requests. rewrite Ht. eexists. reflexivity.
Qed.
End together.

(** ** Transactions of the mining tool *)
Section mining.
Context `{Hdig : Digest} `{Hring : Ring} `{!MsgPack TransactionDataV1, !MsgPack TransactionData, !MsgPack Transaction}.
Context `{!MsgPack bool, !MsgPack string}.
Context (keypair : Keys.TrinciKeyPair) (rnd : Z) (hex_encode : Hash -> string).

(** The node submits exactly the data its paired tool signed, in a transaction it signs itself,
    to its peers and to its pool; for anything else the connection is left without an answer,
    which panics it. *)
Theorem submitted_by_the_tool tool data sig sender (w : world (option Z) effect NodeAnswer) :
  match tool with
  | Some pub_key =>
      if Keys.verify pub_key (msgpack data) sig then
        match Keys.sign rnd keypair (msgpack (V1 data)) with
        | Ok signature =>
            let tx := UnitTransaction (MkSigned (V1 data) signature) in
            handle_socket_requests tool keypair rnd hex_encode (SubmitTx data sig) sender w =
            Ret (Ok (msgpack (hex_encode (get_hash tx))))
              (outs [ToNode (Told NP2P (NodeMsg.PropagateTxToPeers tx));
                     ToNode (InCore (Sent TransactionService (MkComm (KMsg (Msg.AddTx (tx, len (msgpack tx), None))) None)))] w)
        | Err _ => handle_socket_requests tool keypair rnd hex_encode (SubmitTx data sig) sender w = Panic w
        end
      else handle_socket_requests tool keypair rnd hex_encode (SubmitTx data sig) sender w = Panic w
  | None => handle_socket_requests tool keypair rnd hex_encode (SubmitTx data sig) sender w = Panic w
  end.
Proof.
  unfold handle_socket_requests, sign_and_submit. destruct tool as [pub_key|]; [|done].
  destruct (Keys.verify pub_key (msgpack data) sig); [|done]. cbn [negb].
  destruct (Keys.sign rnd keypair (msgpack (V1 data))) as [signature|e]; [|done].
  destruct w as [s a k o]. cbn. unfold mbind, M_bind, to_node, zoom, zoom_out, outs. simpl. by rewrite <- app_assoc.
Qed.
End mining.

(** ** A sample *)
Module SocketSample.
#[local] Existing Instances Samples.digest Samples.ring gmap_iter.
#[local] Instance v1_pack : MsgPack TransactionDataV1 := {| msgpack := fun d => v1_nonce d |}.
#[local] Instance data_pack : MsgPack TransactionData := {| msgpack := fun d => [1] |}.
#[local] Instance tx_pack : MsgPack Transaction := {| msgpack := fun d => [1] |}.
#[local] Instance bool_pack : MsgPack bool := {| msgpack := fun b : bool => if b then [195] else [194] |}.
#[local] Instance string_pack : MsgPack string := {| msgpack := fun _ : string => [160] |}.

Lemma datagram_roundtrip_witness : read_datagram (write_datagram 7 [1; 2; 3] ++ [9]) = Some ([1; 2; 3], [9]).
Proof. apply (datagram_roundtrip [1; 2; 3] 7); unfold len; simpl; lia. Defined.

Definition board : EventService.t (Sender := Chan) := EventService.Mk 5 {[ 4 := (0, EventService.BLOCK) ]}.

Lemma resubscribing_closes_witness :
  exists w', fst (exchange None (Samples.keypair "a") 0 (fun _ => EmptyString) (SubscribeTo "" EventService.BLOCK) 0 (Some 4)
    (snd (exchange None (Samples.keypair "a") 0 (fun _ => EmptyString) (UnsubscribeFrom "" EventService.BLOCK) 0 (Some 4) board)))
    = Ret (Err InvalidComm) w'.
Proof.
  pose proof (resubscribing_closes None (Samples.keypair "a") 0 (fun _ => EmptyString) "" "" EventService.BLOCK 0 4 EventService.BLOCK board
    eq_refl eq_refl eq_refl) as H.
  destruct (exchange None (Samples.keypair "a") 0 (fun _ => EmptyString) (UnsubscribeFrom "" EventService.BLOCK) 0 (Some 4) board) as [r s1].
  exact (proj2 (proj2 H)).
Defined.
End SocketSample.
