(* ===== verification/SocketRun.v ===== *)
(** * The socket service as it runs ([trinci-node/src/services/socket_service.rs])

    The bytes and the events a connection waits for, with what is lost of the one when the
    other comes first; a connection from its introduction to its end; the listener, which
    serves one connection after the other; and the key of the mining tool they share. *)

From stdpp Require Import base gmap strings list fin_maps.
From S2P Require Import Prelude Exec Hash Crypto CoreModels Messages Samples NodeModels WasmMachine NodeMessages EventService.
From S2P Require Import SocketService SocketTheorems.
Open Scope Z_scope.

Module SocketRun.
Import SocketService.

(** ** What a connection waits for *)

(** The bytes not read, the events of the channel, and whether the client is gone *)
Record Link : Type := MkLink { unread : list Z; events : list (list Z); closed : bool }.
Definition fresh : Link := MkLink [] [] false.

Inductive Wake : Type :=
| Arrives (bytes : list Z)
| Happens (event : list Z)
| Closes.
Definition arrive (l : Link) (w : Wake) : Link :=
  match w with
  | Arrives bytes => MkLink (unread l ++ bytes) (events l) (closed l)
  | Happens event => MkLink (unread l) (events l ++ [event]) (closed l)
  | Closes => MkLink (unread l) (events l) true
  end.

(** What [select] gives: a datagram, or the error of reading it, or an event *)
Inductive Ready : Type :=
| ReadyDatagram (buf : option (list Z))
| ReadyEvent (event : list Z).

Definition poll_event (l : Link) : option (Ready * Link) :=
  match events l with
  | [] => None
  | event :: events => Some (ReadyEvent event, MkLink (unread l) events (closed l))
  end.
(** [taken]: the bytes the read has taken so far *)
Definition poll_read (taken : list Z) (l : Link) : option (Ready * Link) :=
  match read_datagram (taken ++ unread l) with
  | Some (buf, rest) => Some (ReadyDatagram (Some buf), MkLink rest (events l) (closed l))
  | None => if closed l then Some (ReadyDatagram None, MkLink [] (events l) true) else None
  end.

(** A poll: the event or the read first, as the library chooses.  A read whose datagram is
    not there has taken all there is ([inr]), and when an event ends the [select] it is
    dropped with what it has taken. *)
Definition poll (event_first : bool) (taken : list Z) (l : Link) : (Ready * Link) + list Z :=
  let polled_read := MkLink [] (events l) (closed l) in
  let ready :=
    if event_first then match poll_event l with Some r => Some r | None => poll_read taken l end
    else match poll_read taken l with Some r => Some r | None => poll_event polled_read end in
  match ready with Some r => inl r | None => inr (taken ++ unread l) end.

(** [select] on what comes while it waits, with the order of its polls; what comes after it is
    ready is for later.  [None]: it still waits. *)
Fixpoint select (orders : list bool) (taken : list Z) (l : Link) (wakes : list Wake) : option (Ready * Link) :=
  match poll (hd false orders) taken l with
  | inl (i, l) => Some (i, fold_left arrive wakes l)
  | inr taken =>
      match wakes with
      | [] => None
      | w :: wakes => select (tail orders) taken (arrive (MkLink [] (events l) (closed l)) w) wakes
      end
  end.

(** A turn of the loop: what comes while it sleeps and while it waits, in which order it polls,
    whether what it then writes goes out; the file of the key of the mining tool and the
    draw of the random generator, if it comes to sign *)
Record Round : Type := MkRound {
  slept : list Wake;
  awaited : list Wake;
  orders : list bool;
  written : bool;
  key_file : option (list Z);
  rnd : Z
}.

Definition wait (r : Round) (l : Link) : option (Ready * Link) :=
  select (orders r) [] (fold_left arrive (slept r) l) (awaited r).

(** What the turns of a connection get *)
Fixpoint received (l : Link) (rounds : list Round) : list Ready :=
  match rounds with
  | [] => []
  | r :: rounds => match wait r l with Some (i, l) => i :: received l rounds | None => [] end
  end.

(** ** A connection *)
Section service.
Context `{Hdig : Digest} `{Hring : Ring} `{!MsgPack TransactionDataV1, !MsgPack TransactionData, !MsgPack Transaction}.
Context `{!MsgPack NodeInfo, !MsgPack bool, !MsgPack string, !MsgUnpack SocketRequest, !MsgUnpack Keys.TrinciPublicKey}.
Context (keypair : Keys.TrinciKeyPair) (hex_encode : Hash -> string).

(** The id of the client at the event service, its link, and the key of the mining tool *)
Record Conn : Type := MkConn { c_id : option Z; c_link : Link; c_key : option Keys.TrinciPublicKey }.
Definition set_id (i : option Z) (c : Conn) : Conn := MkConn i (c_link c) (c_key c).
Definition set_link (l : Link) (c : Conn) : Conn := MkConn (c_id c) l (c_key c).
Definition set_key (k : option Keys.TrinciPublicKey) (c : Conn) : Conn := MkConn (c_id c) (c_link c) k.

Abbreviation h := (M Conn effect NodeAnswer).

(** The signer looks for the key when it gets a submission. *)
Definition key_after (r : Round) (i : Ready) (key : option Keys.TrinciPublicKey) : option Keys.TrinciPublicKey :=
  match i with
  | ReadyDatagram (Some buf) =>
      match msgunpack buf with
      | Some (SubmitTx _ _) => snd (get_mining_tool_pub_key (key_file r) key)
      | _ => key
      end
  | _ => key
  end.

Definition input (i : Ready) (written : bool) : Input :=
  match i with
  | ReadyDatagram buf => InDatagram buf written
  | ReadyEvent event => InEvent (Some event) written
  end.

(** The loop; [None]: it still waits. *)
Fixpoint serve (event_sender : Chan) (rounds : list Round) : h (option (Result unit error)) :=
  match rounds with
  | [] => mret None
  | r :: rounds =>
      c ← get_state;
      match wait r (c_link c) with
      | None => mret None
      | Some (i, link) =>
          let key := key_after r i (c_key c) in
          modify (fun c => set_key key (set_link link c)) ;;
          res ← zoom c_id set_id (fun e => e) (turn key keypair (rnd r) hex_encode event_sender (input i (written r)));
          match res with Some res => mret (Some res) | None => serve event_sender rounds end
      end
  end.

(** A client that connects: the channel of its events, whether the introduction goes out,
    and the turns *)
Record Client : Type := MkClient { cl_events : Chan; cl_greeted : bool; cl_rounds : list Round }.

(** [connection_handler]: the node is introduced, with its mining account. *)
Definition connection_handler (node_info : NodeInfo) (client : Client) : h (option (Result unit error)) :=
  r ← zoom c_id set_id (fun e => e) (to_node (ask_node NDB NodeReq.GetMiningAccount));
  let account := match r with Ok (NodeRes.GetMiningAccount account) => account | _ => mining_account_id node_info end in
  let node_info := MkNodeInfo (addr node_info) account (network node_info) (nonce node_info) (ni_public_key node_info)
                     (rest_port node_info) in
  if cl_greeted client then emit (Written (msgpack node_info)) ;; serve (cl_events client) (cl_rounds client)
  else mret (Some (Err IoError)).

(** ** The listener *)

(** What a connection does, with its place among those accepted *)
Inductive served_effect : Type := At (place : nat) (e : effect).
Abbreviation service := (M (option Keys.TrinciPublicKey) served_effect NodeAnswer).

Definition accept (node_info : NodeInfo) (place : nat) (client : Client) : service (option (Result unit error)) :=
  zoom (MkConn None fresh) (fun c _ => c_key c) (At place) (connection_handler node_info client).

(** [run] once the listener is bound: the task of a connection is awaited before the next is
    looked at; [None] is a connection that fails before it starts. *)
Fixpoint incoming (node_info : NodeInfo) (place : nat) (streams : list (option Client)) : service unit :=
  match streams with
  | [] => mret tt
  | None :: streams => incoming node_info (S place) streams
  | Some client :: streams =>
      r ← accept node_info place client;
      match r with None => mret tt | Some _ => incoming node_info (S place) streams end
  end.

Definition run (node_info : NodeInfo) (bound : bool) (streams : list (option Client)) : service unit :=
  if bound then incoming node_info 0 streams else panic.

(** [start], with the file of the key as it is then; the key is the state. *)
Definition start (file : option (list Z)) (node_info : NodeInfo) (bound : bool) (streams : list (option Client)) :
    service unit :=
  key ← expect (new_pub_key file);
  modify (fun _ => key) ;;
  run node_info bound streams.
End service.

(** ** What the bytes stand for

    A client that writes each request whole, and an event service: the requests and the
    events that wait are two queues. *)

Definition datagram (buf : list Z) : list Z := write_datagram (4 + len buf) buf.
Definition sendable (buf : list Z) : Prop := len buf < 2 ^ 32.

Record Queue : Type := MkQueue { q_requests : list (list Z); q_events : list (list Z); q_closed : bool }.
Inductive Coming : Type :=
| Requested (bufs : list (list Z))
| Happened (event : list Z)
| Gone.
Definition enqueue (q : Queue) (c : Coming) : Queue :=
  match c with
  | Requested bufs => MkQueue (q_requests q ++ bufs) (q_events q) (q_closed q)
  | Happened event => MkQueue (q_requests q) (q_events q ++ [event]) (q_closed q)
  | Gone => MkQueue (q_requests q) (q_events q) true
  end.
Definition next_request (q : Queue) : option (Ready * Queue) :=
  match q_requests q with
  | buf :: bufs => Some (ReadyDatagram (Some buf), MkQueue bufs (q_events q) (q_closed q))
  | [] => if q_closed q then Some (ReadyDatagram None, q) else None
  end.
Definition next_event (q : Queue) : option (Ready * Queue) :=
  match q_events q with
  | [] => None
  | event :: events => Some (ReadyEvent event, MkQueue (q_requests q) events (q_closed q))
  end.
Definition dequeue (event_first : bool) (q : Queue) : option (Ready * Queue) :=
  if event_first then match next_event q with Some r => Some r | None => next_request q end
  else match next_request q with Some r => Some r | None => next_event q end.
Fixpoint next (orders : list bool) (q : Queue) (cs : list Coming) : option (Ready * Queue) :=
  match dequeue (hd false orders) q with
  | Some (i, q) => Some (i, fold_left enqueue cs q)
  | None => match cs with [] => None | c :: cs => next (tail orders) (enqueue q c) cs end
  end.
(** What comes while the loop sleeps and while it waits, and the order of its polls *)
Definition Turn : Type := list Coming * list Coming * list bool.
Fixpoint all_next (q : Queue) (turns : list Turn) : list Ready :=
  match turns with
  | [] => []
  | (slept, awaited, orders) :: turns =>
      match next orders (fold_left enqueue slept q) awaited with Some (i, q) => i :: all_next q turns | None => [] end
  end.

(** The bytes *)
Definition wire (bufs : list (list Z)) : list Z := concat (map datagram bufs).
Definition as_wake (c : Coming) : Wake :=
  match c with Requested bufs => Arrives (wire bufs) | Happened event => Happens event | Gone => Closes end.
Definition as_link (q : Queue) : Link := MkLink (wire (q_requests q)) (q_events q) (q_closed q).
Definition as_round '((slept, awaited, orders) : Turn) : Round :=
  MkRound (map as_wake slept) (map as_wake awaited) orders true None 0.

Definition sendable_coming (c : Coming) : Prop := match c with Requested bufs => Forall sendable bufs | _ => True end.
Definition sendable_turn '((slept, awaited, _) : Turn) : Prop := Forall sendable_coming slept /\ Forall sendable_coming awaited.

Lemma enqueue_link q c : arrive (as_link q) (as_wake c) = as_link (enqueue q c).
Proof. destruct c; [|done|done]. unfold as_link, wire. simpl. by rewrite map_app, concat_app. Qed.

Lemma enqueue_links cs q : fold_left arrive (map as_wake cs) (as_link q) = as_link (fold_left enqueue cs q).
Proof. revert q. induction cs as [|c cs IH]; intros q; [done|]. simpl. by rewrite enqueue_link. Qed.

Lemma enqueue_sendable q c : Forall sendable (q_requests q) -> sendable_coming c -> Forall sendable (q_requests (enqueue q c)).
Proof. destruct c; [|done|done]. intros ? ?. by apply Forall_app. Qed.

Lemma enqueues_sendable cs q :
  Forall sendable (q_requests q) -> Forall sendable_coming cs -> Forall sendable (q_requests (fold_left enqueue cs q)).
Proof. intros Hq Hcs. revert q Hq. induction Hcs as [|c cs Hc _ IH]; intros q Hq; [done|]. by apply IH, enqueue_sendable. Qed.

Lemma poll_read_link q :
  Forall sendable (q_requests q) -> poll_read [] (as_link q) = prod_map id as_link <$> next_request q.
Proof.
  destruct q as [[|buf bufs] events closed]; intros Hq; unfold poll_read, next_request; cbn [app as_link q_requests unread]; [by destruct closed|].
  apply Forall_cons in Hq as [Hb _]. change (wire (buf :: bufs)) with (datagram buf ++ wire bufs). unfold datagram.
  rewrite whole_datagram_read by (done || lia). done.
Qed.

Lemma poll_event_link q : poll_event (as_link q) = prod_map id as_link <$> next_event q.
Proof. by destruct q as [? [] ?]. Qed.

Lemma poll_link first q :
  Forall sendable (q_requests q) ->
  poll first [] (as_link q) = match dequeue first q with Some (i, q) => inl (i, as_link q) | None => inr [] end.
Proof.
  intros Hq. unfold poll, dequeue. rewrite poll_read_link, poll_event_link by done.
  destruct q as [[|buf bufs] [|event events] []], first; done.
Qed.

Lemma dequeue_sendable first q i q' :
  Forall sendable (q_requests q) -> dequeue first q = Some (i, q') -> Forall sendable (q_requests q').
Proof.
  destruct first, q as [[|buf bufs] [|event events] []]; cbn; intros Hq [= <- <-]; try done; by apply Forall_cons in Hq as [_ ?].
Qed.

Lemma dequeue_none first q : dequeue first q = None -> MkLink [] (q_events q) (q_closed q) = as_link q.
Proof. destruct q as [[|buf bufs] [|event events] []], first; done. Qed.

Lemma select_link orders cs q :
  Forall sendable (q_requests q) -> Forall sendable_coming cs ->
  select orders [] (as_link q) (map as_wake cs) = prod_map id as_link <$> next orders q cs /\
  forall i q', next orders q cs = Some (i, q') -> Forall sendable (q_requests q').
Proof.
  intros Hq Hcs. revert orders q Hq. induction Hcs as [|c cs Hc Hcs IH]; intros orders q Hq; simpl; rewrite (poll_link _ q Hq);
    destruct (dequeue _ q) as [[i q1]|] eqn:Ed; simpl.
  - split; [done|]. intros i' q' [= <- <-]. by eapply dequeue_sendable.
  - done.
  - rewrite enqueue_link, enqueue_links. split; [done|]. intros i' q' [= <- <-].
    apply enqueues_sendable; [|done]. apply enqueue_sendable; [by eapply dequeue_sendable|done].
  - rewrite (dequeue_none _ _ Ed), enqueue_link. apply IH. by apply enqueue_sendable.
Qed.

(** C28: a connection whose client writes each of its requests whole gets the requests and the
    events as they were put, none lost and each in their order, whenever they come and in
    whatever order it polls; after the last request a client that is gone ends it. *)
Theorem requests_received q turns :
  Forall sendable (q_requests q) -> Forall sendable_turn turns ->
  received (as_link q) (map as_round turns) = all_next q turns.
Proof.
  intros Hq Ht. revert q Hq. induction Ht as [|[[slept awaited] orders] turns [Hs Ha] _ IH]; intros q Hq; [done|]. simpl.
  unfold wait. simpl. rewrite enqueue_links.
  destruct (select_link orders awaited (fold_left enqueue slept q)) as [-> Hn]; [by apply enqueues_sendable|done|].
  destruct (next _ _ awaited) as [[i q1]|] eqn:En; simpl; [|done]. f_equal. by eapply IH, Hn.
Qed.

(** ** Requests in pieces *)

Lemma read_exact_more n xs ys buf rest : read_exact n xs = Some (buf, rest) -> read_exact n (xs ++ ys) = Some (buf, rest ++ ys).
Proof.
  unfold read_exact, len. rewrite length_app. intros H. destruct (Z.ltb_spec (Z.of_nat (length xs)) n) as [|Hn]; [done|]. injection H as <- <-.
  destruct (Z.ltb_spec (Z.of_nat (length xs + length ys)) n); [lia|]. rewrite take_app_le, drop_app_le by lia. done.
Qed.

Lemma read_datagram_more xs ys buf rest : read_datagram xs = Some (buf, rest) -> read_datagram (xs ++ ys) = Some (buf, rest ++ ys).
Proof.
  unfold read_datagram. intros ([head body] & Hh & Hb)%bind_Some. rewrite (read_exact_more _ _ ys _ _ Hh). by apply read_exact_more.
Qed.

Lemma arrive_chunks chunks xs :
  fold_left arrive (map Arrives chunks) (MkLink xs [] false) = MkLink (xs ++ concat chunks) [] false.
Proof.
  revert xs. induction chunks as [|c chunks IH]; intros xs; simpl; [by rewrite app_nil_r|]. by rewrite IH, app_assoc.
Qed.

(** As long as no event happens, the pieces a request comes in do not matter. *)
Theorem chunks_joined orders taken xs chunks :
  select orders taken (MkLink xs [] false) (map Arrives chunks) =
    (fun '(buf, rest) => (ReadyDatagram (Some buf), MkLink rest [] false)) <$> read_datagram (taken ++ xs ++ concat chunks).
Proof.
  assert (Hp : forall first taken xs, poll first taken (MkLink xs [] false) =
    match read_datagram (taken ++ xs) with
    | Some (buf, rest) => inl (ReadyDatagram (Some buf), MkLink rest [] false) | None => inr (taken ++ xs) end).
  { intros first tk ys. unfold poll, poll_read. simpl. by destruct (read_datagram (tk ++ ys)) as [[buf rest]|], first. }
  revert orders taken xs. induction chunks as [|c chunks IH]; intros orders taken xs; simpl; rewrite Hp.
  - rewrite app_nil_r. by destruct (read_datagram (taken ++ xs)) as [[buf rest]|].
  - rewrite (app_assoc taken xs (c ++ concat chunks)). destruct (read_datagram (taken ++ xs)) as [[buf rest]|] eqn:E.
    + rewrite (read_datagram_more _ (c ++ concat chunks) _ _ E). simpl. by rewrite arrive_chunks, app_assoc.
    + simpl. by rewrite IH.
Qed.

Lemma event_drops orders xs event :
  read_datagram xs = None -> select orders [] fresh [Arrives xs; Happens event] = Some (ReadyEvent event, fresh).
Proof.
  intros H.
  assert (H1 : forall first, poll first [] fresh = inr []) by by intros [].
  assert (H2 : forall first, poll first [] (MkLink xs [] false) = inr xs)
    by (intros []; unfold poll, poll_read; cbn [poll_event events app unread closed]; by rewrite H).
  assert (H3 : forall first, poll first xs (MkLink [] [event] false) = inl (ReadyEvent event, fresh))
    by (intros []; unfold poll, poll_read; cbn [poll_event events unread closed]; by rewrite ?app_nil_r, ?H).
  cbn [select]. rewrite H1. cbn [arrive unread events closed fresh app]. rewrite H2. cbn [arrive unread events closed app].
  by rewrite H3.
Qed.

(** An event that comes between two pieces of a request has the first one dropped: the request
    is lost, and what the node reads next is what stands in the second, another request if
    it looks like one. *)
Theorem split_request_misread xs inner event orders orders' key rnd :
  sendable (xs ++ datagram inner) -> sendable inner ->
  let request := datagram (xs ++ datagram inner) in
  received fresh
    [MkRound [] [Arrives (take (4 + length xs) request); Happens event] orders true key rnd;
     MkRound [] [Arrives (drop (4 + length xs) request)] orders' true key rnd] =
  [ReadyEvent event; ReadyDatagram (Some inner)].
Proof.
  intros Hs Hi request. pose proof (len_nonneg inner) as H0. pose proof (len_nonneg xs) as H1.
  assert (Hr : request = (u32_to_be_bytes (len (xs ++ datagram inner)) ++ xs) ++ datagram inner).
  { unfold request. unfold datagram at 1, write_datagram. unfold sendable in Hs. pose proof (len_nonneg (xs ++ datagram inner)).
    rewrite Z.mod_small by lia. rewrite take_ge; [by rewrite app_assoc|]. unfold len, u32_to_be_bytes. simpl. lia. }
  assert (Hd : len (datagram inner) = 4 + len inner).
  { unfold datagram, write_datagram. unfold len. rewrite length_take, length_app. simpl. lia. }
  rewrite Hr, take_app_length', drop_app_length' by (rewrite length_app; done).
  assert (Hp : read_datagram (u32_to_be_bytes (len (xs ++ datagram inner)) ++ xs) = None).
  { unfold read_datagram. rewrite (read_exact_app 4) by done. simpl. unfold sendable in Hs. pose proof (len_nonneg (xs ++ datagram inner)).
    rewrite be_bytes_roundtrip by lia. apply read_exact_short. rewrite len_app. lia. }
  assert (Hread : read_datagram (datagram inner) = Some (inner, [])).
  { rewrite <- (app_nil_r (datagram inner)). unfold datagram. apply whole_datagram_read; [done|lia]. }
  cbn [received]. unfold wait. cbn [slept awaited SocketRun.orders fold_left]. rewrite (event_drops orders _ event Hp).
  pose proof (chunks_joined orders' [] [] [datagram inner]) as Hc. cbn [map concat app] in Hc. rewrite app_nil_r, Hread in Hc.
  unfold fresh at 1. rewrite Hc. done.
Qed.

(** ** One connection at a time *)
Section listener.
Context `{Hdig : Digest} `{Hring : Ring} `{!MsgPack TransactionDataV1, !MsgPack TransactionData, !MsgPack Transaction}.
Context `{!MsgPack NodeInfo, !MsgPack bool, !MsgPack string, !MsgUnpack SocketRequest, !MsgUnpack Keys.TrinciPublicKey}.
Context (keypair : Keys.TrinciKeyPair) (hex_encode : Hash -> string).
Abbreviation incoming := (incoming keypair hex_encode).
Abbreviation accept := (accept keypair hex_encode).

(** A connection that is open keeps the clients that come after it from being looked at. *)
Theorem later_clients_wait info place client later w w' :
  accept info place client w = Ret None w' -> incoming info place (Some client :: later) w = Ret tt w'.
Proof. intros H. simpl. by rewrite bind_eq, H. Qed.
End listener.

(** ** A sample *)
Lemma requests_received_witness :
  received fresh (map as_round [([Happened [9]; Requested [[1]; [2; 3]]], [], []); ([], [], [true]); ([], [], []); ([], [Gone], [])]) =
  [ReadyDatagram (Some [1]); ReadyEvent [9]; ReadyDatagram (Some [2; 3]); ReadyDatagram None].
Proof.
  apply (requests_received (MkQueue [] [] false)); [constructor|].
  repeat constructor; unfold sendable, len; simpl; lia.
Defined.
End SocketRun.
