(* ===== verification/RestApi.v ===== *)
(** * The REST interface ([trinci-node/src/services/rest_api.rs])

    The handlers of the endpoints: each asks the services of the node and turns what they
    answer into a response.  The texts of JSON, hexadecimal texts and the decoding of the
    parts of an address are what the libraries make of them. *)

From stdpp Require Import base gmap strings list fin_maps pretty.
From Stdlib Require Import Ascii.
From S2P Require Import Prelude.
From S2P Require Import Exec.
From S2P Require Import Hash.
From S2P Require Import Crypto.
From S2P Require Import CoreModels.
From S2P Require Import Messages.
From S2P Require Import NodeModels.
From S2P Require Import NodeErrors.
From S2P Require Import WasmMachine.
From S2P Require Import NodeMessages.
From S2P Require Import P2PService.
Open Scope Z_scope.

(** ** What the libraries do *)

(** [serde_json] *)
Class ToJson (X : Type) : Type := { to_json : X -> option string }.
Class FromJson (X : Type) : Type := { from_json : string -> option X }.

(** [hex::decode] *)
Class Unhex : Type := { hex_decode : string -> option (list Z) }.

(** [urlencoding::decode] *)
Class UrlDecode : Type := { url_decode : string -> option string }.

(** [str::parse] of an unsigned number of [bits] bits: digits, after a sign or none *)
Definition digit (c : Ascii.ascii) : option Z :=
  let n := Z.of_N (Ascii.N_of_ascii c) - 48 in
  if (0 <=? n) && (n <=? 9) then Some n else None.
Fixpoint parse_digits (bits n : Z) (s : string) : option Z :=
  match s with
  | EmptyString => Some n
  | String c rest =>
      match digit c with
      | Some d => if n * 10 + d <? 2 ^ bits then parse_digits bits (n * 10 + d) rest else None
      | None => None
      end
  end.
Definition parse_unsigned (bits : Z) (s : string) : option Z :=
  match s with
  | EmptyString => None
  | String c rest =>
      if Ascii.eqb c "+"%char then if bool_decide (rest = EmptyString) then None else parse_digits bits 0 rest
      else parse_digits bits 0 s
  end.

(** ** Responses *)
Inductive StatusCode : Type := StOk | BadRequest | PayloadTooLarge | InternalServerError.
Definition is_success (st : StatusCode) : bool := match st with StOk => true | _ => false end.

Inductive Body : Type :=
| NoBody
| Text (s : string)
| Bytes (buf : list Z).

Record Response : Type := MkResponse { status : StatusCode; body : Body }.
Definition new_response (st : StatusCode) : Response := MkResponse st NoBody.
Definition set_body (b : Body) (r : Response) : Response := MkResponse (status r) b.
(** [take_body]: nothing is left *)
Definition take_body (r : Response) : Body * Response := (body r, MkResponse (status r) NoBody).

(** Why a request fails; [Converted] is an error of a library, by [?]. *)
Inductive RestCause : Type :=
| InvalidComm
| TooLarge
| CommFault (e : NodeCommError)
| Because (text : string)
| Converted.
Record Error : Type := MkError { code : StatusCode; cause : RestCause }.
Definition converted : Error := MkError InternalServerError Converted.

(** ** The state of the interface *)
Record NodeConfigs : Type := MkNodeConfigs {
  bootstrap_path : string;
  db_path : string;
  p2p_peer_id : string;
  p2p_addresses : option (list string);
  p2p_relay : option (list string);
  c_rest_port : Z;
  socket_port : Z;
  trinci_peer_id : string
}.
Definition set_p2p_addresses (x : option (list string)) (c : NodeConfigs) : NodeConfigs :=
  MkNodeConfigs (bootstrap_path c) (db_path c) (p2p_peer_id c) x (p2p_relay c) (c_rest_port c) (socket_port c) (trinci_peer_id c).
Record CratesVersion : Type := MkCratesVersion { cv_node : string; cv_core : string }.
Record DbStatus : Type := MkDbStatus { ds_height : Z; ds_db_hash : Hash }.
Record Visa : Type := MkVisa {
  v_crates_version : CratesVersion;
  v_db_status : DbStatus;
  v_node_configs : NodeConfigs;
  v_network_name : string
}.
Record State : Type := MkState { node_configs : NodeConfigs; network_name : string }.

(** [utils::get_system_stats] *)
Record ResourceInfo : Type := MkResourceInfo { used : Z; total : Z; measure : string }.
Record SystemStats : Type := MkSystemStats { cpus_usage : ResourceInfo; disk_usage : ResourceInfo; mem_usage : ResourceInfo }.

(** The codecs of the interface *)
Class RestCodecs : Type := {
  json_account :: ToJson Account.t;
  json_full_block :: ToJson (option (FullBlock Block Confirmation Transaction));
  json_status :: ToJson DbStatus;
  json_string :: ToJson string;
  json_players :: ToJson (option (list Player));
  json_receipt :: ToJson (option Receipt);
  json_stats :: ToJson SystemStats;
  json_transaction :: ToJson Transaction;
  json_visa :: ToJson Visa;
  read_full_block :: MsgUnpack (FullBlock Block Confirmation Transaction);
  read_transaction :: MsgUnpack Transaction;
  read_public_key :: MsgUnpack Keys.TrinciPublicKey;
  write_transaction :: MsgPack Transaction;
  rest_unhex :: Unhex;
  rest_url :: UrlDecode
}.

(** How the writing of the key of the mining tool ends *)
Inductive Writing : Type :=
| NotCreated
| WrittenUpTo (n : nat)
| WrittenAll.

Module RestApi.
Section handlers.
Context `{Hdig : Digest} `{!MsgPack TransactionData} `{Hcodecs : RestCodecs}.
Context {S : Type}.
Abbreviation h := (M S NodeEffect NodeAnswer).
Abbreviation Res := (Result Response Error).

(** A response with a JSON body *)
Definition json_response {X} `{!ToJson X} (x : X) : Res :=
  match to_json x with
  | Some text => Ok (set_body (Text text) (new_response StOk))
  | None => Err converted
  end.

(** What is asked and answered otherwise fails. *)
Definition fault (r : Result NodeRes.t NodeCommError) : Error :=
  match r with
  | Ok _ => MkError InternalServerError InvalidComm
  | Err e => MkError InternalServerError (CommFault e)
  end.

(** ** Accounts *)
Definition get_account_internal (account_id : string) : h Res :=
  r ← ask_node NDB (NodeReq.GetAccount account_id);
  mret (match r with
        | Ok (NodeRes.GetAccount (Some account)) => json_response account
        | Ok (NodeRes.GetAccount None) => Ok (set_body (Text "{}") (new_response StOk))
        | r => Err (fault r)
        end).
Definition get_account (account_id : string) : h Res :=
  match url_decode account_id with
  | Some account_id => get_account_internal account_id
  | None => mret (Err converted)
  end.

Definition get_account_data_internal (account_id key : string) : h Res :=
  r ← ask_node NDB (NodeReq.GetAccountData account_id key);
  mret (match r with
        | Ok (NodeRes.GetAccountData (Some data)) => Ok (set_body (Bytes data) (new_response StOk))
        | r => Err (fault r)
        end).
Definition get_account_data (account_id key : string) : h Res :=
  match url_decode account_id with
  | Some account_id =>
      match url_decode key with
      | Some key => get_account_data_internal account_id key
      | None => mret (Err converted)
      end
  | None => mret (Err converted)
  end.

(** ** Blocks, receipts and transactions *)
Definition get_full_block_internal (block_height : Z) : h Res :=
  r ← ask_node NDB (NodeReq.GetFullBlock block_height []);
  mret (match r with
        | Ok (NodeRes.GetFullBlock full_block _) => json_response full_block
        | r => Err (fault r)
        end).
Definition get_full_block (block_height : string) : h Res :=
  match parse_unsigned 64 block_height with
  | Some block_height => get_full_block_internal block_height
  | None => mret (Err converted)
  end.

(** [Hash::from_bytes] of a hexadecimal text *)
Definition hash_of_hex (hex : string) : option Hash :=
  match hex_decode hex with
  | Some bytes => match Hashes.from_bytes bytes with Ok hash => Some hash | Err _ => None end
  | None => None
  end.

Definition get_receipt_internal (receipt_hash_hex : string) : h Res :=
  match hash_of_hex receipt_hash_hex with
  | Some receipt_hash =>
      r ← ask_node NDB (NodeReq.GetRx receipt_hash);
      mret (match r with
            | Ok (NodeRes.GetRx receipt) => json_response receipt
            | r => Err (fault r)
            end)
  | None => mret (Err converted)
  end.
Definition get_receipt (receipt_hash_hex : string) : h Res := get_receipt_internal receipt_hash_hex.

Definition get_transaction_internal (transaction_hash_hex : string) : h Res :=
  match hash_of_hex transaction_hash_hex with
  | Some transaction_hash =>
      r ← ask_node NDB (NodeReq.GetTxs [transaction_hash]);
      mret (match r with
            | Ok (NodeRes.GetTxs transactions) =>
                match transactions with
                | transaction :: _ => json_response transaction
                | [] => Ok (new_response StOk)
                end
            | r => Err (fault r)
            end)
  | None => mret (Err converted)
  end.
Definition get_transaction (transaction_hash_hex : string) : h Res := get_transaction_internal transaction_hash_hex.

(** ** The node *)
Definition get_node_status : h Res :=
  r ← ask_node NDB NodeReq.GetStatus;
  mret (match r with
        | Ok (NodeRes.GetStatus height db_hash) => json_response (MkDbStatus height db_hash)
        | r => Err (fault r)
        end).

Definition get_p2p_id (s : State) : Res := json_response (p2p_peer_id (node_configs s)).

Definition get_players : h Res :=
  r ← ask_node NDB NodeReq.GetPlayers;
  mret (match r with
        | Ok (NodeRes.GetPlayers players) => json_response players
        | r => Err (fault r)
        end).

Definition get_system_status (stats : SystemStats) : Res := json_response stats.

Definition get_unconfirmed_pool_len_internal : h Res :=
  r ← ask_core TransactionService Req.GetPoolLength;
  mret (match r with
        | Ok (Res.GetPoolLength length) => Ok (set_body (Text (pretty (Z.to_N length))) (new_response StOk))
        | Ok _ => Err (MkError InternalServerError InvalidComm)
        | Err e => Err (MkError InternalServerError (CommFault e))
        end).
Definition get_unconfirmed_pool_len : h Res := get_unconfirmed_pool_len_internal.

(** [version] are the versions the crates were built with. *)
Definition get_visa (version : CratesVersion) (s : State) : h Res :=
  r ← ask_node NDB NodeReq.GetStatus;
  match r with
  | Ok (NodeRes.GetStatus height db_hash) =>
      r ← ask_node NP2P NodeReq.GetP2pAddresses;
      mret (match r with
            | Ok (NodeRes.GetP2pAddresses addresses) =>
                json_response
                  (MkVisa version (MkDbStatus height db_hash) (set_p2p_addresses (Some addresses) (node_configs s)) (network_name s))
            | r => Err (fault r)
            end)
  | r => mret (Err (fault r))
  end.

Definition is_healthy : Res := Ok (new_response StOk).

(** ** Transactions and blocks that are submitted *)
Definition submit_tx_internal (network_name : string) (tx : Transaction) : h Res :=
  if negb (bool_decide (TxData.get_network (s_data (signed tx)) = network_name)) then
    mret (Err (MkError BadRequest (Because "Bad transaction network")))
  else
    r ← ask_node NDB (NodeReq.HasTx (get_hash tx));
    match r with
    | Ok (NodeRes.HasTx has_tx) =>
        if (has_tx : bool) then mret (Ok (MkResponse StOk (Text "Tx already present in DB")))
        else
          tell NP2P (NodeMsg.PropagateTxToPeers tx) ;;
          tell_core TransactionService (Msg.AddTx (tx, len (msgpack tx), retrieve_attachments_from_tx tx)) ;;
          mret (Ok (MkResponse StOk (Text "Tx submitted")))
    | r => mret (Err (fault r))
    end.

Definition submit_tx (s : State) (body : list Z) : h Res :=
  if Consts.BLOCK_MAX_SIZE_BYTES - Consts.BLOCK_BASE_SIZE_BYTES <=? len body then
    mret (Err (MkError PayloadTooLarge TooLarge))
  else
    match msgunpack body with
    | Some tx => submit_tx_internal (network_name s) tx
    | None => mret (Err converted)
    end.

Definition submit_t2_block (body : list Z) : h Res :=
  match msgunpack body with
  | None => mret (Err converted)
  | Some full_block =>
      let block := fb_block full_block in
      r ← ask_node NDB (NodeReq.HasBlock (bd_height (block_data block)));
      match r with
      | Ok (NodeRes.HasBlock has_block) =>
          if (has_block : bool) then mret (Ok (MkResponse StOk (Text "Block already present in DB")))
          else
            for_each (fb_txs full_block) (fun tx =>
              tell_core TransactionService (Msg.AddTx (tx, len (msgpack tx), retrieve_attachments_from_tx tx))) ;;
            confirmation ← expect (head (fb_confirmations full_block));
            tell_core ConsensusService (Msg.BlockFromPeer block confirmation (map get_hash (fb_txs full_block))) ;;
            mret (Ok (MkResponse StOk (Text "Block submitted")))
      | r => mret (Err (fault r))
      end
  end.

(** ** The mining tool

    [file] is the file of the key of the tool, if there is one. *)
Definition pairing_mining_tool (body : list Z) (writing : Writing) (file : option (list Z)) : Res * option (list Z) :=
  match msgunpack (X := Keys.TrinciPublicKey) body with
  | None => (Err (MkError BadRequest Converted), file)
  | Some _ =>
      match file with
      | Some _ => (Err (MkError BadRequest (Because "Node already paired with a mining tool.")), file)
      | None =>
          match writing with
          | NotCreated => (Err converted, None)
          | WrittenUpTo n => (Err converted, Some (take n body))
          | WrittenAll => (Ok (new_response StOk), Some body)
          end
      end
  end.
End handlers.

(** *** Addresses of four bytes, by the classes of their networks *)
Definition Ipv4Addr : Type := Z * Z * Z * Z.

Definition determine_subnet_mask (ip : Ipv4Addr) : Ipv4Addr :=
  let '(first_octet, _, _, _) := ip in
  if first_octet <? 128 then (255, 0, 0, 0)
  else if first_octet <? 192 then (255, 255, 0, 0)
  else (255, 255, 255, 0).

Definition apply_subnet_mask (ip subnet_mask : Ipv4Addr) : Ipv4Addr :=
  let '(a, b, c, d) := ip in
  let '(ma, mb, mc, md) := subnet_mask in
  (Z.land a ma, Z.land b mb, Z.land c mc, Z.land d md).

Definition are_in_same_network (ip1 ip2 : Ipv4Addr) : bool :=
  let subnet_mask := determine_subnet_mask ip1 in
  bool_decide (apply_subnet_mask ip1 subnet_mask = apply_subnet_mask ip2 subnet_mask).

(** *** The answer to a tool that looks for nodes *)
Section assembly.
Context `{!IpText} {S : Type}.
Abbreviation h := (M S NodeEffect NodeAnswer).

Record InfoBroadcast : Type := MkInfoBroadcast { ib_ip : string; ib_rest : Z; ib_socket : Z }.

(** [parse::<Ipv4Addr>().unwrap()] *)
Definition ipv4_of (ip : string) : h Ipv4Addr :=
  expect (match parse_ip ip with Some (V4 a b c d) => Some (a, b, c, d) | _ => None end).

(** The first address of the node in the network of the source *)
Fixpoint find_local (src : Ipv4Addr) (ips : list string) : h (option string) :=
  match ips with
  | [] => mret None
  | ip :: ips =>
      addr ← ipv4_of ip;
      if are_in_same_network src addr then mret (Some ip) else find_local src ips
  end.

(** What comes of a message of a tool: the node stops to wait, because it is paired or because the
    addresses were not answered ([None]), or goes on with what it posts to the tool, if anything.  [paired]: the file
    of the key opens. *)
Definition assembly_step (paired : bool) (src : Ipv4Addr) (rest_port socket_port : Z) : h (option (option InfoBroadcast)) :=
  if paired then mret None
  else
    r ← ask_node NP2P NodeReq.GetP2pAddresses;
    match r with
    | Ok (NodeRes.GetP2pAddresses addresses) =>
        let ips := omap (fun interface => split_terminator interface !! 2%nat) addresses in
        local_addr ← find_local src ips;
        mret (Some ((fun local_addr => MkInfoBroadcast local_addr rest_port socket_port) <$> local_addr))
    | _ => mret None
    end.

(** [answer_mt_assembly]: with each message whether the file opens then; what is posted, in order *)
Fixpoint answer_mt_assembly_loop (rest_port socket_port : Z) (msgs : list (bool * Ipv4Addr)) : h (list (Ipv4Addr * InfoBroadcast)) :=
  match msgs with
  | [] => mret []
  | (paired, src) :: msgs =>
      r ← assembly_step paired src rest_port socket_port;
      match r with
      | None => mret []
      | Some posted =>
          rest ← answer_mt_assembly_loop rest_port socket_port msgs;
          mret (match posted with Some info => (src, info) :: rest | None => rest end)
      end
  end.

Definition answer_mt_assembly (paired : bool) (rest_port socket_port : Z) (msgs : list (bool * Ipv4Addr)) :
    h (list (Ipv4Addr * InfoBroadcast)) :=
  if paired then mret [] else answer_mt_assembly_loop rest_port socket_port msgs.
End assembly.
End RestApi.
