(* ===== verification/RestApiT2.v ===== *)
(** * The interface of the earlier protocol ([trinci-node/src/services/rest_api_t2.rs])

    Messages, one by one or packed, packs of packs among them, are turned into the
    requests of the REST interface, and its responses, read back from JSON, into messages. *)

From stdpp Require Import base gmap strings list fin_maps pretty.
From S2P Require Import Prelude.
From S2P Require Import Exec.
From S2P Require Import Hash.
From S2P Require Import Crypto.
From S2P Require Import CoreModels.
From S2P Require Import DRand.
From S2P Require Import Messages.
From S2P Require Import Utf8.
From S2P Require Import NodeModels.
From S2P Require Import NodeErrors.
From S2P Require Import WasmMachine.
From S2P Require Import NodeMessages.
From S2P Require Import RestApi.
Open Scope Z_scope.
Import RestApi.

Inductive RestRequest : Type :=
| Exception (kind source : string)
| PutTransactionRequest (confirm : bool) (tx : Transaction)
| PutTransactionResponse (hash : Hash)
| GetTransactionRequest (hash : Hash) (destination : option string)
| GetTransactionResponse (tx : Transaction) (origin : option string)
| GetReceiptRequest (hash : Hash)
| GetReceiptResponse (rx : Receipt)
| GetBlockRequest (height : Z) (txs : bool) (destination : option string)
| GetBlockResponse (block : Block) (txs : option (list Hash)) (origin : option string)
| GetAccountRequest (id : string) (data : list string)
| GetAccountResponse (acc : Account.t) (data : list (option (list Z)))
| GetCoreStatsRequest
| GetCoreStatsResponse (stats : Hash * Z * option Block)
| GetNetworkIdRequest
| GetNetworkIdResponse (name : string)
| Stop
| Packed (buf : list Z).

(** One message or several *)
Inductive MultiMessage : Type :=
| Simple (m : RestRequest)
| Sequence (ms : list RestRequest).

(** The codecs of the messages *)
Class T2Codecs : Type := {
  read_json_account :: FromJson Account.t;
  read_json_full_block :: FromJson (option (FullBlock Block Confirmation Transaction));
  read_json_receipt :: FromJson (option Receipt);
  read_json_transaction :: FromJson Transaction;
  write_multi :: MsgPack MultiMessage;
  read_multi :: MsgUnpack MultiMessage
}.

Module RestApiT2.
Definition ARRAY_HIGH_NIBBLE : Z := 0x90.
Definition MAX_PACK_LEVEL : Z := 32.

Section handlers.
Context `{Hdig : Digest} `{Hhex : Hex} `{!MsgPack TransactionData} `{Hcodecs : RestCodecs} `{Ht2 : T2Codecs}.
Context {S : Type} (network_name : string).
Abbreviation h := (M S NodeEffect NodeAnswer).

(** [MessageHandlingError] is all that is said of an error. *)
Inductive MessageHandlingError : Type := HandlingError.
Abbreviation Res := (Result RestRequest MessageHandlingError).

(** [?] on a response *)
Definition rest (m : h (Result Response Error)) : h (Result Response MessageHandlingError) :=
  r ← m; mret (match r with Ok response => Ok response | Err _ => Err HandlingError end).

(** [take_body().into_string()] and [take_body().into_bytes()]: what is taken, and what is left *)
Definition into_string (b : Body) : Result string MessageHandlingError :=
  match b with
  | NoBody => Ok EmptyString
  | Text s => Ok s
  | Bytes buf => match Utf8.from_utf8 buf with Ok s => Ok s | Err _ => Err HandlingError end
  end.
Definition body_bytes (b : Body) : list Z :=
  match b with NoBody => [] | Text s => into_bytes s | Bytes buf => buf end.
Definition take_string (response : Response) : Result string MessageHandlingError * Response :=
  let '(body, response) := take_body response in (into_string body, response).

Definition not_found : RestRequest := Exception "resource not found" "Null".
Definition malformed : RestRequest := Exception "malformed data" "rest_api".

Definition put_transaction (tx : Transaction) : h Res :=
  if Consts.BLOCK_MAX_SIZE_BYTES - Consts.BLOCK_BASE_SIZE_BYTES <=? len (msgpack tx) then mret (Err HandlingError)
  else
    response <-? rest (submit_tx_internal network_name tx);
    mret (if is_success (status response) then Ok (PutTransactionResponse (get_hash tx)) else Err HandlingError).

Definition get_transaction_message (hash : Hash) : h Res :=
  response <-? rest (get_transaction_internal (ErrorText.hash_hex hash));
  mret (if is_success (status response) then
          match fst (take_string response) with
          | Err e => Err e
          | Ok json =>
              if bool_decide (json = EmptyString) then Ok not_found
              else match from_json json with
                   | Some tx => Ok (GetTransactionResponse tx None)
                   | None => Err HandlingError
                   end
          end
        else Ok not_found).

Definition get_receipt_message (hash : Hash) : h Res :=
  response <-? rest (get_receipt_internal (ErrorText.hash_hex hash));
  mret (if is_success (status response) then
          match fst (take_string response) with
          | Err e => Err e
          | Ok json =>
              match from_json (X := option Receipt) json with
              | Some (Some rx) => Ok (GetReceiptResponse rx)
              | Some None => Ok not_found
              | None => Err HandlingError
              end
          end
        else Err HandlingError).

Definition get_block_message (height : Z) (txs : bool) : h Res :=
  response <-? rest (get_full_block_internal height);
  mret (if is_success (status response) then
          match fst (take_string response) with
          | Err e => Err e
          | Ok json =>
              match from_json (X := option (FullBlock Block Confirmation Transaction)) json with
              | Some (Some block) =>
                  if txs then Ok (GetBlockResponse (fb_block block) (Some (map get_hash (fb_txs block))) None)
                  else Ok (GetBlockResponse (fb_block block) None None)
              | Some None => Ok not_found
              | None => Err HandlingError
              end
          end
        else Err HandlingError).

(** The data of the keys asked for, one request for each *)
Fixpoint key_data (id : string) (data : list string) : h (Result (list (option (list Z))) MessageHandlingError) :=
  match data with
  | [] => mret (Ok [])
  | key :: data =>
      response <-? rest (get_account_data_internal id key);
      let buf := if is_success (status response) then Some (body_bytes (fst (take_body response))) else None in
      rest_data <-? key_data id data;
      mret (Ok (buf :: rest_data))
  end.

Definition get_account_message (id : string) (data : list string) : h Res :=
  response <-? rest (get_account_internal id);
  if is_success (status response) then
    match fst (take_string response) with
    | Err e => mret (Err e)
    | Ok json =>
        if bool_decide (json = EmptyString) then mret (Ok not_found)
        else match from_json json with
             | Some account =>
                 key_data <-? key_data id data;
                 mret (Ok (GetAccountResponse account key_data))
             | None => mret (Ok not_found)
             end
    end
  else mret (Err HandlingError).

(** The body of the first response is taken twice; that of the second never. *)
Definition get_core_stats : h Res :=
  response <-? rest get_unconfirmed_pool_len_internal;
  if is_success (status response) then
    let '(unconfirmed_pool_len, response) := take_string response in
    match unconfirmed_pool_len with
    | Err e => mret (Err e)
    | Ok unconfirmed_pool_len =>
        response_last_block <-? rest (get_full_block_internal u64_max);
        mret (if is_success (status response_last_block) then
                match fst (take_string response) with
                | Err e => Err e
                | Ok json =>
                    match from_json (X := option (FullBlock Block Confirmation Transaction)) json with
                    | None => Err HandlingError
                    | Some block =>
                        match parse_unsigned 64 unconfirmed_pool_len with
                        | Some n => Ok (GetCoreStatsResponse (Hashes.default, n, fb_block <$> block))
                        | None => Err HandlingError
                        end
                    end
                end
              else Err HandlingError)
    end
  else mret (Err HandlingError).

(** A pack, whose messages are handled by [handle] *)
Fixpoint handle_sequence (handle : RestRequest -> h Res) (requests : list RestRequest) :
    h (Result (list RestRequest) MessageHandlingError) :=
  match requests with
  | [] => mret (Ok [])
  | rest_req :: requests =>
      response <-? handle rest_req;
      responses <-? handle_sequence handle requests;
      mret (Ok (response :: responses))
  end.

Definition handle_packed_message (handle : RestRequest -> Z -> h Res) (buf : list Z) (pack_level : Z) : h Res :=
  if MAX_PACK_LEVEL <=? pack_level then mret (Err HandlingError)
  else
    let tag := nth 0 buf 0 in
    if negb (Z.land tag ARRAY_HIGH_NIBBLE =? ARRAY_HIGH_NIBBLE) then mret (Ok malformed)
    else
      match msgunpack buf with
      | Some (Simple rest_req) =>
          response <-? handle rest_req (pack_level + 1);
          mret (Ok (Packed (msgpack (Simple response))))
      | Some (Sequence requests) =>
          responses <-? handle_sequence (fun rest_req => handle rest_req (pack_level + 1)) requests;
          mret (Ok (Packed (msgpack (Sequence responses))))
      | None => mret (Ok malformed)
      end.

(** [fuel] bounds the packs inside packs; running out of it shows as a panic. *)
Fixpoint handle_message (fuel : nat) (message : RestRequest) (pack_level : Z) : h Res :=
  match message with
  | PutTransactionRequest _ tx => put_transaction tx
  | GetTransactionRequest hash _ => get_transaction_message hash
  | GetReceiptRequest hash => get_receipt_message hash
  | GetBlockRequest height txs _ => get_block_message height txs
  | GetAccountRequest id data => get_account_message id data
  | GetCoreStatsRequest => get_core_stats
  | GetNetworkIdRequest => mret (Ok (GetNetworkIdResponse network_name))
  | Packed buf =>
      match fuel with
      | O => panic
      | Datatypes.S fuel => handle_packed_message (handle_message fuel) buf (pack_level + 1)
      end
  | _ => mret (Err HandlingError)
  end.

(** [post_message] of the REST interface: a pack is answered with a pack. *)
Definition post_message (fuel : nat) (buf : list Z) : h (Result Response Error) :=
  res ← handle_message fuel (Packed buf) 0;
  mret (match res with
        | Ok (Packed buf) => Ok (set_body (Bytes buf) (new_response StOk))
        | Ok _ | Err _ => Err (MkError InternalServerError InvalidComm)
        end).
End handlers.
End RestApiT2.
