(* ===== verification/RestTheorems.v ===== *)
(** * The REST interfaces: what a client gets, with the database service behind them *)

From stdpp Require Import base gmap strings list fin_maps pretty.
From S2P Require Import Prelude.
From S2P Require Import Exec.
From S2P Require Import Hash.
From S2P Require Import Crypto.
From S2P Require Import CoreModels.
From S2P Require Import Messages.
From S2P Require Import Samples.
From S2P Require Import NodeModels.
From S2P Require Import NodeErrors.
From S2P Require Import Database.
From S2P Require Import DatabaseTheorems.
From S2P Require Import WasmMachine.
From S2P Require Import NodeMessages.
From S2P Require Import WasmService.
From S2P Require Import DBService.
From S2P Require Import DBServiceTheorems.
From S2P Require Import P2PService.
From S2P Require Import SocketService.
From S2P Require Import RestApi.
From S2P Require Import RestApiT2.
Open Scope Z_scope.
Import RestApi RestApiT2.

(** ** The database service behind the interface *)
Section behind.
Context `{Hdig : Digest} `{Hb58 : Base58} `{Hring : Ring} `{!MsgPack BlockData} `{!MsgPack TransactionData}.
Context `{!MsgPack (list string), !MsgUnpack string, !MsgUnpack (option (list string)), !MsgUnpack ValidatorDbValue}.
Context {D F : Type} `{Hdb : Db D F}.
Implicit Types d : D.

(** What comes of a request: the response of a service on the database [d] *)
Definition served (d : D) (req : NodeReq.t) : list NodeAnswer :=
  omap (fun e => match e with Answered _ res => Some (FromNode res) | _ => None end)
    (w_out (exec_world (DBService.handle_requests req 0 (World (DBService.start d false EmptyString) [] (0, []) [])))).

Lemma served_pure d req res :
  (forall w, DBService.answer req (DBService.start d false EmptyString) w = Ret (Some res) w) -> served d req = [FromNode res].
Proof.
  intros H. unfold served, DBService.handle_requests. rewrite bind_eq. cbn [get_state w_state DBService.db_poisoned DBService.start].
  by rewrite bind_eq, H.
Qed.

Lemma served_account d id : served d (NodeReq.GetAccount id) = [FromNode (NodeRes.GetAccount (load_account id d))].
Proof. by apply served_pure. Qed.
Lemma served_account_data d id key : served d (NodeReq.GetAccountData id key) = [FromNode (DBService.get_account_data id key d)].
Proof. by apply served_pure. Qed.
Lemma served_full_block d n : served d (NodeReq.GetFullBlock n []) = [FromNode (NodeRes.GetFullBlock (load_full_block n d) EmptyString)].
Proof. by apply served_pure. Qed.
Lemma served_receipt d hash : served d (NodeReq.GetRx hash) = [FromNode (NodeRes.GetRx (load_receipt hash d))].
Proof. by apply served_pure. Qed.
Lemma served_has_tx d hash : served d (NodeReq.HasTx hash) = [FromNode (NodeRes.HasTx (contains_transaction hash d))].
Proof. by apply served_pure. Qed.
Lemma served_tx d hash tx : load_transaction hash d = Some tx -> served d (NodeReq.GetTxs [hash]) = [FromNode (NodeRes.GetTxs [tx])].
Proof.
  intros H. apply served_pure. intros w. cbn [DBService.answer]. rewrite bind_eq. unfold DBService.get_txs.
  cbn [omap list_omap DBService.db DBService.start]. by rewrite H.
Qed.

(** A request that is answered next *)
Lemma ask_answered {S} to req res (s : S) rest clock out :
  ask_node to req (World s (FromNode res :: rest) clock out) = Ret (Ok res) (World s rest clock (out ++ [Asked to req])).
Proof. reflexivity. Qed.

Context `{Hcodecs : RestCodecs} {S : Type}.
Implicit Types (st : State) (w : world S NodeEffect NodeAnswer).

(** ** Transactions that are submitted *)

(** C22: of what is posted to the endpoint exactly the transactions below the size limit that parse,
    are for the network of the node and are not in its database go to the peers and to the
    pool, once each; each other case has a response of its own and sends nothing. *)
Theorem submit_tx_spec st d body (s : S) rest clock out :
  let run_on answers := submit_tx st body (World s answers clock out) in
  if Consts.BLOCK_MAX_SIZE_BYTES - Consts.BLOCK_BASE_SIZE_BYTES <=? len body then
    run_on rest = Ret (Err (MkError PayloadTooLarge TooLarge)) (World s rest clock out)
  else
    match msgunpack (X := Transaction) body with
    | None => run_on rest = Ret (Err converted) (World s rest clock out)
    | Some tx =>
        let asked := Asked NDB (NodeReq.HasTx (get_hash tx)) in
        if negb (bool_decide (TxData.get_network (s_data (signed tx)) = network_name st)) then
          run_on rest = Ret (Err (MkError BadRequest (Because "Bad transaction network"))) (World s rest clock out)
        else
          run_on (served d (NodeReq.HasTx (get_hash tx)) ++ rest) =
            if contains_transaction (get_hash tx) d then
              Ret (Ok (MkResponse StOk (Text "Tx already present in DB"))) (World s rest clock (out ++ [asked]))
            else
              Ret (Ok (MkResponse StOk (Text "Tx submitted")))
                (World s rest clock (out ++ [asked; Told NP2P (NodeMsg.PropagateTxToPeers tx);
                   InCore (Sent TransactionService (MkComm (KMsg
                     (Msg.AddTx (tx, len (msgpack tx), retrieve_attachments_from_tx tx))) None))]))
    end.
Proof.
  intros run_on. unfold run_on, submit_tx. destruct (_ <=? len body); [done|].
  destruct (msgunpack (X := Transaction) body) as [tx|]; [|done]. cbv zeta. unfold submit_tx_internal.
  destruct (negb _); [done|]. rewrite served_has_tx. cbn [app]. rewrite bind_eq, ask_answered.
  destruct (contains_transaction _ d); [done|]. rewrite !bind_eq. cbn. unfold mbind, M_bind. cbn. rewrite <- !app_assoc. reflexivity.
Qed.

(** ** Messages of the earlier protocol *)

(** What JSON makes of a value is read back, and is a text. *)
Definition reads_back {X} `{!ToJson X, !FromJson X} (x : X) : Prop :=
  exists text, to_json x = Some text /\ from_json text = Some x /\ text <> EmptyString.

Context `{Hhex : Hex} `{Ht2 : T2Codecs}.
Implicit Types (network : string) (id : string).

(** The text of a hash is read as the hash. *)
Definition hex_ok (hash : Hash) : Prop := hash_of_hex (ErrorText.hash_hex hash) = Some hash.

Lemma hex_ok_wf hash : (forall bytes, hex_decode (hex_encode bytes) = Some bytes) -> Hashes.wf hash -> hex_ok hash.
Proof.
  intros Hx (bytes & Hb & Hf & _)%Hashes.from_bytes_as_bytes. unfold hex_ok, hash_of_hex, ErrorText.hash_hex. rewrite Hb. simpl. rewrite Hx. by rewrite Hf.
Qed.

Lemma json_text {X} `{!ToJson X, !FromJson X} (x : X) : reads_back x ->
  exists text, json_response x = Ok (MkResponse StOk (Text text)) /\ from_json text = Some x /\ text <> EmptyString.
Proof. intros (text & Ht & Hf & Hn). exists text. unfold json_response. by rewrite Ht. Qed.

(** What the database knows of the data of keys: all of it, or not *)
Fixpoint all_data d id (keys : list string) : option (list (option (list Z))) :=
  match keys with
  | [] => Some []
  | key :: keys =>
      match DBService.get_account_data id key d with
      | NodeRes.GetAccountData (Some data) => cons (Some data) <$> all_data d id keys
      | _ => None
      end
  end.

Lemma key_data_eq d id keys more (s : S) clock out :
  exists w', key_data id keys (World s (flat_map (fun key => served d (NodeReq.GetAccountData id key)) keys ++ more) clock out) =
    Ret (match all_data d id keys with Some data => Ok data | None => Err HandlingError end) w'.
Proof.
  revert out. induction keys as [|key keys IH]; intros out; [eexists; reflexivity|].
  cbn [flat_map]. rewrite served_account_data. cbn [app key_data all_data].
  unfold try_bind, rest. rewrite !bind_eq. unfold get_account_data_internal. rewrite bind_eq, ask_answered.
  unfold DBService.get_account_data. set (data := if bool_decide (key = _) then _ else _). destruct data as [data|]; [|eexists; reflexivity].
  cbn [mret M_ret status set_body new_response is_success]. rewrite bind_eq.
  destruct (IH (out ++ [Asked NDB (NodeReq.GetAccountData id key)])) as [w' Hw].
  rewrite Hw. destruct (all_data d id keys); eexists; reflexivity.
Qed.

(** What is asked of the database for a message *)
Definition asked_for d (message : RestRequest) : list NodeReq.t :=
  match message with
  | GetTransactionRequest hash _ => [NodeReq.GetTxs [hash]]
  | GetReceiptRequest hash => [NodeReq.GetRx hash]
  | GetBlockRequest height _ _ => [NodeReq.GetFullBlock height []]
  | GetAccountRequest id keys =>
      NodeReq.GetAccount id ::
      match load_account id d with Some _ => map (NodeReq.GetAccountData id) keys | None => [] end
  | _ => []
  end.

(** The message that answers it, by the database *)
Definition answer_of d (message : RestRequest) : Result RestRequest MessageHandlingError :=
  match message with
  | GetTransactionRequest hash _ =>
      Ok (match load_transaction hash d with Some tx => GetTransactionResponse tx None | None => not_found end)
  | GetReceiptRequest hash =>
      Ok (match load_receipt hash d with Some rx => GetReceiptResponse rx | None => not_found end)
  | GetBlockRequest height txs _ =>
      Ok (match load_full_block height d with
          | Some b => GetBlockResponse (fb_block b) (if txs then Some (map get_hash (fb_txs b)) else None) None
          | None => not_found
          end)
  | GetAccountRequest id keys =>
      match load_account id d with
      | Some account =>
          match all_data d id keys with Some data => Ok (GetAccountResponse account data) | None => Err HandlingError end
      | None => Ok not_found
      end
  | _ => Err HandlingError
  end.

(** The message asks the database, for what it has in full, and JSON keeps what it has. *)
Definition can_answer d (message : RestRequest) : Prop :=
  match message with
  | GetTransactionRequest hash _ => hex_ok hash /\ exists tx, load_transaction hash d = Some tx /\ reads_back tx
  | GetReceiptRequest hash => hex_ok hash /\ reads_back (load_receipt hash d)
  | GetBlockRequest height _ _ => reads_back (load_full_block height d)
  | GetAccountRequest id _ =>
      match load_account id d with Some account => reads_back account | None => from_json (X := Account.t) "{}" = None end
  | _ => False
  end.

(** Each kind of message *)
Section answered.
Context d network (fuel : nat) (level : Z) (more : list NodeAnswer) (s : S) (clock : Z * list Z) (out : list NodeEffect).
Abbreviation answered message reqs r :=
  (exists w', handle_message network fuel message level (World s (flat_map (served d) reqs ++ more) clock out) = Ret r w').

Lemma transaction_answered hash destination tx : hex_ok hash -> load_transaction hash d = Some tx -> reads_back tx ->
  answered (GetTransactionRequest hash destination) [NodeReq.GetTxs [hash]]
    (Ok (match load_transaction hash d with Some tx => GetTransactionResponse tx None | None => not_found end)).
Proof.
  intros Hh Ht (text & Hj & Hf & Hn)%json_text.
  assert (Hm : handle_message (S := S) network fuel (GetTransactionRequest hash destination) level = get_transaction_message hash)
    by (by destruct fuel).
  rewrite Hm. unfold get_transaction_message, try_bind, rest, get_transaction_internal. rewrite Hh. cbn [flat_map]. rewrite !bind_eq.
  rewrite (served_tx _ _ tx Ht). cbn [app]. rewrite ask_answered, Ht. cbn [mret M_ret]. rewrite Hj. cbn -[from_json].
  rewrite bool_decide_false by done. rewrite Hf. by eexists.
Qed.

Lemma receipt_answered hash : hex_ok hash -> reads_back (load_receipt hash d) ->
  answered (GetReceiptRequest hash) [NodeReq.GetRx hash]
    (Ok (match load_receipt hash d with Some rx => GetReceiptResponse rx | None => not_found end)).
Proof.
  intros Hh (text & Hj & Hf & Hn)%json_text.
  assert (Hm : handle_message (S := S) network fuel (GetReceiptRequest hash) level = get_receipt_message hash) by (by destruct fuel).
  rewrite Hm. unfold get_receipt_message, try_bind, rest, get_receipt_internal. rewrite Hh. cbn [flat_map]. rewrite !bind_eq.
  rewrite served_receipt. cbn [app]. rewrite ask_answered. cbn [mret M_ret]. rewrite Hj. cbn -[from_json].
  rewrite Hf. destruct (load_receipt hash d); by eexists.
Qed.

Lemma block_answered height txs destination : reads_back (load_full_block height d) ->
  answered (GetBlockRequest height txs destination) [NodeReq.GetFullBlock height []]
    (Ok (match load_full_block height d with
         | Some b => GetBlockResponse (fb_block b) (if txs then Some (map get_hash (fb_txs b)) else None) None
         | None => not_found
         end)).
Proof.
  intros (text & Hj & Hf & Hn)%json_text.
  assert (Hm : handle_message (S := S) network fuel (GetBlockRequest height txs destination) level = get_block_message height txs)
    by (by destruct fuel).
  rewrite Hm. unfold get_block_message, try_bind, rest, get_full_block_internal. cbn [flat_map]. rewrite !bind_eq.
  rewrite served_full_block. cbn [app]. rewrite ask_answered. cbn [mret M_ret]. rewrite Hj. cbn -[from_json].
  rewrite Hf. destruct (load_full_block height d), txs; by eexists.
Qed.

Lemma account_answered id keys :
  match load_account id d with Some account => reads_back account | None => from_json (X := Account.t) "{}" = None end ->
  answered (GetAccountRequest id keys)
    (NodeReq.GetAccount id :: match load_account id d with Some _ => map (NodeReq.GetAccountData id) keys | None => [] end)
    (match load_account id d with
     | Some account =>
         match all_data d id keys with Some data => Ok (GetAccountResponse account data) | None => Err HandlingError end
     | None => Ok not_found
     end).
Proof.
  intros Hr.
  assert (Hm : handle_message (S := S) network fuel (GetAccountRequest id keys) level = get_account_message id keys) by (by destruct fuel).
  rewrite Hm. unfold get_account_message, get_account_internal. cbn [flat_map]. unfold try_bind at 1. unfold rest at 1. rewrite !bind_eq.
  rewrite served_account. cbn [app]. rewrite ask_answered. cbn [mret M_ret].
  destruct (load_account id d) as [account|].
  - apply json_text in Hr as (text & Hj & Hf & Hn). rewrite Hj. cbn -[from_json flat_map].
    rewrite bool_decide_false by done. rewrite Hf. unfold try_bind. rewrite bind_eq.
    replace (flat_map (served d) (map (NodeReq.GetAccountData id) keys))
      with (flat_map (fun key => served d (NodeReq.GetAccountData id key)) keys)
      by (clear; induction keys as [|k ks IH]; simpl; congruence).
    destruct (key_data_eq d id keys more s clock (out ++ [Asked NDB (NodeReq.GetAccount id)])) as [w' Hw].
    rewrite Hw. destruct (all_data d id keys); by eexists.
  - cbn -[from_json]. rewrite Hr. by eexists.
Qed.
End answered.

(** C21: a message that asks for a transaction, a receipt, a block or an account with data is answered,
    through the REST interface, JSON and the database service, with what the database has:
    what it has not is not found, but an account one of whose keys has no data is refused
    as a whole. *)
Theorem t2_answers_database d network fuel level message more (s : S) clock out :
  can_answer d message ->
  exists w', handle_message network fuel message level (World s (flat_map (served d) (asked_for d message) ++ more) clock out) =
    Ret (answer_of d message) w'.
Proof.
  intros H. destruct message; cbn [can_answer] in H; try done; cbn [answer_of asked_for].
  - destruct H as [Hh (tx & Ht & Hr)]. by apply transaction_answered with (tx := tx).
  - destruct H as [Hh Hr]. by apply receipt_answered.
  - by apply block_answered.
  - by apply account_answered.
Qed.

(** A request for the statistics of the core never gets them: after the length of the pool and the
    last block were answered, the block is read from the body of the first response, which
    was taken; every run ends in an error, whatever the services answer. *)
Theorem core_stats_fail network fuel level w :
  from_json (X := option (FullBlock Block Confirmation Transaction)) EmptyString = None ->
  exists w', handle_message network fuel GetCoreStatsRequest level w = Ret (Err HandlingError) w'.
Proof.
  intros Hj. assert (Hm : handle_message (S := S) network fuel GetCoreStatsRequest level = get_core_stats) by (by destruct fuel).
  rewrite Hm. unfold get_core_stats, get_unconfirmed_pool_len_internal, rest. unfold try_bind at 1. rewrite !bind_eq.
  destruct (ask_core_eq TransactionService Req.GetPoolLength w) as (out & w1 & es & -> & _).
  destruct out as [res|e]; [|eexists; reflexivity]. destruct res; try (eexists; reflexivity).
  cbn -[get_full_block_internal from_json]. unfold try_bind. rewrite !bind_eq. unfold get_full_block_internal. rewrite bind_eq.
  destruct (ask_node_eq NDB (NodeReq.GetFullBlock u64_max []) w1) as (out & w2 & es2 & -> & _).
  destruct out as [res|e]; [|eexists; reflexivity]. destruct res; try (eexists; reflexivity).
  cbn [mret M_ret]. unfold json_response. destruct (to_json full_block) as [text|]; [|eexists; reflexivity].
  cbn -[from_json]. rewrite Hj. by eexists.
Qed.

(** ** Packs *)
Lemma key_data_safe id keys : safe (S := S) (key_data id keys).
Proof. induction keys as [|key keys IH]; cbn [key_data]; [safely|]. unfold rest, get_account_data_internal. safely. Qed.
#[local] Hint Resolve key_data_safe : safety.

(** The messages that are no packs *)
Definition plain (m : RestRequest) : bool := match m with Packed _ => false | _ => true end.
Lemma plain_safe network fuel m level : plain m = true -> safe (S := S) (handle_message network fuel m level).
Proof.
  intros Hp.
  assert (Hf : handle_message (S := S) network fuel m level = handle_message network 0 m level) by (by destruct fuel, m).
  rewrite Hf. destruct m; try done; cbn [handle_message];
    unfold put_transaction, get_transaction_message, get_receipt_message, get_block_message, get_account_message, get_core_stats,
      rest, submit_tx_internal, get_transaction_internal, get_receipt_internal, get_full_block_internal, get_account_internal,
      get_unconfirmed_pool_len_internal, tell, tell_core; safely.
Qed.

Lemma handle_sequence_safe (handle : RestRequest -> M S NodeEffect NodeAnswer _) requests :
  (forall r, safe (handle r)) -> safe (handle_sequence handle requests).
Proof.
  intros Hs. induction requests as [|r rs IH]; cbn [handle_sequence]; [safely|].
  apply safe_try_bind; [apply Hs|intros x]. apply safe_try_bind; [exact IH|safely].
Qed.

Lemma handle_packed_safe (handle : RestRequest -> Z -> M S NodeEffect NodeAnswer _) buf level :
  (level < MAX_PACK_LEVEL -> forall r, safe (handle r (level + 1))) -> safe (handle_packed_message handle buf level).
Proof.
  intros Hs. unfold handle_packed_message. destruct (Z.leb_spec MAX_PACK_LEVEL level); [safely|]. specialize (Hs ltac:(lia)).
  destruct (negb _); [safely|]. destruct (msgunpack (X := MultiMessage) buf) as [[r|rs]|]; [| |safely];
    (apply safe_try_bind; [auto using handle_sequence_safe|safely]).
Qed.

Lemma handle_message_safe network fuel m level :
  33 <= 2 * Z.of_nat fuel + level -> (0 < fuel)%nat -> safe (S := S) (handle_message network fuel m level).
Proof.
  revert m level. induction fuel as [|fuel IH]; intros m level Hl H0; [lia|].
  destruct (plain m) eqn:Hp; [by apply plain_safe|]. destruct m; try done. cbn [handle_message].
  apply handle_packed_safe. unfold MAX_PACK_LEVEL. intros Hlt r. apply IH; lia.
Qed.

Lemma handle_sequence_approx (handle handle' : RestRequest -> M S NodeEffect NodeAnswer _) requests :
  (forall r, approx (handle r) (handle' r)) -> approx (handle_sequence handle requests) (handle_sequence handle' requests).
Proof.
  intros Ha. induction requests as [|r rs IH]; cbn [handle_sequence]; [apply approx_refl|].
  apply approx_try_bind; [apply Ha|intros x]. apply approx_try_bind; [exact IH|intros; apply approx_refl].
Qed.

Lemma handle_message_approx network fuel fuel' m level :
  (fuel <= fuel')%nat -> approx (S := S) (handle_message network fuel m level) (handle_message network fuel' m level).
Proof.
  revert fuel' m level. induction fuel as [|fuel IH]; intros fuel' m level Hle.
  - destruct m; try (destruct fuel'; apply approx_refl). apply approx_panic.
  - destruct fuel' as [|fuel']; [lia|]. destruct m; try apply approx_refl. cbn [handle_message]. unfold handle_packed_message.
    destruct (MAX_PACK_LEVEL <=? _); [apply approx_refl|]. destruct (negb _); [apply approx_refl|].
    destruct (msgunpack (X := MultiMessage) buf) as [[r|rs]|]; [| |apply approx_refl];
      (apply approx_try_bind; [|intros; apply approx_refl]); [apply IH; lia|].
    apply handle_sequence_approx. intros r. apply IH. lia.
Qed.

(** C23: packs of packs end: a posted pack is answered, at every nesting, whatever the buffers hold, and
    the services answer; no more than seventeen packs are opened inside each other, so that
    any larger bound on the depth gives the same response. *)
Theorem packs_bounded network buf w :
  exists response w', forall deeper, post_message network (17 + deeper) buf w = Ret response w'.
Proof.
  pose proof (handle_message_safe network 17 (Packed buf) 0 ltac:(lia) ltac:(lia) w) as Hs.
  destruct (handle_message network 17 (Packed buf) 0 w) as [r w'|w'] eqn:Hr; [|done].
  eexists _, w'. intros deeper. unfold post_message. rewrite bind_eq.
  rewrite (handle_message_approx network 17 (17 + deeper) _ _ ltac:(lia) _ _ _ Hr). reflexivity.
Qed.

(** ** Blocks that are submitted *)

(** A block without confirmations that the database has not got panics the handler, after its
    transactions have all gone to the pool. *)
Theorem unconfirmed_block_panics d body full_block (s : S) more clock out :
  msgunpack body = Some full_block -> fb_confirmations full_block = [] ->
  load_block (bd_height (block_data (fb_block full_block))) d = None ->
  let req := NodeReq.HasBlock (bd_height (block_data (fb_block full_block))) in
  submit_t2_block body (World s (served d req ++ more) clock out) =
    Panic (World s more clock (out ++ Asked NDB req ::
      map (fun tx => InCore (Sent TransactionService (MkComm (KMsg
        (Msg.AddTx (tx, len (msgpack tx), retrieve_attachments_from_tx tx))) None))) (fb_txs full_block))).
Proof.
  intros Hb Hc Hd req. unfold submit_t2_block. rewrite Hb.
  assert (Hs : served d req = [FromNode (NodeRes.HasBlock false)]).
  { apply served_pure. intros w. cbn [req DBService.answer]. unfold DBService.has_block. cbn [DBService.db DBService.start].
    by rewrite Hd. }
  rewrite Hs. cbn [app]. rewrite bind_eq, ask_answered. rewrite bind_eq.
  unfold tell_core. rewrite for_each_emit, Hc. cbn. by rewrite <- app_assoc.
Qed.
End behind.

(** ** The mining tool *)
Section tool.
Context `{Hdig : Digest} `{!MsgPack TransactionData} `{Hcodecs : RestCodecs}.

(** The first pairing that writes the key stays: no pairing after it changes the file, each is
    refused, and the socket service takes the requests of the tool that was paired, at once
    and after a restart. *)
Theorem pairing_stays body pub_key :
  msgunpack body = Some pub_key ->
  let file := snd (pairing_mining_tool body WrittenAll None) in
  fst (pairing_mining_tool body WrittenAll None) = Ok (new_response StOk) /\
  SocketService.new_pub_key file = Some (Some pub_key) /\
  SocketService.get_mining_tool_pub_key file None = (Ok pub_key, Some pub_key) /\
  forall body' writing, snd (pairing_mining_tool body' writing file) = file /\
    exists cause, fst (pairing_mining_tool body' writing file) = Err (MkError BadRequest cause).
Proof.
  intros Hb. cbn zeta. assert (Hp : pairing_mining_tool body WrittenAll None = (Ok (new_response StOk), Some body))
    by (unfold pairing_mining_tool; by rewrite Hb).
  rewrite Hp. cbn [fst snd]. unfold SocketService.new_pub_key, SocketService.get_mining_tool_pub_key. rewrite Hb.
  split_and!; try done. intros body' writing. unfold pairing_mining_tool.
  destruct (msgunpack (X := Keys.TrinciPublicKey) body'); split; try done; by eexists.
Qed.

(** A pairing whose writing stops midway is an error, but the node counts as paired: no other
    pairing is taken, and a key that does not read back panics the socket service at its start. *)
Lemma partial_pairing body pub_key n :
  msgunpack body = Some pub_key -> msgunpack (X := Keys.TrinciPublicKey) (take n body) = None ->
  let file := snd (pairing_mining_tool body (WrittenUpTo n) None) in
  fst (pairing_mining_tool body (WrittenUpTo n) None) = Err converted /\
  (forall writing, fst (pairing_mining_tool body writing file) =
     Err (MkError BadRequest (Because "Node already paired with a mining tool."))) /\
  SocketService.new_pub_key file = None.
Proof.
  intros Hb Hn. unfold pairing_mining_tool, SocketService.new_pub_key. rewrite Hb. cbn [fst snd].
  split_and!; try done. by rewrite Hn.
Qed.
End tool.

(** ** Networks *)
Definition octets (ip : Ipv4Addr) : list Z := let '(a, b, c, d) := ip in [a; b; c; d].
Definition bytes4 (ip : Ipv4Addr) : Prop := Forall is_u8 (octets ip).
(** How many of the four bytes are the network *)
Definition class_len (ip : Ipv4Addr) : nat :=
  let '(first, _, _, _) := ip in if first <? 128 then 1%nat else if first <? 192 then 2%nat else 3%nat.

Lemma land_byte x : is_u8 x -> Z.land x 255 = x.
Proof. intros Hx. change 255 with (Z.ones 8). rewrite Z.land_ones by lia. apply Z.mod_small. unfold is_u8, u8_max in Hx. lia. Qed.

Lemma same_network_spec ip1 ip2 : bytes4 ip1 -> bytes4 ip2 ->
  are_in_same_network ip1 ip2 = true <-> take (class_len ip1) (octets ip1) = take (class_len ip1) (octets ip2).
Proof.
  destruct ip1 as [[[a b] c] d], ip2 as [[[a' b'] c'] d']. unfold bytes4. cbn [octets]. rewrite !Forall_cons.
  intros (Ha & Hb & Hc & Hd & _) (Ha' & Hb' & Hc' & Hd' & _). unfold are_in_same_network. rewrite bool_decide_eq_true.
  unfold determine_subnet_mask, class_len. destruct (a <? 128), (a <? 192); cbn [apply_subnet_mask take];
    rewrite !land_byte, ?Z.land_0_r by done; naive_solver.
Qed.

(** To be in the same network is an equivalence of the addresses of four bytes: it is that the
    first bytes are the same, as many as the class of either address has. *)
Theorem same_network_equivalence ip1 ip2 ip3 :
  bytes4 ip1 -> bytes4 ip2 -> bytes4 ip3 ->
  are_in_same_network ip1 ip1 = true /\
  are_in_same_network ip1 ip2 = are_in_same_network ip2 ip1 /\
  (are_in_same_network ip1 ip2 = true -> are_in_same_network ip2 ip3 = true -> are_in_same_network ip1 ip3 = true) /\
  (are_in_same_network ip1 ip2 = true -> class_len ip1 = class_len ip2).
Proof.
  intros H1 H2 H3.
  assert (Hc : forall x y, bytes4 x -> bytes4 y -> are_in_same_network x y = true -> class_len x = class_len y).
  { intros [[[a b] c] d] [[[a' b'] c'] d'] Hx Hy. rewrite same_network_spec by done. cbn [class_len octets].
    intros H. assert (a = a') as -> by (destruct (a <? 128), (a <? 192); simpl in H; congruence). done. }
  assert (Hs : forall x y, bytes4 x -> bytes4 y -> are_in_same_network x y = true -> are_in_same_network y x = true).
  { intros x y Hx Hy H. pose proof (Hc x y Hx Hy H) as Hl. apply same_network_spec in H; [|done..].
    apply same_network_spec; [done..|]. congruence. }
  split_and!.
  - by apply same_network_spec.
  - apply eq_true_iff_eq. split; by apply Hs.
  - intros H12 H23. pose proof (Hc _ _ H1 H2 H12) as Hl. apply same_network_spec in H12, H23; [|done..].
    apply same_network_spec; [done..|]. congruence.
  - by apply Hc.
Qed.

(** A node with an address of the newer protocol, which names a network as the others do, panics
    when a tool of another network looks for it. *)
Lemma assembly_panics `{!IpText} {S} src segments rest_port socket_port (s : S) clock out :
  parse_ip "::1" = Some (V6 segments) ->
  panicked (assembly_step false src rest_port socket_port
    (World s [FromNode (NodeRes.GetP2pAddresses ["/ip6/::1/tcp/9001"])] clock out)) = true.
Proof.
  intros Hp. unfold assembly_step. rewrite bind_eq, ask_answered. cbn -[parse_ip find_local]. unfold mbind, M_bind.
  cbn [find_local]. unfold ipv4_of. rewrite bind_eq. by rewrite Hp.
Qed.

(** ** A sample *)
Module RestSample.
Import DatabaseTheorems.DatabaseSample.
#[local] Existing Instances Samples.Samples.digest Samples.Samples.ring DatabaseTheorems.MemDb.mem_db DatabaseTheorems.MemDb.mem_db_laws
  DatabaseTheorems.DatabaseSample.tx_pack DBServiceSample.block_pack DBServiceSample.list_pack DBServiceSample.string_unpack
  DBServiceSample.ids_unpack DBServiceSample.value_unpack.

Definition account : Account.t := Account.Mk "acc" ∅ None None.
Definition unconfirmed : FullBlock Block Confirmation Transaction := MkFullBlock block [] [].

#[local] Instance rest_codecs : RestCodecs := {|
  json_account := {| to_json := fun a => Some "account"%string |};
  json_full_block := {| to_json := fun _ => None |};
  json_status := {| to_json := fun _ => None |};
  json_string := {| to_json := fun s => Some s |};
  json_players := {| to_json := fun _ => None |};
  json_receipt := {| to_json := fun _ => None |};
  json_stats := {| to_json := fun _ => None |};
  json_transaction := {| to_json := fun _ => None |};
  json_visa := {| to_json := fun _ => None |};
  read_full_block := {| msgunpack := fun buf => match buf with [1] => Some unconfirmed | _ => None end |};
  read_transaction := {| msgunpack := fun _ => None |};
  read_public_key := {| msgunpack := fun buf => match buf with [1; 2] => Some key | _ => None end |};
  write_transaction := {| msgpack := fun _ => [1] |};
  rest_unhex := {| hex_decode := fun s => Some (DRand.into_bytes s) |};
  rest_url := {| url_decode := fun s => Some s |}
|}.
#[local] Instance t2_codecs : T2Codecs := {|
  read_json_account := {| from_json := fun s => if bool_decide (s = "account"%string) then Some account else None |};
  read_json_full_block := {| from_json := fun _ => None |};
  read_json_receipt := {| from_json := fun _ => None |};
  read_json_transaction := {| from_json := fun _ => None |};
  write_multi := {| msgpack := fun _ => [] |};
  read_multi := {| msgunpack := fun _ => None |}
|}.
#[local] Instance hex : Hex := {| hex_encode := Utf8.Utf8.string_of_bytes |}.

Definition stored : Database.RocksDb.t := merged (store_account_data "acc" "k" [7] (store_account account fork)).
Definition ask : RestRequest := GetAccountRequest "acc" ["k"; "other"].

(** One key has data and the other none: nothing is answered. *)
Lemma t2_answers_database_witness :
  answer_of stored (GetAccountRequest "acc" ["k"]) = Ok (GetAccountResponse account [Some [7]]) /\
  exists w', handle_message "net" 1 ask 0 (World tt (flat_map (served stored) (asked_for stored ask) ++ []) (0, []) []) = Ret (Err HandlingError) w'.
Proof.
  assert (Hc : can_answer stored ask).
  { assert (Ha : load_account "acc" stored = Some account) by (vm_compute; reflexivity).
    unfold can_answer, ask. rewrite Ha. exists "account"%string. split_and!; [done|done|discriminate]. }
  assert (Hr : answer_of stored ask = Err HandlingError) by (vm_compute; reflexivity).
  split; [vm_compute; reflexivity|]. rewrite <- Hr. exact (t2_answers_database stored "net" 1 0 ask [] tt (0, []) [] Hc).
Defined.

Lemma core_stats_fail_witness :
  exists w', handle_message (S := unit) "net" 1 GetCoreStatsRequest 0
    (World tt [FromCore (Res.GetPoolLength 3); FromNode (NodeRes.GetFullBlock None "")] (0, []) []) = Ret (Err HandlingError) w'.
Proof. exact (core_stats_fail "net" 1 0 _ eq_refl). Defined.

Lemma unconfirmed_block_panics_witness :
  panicked (submit_t2_block [1] (World tt (served db (NodeReq.HasBlock 0) ++ []) (0, []) [])) = true.
Proof.
  assert (Hb : msgunpack [1] = Some unconfirmed) by reflexivity.
  assert (Hd : load_block 0 db = None) by (vm_compute; reflexivity).
  pose proof (unconfirmed_block_panics db [1] unconfirmed tt [] (0, []) [] Hb eq_refl Hd) as H.
  cbn [unconfirmed fb_block] in H. change (bd_height (block_data block)) with 0 in H. cbv zeta in H. by rewrite H.
Defined.

Lemma pairing_stays_witness :
  snd (pairing_mining_tool [3] WrittenAll (snd (pairing_mining_tool [1; 2] WrittenAll None))) = Some [1; 2].
Proof.
  assert (Hb : msgunpack [1; 2] = Some key) by reflexivity.
  destruct (pairing_stays [1; 2] key Hb) as (_ & _ & _ & H). rewrite (proj1 (H [3] WrittenAll)). reflexivity.
Defined.

Lemma same_network_equivalence_witness : are_in_same_network (10, 0, 0, 1) (10, 9, 0, 1) = are_in_same_network (10, 9, 0, 1) (10, 0, 0, 1).
Proof.
  apply (same_network_equivalence (10, 0, 0, 1) (10, 9, 0, 1) (10, 9, 0, 1)); repeat constructor; simpl; unfold u8_max; lia.
Defined.
End RestSample.
