(* ===== verification/WasmTheorems.v ===== *)
(** * The WASM service: transactions

    A failed transaction leaves nothing of what its contract wrote, every transaction
    pays within its limit, and what becomes of bulks.  The theorems hold for every
    database and machine that keep the laws of their interfaces. *)

From stdpp Require Import base gmap strings list fin_maps.
From S2P Require Import Prelude.
From S2P Require Import Exec.
From S2P Require Import Hash.
From S2P Require Import Crypto.
From S2P Require Import CoreModels.
From S2P Require Import DRand.
From S2P Require Import Messages.
From S2P Require Import NodeModels.
From S2P Require Import NodeErrors.
From S2P Require Import Database.
From S2P Require Import Fuel.
From S2P Require Import EventService.
From S2P Require Import WasmMachine.
From S2P Require Import WasmService.
Open Scope Z_scope.
Import WasmService.

Section transactions.
Context `{Hdig : Digest} `{Hb58 : Base58} `{Hring : Ring} `{Hhex : Hex} `{Hcodecs : WasmCodecs}.
Context {D F W Chan : Type} `{Hdb : Db D F} `{Hfork : DbFork F} `{Hwm : Wm W F} `{Hfl : !DbForkLaws F} `{Hwl : !WmLaws W F}.

Abbreviation txm := (M (tx_state (D := D) (F := F) (W := W)) (effect (Chan := Chan)) core_answer).
Abbreviation txw := (world (tx_state (D := D) (F := F) (W := W)) (effect (Chan := Chan)) core_answer).

(** ** Frames of transactions

    A preorder on worlds that the machine's writes, the rollback and whatever leaves the
    fork and the service alone respect holds of everything a transaction does between
    two checkpoints. *)
Abbreviation fork_writes := (fun w w' => rtc writes (ws_fork (w_state w)) (ws_fork (w_state w'))).

Class TxFrame (P : txw -> txw -> Prop) : Prop := {
  frame_preorder :: PreOrder P;
  frame_wm : forall A events (m : wm_handler W F A), rel fork_writes m -> rel P (on_wm events m);
  frame_rollback : rel P (modify_fork rollback)
}.

Section frames.
Context (P : txw -> txw -> Prop) `{HP : !TxFrame P}.

Lemma call_on_wm_frame events args : rel P (on_wm events (call (W := W) args)).
Proof. apply frame_wm, call_writes. Qed.

Lemma check_app_hash_frame contract ctx ts : rel P (check_app_hash contract ctx ts).
Proof. apply rel_bind; [typeclasses eauto|apply frame_wm, app_hash_check_writes|]. intros a. frames. Qed.

Lemma gets_frame {A} (g : tx_state -> A) : rel P (gets g).
Proof. apply rel_gets. typeclasses eauto. Qed.
#[local] Hint Resolve call_on_wm_frame check_app_hash_frame frame_rollback gets_frame : frames.

Lemma error_text_frame e : rel P (error_text e).
Proof. unfold error_text. frames. Qed.
Lemma error_kind_frame e : rel P (error_kind e).
Proof. unfold error_kind. frames. Qed.
Lemma to_account_id_frame k : rel P (to_account_id k).
Proof. unfold to_account_id. frames. Qed.
Lemma wm_fuel_limit_frame id height limit : rel P (wm_fuel_limit id height limit).
Proof. apply gets_frame. Qed.
#[local] Hint Resolve error_text_frame error_kind_frame to_account_id_frame wm_fuel_limit_frame : frames.

Lemma call_burn_fuel_frame method origin fuel ts : rel P (call_burn_fuel method origin fuel ts).
Proof. unfold call_burn_fuel. frames. Qed.

Lemma handle_unit_frame tx height index evs ts : rel P (handle_unit_transaction tx height index evs ts).
Proof. unfold handle_unit_transaction. frames. Qed.

Lemma bulk_nodes_frame ts height nodes evs remaining : rel P (bulk_nodes ts height nodes evs remaining).
Proof.
  revert evs remaining. induction nodes as [|node nodes IH]; intros evs remaining; cbn [bulk_nodes]; [frames|].
  frames; apply IH.
Qed.
#[local] Hint Resolve bulk_nodes_frame : frames.

Lemma nodes_execution_frame ts data height evs remaining : rel P (handle_bulk_nodes_execution ts data height evs remaining).
Proof. unfold handle_bulk_nodes_execution. frames. Qed.

Lemma bulk_root_frame ts caller root limit height index : rel P (bulk_root ts caller root limit height index).
Proof. unfold bulk_root. frames. Qed.
#[local] Hint Resolve nodes_execution_frame bulk_root_frame : frames.

Lemma handle_bulk_v1_frame ts caller data limit height index evs :
  rel P (handle_bulk_v1 ts caller data limit height index evs).
Proof. unfold handle_bulk_v1. frames. Qed.
#[local] Hint Resolve handle_bulk_v1_frame : frames.

Lemma handle_bulk_frame tx height index evs ts : rel P (handle_bulk_transaction tx height index evs ts).
Proof. unfold handle_bulk_transaction. frames. Qed.
#[local] Hint Resolve call_burn_fuel_frame handle_unit_frame handle_bulk_frame : frames.

Lemma execute_transaction_frame tx height index method ts :
  rel P (modify_fork flush) -> rel P (execute_transaction tx height index method ts).
Proof.
  intros Hf. apply rel_bind; [typeclasses eauto|exact Hf|]. intros _.
  apply rel_try_bind; [typeclasses eauto|destruct tx; frames|]. intros res.
  apply rel_bind; [typeclasses eauto|destruct (bool_decide _); frames|]. intros burn. frames.
Qed.
End frames.

(** Everything a transaction does can be undone. *)
Definition undoable (w w' : txw) : Prop := same_proj (fun s => rollback (fork s)) w w'.

#[export] Instance undoable_frame : TxFrame undoable.
Proof.
  split.
  - apply same_proj_preorder.
  - intros A events m Hm. eapply rel_zoom with (P' := same_proj (fun s => rollback (ws_fork s))).
    + apply rel_bind; [typeclasses eauto| |intros a; frames]. intros w. apply rollback_writes, Hm.
    + intros w w' H. exact H.
  - intros w. unfold undoable, same_proj. simpl. apply rollback_rollback.
Qed.

(** The service keeps all but its machine. *)
Definition same_service (w w' : txw) : Prop :=
  same_proj (fun s => (db (service s), db_poisoned (service s), forks_collector (service s), node_id (service s))) w w'.

#[export] Instance same_service_frame : TxFrame same_service.
Proof.
  split; [apply same_proj_preorder| |done]. intros A events m Hm. eapply rel_zoom with (P' := fun _ _ => True); [done|].
  intros w w' _. done.
Qed.

(** ** What a failed transaction leaves *)

(** The fork is as it was, up to what a check of the contract that failed wrote. *)
Definition untouched (ts : Z) (f f1 : F) : Prop :=
  f1 = f \/
  exists contract ctx (w0 w1 : txw) e, fork (w_state w0) = f /\
    check_app_hash contract ctx ts w0 = Ret (Err e) w1 /\ fork (w_state w1) = f1.

Definition at_fork (f : F) (w : txw) : Prop := fork (w_state w) = f.
Definition back_to (f : F) (w : txw) : Prop := rollback (fork (w_state w)) = f.

Lemma back_to_rel {A} f (m : txm A) : rel undoable m -> ensures (back_to f) m (fun _ => back_to f).
Proof. intros Hm. apply (ensures_rel undoable); [exact Hm|]. intros w w' H. unfold back_to. by rewrite H. Qed.

Lemma at_fork_rel {A} f (m : txm A) : rel (same_proj fork) m -> ensures (at_fork f) m (fun _ => at_fork f).
Proof. intros Hm. apply (ensures_rel (same_proj fork)); [exact Hm|]. intros w w' H. unfold at_fork. by rewrite H. Qed.

(** A check of the contract either passes, and can be undone, or fails. *)
Lemma check_ensures f contract ctx ts : rollback f = f ->
  ensures (at_fork f) (check_app_hash contract ctx ts : txm _) (fun r w =>
    match r with Ok _ => back_to f w | Err _ => untouched ts f (fork (w_state w)) end).
Proof.
  intros Hf w Hw. pose proof (check_app_hash_frame undoable contract ctx ts w) as Hu.
  destruct (check_app_hash contract ctx ts w) as [[h|e] w'|w'] eqn:E; [| |done].
  - unfold back_to, undoable, same_proj in *. simpl in Hu. unfold at_fork in Hw. by rewrite Hu, Hw.
  - right. by exists contract, ctx, w, w', e.
Qed.

(** What the handlers answer: a failed one left the fork untouched or rolled it back. *)
Definition failed_untouched (ts : Z) (f : F) (res : HandleTransactionReturns) (w : txw) : Prop :=
  success (receipt res) = false -> untouched ts f (fork (w_state w)).

Lemma untouched_refl ts f : untouched ts f f.
Proof. by left. Qed.

(** After a rollback nothing else is written. *)
Lemma rolled_back f : ensures (back_to f) (modify_fork rollback : txm _) (fun _ => at_fork f).
Proof. intros w Hw. exact Hw. Qed.

Lemma error_text_at f e : ensures (at_fork f) (error_text e : txm _) (fun _ => at_fork f).
Proof. apply at_fork_rel. unfold error_text. frames. Qed.
Lemma error_kind_at f e : ensures (at_fork f) (error_kind e : txm _) (fun _ => at_fork f).
Proof. apply at_fork_rel. unfold error_kind. frames. Qed.
Lemma to_account_id_at f k : ensures (at_fork f) (to_account_id k : txm _) (fun _ => at_fork f).
Proof. apply at_fork_rel. unfold to_account_id. frames. Qed.
Lemma wm_fuel_limit_at f id height limit : ensures (at_fork f) (wm_fuel_limit id height limit : txm _) (fun _ => at_fork f).
Proof. apply at_fork_rel. unfold wm_fuel_limit. frames. Qed.
Lemma gets_at f {A} (g : tx_state -> A) : ensures (at_fork f) (gets g : txm A) (fun _ => at_fork f).
Proof. apply at_fork_rel. frames. Qed.
Lemma expect_at {A} (P : txw -> Prop) (o : option A) : ensures P (expect o : txm A) (fun _ => P).
Proof. by apply ensures_expect. Qed.

Lemma handle_unit_failed tx height index evs ts f : rollback f = f ->
  ensures (at_fork f) (handle_unit_transaction tx height index evs ts : txm _)
    (fun r w => match r with Ok res => failed_untouched ts f res w | Err _ => True end).
Proof.
  intros Hf. unfold handle_unit_transaction.
  eapply ensures_bind; [apply gets_at|]. intros s. destruct (_ && _).
  { eapply ensures_bind; [apply to_account_id_at|]. intros [id|e]; apply ensures_ret; [|done].
    intros w Hw _. rewrite Hw. apply untouched_refl. }
  eapply ensures_bind; [apply to_account_id_at|]. intros [id|e]; [|by apply ensures_ret].
  eapply ensures_bind; [apply wm_fuel_limit_at|]. intros limit.
  eapply ensures_bind; [apply expect_at|]. intros contract.
  eapply ensures_bind; [by apply check_ensures|]. intros [app_hash|e].
  2:{ eapply ensures_bind.
      - apply (ensures_rel (same_proj fork) (fun w => untouched ts f (fork (w_state w)))).
        + unfold error_text. frames.
        + unfold same_proj. by intros w w' ->.
      - intros msg. apply ensures_ret. by intros w Hw _. }
  eapply ensures_bind; [apply expect_at|]. intros method.
  eapply ensures_bind; [apply expect_at|]. intros args.
  eapply ensures_bind; [apply back_to_rel, call_on_wm_frame; typeclasses eauto|]. intros [[burnt result] evs'].
  destruct result as [value|err].
  - eapply ensures_bind; [by apply (ensures_ret _ _ (fun o w => fst (fst o) = true))|].
    intros [[ok returns] fault]. apply ensures_ret. intros w Hok Hfail. simpl in Hok, Hfail. congruence.
  - eapply (ensures_bind _ _ (fun _ => at_fork f)).
    + eapply ensures_bind; [apply rolled_back|]. intros ?.
      destruct err; (eapply ensures_bind; [first [apply error_text_at|apply error_kind_at]|intros ?; by apply ensures_ret]).
    + intros [[ok returns] fault]. apply ensures_ret. intros w Hw _. rewrite Hw. apply untouched_refl.
Qed.

Lemma bulk_root_failed ts caller root limit height index f : rollback f = f ->
  ensures (at_fork f) (bulk_root ts caller root limit height index : txm _)
    (fun r w => match r with
                | Ok _ => back_to f w
                | Err e => untouched ts f (fork (w_state w))
                end).
Proof.
  intros Hf. unfold bulk_root. eapply ensures_bind; [apply gets_at|]. intros s.
  assert (Hfault : forall e, ensures (at_fork f) (mret (Err e) : txm (Result (Z * Result (list Z) WasmError * list SmartContractEvent) WasmError))
    (fun r w => match r with Ok _ => back_to f w | Err e => untouched ts f (fork (w_state w)) end)).
  { intros e. apply ensures_ret. intros w Hw. rewrite Hw. apply untouched_refl. }
  destruct root as [d|d|d|d|d]; try apply Hfault.
  - destruct (_ && _); [apply Hfault|].
    eapply ensures_bind; [by apply check_ensures|]. intros [app_hash|e].
    + eapply ensures_bind; [apply back_to_rel, call_on_wm_frame; typeclasses eauto|]. intros r. by apply ensures_ret.
    + eapply ensures_bind.
      * apply (ensures_rel (same_proj fork) (fun w => untouched ts f (fork (w_state w)))).
        -- unfold error_text. frames.
        -- unfold same_proj. by intros w w' ->.
      * intros msg. by apply ensures_ret.
  - apply ensures_ret. unfold at_fork, back_to. by intros w ->.
Qed.

(** The faults of a bulk say that it failed. *)
Definition is_fault (e : WasmError) : Prop :=
  match e with BulkExecutionFault r => success r = false | _ => False end.

Lemma handle_bulk_v1_failed ts caller data limit height index evs f : rollback f = f ->
  ensures (at_fork f) (handle_bulk_v1 ts caller data limit height index evs : txm _)
    (fun r w => match r with Ok _ => back_to f w | Err _ => untouched ts f (fork (w_state w)) end).
Proof.
  intros Hf. unfold handle_bulk_v1, try_bind. eapply ensures_bind; [by apply bulk_root_failed|].
  intros [[[burnt result] evs']|e]; [|by apply ensures_ret]. destruct result as [rcpt|e].
  - eapply ensures_bind; [apply back_to_rel, nodes_execution_frame; typeclasses eauto|].
    intros nodes. by apply ensures_ret.
  - eapply ensures_bind; [apply back_to_rel, error_text_frame; typeclasses eauto|]. intros msg. by apply ensures_ret.
Qed.

Lemma handle_bulk_failed tx height index evs ts f : rollback f = f ->
  ensures (at_fork f) (handle_bulk_transaction tx height index evs ts : txm _)
    (fun r w => match r with Ok res => failed_untouched ts f res w | Err _ => True end).
Proof.
  intros Hf. unfold handle_bulk_transaction, try_bind.
  eapply ensures_bind; [apply to_account_id_at|]. intros [id|e]; [|by apply ensures_ret].
  eapply ensures_bind; [apply wm_fuel_limit_at|]. intros limit.
  eapply (ensures_bind _ _ (fun r w => match r with Ok _ => back_to f w | Err _ => untouched ts f (fork (w_state w)) end)).
  { destruct (s_data tx); try (apply ensures_ret; unfold at_fork, back_to; by intros w ->). by apply handle_bulk_v1_failed. }
  intros [[evs' results]|e].
  - set (ok := match results with [] => false | _ => _ end). clearbody ok. destruct ok; cbn [negb when].
    + eapply ensures_bind; [by apply (ensures_ret _ _ (fun _ _ => True))|]. intros ?. apply ensures_ret.
      by intros w _ [=].
    + eapply ensures_bind; [apply rolled_back|]. intros ?. apply ensures_ret.
      intros w Hw _. rewrite Hw. apply untouched_refl.
  - destruct e; try apply ensures_panic. apply ensures_ret. by intros w Hw _.
Qed.

(** What the service account's method for the burning of fuel makes of a fork *)
Definition paid (method account : string) (fuel ts : Z) (f f' : F) : Prop :=
  if bool_decide (method = EmptyString) then f' = f
  else exists (w1 w2 : txw) burn, fork (w_state w1) = f /\ call_burn_fuel method account fuel ts w1 = Ret burn w2 /\
         fork (w_state w2) = f'.

(** C38: a transaction that fails, whatever its contract wrote before, leaves the fork as it was at
    the start (flushed), or as the payment of its fuel makes it from there; only what a
    failed check of the contract wrote may stay. *)
Theorem failed_transaction_undone tx height index method ts (w w' : txw) r :
  execute_transaction tx height index method ts w = Ret (Ok r) w' -> success r = false ->
  let f := flush (fork (w_state w)) in
  fork (w_state w') = f \/
  exists f1 account fuel, untouched ts f f1 /\ paid method account fuel ts f1 (fork (w_state w')).
Proof.
  intros Hx Hr f. assert (Hf : rollback f = f) by apply rollback_flush.
  unfold execute_transaction in Hx. rewrite bind_eq in Hx. cbn [modify_fork] in Hx. unfold modify_fork in Hx.
  rewrite modify_eq in Hx. set (w0 := upd _ w) in Hx. assert (H0 : at_fork f w0) by done. unfold try_bind in Hx.
  rewrite bind_eq in Hx. set (m := match tx with UnitTransaction _ => _ | BulkTransaction _ => _ end) in Hx.
  assert (Hm : ensures (at_fork f) m (fun r w => match r with Ok res => failed_untouched ts f res w | Err _ => True end)).
  { subst m. destruct tx; [by apply handle_unit_failed|by apply handle_bulk_failed]. }
  assert (Hu : rel undoable m) by (subst m; destruct tx; [apply handle_unit_frame|apply handle_bulk_frame]; typeclasses eauto).
  specialize (Hm w0 H0). specialize (Hu w0). destruct (m w0) as [[res|e] w1|]; [| |done]; [|done].
  cbn [exec_world] in Hu. rewrite bind_eq in Hx.
  set (b := if bool_decide (method = EmptyString) then _ else _) in Hx.
  assert (Hb : rel undoable b) by (subst b; destruct (bool_decide _); [frames|apply call_burn_fuel_frame; typeclasses eauto]). specialize (Hb w1).
  destruct (b w1) as [burn w2|] eqn:Eb; [|done]. cbn [exec_world] in Hb.
  destruct (burn_outcome (snd burn)) as [burn_ok units]. destruct (_ && _).
  - left. rewrite bind_eq in Hx. unfold modify_fork in Hx. rewrite modify_eq in Hx. injection Hx as _ <-. simpl.
    unfold undoable, same_proj in *. rewrite Hb, Hu. exact Hf.
  - right. injection Hx as <- <-. cbn [success] in Hr. exists (fork (w_state w1)), (account (burn_fuel_args res)), (fuel_to_burn (burn_fuel_args res)).
    split; [by apply Hm|]. unfold paid. subst b. destruct (bool_decide _).
    + by injection Eb as _ <-.
    + by exists w1, w2, burn.
Qed.

(** ** Fuel *)

Lemma call_on_wm_fuel events args (w : txw) :
  match on_wm events (call args) w with Ret r _ => is_u64 (fst (fst r)) | Panic _ => True end.
Proof.
  unfold on_wm, zoom. rewrite bind_eq. pose proof (call_fuel args (zoom_in (fun s => MkWmState (wm (service s)) (fork s) events) w)) as Hc.
  by destruct (call args _) as [r w'|w'].
Qed.

Lemma limit_nonneg y : 0 <= Z.min (Fuel.bitbell_to_wm_fuel y) FuelConsts.MAX_WM_FUEL.
Proof.
  apply Z.min_glb; [|done]. unfold Fuel.bitbell_to_wm_fuel, Fuel.retrieve_x.
  repeat case_match; try done; apply u64_wrap_range.
Qed.

(** Once fuel is paid for, a unit transaction never owes more than what limits it, the smaller
    of its limit and its caller's money, if that is a sum between one thousand and the end
    of the fast range: whatever its contract did, whether it failed or not. *)
Theorem unit_price_within_limit tx height index evs ts (w w' : txw) res id acc bytes money :
  let y := Z.min (TxData.get_fuel_limit (s_data tx)) money in
  handle_unit_transaction tx height index evs ts w = Ret (Ok res) w' ->
  Keys.to_account_id (TxData.get_caller (s_data tx)) = Some (Ok id) ->
  fork_load_account id (fork (w_state w)) = Some acc -> Account.assets acc !! "TRINCI" = Some bytes ->
  msgunpack bytes = Some money ->
  FuelConsts.ACTIVATE_FUEL_CONSUMPTION < height -> 1000 <= y <= 4691000 ->
  fuel_to_burn (burn_fuel_args res) <= y /\ burned_fuel (receipt res) = fuel_to_burn (burn_fuel_args res) /\
  account (burn_fuel_args res) = id.
Proof.
  intros y Hx Hid Hacc Hbytes Hmoney Hh Hy.
  assert (Hlim : Fuel.calculate_wm_fuel_limit (fun id => fork_load_account id (fork (w_state w))) msgunpack id height
    (TxData.get_fuel_limit (s_data tx)) = Z.min (Fuel.bitbell_to_wm_fuel y) FuelConsts.MAX_WM_FUEL).
  { unfold Fuel.calculate_wm_fuel_limit. rewrite (proj2 (Z.ltb_lt _ _) Hh), Hacc, Hbytes, Hmoney. done. }
  revert Hx. unfold handle_unit_transaction, try_bind. rewrite bind_eq. unfold gets at 1.
  unfold to_account_id, expect. rewrite Hid. destruct (_ && _).
  { intros [= <- _]. cbn [burn_fuel_args receipt fuel_to_burn burned_fuel account]. split_and!; [lia|done|done]. }
  rewrite !bind_eq. cbn [mret M_ret map_err]. rewrite bind_eq. unfold wm_fuel_limit at 1, gets at 1. rewrite Hlim.
  set (limit := Z.min (Fuel.bitbell_to_wm_fuel y) _). pose proof (limit_nonneg y) as Hnn. fold limit in Hnn.
  rewrite bind_eq. destruct (TxData.get_contract _) as [contract|]; [|done]. cbn [mret M_ret]. rewrite bind_eq.
  destruct (check_app_hash _ _ _ _) as [[app_hash|e] w1|]; [| |done].
  2:{ rewrite bind_eq. destruct (error_text e w1) as [msg w2|]; [|done]. intros [= <- _]. cbn [burn_fuel_args receipt fuel_to_burn burned_fuel account].
      unfold get_fuel_burnt_for_error. split_and!; [lia|done|done]. }
  rewrite bind_eq. destruct (TxData.get_method _) as [method|]; [|done]. cbn [mret M_ret].
  rewrite bind_eq. destruct (TxData.get_args _) as [args|]; [|done]. cbn [mret M_ret].
  rewrite bind_eq. match goal with |- context [on_wm evs (call ?a) w1] => pose proof (call_on_wm_fuel evs a w1) as Hb end.
  destruct (on_wm evs _ w1) as [[[burnt result] evs'] w2|]; [|done]. cbn [fst] in Hb. rewrite bind_eq.
  match goal with |- context [match ?o w2 with _ => _ end] => destruct (o w2) as [[[ok returns] fault] w3|]; [|done] end.
  intros [= <- _]. cbn [burn_fuel_args receipt fuel_to_burn burned_fuel account]. rewrite (proj2 (Z.ltb_lt _ _) Hh).
  split_and!; [|done|done]. apply Fuel.price_within_limit; [exact Hy|]. unfold is_u64 in Hb. subst limit. lia.
Qed.

Lemma node_limit_zero load_account deserialize id height remaining node :
  0 <= remaining -> (forall b m, deserialize b = Some m -> 0 <= m) -> FuelConsts.ACTIVATE_FUEL_CONSUMPTION < height ->
  Fuel.calculate_wm_fuel_limit load_account deserialize id height
    (Z.min remaining (TxData.get_fuel_limit (BulkNodeV1 node))) = 0.
Proof.
  intros Hr Hd Hh. unfold Fuel.calculate_wm_fuel_limit. rewrite (proj2 (Z.ltb_lt _ _) Hh).
  destruct (load_account id) as [acc|]; [|done]. destruct (Account.assets acc !! "TRINCI") as [bytes|]; [|done].
  cbn [TxData.get_fuel_limit]. rewrite (Z.min_r remaining 0) by done.
  assert (Hm : 0 <= default 0 (deserialize bytes)) by (destruct (deserialize bytes) as [m|] eqn:E; simpl; [by eapply Hd|done]).
  by rewrite (Z.min_l 0 _ Hm).
Qed.

(** Once fuel is paid for the nodes of a bulk have none: [get_fuel_limit] gives no limit of a
    node's own, so whatever is left of the bulk's fuel, a node that runs burns nothing of
    it, in whatever order and with whatever contracts. *)
Theorem bulk_nodes_starved ts height nodes evs remaining (w w' : txw) evs' results :
  FuelConsts.ACTIVATE_FUEL_CONSUMPTION < height -> 0 <= remaining <= u64_max ->
  (forall b m, msgunpack (X := Z) b = Some m -> 0 <= m) ->
  Forall (fun node => exists d, s_data node = BulkNodeV1 d) nodes ->
  bulk_nodes ts height nodes evs remaining w = Ret (evs', results) w' ->
  Forall (fun r => br_success (snd r) = true -> br_burnt_wm_fuel (snd r) = 0) results.
Proof.
  intros Hh Hr Hu Hn. revert evs remaining w w' evs' results Hr.
  induction Hn as [|node nodes [d Hd] Hn IH]; intros evs remaining w w' evs' results Hr; cbn [bulk_nodes].
  { intros [= _ <- _]. constructor. }
  rewrite Hd, bind_eq. cbn [gets]. destruct (_ && _); [intros [= _ <- _]; by constructor|].
  rewrite bind_eq. destruct (Keys.to_account_id _) as [[id|e]|]; [|done|done]. cbn [expect mret M_ret]. rewrite !bind_eq.
  cbn [expect mret M_ret]. rewrite bind_eq. unfold wm_fuel_limit at 1, gets at 1. rewrite node_limit_zero by (first [lia|exact Hu|exact Hh]).
  rewrite bind_eq. cbn [TxData.get_contract expect mret M_ret]. rewrite bind_eq.
  destruct (check_app_hash _ _ _ w) as [[app_hash|e] w1|]; [| |done].
  2:{ rewrite bind_eq. destruct (error_text e w1); [|done]. intros [= _ <- _]. by constructor. }
  rewrite bind_eq. cbn [TxData.get_method expect mret M_ret]. rewrite bind_eq. cbn [TxData.get_args expect mret M_ret]. rewrite bind_eq.
  match goal with |- context [on_wm [] (call ?a) w1] => pose proof (call_on_wm_fuel [] a w1) as Hb end.
  destruct (on_wm [] _ w1) as [[[burnt result] evs2] w2|]; [|done]. cbn [fst] in Hb.
  assert (legacy_fuel height (Z.min burnt 0) result = 0) as ->.
  { unfold legacy_fuel. unfold FuelConsts.ACTIVATE_FUEL_CONSUMPTION in *. destruct (Z.ltb_spec height 20000); [lia|].
    simpl. unfold is_u64 in Hb. lia. }
  destruct result as [rcpt|e].
  - rewrite bind_eq. rewrite u64_sub_small by lia. rewrite Z.sub_0_r.
    destruct (bulk_nodes _ _ nodes _ remaining w2) as [[evs3 rest] w3|] eqn:E; [|done]. intros [= _ <- _].
    constructor; [done|]. exact (IH _ _ _ _ _ _ Hr E).
  - rewrite bind_eq. destruct (error_text e w2); [|done]. intros [= _ <- _]. by constructor.
Qed.

(** A unit transaction that carries a bulk with an empty root panics the service when it is
    executed, though such a transaction can verify. *)
Theorem unit_empty_root_panics tx d e height index method ts (w : txw) id :
  s_data tx = BulkV1 d -> u_data (bt_root (txs d)) = BulkEmptyRoot e -> e_network e = network_name (service (w_state w)) ->
  Keys.to_account_id (e_caller e) = Some (Ok id) ->
  panicked (execute_transaction (UnitTransaction tx) height index method ts w) = true.
Proof.
  intros Hd Hroot Hnet Hid. destruct d as [[[r] nodes]]. simpl in Hroot. subst r.
  unfold execute_transaction. rewrite bind_eq. unfold modify_fork. rewrite modify_eq. unfold try_bind. rewrite bind_eq.
  unfold handle_unit_transaction. rewrite Hd. rewrite bind_eq. cbn [gets TxData.get_network TxData.get_caller]. simpl.
  rewrite Hnet, bool_decide_true by done. simpl. unfold try_bind. rewrite bind_eq. unfold to_account_id at 1. rewrite Hid. done.
Qed.
End transactions.
