(* ===== verification/WasmBlocks.v ===== *)
(** * The WASM service: blocks

    What the execution of a block checks and tells the core, what its consolidation
    does to the database, and that every fork the service keeps was made from the
    present state of the database, which its merge relies on. *)

From stdpp Require Import base gmap strings list fin_maps.
From S2P Require Import Prelude.
From S2P Require Import Exec.
From S2P Require Import Hash.
From S2P Require Import Crypto.
From S2P Require Import CoreModels.
From S2P Require Import DRand.
From S2P Require Import Messages.
From S2P Require Import NodeModels.
From S2P Require Import NodeErrors.
From S2P Require Import Database.
From S2P Require Import DatabaseTheorems.
From S2P Require Import Fuel.
From S2P Require Import EventService.
From S2P Require Import WasmMachine.
From S2P Require Import WasmService.
From S2P Require Import WasmTheorems.
Open Scope Z_scope.
Import WasmService.

Section blocks.
Context `{Hdig : Digest} `{Hb58 : Base58} `{Hring : Ring} `{Hhex : Hex} `{Hcodecs : WasmCodecs}.
Context {D F W Chan : Type} `{Hdb : Db D F} `{Hfork : DbFork F} `{Hwm : Wm W F} `{Hwl : !WmLaws W F} `{Hdl : !DbLaws D F}.

Abbreviation txm := (M (tx_state (D := D) (F := F) (W := W)) (effect (Chan := Chan)) core_answer).
Abbreviation txw := (world (tx_state (D := D) (F := F) (W := W)) (effect (Chan := Chan)) core_answer).
Abbreviation service_t := (t (D := D) (F := F) (W := W)).
Abbreviation hm := (M (t (D := D) (F := F) (W := W)) (effect (Chan := Chan)) core_answer).
Abbreviation hw := (world (t (D := D) (F := F) (W := W)) (effect (Chan := Chan)) core_answer).

(** ** The transactions of a block *)
Lemma execute_block_transactions_frame (P : txw -> txw -> Prop) `{!TxFrame P} block index txs :
  rel P (modify_fork flush) -> (forall f g, (forall f, writes f (g f)) -> P f (upd (fun s => set_fork (g (fork s)) s) f)) ->
  rel P (execute_block_transactions block index txs).
Proof.
  intros Hflush Hwrite. revert index. induction txs as [|tx txs IH]; intros index; cbn [execute_block_transactions]; [frames|].
  apply rel_bind; [typeclasses eauto|apply gets_frame; typeclasses eauto|]. intros s.
  apply rel_try_bind; [typeclasses eauto|by apply execute_transaction_frame|]. intros r.
  apply rel_bind; [typeclasses eauto|intros w; apply Hwrite; constructor|]. intros _.
  apply rel_bind; [typeclasses eauto|intros w; apply Hwrite; constructor|]. intros _.
  apply rel_try_bind; [typeclasses eauto|apply IH|]. intros hs. frames.
Qed.

(** A transaction's fork stays one made from the state [d]. *)
#[local] Instance based_frame d : TxFrame (keeps (fun s : tx_state => based d (fork s)) : txw -> txw -> Prop).
Proof.
  split; [typeclasses eauto| |].
  - intros A events m Hm. eapply rel_zoom with
      (P' := fun w w' => rtc writes (ws_fork (w_state w)) (ws_fork (w_state w'))).
    + intros w. specialize (Hm w). rewrite bind_eq. destruct (m w); exact Hm.
    + intros w w' H. unfold keeps. simpl. by apply based_writes.
  - intros w. unfold keeps. simpl. apply based_rollback.
Qed.

Lemma block_transactions_based d block index txs :
  rel (keeps (fun s => based d (fork s))) (execute_block_transactions block index txs : txm _).
Proof.
  apply execute_block_transactions_frame; [typeclasses eauto| |].
  - intros w. unfold keeps. simpl. apply based_flush.
  - intros w g Hg. unfold keeps. simpl. apply based_write, Hg.
Qed.

Lemma block_transactions_service block index txs :
  rel same_service (execute_block_transactions block index txs : txm _).
Proof. apply execute_block_transactions_frame; [typeclasses eauto|by intros w|by intros w g _]. Qed.

(** ** The forks the service keeps *)

(** Its forks were all made from the present state of the database. *)
Definition forks_based (me : string) (s : service_t) : Prop :=
  node_id s = me /\ db_ok (db s) /\ map_Forall (fun _ f => based (db s) f) (forks_collector s).

Lemma with_fork_ensures me f block index txs :
  ensures (fun w : hw => forks_based me (w_state w) /\ based (db (w_state w)) f)
    (with_fork f (execute_block_transactions block index txs))
    (fun r w => forks_based me (w_state w) /\ based (db (w_state w)) (snd r)).
Proof.
  intros w [(Hme & Hok & Hall) Hf]. unfold with_fork, zoom. rewrite bind_eq.
  set (w0 := zoom_in _ w). pose proof (block_transactions_based (db (w_state w)) block index txs w0 Hf) as Hb.
  pose proof (block_transactions_service block index txs w0) as Hs.
  destruct (execute_block_transactions block index txs w0) as [r w1|w1]; [|done]. simpl in *.
  unfold same_service, same_proj in Hs. simpl in Hs. injection Hs as H1 H2 H3 H4. rewrite H1.
  split; [|exact Hb]. unfold forks_based. simpl. by rewrite H1, H3, H4.
Qed.

(** [send_msg] and the events leave the state alone. *)
Lemma send_msg_state to msg : rel (same_proj (fun s => s)) (send_msg to msg : hm unit).
Proof. eapply rel_zoom with (P' := fun _ _ => True); [done|]. by intros w w' _. Qed.
Lemma send_req_state from to req : rel (same_proj (fun s => s)) (send_req from to req : hm _).
Proof. eapply rel_zoom with (P' := fun _ _ => True); [done|]. by intros w w' _. Qed.
Lemma emit_events_state evs : rel (same_proj (fun s => s)) (emit_events evs : hm unit).
Proof. unfold emit_events. frames. Qed.
#[local] Hint Resolve send_msg_state send_req_state emit_events_state : frames.
Lemma emit_contract_events_state d hashes : rel (same_proj (fun s => s)) (emit_contract_events d hashes : hm unit).
Proof. unfold emit_contract_events. frames. Qed.
Lemma player_units_state d id : rel (same_proj (fun s => s)) (player_units d id : hm _).
Proof. unfold player_units. frames. Qed.
#[local] Hint Resolve emit_contract_events_state player_units_state : frames.
Lemma players_units_state d ids : rel (same_proj (fun s => s)) (players_units d ids : hm _).
Proof. induction ids as [|id ids IH]; cbn [players_units]; frames. Qed.
#[local] Hint Resolve players_units_state : frames.
Lemma players_of_state d : rel (same_proj (fun s => s)) (players_of d : hm _).
Proof. unfold players_of. frames. Qed.

Lemma ensures_state {A} (I : service_t -> Prop) (m : hm A) :
  rel (same_proj (fun s => s)) m -> ensures (fun w => I (w_state w)) m (fun _ w => I (w_state w)).
Proof. intros Hm. apply (ensures_rel (same_proj (fun s => s))); [exact Hm|]. unfold same_proj. by intros w w' ->. Qed.

Definition no_forks (me : string) (s : service_t) : Prop := forks_based me s /\ forks_collector s = ∅.

Lemma consolidate_block_based me block confs hashes :
  ensures (fun w : hw => forks_based me (w_state w)) (consolidate_block block confs hashes)
    (fun r w => forks_based me (w_state w) /\ (r = Ok tt -> forks_collector (w_state w) = ∅)).
Proof.
  intros w (Hme & Hok & Hall). unfold consolidate_block. rewrite bind_eq. cbn [get_state].
  destruct (forks_collector (w_state w) !! block_hash block) as [f|] eqn:Ef; [|done].
  assert (Hdel : map_Forall (fun _ f => based (db (w_state w)) f) (delete (block_hash block) (forks_collector (w_state w)))).
  { by apply map_Forall_delete. }
  rewrite bind_eq, modify_eq. destruct (db_poisoned (w_state w)); [by repeat split|].
  destruct (merge_fork _ _) as [d|e] eqn:Em; [|by repeat split].
  assert (Hd : db_ok d).
  { eapply merge_block_ok; [exact Hok| |exact Em]. by eapply Hall. }
  rewrite bind_eq, modify_eq. set (w2 := upd _ (upd _ w)).
  assert (H2 : node_id (w_state w2) = me /\ db (w_state w2) = d) by done. clearbody w2. revert w2 H2.
  change (ensures (fun w : hw => node_id (w_state w) = me /\ db (w_state w) = d)
    (emit_events [(EventService.BLOCK_EXEC, msgpack (BlockEvent block (Some hashes) None))] ;;
     players ← players_of d; modify (set_forks_collector ∅) ;; emit_contract_events d hashes ;;
     send_msg BlockService (Msg.BlockConsolidated block hashes players) ;; (mret (Ok tt) : hm (Result unit NodeError)))
    (fun r w => forks_based me (w_state w) /\ (r = Ok tt -> forks_collector (w_state w) = ∅))).
  set (I := fun s : service_t => node_id s = me /\ db s = d).
  eapply ensures_bind; [apply (ensures_state I); frames|]. intros ?.
  eapply ensures_bind; [apply (ensures_state I), players_of_state|]. intros players.
  eapply (ensures_bind _ _ (fun _ w => no_forks me (w_state w))).
  { apply ensures_modify. intros w' [<- <-]. by repeat split. }
  intros ?. eapply ensures_bind; [apply (ensures_state (no_forks me)); frames|]. intros ?.
  eapply ensures_bind; [apply (ensures_state (no_forks me)); frames|]. intros ?.
  apply ensures_ret. by intros w' [H1 H2].
Qed.

(** A genesis block, as the node makes it: nobody built it. *)
Definition genesis (me : string) (block : Block) : Prop :=
  bd_height (block_data block) <= 0 /\ default EmptyString (block_builder_id block) <> me.

Lemma collect_based me f hash :
  ensures (fun w : hw => forks_based me (w_state w) /\ based (db (w_state w)) f)
    (modify (fun s => set_forks_collector (<[hash := f]> (forks_collector s)) s))
    (fun _ w => forks_based me (w_state w)).
Proof. apply ensures_modify. intros w [(H1 & H2 & H3) Hf]. repeat split; [done|done|]. by apply map_Forall_insert_2. Qed.

Lemma update_db_fork_based me f block round txs rxs :
  ensures (fun w : hw => forks_based me (w_state w) /\ based (db (w_state w)) f)
    (update_db_fork f block round txs rxs)
    (fun r w => forks_based me (w_state w) /\ (genesis me block -> r = Ok tt -> forks_collector (w_state w) = ∅)).
Proof.
  intros w Hw. unfold update_db_fork.
  pose proof (write_transactions_hashes (bd_height (block_data block)) (map (listed_hash (bd_height (block_data block))) txs) f) as Ht.
  destruct (store_transactions_hashes _ _ f) as [f1 txs_root]. cbn [fst] in Ht.
  pose proof (write_receipts_hashes (bd_height (block_data block)) rxs f1) as Hr.
  destruct (store_receipts_hashes _ _ f1) as [f2 rxs_root]. cbn [fst] in Hr.
  rewrite bind_eq. cbn [get_state].
  assert (Hw2 : forks_based me (w_state w) /\ based (db (w_state w)) f2).
  { destruct Hw as [H1 Hf]. split; [done|]. eapply based_write; [exact Hr|]. by eapply based_write. }
  pose proof (proj1 (proj1 Hw)) as Hme. set (I := fun s : service_t => forks_based me s /\ based (db s) f2) in Hw2.
  case_bool_decide as Hb; [|destruct (Z.ltb_spec 0 (bd_height (block_data block))) as [Hh|Hh]].
  - revert w Hw Hw2 Hme Hb. intros w _ Hw2 Hme Hb. revert Hb. rewrite Hme. intros Hb. clear Hme. revert w Hw2.
    eapply ensures_bind; [apply (ensures_state I); frames|]. intros ?.
    eapply ensures_bind; [apply collect_based|]. intros ?. apply ensures_ret. intros w Hw. split; [done|]. by intros [_ ?].
  - destruct (_ || _); [split; [apply Hw|by intros _ [=]]|]. clear Hw Hme Hb. revert w Hw2.
    eapply ensures_bind; [apply (ensures_state I); frames|]. intros ?.
    eapply ensures_bind; [apply collect_based|]. intros ?. apply ensures_ret. intros w Hw. split; [done|]. intros [? _]. lia.
  - clear Hw Hme Hb. revert w Hw2.
    eapply ensures_bind; [apply collect_based|]. intros ?. eapply ensures_conseq; [apply consolidate_block_based|intros w Hc; exact Hc|].
    intros r w [H1 H2]. split; [done|]. intros _. exact H2.
Qed.

Lemma mark_slashed_writes leader builder f : writes f (mark_slashed leader builder f).
Proof. unfold mark_slashed. destruct (bool_decide _); constructor. Qed.

Lemma execute_block_based me block round txs :
  ensures (fun w : hw => forks_based me (w_state w)) (execute_block block round txs)
    (fun r w => forks_based me (w_state w) /\ (genesis me block -> r = Ok tt -> forks_collector (w_state w) = ∅)).
Proof.
  intros w (Hme & Hok & Hall). unfold execute_block. rewrite bind_eq. cbn [get_state].
  destruct (db_poisoned (w_state w)); [by repeat split|]. destruct (bool_decide _); [by repeat split|].
  destruct (based_create (db (w_state w)) Hok) as (Hok' & Hb & Hkeep). destruct (create_fork (db (w_state w))) as [d f].
  cbn [fst snd] in *. rewrite bind_eq, modify_eq. set (w1 := upd _ w).
  set (I := fun s : service_t => forks_based me s /\ based (db s) f).
  assert (H1 : I (w_state w1)).
  { repeat split; [done|done| |done]. intros k f' Hf'. apply Hkeep. by eapply Hall. }
  clearbody w1. generalize (default (node_id (w_state w)) (block_builder_id block)) as builder. intros builder.
  clear w Hme Hok Hall Hkeep. revert w1 H1.
  eapply ensures_bind; [apply (ensures_state I); frames|]. intros answer.
  set (f' := match answer with Ok (Res.GetLeader _) => _ | _ => f end).
  assert (Hf' : rtc writes f f').
  { subst f'. destruct answer as [[]|]; try apply rtc_refl. apply rtc_once, mark_slashed_writes. }
  eapply ensures_bind.
  { eapply ensures_conseq; [apply (with_fork_ensures me f')| |by intros r w Hr; exact Hr].
    intros w [H1 H2]. split; [done|]. by eapply based_writes. }
  intros [[rxs|e] f2]; [apply update_db_fork_based|]. apply ensures_ret. by intros w [H1 _].
Qed.

(** ** Runs of the service *)
Definition genesis_input (me : string) (i : Input (Chan := Chan)) : Prop :=
  match i with InReq (ExecuteGenesisBlock block _ _) _ => genesis me block | _ => True end.

Lemma store_all_based d (txs : list Transaction) f :
  based d f -> based d (fold_left (fun f tx => store_transaction (data_hash tx) tx f) txs f).
Proof.
  revert f. induction txs as [|tx txs IH]; intros f Hf; [done|]. simpl. apply IH. eapply based_write; [constructor|done].
Qed.

Lemma step_based me i : genesis_input me i ->
  ensures (fun w : hw => forks_based me (w_state w)) (step i) (fun _ w => forks_based me (w_state w)).
Proof.
  intros Hg. destruct i as [[block round txs|block confs hashes|]|[block txs name|] chan]; cbn [step handle_messages handle_requests].
  - eapply ensures_bind; [apply execute_block_based|]. intros r. apply ensures_ret. by intros w [? _].
  - eapply ensures_bind; [apply consolidate_block_based|]. intros r. apply ensures_ret. by intros w [? _].
  - by apply ensures_ret.
  - eapply (ensures_bind _ _ (fun _ w => forks_based me (w_state w))); [apply ensures_expect; by intros c w _ ?|]. intros c.
    eapply ensures_bind; [apply execute_block_based|]. intros [[]|e]; [|apply ensures_ret; by intros w [? _]].
    intros w [(Hme & Hok & Hall) He]. specialize (He Hg eq_refl). rewrite bind_eq. cbn [get_state].
    destruct (db_poisoned (w_state w)); [done|]. rewrite bind_eq.
    destruct (load_account_data _ _ _) as [data|]; [|done]. cbn [expect mret M_ret].
    rewrite bind_eq. destruct (msgunpack data) as [config|]; [|done]. cbn [expect mret M_ret].
    rewrite bind_eq, modify_eq. destruct (based_create _ Hok) as (Hok' & Hb & _).
    destruct (create_fork (db (w_state w))) as [d f]. cbn [fst snd] in *. rewrite bind_eq, modify_eq.
    destruct (merge_fork _ d) as [d'|] eqn:Em; [|done]. rewrite bind_eq, modify_eq.
    split; [done|]. split; [|intros hash f' Hf'; simpl in Hf'; by rewrite He in Hf'].
    simpl. eapply merge_ok; [exact Hok'| |exact Em]. apply store_all_based. eapply based_write; [constructor|done].
  - eapply (ensures_bind _ _ (fun _ w => forks_based me (w_state w))); [apply ensures_expect; by intros c w _ ?|]. intros c. by apply ensures_ret.
Qed.

Lemma run_based d poisoned me name method machine inputs answers clock (w' : hw) :
  db_ok d -> Forall (genesis_input me) inputs ->
  run inputs (World (initial d poisoned me name method machine) answers clock []) = Ret tt w' -> forks_based me (w_state w').
Proof.
  intros Hd Hin Hr.
  assert (He : ensures (fun w : hw => forks_based me (w_state w)) (run inputs) (fun _ w => forks_based me (w_state w))).
  { apply ensures_for_each. intros i Hi. apply step_based. by eapply Forall_forall in Hin. }
  specialize (He (World (initial d poisoned me name method machine) answers clock [])). rewrite Hr in He. apply He.
  repeat split; [done|]. apply map_Forall_empty.
Qed.

(** C39: whatever blocks the service executes and consolidates from its start, every fork that waits
    for its block to be consolidated was made from the present state of the database, so
    that merging it keeps the database consistent. *)
Theorem run_forks_based d poisoned me name method machine inputs answers clock (w' : hw) :
  db_ok d -> Forall (genesis_input me) inputs ->
  run inputs (World (initial d poisoned me name method machine) answers clock []) = Ret tt w' ->
  db_ok (db (w_state w')) /\ forall hash f, forks_collector (w_state w') !! hash = Some f -> based (db (w_state w')) f.
Proof. intros Hd Hin Hr. destruct (run_based _ _ _ _ _ _ _ _ _ _ Hd Hin Hr) as (_ & H1 & H2). split; [done|]. intros hash f. apply H2. Qed.

(** ** What is told to the core *)
Definition told (to : Service) (msg : Msg.t Hash Block Confirmation Transaction) : effect (Chan := Chan) :=
  Core (Sent to (MkComm (KMsg msg) None)).

Lemma send_msg_eq to msg (w : hw) : send_msg to msg w = Ret tt (outs [told to msg] w).
Proof. by destruct w. Qed.

Definition kept (hash : Hash) (f : F) (s : service_t) : service_t := set_forks_collector (<[hash := f]> (forks_collector s)) s.

(** The roots the execution gives to a block, and the fork with the lists they are roots of *)
Definition roots (f : F) (block : Block) (txs : list Transaction) (rxs : list Hash) : Hash * Hash * Hash :=
  let n := bd_height (block_data block) in
  let f1 := store_transactions_hashes n (map (listed_hash n) txs) f in
  (state_hash "" f, snd f1, snd (store_receipts_hashes n rxs (fst f1))).
Definition listed_fork (f : F) (block : Block) (txs : list Transaction) (rxs : list Hash) : F :=
  let n := bd_height (block_data block) in
  fst (store_receipts_hashes n rxs (fst (store_transactions_hashes n (map (listed_hash n) txs) f))).
Definition claimed_roots (block : Block) : Hash * Hash * Hash :=
  (bd_state_hash (block_data block), bd_txs_hash (block_data block), bd_rxs_hash (block_data block)).

(** After its execution a block of another node is kept for its consolidation and reported to
    the consensus service exactly when the three roots it claims are those that were
    computed; otherwise nothing is kept or sent and the error gives both. *)
Theorem external_block_checked f block round txs rxs (w : hw) :
  default EmptyString (block_builder_id block) <> node_id (w_state w) -> 0 < bd_height (block_data block) ->
  update_db_fork f block round txs rxs w =
  if bool_decide (claimed_roots block = roots f block txs rxs)
  then Ret (Ok tt) (upd (kept (block_hash block) (listed_fork f block txs rxs))
         (outs [told ConsensusService (Msg.BlockExecutionEnded block (map get_hash txs))] w))
  else Ret (Err (NodeWasmError (let '(sh, tr, rr) := roots f block txs rxs in
                                BlockExecutionMismatch (block_data block) sh tr rr))) w.
Proof.
  intros Hb Hh. unfold update_db_fork, roots, listed_fork, claimed_roots.
  assert (Hl : map (listed_hash (bd_height (block_data block))) txs = map get_hash txs).
  { apply map_ext. intros tx. unfold listed_hash. by destruct (Z.ltb_spec 0 (bd_height (block_data block))); [|lia]. }
  rewrite Hl. destruct (store_transactions_hashes _ _ f) as [f1 tr]. cbn [fst snd].
  destruct (store_receipts_hashes _ _ f1) as [f2 rr]. cbn [fst snd]. rewrite bind_eq. cbn [get_state].
  rewrite bool_decide_false by done. destruct (Z.ltb_spec 0 (bd_height (block_data block))) as [_|]; [|lia].
  destruct (decide (claimed_roots block = (state_hash "" f, tr, rr))) as [Hr|Hr]; unfold claimed_roots in Hr;
    [rewrite (bool_decide_true ((_, _, _) = _)) by done|rewrite (bool_decide_false ((_, _, _) = _)) by done].
  - injection Hr as -> -> ->. rewrite !bool_decide_true by done. simpl. rewrite bind_eq, send_msg_eq, bind_eq. done.
  - assert (negb (bool_decide (bd_state_hash (block_data block) = state_hash "" f)) ||
            negb (bool_decide (bd_txs_hash (block_data block) = tr)) ||
            negb (bool_decide (bd_rxs_hash (block_data block) = rr)) = true) as ->; [|done].
    apply not_false_iff_true. rewrite !orb_false_iff, !negb_false_iff, !bool_decide_eq_true. intros [[H1 H2] H3].
    apply Hr. by rewrite H1, H2, H3.
Qed.

(** A block the node built itself gets the three roots, is kept under its hash with them, and is
    proposed with them, at the round it was built for. *)
Theorem own_block_proposed f block round txs rxs (w : hw) :
  default EmptyString (block_builder_id block) = node_id (w_state w) ->
  let '(sh, tr, rr) := roots f block txs rxs in
  let block' := with_roots sh tr rr block in
  claimed_roots block' = roots f block txs rxs /\
  update_db_fork f block round txs rxs w =
    Ret (Ok tt) (upd (kept (block_hash block') (listed_fork f block txs rxs))
      (outs [told ConsensusService (Msg.ProposalAfterBuild block' round
               (map (listed_hash (bd_height (block_data block))) txs))] w)).
Proof.
  intros Hb. unfold update_db_fork, roots, listed_fork, claimed_roots.
  destruct (store_transactions_hashes _ _ f) as [f1 tr]. cbn [fst snd].
  destruct (store_receipts_hashes _ _ f1) as [f2 rr]. cbn [fst snd]. split; [done|].
  rewrite bind_eq. cbn [get_state]. rewrite bool_decide_true by done. rewrite bind_eq, send_msg_eq, bind_eq. done.
Qed.

(** ** Consolidation *)
Definition is_event (e : effect (Chan := Chan)) : Prop := match e with Emitted _ _ => True | _ => False end.

Lemma emit_events_adds evs : rel (adds is_event) (emit_events evs : hm unit).
Proof. unfold emit_events. by frames. Qed.

Lemma emit_contract_events_adds d hashes : rel (adds is_event) (emit_contract_events d hashes : hm unit).
Proof. unfold emit_contract_events. frames. apply emit_events_adds. Qed.

Lemma safe_rel_events d hashes (w : hw) : exists w', emit_contract_events d hashes w = Ret tt w'.
Proof.
  assert (Hs : safe (emit_contract_events d hashes : hm unit)) by (unfold emit_contract_events, emit_events; safely).
  specialize (Hs w). destruct (emit_contract_events d hashes w) as [[] w'|w']; [by exists w'|done].
Qed.

Lemma player_units_silent d id : rel (adds (fun _ => False)) (player_units d id : hm _).
Proof. unfold player_units. frames. Qed.
Lemma players_of_silent d : rel (adds (fun _ => False)) (players_of d : hm _).
Proof.
  unfold players_of. apply rel_bind; [typeclasses eauto|frames|]. intros [ids|]; [|frames].
  apply rel_bind; [typeclasses eauto| |intros ws; frames].
  induction ids as [|id ids IH]; cbn [players_units]; [frames|].
  apply rel_bind; [typeclasses eauto|apply player_units_silent|]. intros u.
  apply rel_bind; [typeclasses eauto|exact IH|]. intros us. frames.
Qed.

Lemma silent_out {A} (m : hm A) (w : hw) : rel (adds (fun _ => False)) m -> w_out (exec_world (m w)) = w_out w.
Proof. intros Hm. destruct (Hm w) as ([|e es] & -> & Hf); [by rewrite app_nil_r|]. by inversion Hf. Qed.

(** Consolidating a block whose execution was not kept panics the service.  Otherwise its fork,
    with the block and its confirmations, is merged; the other forks are dropped, and the
    core is told of the block after events only, with the players of the merged database;
    a failed merge changes nothing else; and once merged only the players can panic. *)
Theorem consolidate_block_spec block confs hashes (w : hw) :
  match forks_collector (w_state w) !! block_hash block with
  | None => consolidate_block block confs hashes w = Panic w
  | Some f =>
      match consolidate_block block confs hashes w with
      | Ret (Ok _) w' => exists d players events (w1 w2 : hw),
          merge_fork (store_block block confs f) (db (w_state w)) = Ok d /\
          db (w_state w') = d /\ forks_collector (w_state w') = ∅ /\
          players_of d w1 = Ret players w2 /\ Forall is_event events /\
          w_out w' = w_out w ++ events ++ [told BlockService (Msg.BlockConsolidated block hashes players)]
      | Ret (Err _) w' =>
          w_out w' = w_out w /\ db (w_state w') = db (w_state w) /\
          forks_collector (w_state w') = delete (block_hash block) (forks_collector (w_state w))
      | Panic w' => exists d (w1 w2 : hw),
          merge_fork (store_block block confs f) (db (w_state w)) = Ok d /\ db (w_state w') = d /\
          players_of d w1 = Panic w2
      end
  end.
Proof.
  unfold consolidate_block. rewrite bind_eq. cbn [get_state].
  destruct (forks_collector (w_state w) !! block_hash block) as [f|]; [|done]. rewrite bind_eq, modify_eq.
  destruct (db_poisoned (w_state w)); [done|]. destruct (merge_fork _ _) as [d|e] eqn:Em; [|done].
  rewrite bind_eq, modify_eq, bind_eq. set (w1 := upd _ (upd _ w)).
  set (ev := (EventService.BLOCK_EXEC, _)). change (emit_events [ev] w1) with (Ret (W := hw) tt (outs [Emitted (fst ev) (snd ev)] w1)).
  cbn beta iota. rewrite bind_eq. set (w2 := outs _ w1).
  pose proof (silent_out (players_of d) w2 (players_of_silent d)) as Hout.
  pose proof (players_of_state d w2) as Hst.
  destruct (players_of d w2) as [players w3|w3] eqn:Ep; unfold same_proj in Hst; cbn [exec_world] in Hout, Hst.
  2:{ exists d, w2, w3. split_and!; [done| |done]. by rewrite Hst. }
  rewrite bind_eq, modify_eq, bind_eq. set (w4 := upd _ w3).
  destruct (emit_contract_events_adds d hashes w4) as (es & Hes & Hev).
  pose proof (emit_contract_events_state d hashes w4) as Hst4.
  destruct (safe_rel_events d hashes w4) as (w5 & E5). rewrite E5 in *. cbn [exec_world] in *.
  rewrite bind_eq, send_msg_eq. exists d, players, (Emitted (fst ev) (snd ev) :: es), w2, w3. unfold same_proj in Hst4.
  split_and!; [done| | |done|by constructor|].
  - simpl. by rewrite Hst4; simpl; rewrite Hst.
  - simpl. by rewrite Hst4.
  - simpl. rewrite Hes. subst w4. simpl. rewrite Hout. subst w2. simpl. by rewrite <- !app_assoc.
Qed.
End blocks.

(** ** Over the database of the node *)
Section rocks.
Context `{Hdig : Digest} `{Hb58 : Base58} `{Hring : Ring} `{Hhex : Hex} `{Hcodecs : WasmCodecs} `{Hmdb : MerkleDb} `{Hlaws : !MerkleDbLaws}.
Context {W Chan : Type} `{Hwm : Wm W Fork} `{Hwl : !WmLaws W Fork}.
Abbreviation rocks_world := (world (t (D := RocksDb.t) (F := Fork) (W := W)) (effect (Chan := Chan)) core_answer).

(** C40: from its start, whatever blocks the service has executed and consolidated: when the
    consolidation of a block succeeds the block is the last one in the database, with the
    confirmations it was consolidated with, at the height that was free; and every block the
    database had before is still at its height, with its confirmations. *)
Theorem consolidated_block_last d0 poisoned me name method machine inputs answers clock block confs hashes (w w' : rocks_world) :
  RocksDb.fresh d0 -> Forall (genesis_input me) inputs ->
  run inputs (World (initial d0 poisoned me name method machine) answers clock []) = Ret tt w ->
  consolidate_block block confs hashes w = Ret (Ok tt) w' ->
  let d := db (w_state w) in let d' := db (w_state w') in
  load_block u64_max d' = Some block /\ load_confirmations u64_max d' = Some confs /\
  (forall n, n <> u64_max -> load_block n d' = if n =? list_len BLOCKS (RocksDb.snap d) then Some block else load_block n d) /\
  (forall n, n <> u64_max -> is_Some (load_block n d) <-> 0 <= n < list_len BLOCKS (RocksDb.snap d)) /\
  (forall n, n <> u64_max -> load_confirmations n d' =
     if n =? list_len CONFIRMATIONS (RocksDb.snap d) then Some confs else load_confirmations n d).
Proof.
  intros H0 Hin Hr Hc d. destruct (run_based (Hdl := RocksDb.rocks_db_laws) d0 poisoned me name method machine inputs answers clock w H0 Hin Hr) as (_ & Hok & Hall).
  pose proof (consolidate_block_spec block confs hashes w) as Hs. rewrite Hc in Hs.
  destruct (forks_collector (w_state w) !! block_hash block) as [f|] eqn:Hf; [|done].
  destruct Hs as (d1 & players & events & w1 & w2 & Hm & Hd & _). cbv zeta. rewrite Hd. fold d in Hm.
  destruct (Hall _ _ Hf) as (Hb & (Hl & Hg & Hlc & Hgc) & _). fold d in Hok, Hb, Hl, Hg, Hlc, Hgc.
  destruct (store_block_last block confs f d d1 Hok Hb Hm) as (L1 & L2 & L3).
  assert (Hload : forall n, n <> u64_max -> load_block n d = list_get BLOCKS (RocksDb.snap d) n).
  { intros n Hn. simpl. unfold RocksDb.load_block, RocksDb.u64_MAX. by destruct (Z.eqb_spec n u64_max). }
  assert (Hconf : forall n, n <> u64_max -> load_confirmations n d = list_get CONFIRMATIONS (RocksDb.snap d) n).
  { intros n Hn. simpl. unfold RocksDb.load_confirmations, RocksDb.u64_MAX. by destruct (Z.eqb_spec n u64_max). }
  split_and!; [done|done|..]; intros n Hn.
  - by rewrite L3, Hl, Hg, Hload.
  - rewrite Hload by done. apply list_get_len.
  - by rewrite (store_block_confirmations block confs f d d1), Hlc, Hgc, Hconf.
Qed.
End rocks.
