(* ===== verification/WasmSamples.v ===== *)
(** * The WASM service on concrete inputs

    A machine with four methods over the database in memory: it shows that the laws of
    the interfaces can hold together, that the theorems of the service apply, and how
    the service behaves at the activation of fuel, on bulks and on texts that cannot be
    cut. *)

From stdpp Require Import base gmap strings list fin_maps.
From S2P Require Import Prelude.
From S2P Require Import Exec.
From S2P Require Import Hash.
From S2P Require Import Crypto.
From S2P Require Import CoreModels.
From S2P Require Import DRand.
From S2P Require Import Messages.
From S2P Require Import Samples.
From S2P Require Import NodeModels.
From S2P Require Import NodeErrors.
From S2P Require Import Database.
From S2P Require Import DatabaseTheorems.
From S2P Require Import Fuel.
From S2P Require Import EventService.
From S2P Require Import WasmMachine.
From S2P Require Import WasmService.
From S2P Require Import WasmTheorems.
From S2P Require Import WasmBlocks.
Open Scope Z_scope.
Import WasmService.

Module WasmSample.
#[local] Existing Instances Samples.digest Samples.base58 Samples.ring MemDb.mem_db MemDb.mem_db_laws.

#[local] Instance hex : Hex := {| hex_encode := Samples.string_of_bytes |}.

#[local] Instance codecs : WasmCodecs := {|
  pack_block_data := {| msgpack := fun d => bd_height d :: default [] (Hashes.as_bytes (bd_state_hash d)) |};
  pack_tx_data := DatabaseSample.tx_pack;
  pack_tx := {| msgpack := fun t => 0 :: @msgpack _ DatabaseSample.tx_pack (s_data (signed t)) |};
  pack_receipt := {| msgpack := fun r => [burned_fuel r] |};
  pack_event := {| msgpack := fun _ => [1] |};
  pack_results := {| msgpack := fun rs => map (fun r => br_burnt_wm_fuel (snd r)) rs |};
  pack_burn_args := {| msgpack := fun a => [ba_units a] |};
  pack_slashed := {| msgpack := fun p => into_bytes (fst p) |};
  pack_settings := {| msgpack := fun c => [block_timeout c] |};
  unpack_units := {| msgunpack := fun l => m ← head l; if 0 <=? m then Some m else None |};
  unpack_burn_returns := {| msgunpack := fun l => match l with [u] => Some (MkBurnFuelReturns true u) | _ => None end |};
  unpack_ids := {| msgunpack := fun _ => Some (Some ["a"]) |};
  unpack_validator := {| msgunpack := fun l => match l with [u] => Some (PlayerValue (MkPlayer "a" u 3)) | _ => None end |};
  unpack_settings := {| msgunpack := fun _ => Some (MkSettings false 500 3 "burn" None true "0") |}
|}.

(** ** The machine *)
Definition write (owner : string) (s : WmState unit Fork) : WmState unit Fork :=
  MkWmState (ws_wm s) (store_account_data owner "k" [1] (ws_fork s)) (ws_events s).

(** One hundred and twenty-five letters, then characters of two bytes *)
Fixpoint letters (n : nat) : string := match n with O => EmptyString | S n => String (Ascii.ascii_of_nat 97) (letters n) end.
Definition accents : string :=
  String (Ascii.ascii_of_nat 195) (String (Ascii.ascii_of_nat 169) (String (Ascii.ascii_of_nat 195) (String (Ascii.ascii_of_nat 169) EmptyString))).
Definition long_text : string := (letters 125 ++ accents)%string.

(** "burn" pays what it is asked to; "write" writes and uses five million units of fuel;
    "fail" writes and fails; "text" fails with a long text.  A call needs ten units. *)
Definition sample_call (args : CallArgs) : wm_handler unit Fork (Z * Result (list Z) WasmError) :=
  if ca_initial_fuel args <? 10 then mret (0, Err (WasmMachineFault "all fuel consumed"))
  else if bool_decide (ca_method args = "burn") then mret (10, Ok (ca_args args))
  else if bool_decide (ca_method args = "write") then modify (write (ca_owner args)) ;; mret (5000000, Ok [])
  else if bool_decide (ca_method args = "fail") then
    modify (write (ca_owner args)) ;; mret (5000, Err (SmartContractFault "no"))
  else mret (5000, Err (SmartContractFault long_text)).

#[local] Instance machine : Wm unit Fork := {|
  wm_new := fun cache_max => if cache_max =? 0 then None else Some tt;
  call := sample_call;
  callable_call := fun args => mret (10, Ok 0);
  app_hash_check := fun app_hash _ _ =>
    mret (match app_hash with Some h => Ok h | None => Err (ResourceNotFound "smart contract not specified") end)
|}.

#[local] Instance machine_laws : WmLaws unit Fork.
Proof.
  assert (Hw : forall args w, rtc writes (ws_fork (w_state w)) (ws_fork (w_state (exec_world (sample_call args w))))).
  { intros args w. unfold sample_call. repeat case_match; try apply rtc_refl; apply rtc_once; constructor. }
  split.
  - intros args w. simpl. unfold sample_call, is_u64, u64_max. repeat case_match; simpl in *; simplify_eq; simpl; try lia;
      repeat (unfold mbind, M_bind, modify, mret, M_ret in *; simplify_eq); simpl; lia.
  - intros args w. apply Hw.
  - intros args w. apply rtc_refl.
  - intros h c ts w. apply rtc_refl.
Qed.

(** ** Accounts and transactions *)
Definition key : Keys.TrinciPublicKey := DatabaseSample.key.
Definition me : string := default EmptyString (key_id key).
Definition contract : Hash := Samples.hash 9.

Definition fork0 : Fork :=
  store_account (Account.Mk "TRINCI" ∅ (Some contract) None)
    (store_account (Account.store_asset "TRINCI" [100000] (Account.new me None)) DatabaseSample.fork).

Definition data (method : string) : TransactionDataV1 := MkV1 "acc" 6000000 [1] "net" (Some contract) method key [].
Definition unit_tx (method : string) : SignedTransaction := MkSigned (V1 (data method)) [].
Definition node_tx (root : TransactionData) : SignedTransaction :=
  MkSigned (BulkNodeV1 (MkNodeV1 "acc" 6000000 [2] "net" (Some contract) "write" key [] (tx_data_hash root))) [].
Definition bulk_of (root : TransactionData) (nodes : option (list SignedTransaction)) : TransactionData :=
  BulkV1 (MkBulkV1 (MkBulkTransactions (MkUnsigned root) nodes)).
(** A transaction signed by its caller *)
Definition signed_by_caller (d : TransactionData) : SignedTransaction := MkSigned d (into_bytes "a" ++ msgpack d).

Abbreviation service_t := (t (D := RocksDb.t) (F := Fork) (W := unit)).
Abbreviation tx_world := (world (tx_state (D := RocksDb.t) (F := Fork) (W := unit)) (effect (Chan := string)) core_answer).
Definition service0 : service_t := initial DatabaseSample.db false "node" "net" (Some "burn") tt.
Definition world0 : tx_world := World (MkTx service0 fork0) [] (0, []) [].

(** What a transaction is to pay, and whether it succeeded *)
Definition outcome (r : exec tx_world (Result HandleTransactionReturns NodeError)) : option (Z * bool) :=
  match r with Ret (Ok res) _ => Some (fuel_to_burn (burn_fuel_args res), success (receipt res)) | _ => None end.

Definition root (method : string) : TransactionData := BulkRootV1 (data method).

(** At the height that activates the payment of fuel a bulk is charged its raw fuel as money, a
    unit transaction with the same call one thousand; the heights around it charge both
    alike.  The two comparisons with the activation leave its own height out. *)
Theorem activation_boundary :
  outcome (handle_unit_transaction (unit_tx "write") FuelConsts.ACTIVATE_FUEL_CONSUMPTION 0 [] 0 world0) = Some (1000, true) /\
  outcome (handle_bulk_transaction (MkSigned (bulk_of (root "write") None) []) FuelConsts.ACTIVATE_FUEL_CONSUMPTION 0 [] 0 world0)
    = Some (5000000, true) /\
  (forall height, height = FuelConsts.ACTIVATE_FUEL_CONSUMPTION - 1 \/ height = FuelConsts.ACTIVATE_FUEL_CONSUMPTION + 1 ->
    outcome (handle_unit_transaction (unit_tx "write") height 0 [] 0 world0) =
    outcome (handle_bulk_transaction (MkSigned (bulk_of (root "write") None) []) height 0 [] 0 world0)).
Proof. split_and!; [vm_compute; reflexivity..|]. intros height [->| ->]; vm_compute; reflexivity. Qed.

Definition failing : Transaction := UnitTransaction (unit_tx "fail").
Definition failed_run : exec tx_world (Result Receipt NodeError) := execute_transaction failing 20001 0 "burn" 0 world0.

Lemma failed_transaction_undone_witness :
  exists (w' : tx_world) r, failed_run = Ret (Ok r) w' /\ success r = false /\
    let f := flush (fork (w_state world0)) in
    (fork (w_state w') = f \/
     exists f1 account fuel, untouched (D := RocksDb.t) (W := unit) (Chan := string) 0 f f1 /\
       paid (D := RocksDb.t) (W := unit) (Chan := string) "burn" account fuel 0 f1 (fork (w_state w'))).
Proof.
  assert (Hr : match failed_run with Ret (Ok r) _ => success r = false | _ => False end) by (vm_compute; reflexivity).
  pose proof (failed_transaction_undone failing 20001 0 "burn" 0 world0) as H. fold failed_run in H.
  destruct failed_run as [[r|e] w'|w']; [|destruct Hr..]. exists w', r. split; [reflexivity|]. split; [exact Hr|].
  apply (H w' r eq_refl Hr).
Defined.

Definition paying_run : exec tx_world (Result HandleTransactionReturns NodeError) :=
  handle_unit_transaction (unit_tx "write") 20001 0 [] 0 world0.

Lemma unit_price_within_limit_witness :
  exists (w' : tx_world) res, paying_run = Ret (Ok res) w' /\ fuel_to_burn (burn_fuel_args res) <= 100000.
Proof.
  assert (Hr : match paying_run with Ret (Ok _) _ => True | _ => False end) by (vm_compute; exact I).
  assert (Hy : Z.min (TxData.get_fuel_limit (s_data (unit_tx "write"))) 100000 = 100000) by (vm_compute; reflexivity).
  pose proof (unit_price_within_limit (unit_tx "write") 20001 0 [] 0 world0) as H. fold paying_run in H.
  destruct paying_run as [[res|e] w'|w']; [|destruct Hr..]. exists w', res. split; [reflexivity|].
  specialize (H w' res me (Account.store_asset "TRINCI" [100000] (Account.new me None)) [100000] 100000 eq_refl).
  cbv zeta in H. rewrite Hy in H. apply H; first [reflexivity|vm_compute; reflexivity|split; discriminate].
Defined.

Definition bulk_units : list SignedTransaction := [node_tx (root "write"); node_tx (root "write")].

Definition nodes_run : exec tx_world (list SmartContractEvent * list (string * BulkResult)) :=
  bulk_nodes 0 20001 bulk_units [] 1000000 world0.

Lemma bulk_nodes_starved_witness :
  exists (w' : tx_world) evs results, nodes_run = Ret (evs, results) w' /\ results <> [] /\
    Forall (fun r => br_success (snd r) = true -> br_burnt_wm_fuel (snd r) = 0) results.
Proof.
  assert (Hr : match nodes_run with Ret (_, []) _ => False | Ret _ _ => True | _ => False end) by (vm_compute; exact I).
  pose proof (bulk_nodes_starved 0 20001 bulk_units [] 1000000 world0) as H. fold nodes_run in H.
  destruct nodes_run as [[evs results] w'|w']; [|destruct Hr]. exists w', evs, results. split; [reflexivity|].
  split; [by destruct results|]. apply (H w' evs results).
  - reflexivity.
  - split; discriminate.
  - intros [|b l] m Hm; simpl in Hm; [discriminate|]. destruct (Z.leb_spec 0 b); [|discriminate]. by injection Hm as <-.
  - repeat constructor; by eexists.
  - reflexivity.
Defined.

(** A unit transaction that carries a bulk with an empty root, and verifies *)
Definition empty_root : TransactionData := BulkEmptyRoot (MkEmptyV1 6000000 [1] "net" key).
Definition malicious : SignedTransaction := signed_by_caller (bulk_of empty_root (Some [node_tx empty_root])).

Lemma unit_empty_root_panics_witness :
  verify (UnitTransaction malicious) = Some true /\
  panicked (execute_transaction (UnitTransaction malicious) 20001 0 "burn" 0 world0) = true.
Proof.
  split; [vm_compute; reflexivity|].
  eapply (unit_empty_root_panics malicious); [reflexivity|reflexivity|reflexivity|vm_compute; reflexivity].
Defined.

(** A contract that fails with a text whose byte 126 is inside a character panics the service
    that executes its transaction. *)
Theorem fault_text_panics :
  verify (UnitTransaction (signed_by_caller (V1 (data "text")))) = Some true /\
  panicked (execute_transaction (UnitTransaction (signed_by_caller (V1 (data "text")))) 20001 0 "burn" 0 world0) = true.
Proof. split; vm_compute; reflexivity. Qed.

(** ** Blocks *)
Abbreviation service_world := (world service_t (effect (Chan := string)) core_answer).
Definition idle : service_world := World service0 [] (0, []) [].

Definition block_at (height : Z) (builder : option Keys.TrinciPublicKey) : Block :=
  MkBlock (MkBlockData builder height 1 (Samples.hash 0) (Samples.hash 0) (Samples.hash 0) (Samples.hash 0) 0) [].
Definition paying : list Transaction := [UnitTransaction (unit_tx "write")].

(** The block of another node with the roots of its execution *)
Definition right_block : Block :=
  let '(sh, tr, rr) := roots fork0 (block_at 1 (Some key)) paying [] in with_roots sh tr rr (block_at 1 (Some key)).

Lemma external_block_checked_witness :
  update_db_fork fork0 right_block 0 paying [] idle =
  Ret (Ok tt) (upd (kept (block_hash right_block) (listed_fork fork0 right_block paying []))
    (outs [told ConsensusService (Msg.BlockExecutionEnded right_block (map get_hash paying))] idle)).
Proof.
  assert (Hr : bool_decide (claimed_roots right_block = roots fork0 right_block paying []) = true) by (vm_compute; reflexivity).
  rewrite (external_block_checked fork0 right_block 0 paying [] idle).
  - rewrite Hr. reflexivity.
  - vm_compute. discriminate.
  - vm_compute. reflexivity.
Defined.

(** The service of the node that holds the key *)
Definition builder_world : service_world := World (initial DatabaseSample.db false me "net" (Some "burn") tt) [] (0, []) [].

Lemma own_block_proposed_witness :
  let '(sh, tr, rr) := roots fork0 (block_at 1 (Some key)) paying [] in
  let block' := with_roots sh tr rr (block_at 1 (Some key)) in
  claimed_roots block' = roots fork0 (block_at 1 (Some key)) paying [] /\
  update_db_fork fork0 (block_at 1 (Some key)) 0 paying [] builder_world =
    Ret (Ok tt) (upd (kept (block_hash block') (listed_fork fork0 (block_at 1 (Some key)) paying []))
      (outs [told ConsensusService (Msg.ProposalAfterBuild block' 0 (map (listed_hash 1) paying))] builder_world)).
Proof.
  apply (own_block_proposed fork0 (block_at 1 (Some key)) 0 paying [] builder_world). vm_compute. reflexivity.
Defined.

(** A block of the node is executed and its fork kept. *)
Definition inputs : list (Input (Chan := string)) := [InMsg (ExecuteBlock (block_at 1 (Some key)) 0 [])].
Definition executed : exec service_world unit := run inputs builder_world.

Lemma run_forks_based_witness :
  exists w' : service_world, executed = Ret tt w' /\ size (forks_collector (w_state w')) = 1%nat /\
    forall hash f, forks_collector (w_state w') !! hash = Some f -> based (db (w_state w')) f.
Proof.
  assert (Hr : match executed with Ret _ w' => size (forks_collector (w_state w')) = 1%nat | _ => False end) by (vm_compute; reflexivity).
  pose proof (run_forks_based DatabaseSample.db false me "net" (Some "burn") tt inputs [] (0, [])) as H.
  change (run inputs _) with executed in H.
  destruct executed as [[] w'|w']; [|destruct Hr]. exists w'. split; [reflexivity|]. split; [exact Hr|].
  apply (H w'); [reflexivity|by repeat constructor|reflexivity].
Defined.

(** The block with the roots the execution gave it, and what its consolidation leaves *)
Definition kept_block : Block :=
  let '(sh, tr, rr) := roots (snd (create_fork DatabaseSample.db)) (block_at 1 (Some key)) [] [] in
  with_roots sh tr rr (block_at 1 (Some key)).
Definition executed_world : service_world := exec_world executed.
Definition consolidation : exec service_world (Result unit NodeError) := consolidate_block kept_block [] [] executed_world.

Lemma consolidated_block_last_witness :
  exists w' : service_world, consolidation = Ret (Ok tt) w' /\ load_block u64_max (db (w_state w')) = Some kept_block.
Proof.
  assert (Hr : match consolidation with Ret (Ok _) _ => True | _ => False end) by (vm_compute; exact I).
  assert (He : executed = Ret tt executed_world).
  { assert (Hx : match executed with Ret _ _ => True | _ => False end) by (vm_compute; exact I).
    unfold executed_world. destruct executed as [[] v|v]; [reflexivity|destruct Hx]. }
  pose proof (consolidated_block_last DatabaseSample.db false me "net" (Some "burn") tt inputs [] (0, []) kept_block [] [] executed_world) as H.
  fold consolidation in H. destruct consolidation as [[[]|e] w'|w']; [|destruct Hr..]. exists w'. split; [reflexivity|].
  apply (H w'); [reflexivity|by repeat constructor|exact He|reflexivity].
Defined.
End WasmSample.
