(* ===== verification/WmLocalSamples.v ===== *)
(** * The WASM machine on concrete contracts

    A small wasmtime whose modules are chosen by the first byte of their code, over the
    database in memory: it shows that the laws can hold together and that the theorems of
    the machine apply, and how the machine behaves on contracts that do what their
    authors may not have been expected to. *)

From stdpp Require Import base gmap strings list fin_maps.
From S2P Require Import Prelude.
From S2P Require Import Exec.
From S2P Require Import Hash.
From S2P Require Import Crypto.
From S2P Require Import CoreModels.
From S2P Require Import DRand.
From S2P Require Import Messages.
From S2P Require Import Samples.
From S2P Require Import Utf8.
From S2P Require Import NodeModels.
From S2P Require Import NodeErrors.
From S2P Require Import Database.
From S2P Require Import DatabaseTheorems.
From S2P Require Import Fuel.
From S2P Require Import WasmMachine.
From S2P Require Import HostFunc.
From S2P Require Import Wasmtime.
From S2P Require Import WmLocal.
From S2P Require Import WmLocalTheorems.
From S2P Require Import WmFuel.
Open Scope Z_scope.
Import WmLocal.

Module WmSample.
#[local] Existing Instances Samples.digest Samples.ring MemDb.mem_db MemDb.mem_db_laws DatabaseSample.tx_pack.
#[local] Instance hex : Hex := {| hex_encode := Utf8.string_of_bytes |}.
#[local] Instance order : HashMapIter Hash := gmap_iter.

#[local] Instance codecs : WmCodecs := {|
  pack_input := {| msgpack := fun i => into_bytes (in_method i) |};
  pack_output := {| msgpack := fun o => (if out_success o then 1 else 0) :: out_data o |};
  pack_keys := {| msgpack := fun l => [len l] |};
  pack_store_asset := {| msgpack := sa_data |};
  pack_updatable := {| msgpack := cu_new_contract |};
  unpack_output := {| msgunpack := fun l => match l with b :: d => Some (MkAppOutput (b =? 1) d) | [] => None end |};
  unpack_bool := {| msgunpack := fun l => match l with [b] => Some (b =? 1) | _ => None end |};
  unpack_public_key := {| msgunpack := fun l => Some (Keys.PkEd25519 (Keys.MkEd25519PublicKey l)) |};
  decode_error_text := fun _ => "invalid";
  crypto_error_text := fun _ => "malformed"
|}.

(** ** The contracts *)
Record store : Type := MkStore { st_fuel : Z; st_memory : list Z }.

(** Some of the fuel burns, or the run traps when there is not enough. *)
Definition after {A} (n : Z) (s : store) (k : store -> Run store A) : Run store A :=
  if n <=? st_fuel s then k (MkStore (st_fuel s - n) (st_memory s))
  else Done (Err (TrapError "error while executing at 0" "all fuel consumed by WebAssembly")) (MkStore 0 (st_memory s)).

Definition ask {A} (c : HostCall) (s : store) (k : Z -> store -> Run store A) : Run store A :=
  Calls c s k (fun e _ => OtherError "host error").

(** The memory of an instance: the output [1; 1], "acc", and "é" *)
Definition data : list Z := [1; 1] ++ into_bytes "acc" ++ [195; 169].
Definition output {A} (g : Z -> A) (s : store) : Run store A := Done (Ok (g (wslice_create 0 2))) s.

(** What the module with the code [code] does when it is run *)
Definition run (code : Z) (s : store) : Run store Z :=
  if code =? 1 then after 5000000000 s (output id)
  else if code =? 2 then after 1 s (fun s => ask (HfGetKeys 5 2) s (fun _ => output id))
  else if code =? 3 then after 1 s (fun s => ask (HfStoreAsset 2 3 0 2) s (fun _ => output id))
  else if code =? 4 then after 1 s (fun s => ask (HfCall 2 3 0 0 0 0) s (fun _ => output id))
  else after 1 s (output id).

(** Module 1 asks the host for a call while it is instantiated, when [start]. *)
Definition instantiate (start : bool) (code : Z) (s : store) : Run store unit :=
  let s := MkStore (st_fuel s) (code :: data) in
  if start && (code =? 1) then ask (HfCall 2 3 0 0 0 0) s (fun _ s => Done (Ok tt) s) else Done (Ok tt) s.

Definition wasmtime (start : bool) : Wasmtime := {|
  WasmModule := Z;
  Store := store;
  module_new := fun code => match code with [c] => Ok c | _ => Err "not a module" end;
  module_imports := fun _ => ["hf_call"; "hf_get_keys"; "hf_store_asset"];
  store_new := fun m => MkStore 0 [];
  get_fuel := fun s => u64_wrap (st_fuel s);
  set_fuel := fun n s => Ok (MkStore n (st_memory s));
  instance_new := fun code s => instantiate start code (MkStore (u64_wrap (st_fuel s)) (st_memory s));
  typed_alloc := fun _ => Ok tt;
  typed_run := fun _ => Ok tt;
  typed_is_callable := fun _ => Ok tt;
  exports_alloc := fun _ => true;
  memory := fun s => Some (drop 1 (st_memory s));
  memory_write := fun offset d s => Ok s;
  call_alloc := fun n s => Done (Ok 0) (MkStore (u64_wrap (st_fuel s)) (st_memory s));
  call_run := fun _ s => run (nth 0 (st_memory s) 0) (MkStore (u64_wrap (st_fuel s)) (st_memory s));
  call_is_callable := fun _ s => after 1 (MkStore (u64_wrap (st_fuel s)) (st_memory s)) (fun s => Done (Ok 1) s)
|}.

Lemma wasmtime_laws start : @WasmtimeLaws (wasmtime start).
Proof.
  split.
  - intros s. apply u64_wrap_range.
  - intros n s Hn. eexists. split; [reflexivity|]. simpl. unfold u64_wrap. apply Z.mod_small. unfold is_u64, u64_max in Hn. lia.
  - intros offset d s s'. simpl. by intros [= <-].
Qed.

Lemma u64_wrap_small x : is_u64 x -> u64_wrap x = x.
Proof. intros Hx. unfold u64_wrap. apply Z.mod_small. unfold is_u64, u64_max in Hx. lia. Qed.

Section metered.
#[local] Instance silent : Wasmtime := wasmtime false.

Lemma after_burns {A} n s (k : store -> Run store A) :
  is_u64 (st_fuel s) -> 0 <= n -> (forall s', is_u64 (st_fuel s') -> burns (u64_wrap (st_fuel s')) (k s')) ->
  burns (u64_wrap (st_fuel s)) (after n s k).
Proof.
  intros Hs Hn Hk. unfold after. destruct (Z.leb_spec n (st_fuel s)) as [Hle|Hle].
  - assert (H1 : is_u64 (st_fuel s - n)) by (unfold is_u64 in *; lia).
    eapply burns_mono; [exact (Hk (MkStore (st_fuel s - n) (st_memory s)) H1)|]. simpl. rewrite !u64_wrap_small by done. lia.
  - cbn [burns]. simpl. rewrite !u64_wrap_small by done. unfold is_u64 in Hs. lia.
Qed.

Lemma ask_burns {A} c s (k : Z -> store -> Run store A) :
  (forall v s', burns (u64_wrap (st_fuel s')) (k v s')) -> burns (u64_wrap (st_fuel s)) (ask c s k).
Proof. intros Hk. split; [simpl; lia|]. intros v s' _. apply Hk. Qed.

Lemma run_burns code s : is_u64 (st_fuel s) -> burns (u64_wrap (st_fuel s)) (run code s).
Proof.
  intros Hs. unfold run. repeat case_match; apply after_burns; try done; intros s' Hs'; try (cbn [burns]; simpl; lia);
    apply ask_burns; intros v s2; cbn [burns]; simpl; lia.
Qed.

#[local] Instance metered : Metered.
Proof.
  split.
  - intros m s. cbn [burns]. simpl. rewrite u64_wrap_small by apply u64_wrap_range. lia.
  - intros n s. cbn [burns]. simpl. rewrite u64_wrap_small by apply u64_wrap_range. lia.
  - intros p s. eapply burns_mono; [apply run_burns, u64_wrap_range|]. simpl. rewrite u64_wrap_small by apply u64_wrap_range. lia.
  - intros p s. eapply burns_mono; [apply after_burns; [apply u64_wrap_range|done|]|].
    + intros s' Hs'. cbn [burns]. simpl. lia.
    + simpl. rewrite u64_wrap_small by apply u64_wrap_range. lia.
Qed.
End metered.

(** ** Accounts, codes and calls *)
Definition code (n : Z) : Hash := Samples.hash n.
Definition code_at (n : Z) (f : Fork) : Fork :=
  store_account_data NodeConsts.SERVICE_ACCOUNT_ID (code_key (code n)) [n] f.
(** The service account runs module 3, "acc" module 0; the modules up to 4 are stored. *)
Definition accounts : Fork :=
  store_account (Account.new NodeConsts.SERVICE_ACCOUNT_ID (Some (code 3)))
    (store_account (Account.new "acc" (Some (code 0))) DatabaseSample.fork).
Definition fork : Fork := fold_right code_at accounts [0; 1; 2; 3; 4].

Section calls.
Context (start : bool).
#[local] Instance used : Wasmtime := wasmtime start.
Definition state (max : Z) (f : Fork) : WmState t Fork := WasmMachine.MkWmState (Mk ∅ max) f [].
Definition world (s : WmState t Fork) : world (WmState t Fork) core_effect core_answer := World s [] (5, []) [].
Definition args (c fuel : Z) : CallArgs := MkCallArgs 0 "net" "me" "acc" "me" (code c) "pay" [] fuel 0.
Definition called (c fuel : Z) (s : WmState t Fork) : Exec.exec _ (Z * Result (list Z) WasmError) :=
  WasmMachine.call (Wm := machine 3) (args c fuel) (world s).
Definition checked (s : WmState t Fork) : Exec.exec _ (Result Hash WasmError) :=
  WasmMachine.app_hash_check (Wm := machine 3) (Some (code 2)) (MkCtxArgs "me" "acc" "me") 0 (world s).
Definition updatable (s : WmState t Fork) : Exec.exec _ bool :=
  contract_updatable (host_function 3) "acc" (Some (code 0)) (Some (code 2)) (MkCtxArgs "me" "acc" "me") 0 (world s).
End calls.

(** The value of a run, and the fork, cache and machine it leaves *)
Definition value {W A} (r : Exec.exec W A) : option A := match r with Ret a _ => Some a | Panic _ => None end.
Definition asset_of {A} (r : Exec.exec (Exec.world (WmState (t (Hwt := wasmtime false)) Fork) core_effect core_answer) A) : list Z :=
  match fork_load_account "acc" (ws_fork (w_state (exec_world r))) with
  | Some a => Account.load_asset a NodeConsts.SERVICE_ACCOUNT_ID
  | None => []
  end.

(** A contract that asks for a call while it is instantiated, with less fuel left than an error
    costs, wraps its fuel around: with five hundred units it runs for five billion, and
    succeeds. *)
Theorem start_call_unlimited :
  value (called true 1 500 (state true 10 fork)) = Some (5000001000, Ok [1]) /\
  value (called false 1 500 (state false 10 fork)) =
    Some (500, Err (WasmMachineFault "all fuel consumed by WebAssembly 0")).
Proof. split; vm_compute; reflexivity. Qed.

(** What the service contract writes to an account while it is asked whether the contract of
    that account may change is lost when it agrees: the account is stored as it was before. *)
Theorem updatable_writes_lost :
  value (updatable false (state false 10 fork)) = Some true /\ asset_of (updatable false (state false 10 fork)) = [1; 1] /\
  value (checked false (state false 10 fork)) = Some (Ok (code 2)) /\ asset_of (checked false (state false 10 fork)) = [].
Proof. split_and!; vm_compute; reflexivity. Qed.

(** A machine that ran the module 0 on a fork with its code *)
Definition used_machine : WmState (t (Hwt := wasmtime false)) Fork :=
  w_state (exec_world (called false 0 500 (state false 10 fork))).

(** A machine that ran a contract runs it again on a fork that does not have its code, as after
    a rollback or a block that was not consolidated; a machine that did not refuses, so two
    nodes on the same database get different results. *)
Theorem stale_module_runs :
  value (called false 0 500 (MkWmState (ws_wm used_machine) accounts [])) = Some (1, Ok [1]) /\
  value (called false 0 500 (state false 10 accounts)) = Some (0, Err (ResourceNotFound "smart contract not found")).
Proof. split; vm_compute; reflexivity. Qed.

(** ** The theorems of the machine apply *)
Section witnesses.
#[local] Existing Instances silent metered.
#[local] Instance laws : WasmtimeLaws := wasmtime_laws false.

Lemma wslice_roundtrip_witness : wslice_split (wslice_create (- 5) 7) = (- 5, 7).
Proof. apply wslice_roundtrip; unfold is_i32; lia. Defined.

Lemma get_range_spec_witness : get_range [1; 2; 3] (- 1) 2 = None /\ get_range [1; 2; 3] 1 2 = Some [2; 3].
Proof.
  split.
  - rewrite (get_range_spec [1; 2; 3] (- 1) 2); [reflexivity|unfold is_i32; lia..|unfold len; simpl; lia].
  - rewrite (get_range_spec [1; 2; 3] 1 2); [reflexivity|unfold is_i32; lia..|unfold len; simpl; lia].
Defined.

Definition two_ops : list WmOp := [OpCall (args 0 500); OpCall (args 2 500)].
Definition small_world : Exec.world (WmState t Fork) core_effect core_answer := world false (state false 1 fork).
Definition overfull_run : Exec.exec _ unit := for_each two_ops (perform 3) small_world.

Lemma cache_within_bound_witness : map_len (cache (ws_wm (w_state (exec_world overfull_run)))) <= 1 + 1.
Proof.
  pose proof (cache_within_bound 1 (Mk ∅ 1) 3 two_ops small_world) as H. fold overfull_run in H.
  destruct H as [H _]; [reflexivity|lia|reflexivity|exact H].
Defined.

Lemma get_module_compiles_witness :
  exists w', get_module (code 0) (world false (state false 10 fork)) = Ret (Ok 0) w' /\ cache_consistent (w_state w').
Proof.
  destruct (get_module_compiles (code 0) (world false (state false 10 fork))) as (w' & Hw & _ & Hc).
  - simpl. lia.
  - intros h e He. discriminate.
  - exists w'. split; [exact Hw|exact Hc].
Defined.

Lemma get_keys_panics_witness :
  panicked (get_keys (host_function 3) 5 2 (World (WmLocal.MkStore (MkStore 5 (2 :: data))
    (HostFunc.Mk (state false 10 fork) (call_context (args 2 5)))) [] (5, []) [])) = true.
Proof.
  apply (get_keys_panics (host_function 3) 5 2 [195; 169] (Utf8.string_of_bytes [195; 169])).
  - by eexists.
  - reflexivity.
  - reflexivity.
  - discriminate.
  - reflexivity.
Defined.

Definition nested_call_run := called false 4 500 (state false 10 fork).

Lemma burnt_within_limit_witness :
  exists r w', nested_call_run = Ret r w' /\ is_ok (snd r) = true /\ 0 <= fst r <= 500.
Proof.
  assert (Hr : match nested_call_run with Ret r _ => is_ok (snd r) = true | Panic _ => False end) by (vm_compute; reflexivity).
  pose proof (fun w' Hi => burnt_within_limit (F := Fork) (fun m s => ltac:(eexists _, _; reflexivity)) 3 (args 4 500)
    (world false (state false 10 fork)) w' Hi) as H.
  change (call (host_function 3) (args 4 500) (world false (state false 10 fork))) with nested_call_run in H.
  destruct nested_call_run as [r w'|w'] eqn:E; [|destruct Hr]. exists r, w'. split; [reflexivity|]. split; [exact Hr|].
  destruct (H w') as [H1 _]; [unfold is_u64, u64_max; simpl; lia|]. apply H1. exact E.
Defined.

Lemma larger_stack_agrees_witness :
  exists r w', WasmMachine.call (Wm := machine 10) (args 4 500) (world false (state false 10 fork)) = Ret r w' /\ is_ok (snd r) = true.
Proof.
  assert (Hr : match nested_call_run with Ret r _ => is_ok (snd r) = true | Panic _ => False end) by (vm_compute; reflexivity).
  pose proof (fun w' r => larger_stack_agrees (F := Fork) 3 7 (args 4 500) (world false (state false 10 fork)) w' r) as H.
  unfold called in *. destruct nested_call_run as [r w'|w'] eqn:E; [|destruct Hr]. exists r, w'. split; [|exact Hr].
  exact (H w' r E).
Defined.
End witnesses.

Example cache_overfull : map_len (cache (ws_wm (w_state (exec_world overfull_run)))) = 2.
Proof. vm_compute. reflexivity. Qed.
End WmSample.
