(* ===== verification/NodeStart.v ===== *)
(** * The start of a node ([trinci-node/src/lib.rs]; the bootstrap of [trinci-node/src/utils.rs])

    A node whose database has no block starts from the bootstrap file: the service contract
    is stored, the core starts with the node as its one player, and the transactions of the
    bootstrap are executed as the genesis block.  A node whose database has blocks takes
    the players, the name of the network and the method that burns fuel from it. *)

From stdpp Require Import base gmap strings list fin_maps.
From Stdlib Require Import Ascii.
From S2P Require Import Prelude.
From S2P Require Import Exec.
From S2P Require Import Hash.
From S2P Require Import Crypto.
From S2P Require Import CoreModels.
From S2P Require Import DRand.
From S2P Require Import Messages.
From S2P Require Import System.
From S2P Require Import NodeModels.
From S2P Require Import NodeErrors.
From S2P Require Import Database.
From S2P Require Import WasmMachine.
From S2P Require Import WasmService.
Open Scope Z_scope.

Record Bootstrap : Type := MkBootstrap {
  bin : list Z;
  bs_txs : list Transaction;
  bs_nonce : string
}.

(** [split(c)] *)
Fixpoint split_at_char (sep : ascii) (s : string) : list string :=
  match s with
  | EmptyString => [EmptyString]
  | String c rest =>
      if Ascii.eqb c sep then EmptyString :: split_at_char sep rest
      else match split_at_char sep rest with part :: parts => String c part :: parts | [] => [String c EmptyString] end
  end.

Module NodeStart.
Definition NONCE : list Z := [0; 0; 0; 0; 0; 0; 0; 0].
Definition DEFAULT_NETWORK_NAME : string := "bootstrap".
Definition CACHE_MAX : Z := 10.

Section start.
Context `{Hdig : Digest} `{Hb58 : Base58} `{Hring : Ring} `{Hhex : Hex} `{Hcodecs : WasmCodecs} `{!MsgUnpack Bootstrap}.
Context {D F W Chan : Type} `{Hdb : Db D F} `{Hfork : DbFork F} `{Hwm : Wm W F}.
(** [Hash::from_hex] of the text of the seed's first hashes *)
Context (initial_hash : Hash).

(** ** The bootstrap *)

(** [None] in what follows is a panic. *)
Definition calculate_network_name (data : list Z) : option string :=
  match Hashes.from_data Sha256 data with
  | Ok hash => bytes ← Hashes.as_bytes hash; Some (bs58_encode bytes)
  | Err _ => None
  end.

(** The file, [None] when it does not open *)
Definition load_bootstrap_struct_from_file (file : option (list Z)) : option (string * list Z * list Transaction) :=
  buf ← file;
  bs ← msgunpack (X := Bootstrap) buf;
  nw_name ← calculate_network_name buf;
  Some (nw_name, bin bs, bs_txs bs).

(** The service account, with the contract of the bootstrap *)
Definition store_service_account (bootstrap_bin : list Z) (db : D) : option D :=
  let '(db, fork) := create_fork db in
  match Hashes.from_data Sha256 bootstrap_bin with
  | Err _ => None
  | Ok hash =>
      let fork := store_account (Account.new NodeConsts.SERVICE_ACCOUNT_ID (Some hash)) fork in
      let key := ("contracts:code:" ++ ErrorText.hash_hex hash)%string in
      let fork := store_account_data NodeConsts.SERVICE_ACCOUNT_ID key bootstrap_bin fork in
      match merge_fork fork db with Ok db => Some db | Err _ => None end
  end.

(** ** What the core and the services are started with *)
Record config : Type := MkConfig {
  players : Players.t;
  seed_source : SeedSource.t;
  block : option Block;
  network_name : string;
  bootstrap_txs : option (list Transaction);
  burning_fuel_method : option string
}.

Definition init_core_from_bootstrap (bootstrap_file : option (list Z)) (db : D) (trinci_peer_id : string) : option (config * D) :=
  '(network_name, bootstrap_bin, bootstrap_txs) ← load_bootstrap_struct_from_file bootstrap_file;
  db ← store_service_account bootstrap_bin db;
  let players := Players.Mk [trinci_peer_id] [1] in
  let seed_source := SeedSource.new NONCE DEFAULT_NETWORK_NAME initial_hash initial_hash initial_hash in
  Some (MkConfig players seed_source None network_name (Some bootstrap_txs) None, db).

(** A player by its key, when the value of the key reads as one *)
Definition player_of_key (db : D) (key : string) : option (string * Z) :=
  if starts_with WasmService.VALIDATORS_PREFIX key then
    data ← load_account_data NodeConsts.SERVICE_ACCOUNT_ID key db;
    value ← msgunpack (X := ValidatorDbValue) data;
    match value with
    | PlayerValue player => Some (account_id player, units_in_stake player)
    | BoolValue _ => id ← last (split_at_char ":"%char key); Some (id, 1)
    end
  else None.

Definition players_of_keys (db : D) : Players.t :=
  let found := omap (player_of_key db) (load_account_keys NodeConsts.SERVICE_ACCOUNT_ID db) in
  if bool_decide (map fst found = []) then
    let names := omap (strip_prefix WasmService.VALIDATORS_PREFIX)
      (List.filter (starts_with WasmService.VALIDATORS_PREFIX) (load_account_keys "TRINCI" db)) in
    Players.Mk names (map (fun _ => 1) names)
  else Players.Mk (map fst found) (map snd found).

Definition init_core_from_db (block : Block) (db : D) : option config :=
  let players := players_of_keys db in
  data ← load_configuration NodeConsts.SETTINGS_KEY db;
  settings ← msgunpack (X := BlockchainSettings) data;
  network_name ← bs_network_name settings;
  let d := block_data block in
  let seed_source := SeedSource.new NONCE DEFAULT_NETWORK_NAME (block_hash block) (bd_txs_hash d) (bd_rxs_hash d) in
  Some (MkConfig players seed_source (Some block) network_name None (Some (bs_burning_fuel_method settings))).

(** ** The node *)

(** The configuration of a node and its database, by whether there is a block *)
Definition init_core (bootstrap_file : option (list Z)) (db : D) (trinci_peer_id : string) : option (config * D) :=
  match load_block u64_max db with
  | Some block => c ← init_core_from_db block db; Some (c, db)
  | None => init_core_from_bootstrap bootstrap_file db trinci_peer_id
  end.

Definition genesis_block (bootstrap_txs : list Transaction) : Block :=
  MkBlock (MkBlockData None 0 (len bootstrap_txs mod 2 ^ 32) Hashes.default Hashes.default Hashes.default Hashes.default 0) [].

(** The request for the genesis block that follows the start of the services, if the node starts from the
    bootstrap: [None] is the panic on a bootstrap without transactions. *)
Definition genesis_request (c : config) (res_chan : Chan) : option (option (WasmService.Input (Chan := Chan))) :=
  match bootstrap_txs c with
  | None => Some None
  | Some [] => None
  | Some txs =>
      Some (Some (WasmService.InReq (WasmService.ExecuteGenesisBlock (genesis_block txs) txs (network_name c)) (Some res_chan)))
  end.

(** [run]: the core, the WASM service, and the service after the genesis block, when there was one to
    execute. *)
Context (rnd : Z) `{!Transactable Transaction}.
Context `{!MsgPack ConfirmationData, !HashMapIter Hash} `{Hpcg : Pcg}.
#[local] Instance block_traits : Executable Block := Block_executable rnd.
#[local] Instance confirmation_traits : Confirmable Confirmation := Confirmation_confirmable rnd.

Record node : Type := MkNode {
  n_core : core (A := Hash) (B := Block) (C := Confirmation) (T := Transaction);
  n_wasm : WasmService.t (D := D) (F := F) (W := W);
  n_request : option (WasmService.Input (Chan := Chan))
}.

Definition run (keypair : Keys.TrinciKeyPair) (bootstrap_file : option (list Z)) (db : D) (res_chan : Chan)
    (ans : list core_answer) (clk : Z * list Z) : option node :=
  match Keys.to_account_id (Keys.public_key keypair) with
  | Some (Ok trinci_peer_id) =>
      '(c, db) ← init_core bootstrap_file db trinci_peer_id;
      k ← System.start keypair (players c) (seed_source c) (block c) ans clk;
      wasm ← WasmService.start CACHE_MAX db false trinci_peer_id (network_name c) (burning_fuel_method c);
      request ← genesis_request c res_chan;
      Some (MkNode k wasm request)
  | _ => None
  end.
End start.
End NodeStart.
