(* ===== verification/NodeStartTheorems.v ===== *)
(** * The start of a node: the bootstrap, the genesis block and a restart *)

From stdpp Require Import base gmap strings list fin_maps.
From Stdlib Require Import Ascii.
From S2P Require Import Prelude.
From S2P Require Import Exec.
From S2P Require Import Hash.
From S2P Require Import Crypto.
From S2P Require Import CoreModels.
From S2P Require Import DRand.
From S2P Require Import Messages.
From S2P Require Import Samples.
From S2P Require Import ConsensusService.
From S2P Require Import ConsensusTheorems.
From S2P Require Import System.
From S2P Require Import NodeModels.
From S2P Require Import NodeErrors.
From S2P Require Import Database.
From S2P Require Import DatabaseTheorems.
From S2P Require Import WasmMachine.
From S2P Require Import WmLocal.
From S2P Require Import WasmService.
From S2P Require Import WasmTheorems.
From S2P Require Import WasmBlocks.
From S2P Require Import NodeStart.
Open Scope Z_scope.
Import NodeStart.

Lemma zip_split {A B} (l : list (A * B)) : zip (map fst l) (map snd l) = l.
Proof. induction l as [|[a b] l IH]; [done|]. cbn. by f_equal. Qed.

(** ** The players of a node that starts again *)
Section players.
Context `{Hcodecs : WasmCodecs} {D F W C : Type} `{Hdb : Db D F} `{Hdig : Digest} `{Hring : Ring} `{Hhex : Hex}.
Implicit Types (d : D) (id : string) (ids : list string).
Abbreviation wasm_handler A := (M (WasmService.t (D := D) (F := F) (W := W)) (WasmService.effect (Chan := C)) core_answer A).
Abbreviation key_of id := (WasmService.VALIDATORS_PREFIX ++ id)%string.

(** What is stored of a player: the player itself, or that it is one *)
Definition stored_as d id (units : Z) : Prop :=
  exists data, load_account_data NodeConsts.SERVICE_ACCOUNT_ID (key_of id) d = Some data /\
    ((exists player, msgunpack (X := ValidatorDbValue) data = Some (PlayerValue player) /\ account_id player = id /\ units_in_stake player = units) \/
     (msgunpack data = Some (BoolValue true) /\ units = 1 /\ split_at_char ":"%char id = [id])).

(** The service account lists the players, and has for each of them, and for nobody else, what is stored of it. *)
Record listed d (ps : list (string * Z)) : Prop := {
  listed_ids : exists buf, load_account_data NodeConsts.SERVICE_ACCOUNT_ID NodeConsts.VALIDATORS_KEY d = Some buf /\
    msgunpack buf = Some (Some (map fst ps));
  listed_keys : List.filter (starts_with WasmService.VALIDATORS_PREFIX) (load_account_keys NodeConsts.SERVICE_ACCOUNT_ID d)
    ≡ₚ map (fun p => key_of (fst p)) ps;
  listed_stored : Forall (fun p => stored_as d (fst p) (snd p)) ps
}.

Lemma player_of_key_stored d id units : stored_as d id units -> player_of_key d (key_of id) = Some (id, units).
Proof.
  intros (data & Hd & Hv). unfold player_of_key.
  assert (Hs : starts_with WasmService.VALIDATORS_PREFIX (key_of id) = true) by (apply starts_with_true; by exists id).
  rewrite Hs, Hd. cbn [mbind option_bind].
  destruct Hv as [(player & -> & Hi & Hu)|(-> & -> & Hsplit)]; cbn [mbind option_bind]; [congruence|].
  change (split_at_char ":" (key_of id)) with ("blockchain" :: "validators" :: split_at_char ":" id)%string. by rewrite Hsplit.
Qed.

Lemma omap_player_of_key d keys :
  omap (player_of_key d) keys = omap (player_of_key d) (List.filter (starts_with WasmService.VALIDATORS_PREFIX) keys).
Proof.
  induction keys as [|key keys IH]; [done|]. cbn [omap list_omap List.filter].
  destruct (starts_with WasmService.VALIDATORS_PREFIX key) eqn:Hs.
  - cbn [omap list_omap]. destruct (player_of_key d key); [f_equal|]; exact IH.
  - assert (Hn : player_of_key d key = None) by (unfold player_of_key; by rewrite Hs). rewrite Hn. exact IH.
Qed.

Lemma omap_stored d ps : Forall (fun p => stored_as d (fst p) (snd p)) ps ->
  omap (player_of_key d) (map (fun p => key_of (fst p)) ps) = ps.
Proof.
  induction 1 as [|[id units] ps Hp _ IH]; [done|]. cbn [map omap list_omap].
  pose proof (player_of_key_stored _ _ _ Hp) as Hk. cbn [fst] in *. rewrite Hk. by f_equal.
Qed.

Lemma players_units_stored d ps w : Forall (fun p => stored_as d (fst p) (snd p)) ps ->
  (WasmService.players_units d (map fst ps) : wasm_handler _) w = Ret (map snd ps) w.
Proof.
  induction 1 as [|[id units] ps (data & Hd & Hv) _ IH]; [done|]. cbn [map fst snd WasmService.players_units].
  rewrite bind_eq. unfold WasmService.player_units. rewrite bind_eq.
  change (NodeConsts.VALIDATORS_KEY ++ ":" ++ id)%string with (key_of id). simpl in Hd. rewrite Hd. cbn [expect mret M_ret].
  rewrite bind_eq. destruct Hv as [(player & Hm & Hi & Hu)|(Hm & Hu & _)]; simpl in Hm, Hu; rewrite Hm; cbn [expect mret M_ret];
    rewrite bind_eq, IH; subst units; done.
Qed.

Lemma keys_of_found d keys :
  Forall (fun key => exists p, player_of_key d key = Some p /\ key = key_of (fst p)) keys ->
  keys = map (fun p => key_of (fst p)) (omap (player_of_key d) keys).
Proof. induction 1 as [|key keys (p & Hp & Hk) _ IH]; [done|]. cbn [omap list_omap]. rewrite Hp. cbn [map]. by rewrite <- Hk, <- IH. Qed.

(** C24: a node that starts again on a database that lists its players, and has what is stored of them
    and of nobody else, has exactly the players, with the weights, the services tell the core of
    after a block; and it has them in the same order exactly if the keys of the database are in
    the order of the list. *)
Theorem restart_players d ps w :
  listed d ps ->
  (WasmService.players_of d : wasm_handler _) w = Ret (Players.Mk (map fst ps) (map snd ps)) w /\
  zip (Players.players_ids (players_of_keys d)) (Players.weights (players_of_keys d)) ≡ₚ ps /\
  (players_of_keys d = Players.Mk (map fst ps) (map snd ps) <->
   List.filter (starts_with WasmService.VALIDATORS_PREFIX) (load_account_keys NodeConsts.SERVICE_ACCOUNT_ID d)
     = map (fun p => key_of (fst p)) ps).
Proof.
  intros [(buf & Hb & Hm) Hk Hs]. split; [|].
  - unfold WasmService.players_of. rewrite bind_eq, Hb, Hm. cbn [expect mret M_ret]. rewrite bind_eq.
    by rewrite (players_units_stored _ _ _ Hs).
  - unfold players_of_keys. rewrite omap_player_of_key. change "TRINCI"%string with NodeConsts.SERVICE_ACCOUNT_ID.
    set (keys := List.filter _ _) in *.
    assert (Hp : omap (player_of_key d) keys ≡ₚ ps) by (rewrite Hk; by rewrite omap_stored).
    assert (Hkeys : keys = map (fun p => key_of (fst p)) (omap (player_of_key d) keys)).
    { apply keys_of_found. rewrite Hk. apply Forall_fmap, (Forall_impl _ _ _ Hs). intros [id units] Hst. exists (id, units).
      split; [by apply player_of_key_stored|done]. }
    case_bool_decide as Hn.
    + assert (Hnil : omap (player_of_key d) keys = []) by (by destruct (omap _ keys)). rewrite Hnil in Hp, Hkeys.
      apply Permutation_nil in Hp as ->. by rewrite Hkeys.
    + split; [cbn [Players.players_ids Players.weights]; by rewrite zip_split|]. split.
      * intros [= H1 H2]. rewrite Hkeys at 1. f_equal. rewrite <- (zip_split (omap _ keys)), H1, H2. apply zip_split.
      * intros ->. by rewrite omap_stored.
Qed.
End players.

(** ** The service contract and the settings, over the database of the node *)
Section rocks.
Context `{Hdig : Digest} `{Hb58 : Base58} `{Hring : Ring} `{Hhex : Hex} `{Hcodecs : WasmCodecs} `{!MsgUnpack Bootstrap}.
Context `{Hmdb : MerkleDb} `{Hlaws : !MerkleDbLaws} {W Chan : Type} `{Hwm : Wm W Fork} `{Hwl : !WmLaws W Fork}.
Implicit Types d : RocksDb.t.

(** What the bootstrap stores is what the machine runs: the service account has the hash of the
    binary for its contract, the machine finds the binary by that hash, in the database and in
    each fork of it, and nothing else of the database changes. *)
Theorem service_contract_found (bootstrap_bin : list Z) d d' :
  RocksDb.fresh d -> store_service_account (F := Fork) bootstrap_bin d = Some d' ->
  exists hash, Hashes.from_data Sha256 bootstrap_bin = Ok hash /\
    load_account NodeConsts.SERVICE_ACCOUNT_ID d' = Some (Account.new NodeConsts.SERVICE_ACCOUNT_ID (Some hash)) /\
    fork_load_account_data NodeConsts.SERVICE_ACCOUNT_ID (WmLocal.code_key hash) (snd (create_fork d')) = Some bootstrap_bin /\
    (forall id key, (id, key) <> (NodeConsts.SERVICE_ACCOUNT_ID, WmLocal.code_key hash) -> load_account_data id key d' = load_account_data id key d) /\
    (forall n, load_block n d' = load_block n d).
Proof.
  intros Hf Hs. unfold store_service_account in Hs. cbn [create_fork RocksDb.rocks_db] in Hs.
  destruct (Hashes.from_data Sha256 bootstrap_bin) as [hash|]; [|done]. exists hash. split; [done|].
  change ("contracts:code:" ++ ErrorText.hash_hex hash)%string with (WmLocal.code_key hash) in Hs.
  set (f := backend_fork (RocksDb.backend d)) in *. cbn [store_account store_account_data RocksDb.rocks_db_fork] in Hs.
  assert (Hv : fork_view f = RocksDb.snap d) by (unfold f; rewrite Hf; apply view_fork).
  set (f1 := map_put ACCOUNTS _ _ f) in Hs. set (f2 := map_put (ACCOUNT_DATA _) _ _ f1) in Hs.
  destruct (merge_fork f2 d) as [d1|] eqn:Hm; [|done]. simplify_eq.
  assert (Hb : RocksDb.based_on d f2).
  { unfold RocksDb.based_on, f2, f1. rewrite !base_put. unfold f. by rewrite base_fork. }
  destruct (RocksDb.merge_fork_Ok _ _ _ Hf Hb Hm) as [Hf' Hsnap].
  cbn [load_account load_account_data load_block create_fork fork_load_account_data RocksDb.rocks_db RocksDb.rocks_db_fork snd].
  rewrite view_fork, <- Hf', Hsnap. unfold f2, f1. split_and!.
  - rewrite get_put_index by done. by rewrite get_put.
  - by rewrite get_put.
  - intros id key Hne. rewrite <- Hv. destruct (decide (id = NodeConsts.SERVICE_ACCOUNT_ID)) as [->|Hid].
    + rewrite get_put_key by congruence. by rewrite get_put_index.
    + rewrite get_put_index by (simpl; congruence). by rewrite get_put_index.
  - intros n. unfold RocksDb.load_block, RocksDb.list_last. rewrite Hsnap. unfold f2, f1. by rewrite !len_put, !list_get_put, Hv.
Qed.

(** ** The settings *)
Abbreviation rocks_world := (world (WasmService.t (D := RocksDb.t) (F := Fork) (W := W)) (WasmService.effect (Chan := Chan)) core_answer).

Lemma store_all_config (txs : list Transaction) id (f : Fork) :
  map_get CONFIG (fork_view (fold_left (fun f tx => store_transaction (data_hash tx) tx f) txs f)) id = map_get CONFIG (fork_view f) id.
Proof.
  revert f. induction txs as [|tx txs IH]; intros f; [done|]. simpl. rewrite IH. unfold RocksDb.store_transaction.
  rewrite get_put_index by done. destruct tx as [tx|tx]; [done|]. destruct (s_data tx); try done.
  set (g := map_put ATTACHMENTS _ _ f).
  assert (Hg : map_get CONFIG (fork_view g) id = map_get CONFIG (fork_view f) id) by (unfold g; by rewrite get_put_index).
  destruct (bt_nodes _) as [nodes|]; [|done]. rewrite <- Hg. clearbody g. clear Hg. revert g.
  induction nodes as [|node nodes IHn]; intros g; [done|]. simpl. rewrite IHn. by rewrite get_put_index.
Qed.

(** C25: once the genesis block was executed the name of the network and the method that burns fuel are
    in the database: the service uses that method from then on, and a node that starts again, on
    whatever last block, has that name and that method, and no genesis block to execute. *)
Theorem genesis_settings_kept me block txs name chan b (w w1 w' : rocks_world) :
  (forall data settings,
     load_account_data NodeConsts.SERVICE_ACCOUNT_ID NodeConsts.SETTINGS_KEY (WasmService.db (w_state w1)) = Some data ->
     msgunpack data = Some settings ->
     let config := WasmService.set_settings_network name settings in msgunpack (msgpack config) = Some config) ->
  forks_based me (w_state w) -> genesis me block ->
  WasmService.execute_block block 0 txs w = Ret (Ok tt) w1 ->
  WasmService.handle_requests (WasmService.ExecuteGenesisBlock block txs name) chan w = Ret tt w' ->
  exists c, init_core_from_db b (WasmService.db (w_state w')) = Some c /\
    network_name c = name /\ burning_fuel_method c = Some (WasmService.burning_fuel_method (w_state w')) /\
    NodeStart.block c = Some b /\ genesis_request (Chan := Chan) c chan = Some None /\
    w_out w' = w_out w1 ++ [WasmService.RepliedGenesis chan].
Proof.
  intros Hmsg Hbased Hg He Hr. pose proof (execute_block_based me block 0 txs w Hbased) as Hx. rewrite He in Hx.
  destruct Hx as [(_ & Hok & _) _]. cbn [WasmService.handle_requests] in Hr. rewrite bind_eq, He, bind_eq in Hr. cbn [get_state] in Hr.
  destruct (WasmService.db_poisoned (w_state w1)); [done|]. rewrite bind_eq in Hr.
  destruct (load_account_data _ _ _) as [data|]; [|done]. specialize (Hmsg data).
  cbn [expect mret M_ret] in Hr. rewrite bind_eq in Hr.
  destruct (msgunpack (X := BlockchainSettings) data) as [settings|]; [|done]. specialize (Hmsg settings eq_refl eq_refl). cbn [expect mret M_ret] in Hr.
  cbv zeta in Hmsg. set (config := WasmService.set_settings_network name settings) in *.
  rewrite bind_eq, modify_eq in Hr. cbn [create_fork RocksDb.rocks_db] in Hr. rewrite bind_eq, modify_eq in Hr.
  set (d := WasmService.db (w_state w1)) in *. set (f := store_configuration _ _ _) in Hr.
  destruct (merge_fork _ d) as [d'|] eqn:Hm; [|done]. rewrite bind_eq, modify_eq in Hr. unfold emit in Hr. injection Hr as <-.
  assert (Hb : RocksDb.kept_chain d (fold_left (fun f tx => store_transaction (data_hash tx) tx f) txs f)).
  { apply (store_all_based (Hdl := RocksDb.rocks_db_laws) d txs f).
    eapply (based_write (DbLaws := RocksDb.rocks_db_laws)); [constructor|].
    exact (proj1 (proj2 (based_create (DbLaws := RocksDb.rocks_db_laws) d Hok))). }
  destruct (RocksDb.merge_fork_Ok _ _ _ Hok (proj1 Hb) Hm) as [_ Hsnap].
  assert (Hc : load_configuration NodeConsts.SETTINGS_KEY d' = Some (msgpack config)).
  { cbn [load_configuration RocksDb.rocks_db]. rewrite Hsnap, store_all_config. unfold f. cbn [store_configuration RocksDb.rocks_db_fork].
    by rewrite get_put. }
  unfold init_core_from_db. cbn [w_state w_out upd WasmService.db WasmService.set_db].
  rewrite Hc. cbn [mbind option_bind]. rewrite Hmsg. cbn [mbind option_bind].
  eexists. split; [reflexivity|]. by split_and!.
Qed.
End rocks.

(** ** A sample *)
Module StartSample.
Import DatabaseSample.
#[local] Existing Instances Samples.digest Samples.base58 Samples.ring MemDb.mem_db MemDb.mem_db_laws.
#[local] Instance hex : Hex := {| hex_encode := Samples.string_of_bytes |}.

Definition settings (name : option string) : BlockchainSettings := MkSettings false 500 3 "burn" name true "0".
Definition player_b : Player := MkPlayer "b" 1 3.

#[local] Instance codecs : WasmCodecs := {|
  pack_block_data := {| msgpack := fun d => [bd_height d] |};
  pack_tx_data := DatabaseSample.tx_pack;
  pack_tx := {| msgpack := fun t => [1] |};
  pack_receipt := {| msgpack := fun r => [burned_fuel r] |};
  pack_event := {| msgpack := fun _ => [1] |};
  pack_results := {| msgpack := fun _ => [] |};
  pack_burn_args := {| msgpack := fun a => [ba_units a] |};
  pack_slashed := {| msgpack := fun p => [] |};
  pack_settings := {| msgpack := fun c => match bs_network_name c with Some _ => [2] | None => [1] end |};
  unpack_units := {| msgunpack := fun l => head l |};
  unpack_burn_returns := {| msgunpack := fun l => None |};
  unpack_ids := {| msgunpack := fun l => if bool_decide (l = [9]) then Some (Some ["a"; "b"]) else Some (Some ["b"; "a"]) |};
  unpack_validator := {| msgunpack := fun l => match l with [5] => Some (BoolValue true) | _ => Some (PlayerValue player_b) end |};
  unpack_settings := {| msgunpack := fun l => match l with [1] => Some (settings None) | _ => Some (settings (Some "net")) end |}
|}.

Definition service_data (l : list (string * list Z)) : RocksDb.t :=
  merged (fold_left (fun f kv => store_account_data "TRINCI" (fst kv) (snd kv) f) l fork).
(** Two players, listed in one order or the other *)
Definition two (order : Z) : RocksDb.t :=
  service_data [("blockchain:validators", [order]); ("blockchain:validators:a", [5]); ("blockchain:validators:b", [6])]%string.
#[local] Instance wasm_machine : Wm unit Fork := {|
  wm_new := fun _ => Some tt;
  call := fun args => mret (10, Ok []);
  callable_call := fun args => mret (10, Ok 0);
  app_hash_check := fun app_hash _ _ => mret (Err (ResourceNotFound "smart contract not specified"))
|}.

#[local] Instance wasm_machine_laws : WmLaws unit Fork.
Proof. split; [intros args w; simpl; unfold is_u64, u64_max; lia|by intros args w; apply rtc_refl|by intros args w; apply rtc_refl|by intros h c ts w; apply rtc_refl]. Qed.

Abbreviation service_world := (world (WasmService.t (D := RocksDb.t) (F := Fork) (W := unit)) (WasmService.effect (Chan := string)) core_answer).
Definition service_on (d : RocksDb.t) : service_world := World (WasmService.initial d false "node" "net" None tt) [] (0, []) [].

#[local] Existing Instances Samples.block_executable Samples.conf_confirmable Samples.conf_eq_dec.

(** The leader a consensus service with the players [ps] draws when the random number is [n] *)
Definition leader_of (ps : Players.t) (n : Z) : string :=
  ConsensusService.leader (w_state (exec_world (ConsensusService.draw_new_leader (A := Z) (T := Samples.tx) ConsensusSample.b1
    (World (ConsensusService.set_players ps ConsensusSample.state) [Delivered (Res.GetDRandNum n)] (10, []) [])))).

(** A node that starts again takes its players in the order of the keys of the database, those that
    run in the order of the list: here the same two players and the same random number give
    another leader, whatever the number, to the node that started again. *)
Theorem restart_other_leader :
  let told := Players.Mk ["b"; "a"] [1; 1] in
  match WasmService.players_of (two 0) (service_on (two 0)) with Ret players _ => players = told | Panic _ => False end /\
  players_of_keys (F := Fork) (two 0) = Players.Mk ["a"; "b"] [1; 1] /\
  Forall (fun n => leader_of (players_of_keys (F := Fork) (two 0)) n <> leader_of told n) [0; 1].
Proof.
  cbv zeta. split; [|split].
  - vm_compute. reflexivity.
  - vm_compute. reflexivity.
  - constructor; [|constructor; [|constructor]]; vm_compute; discriminate.
Qed.

Lemma restart_players_witness : players_of_keys (F := Fork) (two 9) = Players.Mk ["a"; "b"] [1; 1].
Proof.
  assert (Hl : listed (F := Fork) (two 9) [("a", 1); ("b", 1)]%string).
  { split.
    - exists [9]. split; vm_compute; reflexivity.
    - vm_compute. reflexivity.
    - constructor; [|constructor; [|constructor]].
      + exists [5]. split; [vm_compute; reflexivity|]. right. split_and!; vm_compute; reflexivity.
      + exists [6]. split; [vm_compute; reflexivity|]. left. exists player_b. split_and!; vm_compute; reflexivity. }
  destruct (restart_players (two 9) [("a", 1); ("b", 1)]%string (service_on (two 9)) Hl) as (_ & _ & H).
  apply H. vm_compute. reflexivity.
Defined.

Lemma service_contract_found_witness :
  exists d' hash, store_service_account (F := Fork) [7; 7] DatabaseSample.db = Some d' /\
    fork_load_account_data "TRINCI" (WmLocal.code_key hash) (snd (create_fork d')) = Some [7; 7].
Proof.
  assert (Hok : match store_service_account (F := Fork) [7; 7] DatabaseSample.db with Some _ => true | None => false end = true)
    by (vm_compute; reflexivity).
  destruct (store_service_account (F := Fork) [7; 7] DatabaseSample.db) as [d'|] eqn:Hs; [|discriminate Hok].
  destruct (service_contract_found [7; 7] DatabaseSample.db d' eq_refl Hs) as (hash & _ & _ & H & _). by exists d', hash.
Defined.

(** The genesis block without transactions, on a database with settings *)
Definition before : service_world := service_on (service_data [(NodeConsts.SETTINGS_KEY, [1])]).
Definition first_block : Block := genesis_block [].
Definition requested : exec service_world unit :=
  WasmService.handle_requests (WasmService.ExecuteGenesisBlock first_block [] "net") "bootstrap" before.

Definition executed : exec service_world (Result unit NodeError) := WasmService.execute_block first_block 0 [] before.

Lemma genesis_settings_kept_witness :
  exists c, init_core_from_db first_block (WasmService.db (w_state (exec_world requested))) = Some c /\
    network_name c = "net"%string /\ burning_fuel_method c = Some "burn"%string.
Proof.
  assert (Hok : match executed with Ret (Ok _) _ => true | _ => false end = true) by (vm_compute; reflexivity).
  assert (Hd : load_account_data NodeConsts.SERVICE_ACCOUNT_ID NodeConsts.SETTINGS_KEY (WasmService.db (w_state (exec_world executed)))
    = Some [1]) by (vm_compute; reflexivity).
  assert (Hret : panicked requested = false) by (vm_compute; reflexivity).
  assert (Hburn : WasmService.burning_fuel_method (w_state (exec_world requested)) = "burn"%string) by (vm_compute; reflexivity).
  assert (Hb : forks_based "node" (w_state before)) by (split; [reflexivity|split; [reflexivity|apply map_Forall_empty]]).
  assert (Hg : genesis "node" first_block) by (split; [vm_compute; discriminate|vm_compute; discriminate]).
  destruct executed as [[[]|e] w1|w1] eqn:He; [|discriminate Hok|discriminate Hok].
  destruct requested as [[] w'|w'] eqn:Hr; [|discriminate Hret].
  destruct (genesis_settings_kept "node" first_block [] "net" "bootstrap"%string first_block before w1 w') as (c & H1 & H2 & H3 & _).
  - intros data s Hl Hs. cbn [exec_world] in Hd. rewrite Hd in Hl. injection Hl as <-. injection Hs as <-. reflexivity.
  - exact Hb.
  - exact Hg.
  - exact He.
  - exact Hr.
  - exists c. split_and!; [exact H1|exact H2|]. rewrite H3. f_equal. exact Hburn.
Defined.
End StartSample.
