(* ===== verification/MiningModels.v ===== *)
(** * The data of the mining tool ([trinci-mining-tool/src/models.rs], and of
    [trinci-mining-tool/src/mining_service.rs])

    Commands and updates between the services of the tool, and the arguments and results of
    the contracts it calls. *)

From stdpp Require Import base gmap strings list fin_maps pretty.
From S2P Require Import Prelude.
From S2P Require Import Exec.
From S2P Require Import Hash.
From S2P Require Import Crypto.
From S2P Require Import CoreModels.
From S2P Require Import DRand.
From S2P Require Import Messages.
From S2P Require Import Utf8.
From S2P Require Import NodeModels.
From S2P Require Import NodeErrors.
From S2P Require Import Database.
From S2P Require Import WasmMachine.
From S2P Require Import HostFunc.
From S2P Require Import Wasmtime.
From S2P Require Import WmLocal.
From S2P Require Import NodeMessages.
From S2P Require Import EventService.
From S2P Require Import SocketService.
From S2P Require Import RestApi.
Open Scope Z_scope.

(** ** Data *)
Definition TCOIN : string := "#TCOIN".
Definition MAX_LIFE_POINTS : Z := 3.
Definition BALANCE_THRESHOLD : Z := 1000.

Record Challenge : Type := MkChallenge { block_timestamp : Z; difficulty : Z; seed : Z; steps : Z }.
Record MiningArgs : Type := MkMiningArgs { ma_difficulty : Z; ma_mining_seed : Z; ma_steps : Z }.
Record VerifyArgs : Type := MkVerifyArgs { va_proofs : list Z; va_join_players : bool }.
Record AssetTransferArgs : Type := MkTransferArgs { ta_from : string; ta_to : string; ta_units : Z }.
Record WithdrawArgs : Type := MkWithdrawArgs { wa_asset : string; wa_units : option Z }.
Record TCoinUserBalance : Type := MkTCoinBalance { tb_units : Z; tb_challenge : option Challenge }.

Record BitbelSnapshot : Type := MkBitbel { bs_time : Z; bs_units : Z }.
Record TCoinSnapshot : Type := MkTCoin { tc_time : Z; tc_units_in_stake : Z; tc_total : Z }.
Record LifeCoinSnapshot : Type := MkLife { lc_time : Z; lc_units : Z; lc_total : Z }.
Record PoPUpdate : Type := MkPoPUpdate { bitbel : BitbelSnapshot; tcoin : TCoinSnapshot; life_points : LifeCoinSnapshot }.
Record NodeHealth : Type := MkHealth {
  last_time : Z;
  system_stats : SystemStats;
  unconfirmed_pool_len : Z;
  h_block_height : Z
}.
Record NodeStateUpdate : Type := MkUpdate {
  u_account_id : string;
  pop_update : PoPUpdate;
  health_update : NodeHealth;
  players_update : list Player
}.
Record BlockEvt : Type := MkBlockEvt { be_block : Block; be_txs_hashes : option (list Hash); be_origin : option string }.
Record BlockStats : Type := MkBlockStats { bk_burned_fuel : Z; bk_tx_number : Z }.

(** Where a node is reached, and what the tool knows of it *)
Record NodeNetworking : Type := MkNetworking { nw_ip : string; nw_network : string; nw_rest : Z; nw_socket : Z }.
Record NodeInterface : Type := MkInterface { accountId : string; ni_ip : string; ni_rest : Z; ni_socket : Z }.
Record PoPStatus : Type := MkPoPStatus {
  st_bitbel : list BitbelSnapshot;
  st_tcoin : list TCoinSnapshot;
  st_life_points : list LifeCoinSnapshot
}.
Record PlayerInfo : Type := MkPlayerInfo { connection : NodeNetworking; stats : PoPStatus; health : NodeHealth; status : bool }.
Record PlayerSnapshot : Type := MkSnapshot { ps_account_id : string; ps_t_coin : Z; ps_time : Z; ps_block_height : Z }.

(** Commands, with the channels of their responses *)
Inductive Cmd : Type :=
| Reboot
| Start (id : string) (response_sender : Chan)
| CmdStop (id : string)
| GetAccount (account : string) (response_sender : Chan)
| GetAccountData (account key : string) (response_sender : Chan)
| GetReceipt (response_sender : Chan) (tx_hash : string)
| CmdSubmitTx (response_sender : Chan) (tx : list Z)
| Transfer (account : string) (args : AssetTransferArgs) (response_sender : Chan)
| Unstake (response_sender : Chan) (units : option Z)
| NetworkScan (nodes : list NodeInterface)
| Refresh (response_sender : Chan)
| GetOwner (response_sender : Chan)
| SetOwner (owner : list Z)
| NewNodeFromDiscovery (nodes : list (string * NodeNetworking))
| GetPreviousExecution (response_sender : Chan).

(** What goes to the service of the socket, and what comes of it *)
Inductive SocketCmd : Type :=
| SubscribeTopics (topics : Z)
| UnsubscribeTopics (topics : Z)
| SubmitRequest (request : SocketRequest).
Inductive TcpMsg : Type :=
| TcpBlockEvt (block : Block) (txs : option (list Hash)) (origin : option string)
| TcpOtherEvt
| ResponseTopics (outcome : bool)
| ResponseTxSign (tx_hash : string).
