(* ===== verification/MiningService.v ===== *)
(** * The mining service of the mining tool ([trinci-mining-tool/src/mining_service.rs])

    For a node it is paired with, the tool follows the blocks: it submits a transaction that
    asks the mining contract for a challenge, solves the challenge on its own machine once
    the transaction is in a block, submits the proof, and asks again once the proof is in a
    block.  It reads accounts and receipts from the REST interface of the node, whose
    responses are the answers, and submits through the socket. *)

From stdpp Require Import base gmap strings list fin_maps pretty.
From S2P Require Import Prelude.
From S2P Require Import Exec.
From S2P Require Import Hash.
From S2P Require Import Crypto.
From S2P Require Import CoreModels.
From S2P Require Import DRand.
From S2P Require Import Messages.
From S2P Require Import Utf8.
From S2P Require Import NodeModels.
From S2P Require Import NodeErrors.
From S2P Require Import Database.
From S2P Require Import WasmMachine.
From S2P Require Import HostFunc.
From S2P Require Import Wasmtime.
From S2P Require Import WmLocal.
From S2P Require Import NodeMessages.
From S2P Require Import EventService.
From S2P Require Import SocketService.
From S2P Require Import RestApi.
From S2P Require Import MiningModels.
Open Scope Z_scope.

(** What a caller is answered *)
Inductive ToolResponse : Type :=
| RText (s : string)
| RAccount (account : Account.t)
| RBytes (buf : list Z)
| RReceipt (receipt : Receipt).

Inductive effect : Type :=
| HttpGet (url : string)
| HttpPost (url : string) (body : list Z)
| ToSocket (cmd : SocketCmd)
| Updated (update : NodeStateUpdate)
| Responded (to : Chan) (r : ToolResponse).

(** The body of a response, if one comes; and what the service of the socket answers, if it lives *)
Inductive answer : Type :=
| Http (body : option (list Z))
| SocketGone
| SocketAnswer (msg : option TcpMsg).

Inductive error : Type := ToolError.

Class ToolCodecs : Type := {
  pack_data_v1 :: MsgPack TransactionDataV1;
  pack_data :: MsgPack TransactionData;
  pack_start_args :: MsgPack Z;
  pack_mining_args :: MsgPack MiningArgs;
  pack_verify_args :: MsgPack VerifyArgs;
  pack_transfer_args :: MsgPack AssetTransferArgs;
  pack_withdraw_args :: MsgPack WithdrawArgs;
  unpack_challenge :: MsgUnpack Challenge;
  unpack_mining_result :: MsgUnpack (list Z);
  unpack_u64 :: MsgUnpack Z;
  unpack_t_coin :: MsgUnpack TCoinUserBalance;
  from_json_account :: FromJson Account.t;
  from_json_receipt :: FromJson Receipt;
  from_json_players :: FromJson (list Player);
  from_json_stats :: FromJson SystemStats;
  from_json_u64 :: FromJson Z
}.

Module MiningService.
Section service.
Context `{Hdig : Digest} `{Hb58 : Base58} `{Hring : Ring} `{Hhex : Hex} `{Hcodecs : ToolCodecs} `{Hwmc : WmCodecs} `{Hiter : !HashMapIter Hash}.
Context `{Hwt : Wasmtime} {D F : Type} `{Hdb : Db D F} `{Hfork : DbFork F}.
(** The database the challenges are solved on, the depth of the machine's stack, and the channels that
    still have a receiver; the random numbers of the signatures; what the machine is answered on the
    channel whose other end is dropped *)
Context (mining_db : D) (depth : nat) (alive : Chan -> bool) (rnd : Z) (closed : list core_answer).
#[local] Instance tool_machine : Wm WmLocal.t F := WmLocal.machine depth.

Record MiningStatus : Type := MkStatus {
  mining_in_progress : bool;
  pending_start : option Hash;
  pending_verify : option Hash
}.
Definition default_status : MiningStatus := MkStatus true None None.

Record t : Type := Mk {
  join_players : bool;
  mining_account_id : string;
  mining_status : MiningStatus;
  node_info : NodeInfo;
  mining_contract_hash : Hash;
  wm : WmLocal.t;
  session_key_pair : Keys.TrinciKeyPair
}.
Definition set_status (x : MiningStatus) (s : t) : t :=
  Mk (join_players s) (mining_account_id s) x (node_info s) (mining_contract_hash s) (wm s) (session_key_pair s).
Definition set_wm (x : WmLocal.t) (s : t) : t :=
  Mk (join_players s) (mining_account_id s) (mining_status s) (node_info s) (mining_contract_hash s) x (session_key_pair s).
Definition set_pending_start (x : option Hash) (s : t) : t :=
  set_status (MkStatus (mining_in_progress (mining_status s)) x (pending_verify (mining_status s))) s.
Definition set_pending_verify (x : option Hash) (s : t) : t :=
  set_status (MkStatus (mining_in_progress (mining_status s)) (pending_start (mining_status s)) x) s.
Definition set_in_progress (x : bool) (s : t) : t :=
  set_status (MkStatus x (pending_start (mining_status s)) (pending_verify (mining_status s))) s.

Abbreviation handler S := (M S effect answer).
Abbreviation h := (M t effect answer).
Abbreviation try A := (Result A error).

(** ** Requests to the node *)
Section http.
Context {S : Type}.

Definition http (request : effect) : handler S (try (list Z)) :=
  emit request ;;
  a ← next_answer;
  mret (match a with Some (Http (Some body)) => Ok body | _ => Err ToolError end).
Definition get_json {X} `{!FromJson X} (url : string) : handler S (try X) :=
  body <-? http (HttpGet url);
  mret (match from_json (Utf8.string_of_bytes body) with Some x => Ok x | None => Err ToolError end).

(** [send] on a channel that is used once *)
Definition respond (to : Chan) (r : ToolResponse) : handler S (try unit) :=
  if alive to then emit (Responded to r) ;; mret (Ok tt) else mret (Err ToolError).

(** [to_account_id()?] *)
Definition account_id (k : Keys.TrinciPublicKey) : handler S (try string) :=
  id ← expect (Keys.to_account_id k); mret (match id with Ok id => Ok id | Err _ => Err ToolError end).

Definition node_url (info : NodeInfo) (path : string) : string :=
  (addr info ++ ":" ++ pretty (rest_port info) ++ "/" ++ path)%string.
End http.

Definition url (path : string) : h string := gets (fun s => node_url (node_info s) path).
Definition own_id : h (try string) := s ← get_state; account_id (ni_public_key (node_info s)).

Definition get_receipt (hash : string) : h (try Receipt) := u ← url ("get_receipt/" ++ hash); get_json u.

Definition check_bitbell_balance : h (try unit) :=
  id <-? own_id;
  u ← url ("get_account/" ++ id);
  account <-? get_json (X := Account.t) u;
  match Account.assets account !! "TRINCI"%string with
  | None => mret (Err ToolError)
  | Some balance =>
      match msgunpack (X := Z) balance with
      | None => mret (Err ToolError)
      | Some balance =>
          s ← get_state;
          let ratio := if bool_decide (is_Some (pending_verify (mining_status s))) then 2 else 1 in
          mret (if balance <? ratio * BALANCE_THRESHOLD then Err ToolError else Ok tt)
      end
  end.

Fixpoint block_stats (txs : list Hash) (total_burned_fuel tx_number : Z) : h (try BlockStats) :=
  match txs with
  | [] => mret (Ok (MkBlockStats total_burned_fuel tx_number))
  | tx :: txs =>
      receipt <-? get_receipt (ErrorText.hash_hex tx);
      block_stats txs (total_burned_fuel +u64 burned_fuel receipt) (tx_number +u64 1)
  end.
Definition get_block_stats (txs : list Hash) : h (try BlockStats) := block_stats txs 0 0.

Definition get_player_bitbel_balance (player_id : string) : h (try Z) :=
  u ← url ("get_account/" ++ player_id);
  account <-? get_json (X := Account.t) u;
  mret (match Account.assets account !! "TRINCI"%string with
        | Some buf => match msgunpack (X := Z) buf with Some units => Ok units | None => Err ToolError end
        | None => Ok 0
        end).

Definition get_t_coin_balance (player_id : string) : h (try Z) :=
  u ← url ("get_account/" ++ player_id);
  account <-? get_json (X := Account.t) u;
  mret (match Account.assets account !! TCOIN with
        | Some buf => match msgunpack (X := TCoinUserBalance) buf with Some balance => Ok (tb_units balance) | None => Err ToolError end
        | None => Ok 0
        end).

Definition get_players_info (player_id : string) : h (option (list Player * Player)) :=
  u ← url "get_players";
  r ← get_json (X := list Player) u;
  mret (match r with
        | Ok players =>
            Some (players, default (MkPlayer player_id 0 0)
                             (find (fun player => bool_decide (CoreModels.account_id player = player_id)) players))
        | Err _ => None
        end).

Definition ok_of {A} (r : try A) : option A := match r with Ok a => Some a | Err _ => None end.
Definition get_node_stats : h (option SystemStats) := u ← url "system_status"; r ← get_json u; mret (ok_of r).
Definition get_node_unconfirmed_len : h (option Z) := u ← url "unconfirmed_tx_pool_len"; r ← get_json u; mret (ok_of r).

(** [ok_or_else] and a [?] *)
Definition some_or_error {A} (m : h (option A)) : h (try A) := r ← m; mret (match r with Some a => Ok a | None => Err ToolError end).

(** The state of the node, for the service that keeps it *)
Definition send_node_update (block_evt : BlockEvt) : h (try unit) :=
  node_account_id <-? own_id;
  info <-? some_or_error (get_players_info node_account_id);
  let '(players, local_player) := info in
  system_stats <-? some_or_error get_node_stats;
  balance <-? get_t_coin_balance node_account_id;
  let t_coin_balance := balance +u64 units_in_stake local_player in
  bitbel_balance <-? get_player_bitbel_balance node_account_id;
  unconfirmed_pool_len <-? some_or_error get_node_unconfirmed_len;
  txs_hashes ← expect (be_txs_hashes block_evt);
  _ <-? get_block_stats txs_hashes;
  last_time ← timestamp;
  let d := block_data (be_block block_evt) in
  let time := bd_timestamp d in
  let pop := MkPoPUpdate (MkBitbel time bitbel_balance) (MkTCoin time (units_in_stake local_player) t_coin_balance)
               (MkLife time (CoreModels.life_points local_player) MAX_LIFE_POINTS) in
  emit (Updated (MkUpdate node_account_id pop (MkHealth last_time system_stats unconfirmed_pool_len (bd_height d)) players)) ;;
  mret (Ok tt).

(** ** Transactions *)
Definition nonce_now : h (list Z) := now ← timestamp; mret (to_be_bytes now).

Definition build_start_mining_tx : h TransactionDataV1 :=
  s ← get_state;
  nonce ← nonce_now;
  mret (MkV1 (Utf8.replace (mining_account_id s) "%23" "#") BALANCE_THRESHOLD nonce (network (node_info s))
          (Some (mining_contract_hash s)) "start_mining" (ni_public_key (node_info s)) (msgpack (X := Z) 0)).

Definition build_verify_mining_tx (mining_result : list Z) : h (try TransactionDataV1) :=
  match msgunpack (X := list Z) mining_result with
  | None => mret (Err ToolError)
  | Some mining_result =>
      s ← get_state;
      nonce ← nonce_now;
      mret (Ok (MkV1 (Utf8.replace (mining_account_id s) "%23" "#") BALANCE_THRESHOLD nonce (network (node_info s))
                  (Some (mining_contract_hash s)) "verify" (ni_public_key (node_info s))
                  (msgpack (MkVerifyArgs mining_result (join_players s)))))
  end.

(** The transaction goes to the node, and what waits for it is told its hash; a transaction of the cycle is
    pending from then on. *)
Definition submit_tx (tx_data : TransactionDataV1) (rpc_response_sender : option Chan) : h (try unit) :=
  s ← get_state;
  signature ← (match Keys.sign rnd (session_key_pair s) (msgpack tx_data) with Ok signature => mret signature | Err _ => panic end);
  a ← next_answer;
  match a with
  | Some SocketGone => mret (Err ToolError)
  | a =>
      emit (ToSocket (SubmitRequest (SubmitTx tx_data signature))) ;;
      match a with
      | Some (SocketAnswer (Some (ResponseTxSign tx_hash))) =>
          _ <-? (match rpc_response_sender with Some sender => respond sender (RText tx_hash) | None => mret (Ok tt) end);
          let tx_data_hash := tx_data_hash (V1 tx_data) in
          (if bool_decide (v1_method tx_data = "start_mining"%string) then modify (set_pending_start (Some tx_data_hash))
           else when (bool_decide (v1_method tx_data = "verify"%string)) (modify (set_pending_verify (Some tx_data_hash)))) ;;
          mret (Ok tt)
      | _ => mret (Err ToolError)
      end
  end.

Definition submit_unstake_tx (response_sender : Chan) (units : option Z) : h (try unit) :=
  s ← get_state;
  nonce ← nonce_now;
  submit_tx (MkV1 "TRINCI" BALANCE_THRESHOLD nonce (network (node_info s)) None "withdraw_token_in_stake"
               (ni_public_key (node_info s)) (msgpack (MkWithdrawArgs TCOIN units))) (Some response_sender).

Definition submit_transfer_tx (account : string) (args : AssetTransferArgs) (response_sender : Chan) : h (try unit) :=
  s ← get_state;
  nonce ← nonce_now;
  submit_tx (MkV1 account BALANCE_THRESHOLD nonce (network (node_info s)) None "transfer"
               (ni_public_key (node_info s)) (msgpack args)) (Some response_sender).

(** ** The challenge *)

(** A call of the machine on a fork of its own; nobody has the other end of its channel. *)
Definition on_machine {A} (f : F) (m : wm_handler WmLocal.t F A) : h A := fun w =>
  match m (World (MkWmState (wm (w_state w)) f []) closed (w_clock w) []) with
  | Ret a w' => Ret a (World (set_wm (ws_wm (w_state w')) (w_state w)) (w_answers w) (w_clock w') (w_out w))
  | Panic _ => Panic w
  end.

Definition mine (challenge : Challenge) : h (try (list Z)) :=
  caller_account_id <-? own_id;
  s ← get_state;
  let mining_args := MkMiningArgs (difficulty challenge) (seed challenge) (steps challenge) in
  let '(_, fork) := create_fork mining_db in
  r ← on_machine fork (call (MkCallArgs 0 "" caller_account_id (Utf8.replace (mining_account_id s) "%23" "#") "TRINCI"
         (mining_contract_hash s) "mine" (msgpack mining_args) u64_max 0));
  mret (match snd r with Ok result => Ok result | Err _ => Err ToolError end).

(** ** Blocks *)

(** A transaction of a block, by what is pending *)
Definition on_consolidated (tx_hash : Hash) : h (try unit) :=
  s ← get_state;
  if bool_decide (pending_start (mining_status s) = Some tx_hash) then
    modify (set_pending_start None) ;;
    receipt <-? get_receipt (ErrorText.hash_hex tx_hash);
    match msgunpack (X := Challenge) (returns receipt) with
    | None => mret (Err ToolError)
    | Some challenge =>
        mining_result <-? mine challenge;
        tx_data <-? build_verify_mining_tx mining_result;
        submit_tx tx_data None
    end
  else if bool_decide (pending_verify (mining_status s) = Some tx_hash) then
    modify (set_pending_verify None) ;;
    _ <-? get_receipt (ErrorText.hash_hex tx_hash);
    tx_data ← build_start_mining_tx;
    submit_tx tx_data None
  else mret (Ok tt).

Fixpoint on_txs (txs_hashes : list Hash) : h (try unit) :=
  match txs_hashes with
  | [] => mret (Ok tt)
  | tx_hash :: txs_hashes => _ <-? on_consolidated tx_hash; on_txs txs_hashes
  end.

Definition handle_block_evt (block_evt : BlockEvt) : h (try unit) :=
  s ← get_state;
  if bool_decide (pending_start (mining_status s) = None) && bool_decide (pending_verify (mining_status s) = None) then
    tx_data ← build_start_mining_tx;
    submit_tx tx_data None
  else
    txs_hashes ← expect (be_txs_hashes block_evt);
    on_txs txs_hashes.

(** ** Commands *)
Definition handle_cmd (cmd : Cmd) : h unit :=
  match cmd with
  | Reboot => modify (set_status default_status)
  | Start _ response_sender =>
      modify (set_in_progress true) ;;
      tx_data ← build_start_mining_tx;
      _ ← submit_tx tx_data (Some response_sender);
      mret tt
  | CmdStop _ => modify (set_status (MkStatus false None None))
  | GetAccount account response_sender =>
      u ← url ("get_account/" ++ account);
      r ← get_json (X := Account.t) u;
      match r with Ok account => _ ← respond response_sender (RAccount account); mret tt | Err _ => mret tt end
  | GetAccountData account key response_sender =>
      u ← url ("get_account_data/" ++ Utf8.replace account "#" "%23" ++ "/" ++ key);
      r ← http (HttpGet u);
      match r with Ok body => _ ← respond response_sender (RBytes body); mret tt | Err _ => mret tt end
  | GetReceipt response_sender tx_hash =>
      r ← get_receipt tx_hash;
      match r with Ok receipt => _ ← respond response_sender (RReceipt receipt); mret tt | Err _ => mret tt end
  | CmdSubmitTx response_sender tx =>
      u ← url "submit_tx";
      r ← http (HttpPost u tx);
      match r with Ok body => _ ← respond response_sender (RText (Utf8.from_utf8_lossy body)); mret tt | Err _ => mret tt end
  | Transfer account args response_sender => _ ← submit_transfer_tx account args response_sender; mret tt
  | Unstake response_sender units => _ ← submit_unstake_tx response_sender units; mret tt
  | NetworkScan _ | Refresh _ | GetOwner _ | SetOwner _ | NewNodeFromDiscovery _ | GetPreviousExecution _ => mret tt
  end.

(** ** The loop *)
Inductive Input : Type :=
| InBlock (block_evt : BlockEvt)
| InCmd (cmd : Cmd).

Definition step (i : Input) : h unit :=
  match i with
  | InBlock block_evt =>
      _ ← send_node_update block_evt;
      s ← get_state;
      if mining_in_progress (mining_status s) then
        balance ← check_bitbell_balance;
        match balance with
        | Ok _ => _ ← handle_block_evt block_evt; mret tt
        | Err _ => mret tt
        end
      else mret tt
  | InCmd cmd => handle_cmd cmd
  end.

Definition run (inputs : list Input) : h unit := for_each inputs step.

(** ** The start *)

(** The machine, with the contract in its cache *)
Definition instantiate_wm (mining_contract_hash : Hash) (mining_contract_bin : list Z) : try WmLocal.t :=
  match module_new mining_contract_bin with
  | Err _ => Err ToolError
  | Ok module => Ok (WmLocal.Mk {[mining_contract_hash := WmLocal.MkCached module 0]} u64_max)
  end.

Definition setup (join_players : bool) (info : NodeInfo) (session_kp : Keys.TrinciKeyPair) : handler unit (try t) :=
  match SocketService.mining_account_id info with
  | None => mret (Err ToolError)
  | Some account_id =>
      let mining_account_id := Utf8.replace account_id "#" "%23" in
      account <-? get_json (X := Account.t) (node_url info ("get_account/" ++ mining_account_id));
      match Account.contract account with
      | None => mret (Err ToolError)
      | Some contract_hash =>
          mining_contract_bin <-? http (HttpGet (node_url info
            ("get_account_data/TRINCI/contracts:code:" ++ ErrorText.hash_hex contract_hash)));
          match instantiate_wm contract_hash mining_contract_bin with
          | Err e => mret (Err e)
          | Ok wm =>
              a ← next_answer;
              match a with
              | Some SocketGone => mret (Err ToolError)
              | a =>
                  emit (ToSocket (SubscribeTopics EventService.BLOCK_EXEC)) ;;
                  mret (match a with
                        | Some (SocketAnswer (Some (ResponseTopics false))) => Err ToolError
                        | _ => Ok (Mk join_players mining_account_id default_status info contract_hash wm session_kp)
                        end)
              end
          end
      end
  end.

(** The rest of [start]: the first transaction, if there is money for it, and the loop *)
Definition begin (inputs : list Input) : h (try unit) :=
  balance ← check_bitbell_balance;
  match balance with
  | Ok _ =>
      tx_data ← build_start_mining_tx;
      _ <-? submit_tx tx_data None;
      run inputs ;; mret (Ok tt)
  | Err _ => run inputs ;; mret (Ok tt)
  end.
End service.
End MiningService.
