(* ===== verification/MiningTheorems.v ===== *)
(** * The mining cycle *)

From stdpp Require Import base gmap strings list fin_maps pretty.
From S2P Require Import Prelude.
From S2P Require Import Exec.
From S2P Require Import Hash.
From S2P Require Import Crypto.
From S2P Require Import CoreModels.
From S2P Require Import DRand.
From S2P Require Import Messages.
From S2P Require Import Samples.
From S2P Require Import NodeModels.
From S2P Require Import NodeErrors.
From S2P Require Import Database.
From S2P Require Import WasmMachine.
From S2P Require Import HostFunc.
From S2P Require Import Wasmtime.
From S2P Require Import WmLocal.
From S2P Require Import NodeMessages.
From S2P Require Import SocketService.
From S2P Require Import DatabaseTheorems.
From S2P Require Import WmLocalSamples.
From S2P Require Import RestApi.
From S2P Require Import MiningModels.
From S2P Require Import MiningService.
Open Scope Z_scope.
Import MiningService.

Section theorems.
Context `{Hdig : Digest} `{Hb58 : Base58} `{Hring : Ring} `{Hhex : Hex} `{Hcodecs : ToolCodecs} `{Hwmc : WmCodecs} `{Hiter : !HashMapIter Hash}.
Context `{Hwt : Wasmtime} {D F : Type} `{Hdb : Db D F} `{Hfork : DbFork F}.
Context (mining_db : D) (depth : nat) (alive : Chan -> bool) (rnd : Z) (closed : list core_answer).
Abbreviation tool A := (M t effect answer A).
Abbreviation tool_world := (world t effect answer).
Implicit Types w : tool_world.

(** ** What leaves the cycle alone *)
Abbreviation still m := (rel (same_proj mining_status) (m : tool _)).

Lemma http_still {X} (f : t -> X) request : rel (same_proj f) (http request : tool _).
Proof. unfold http. frames. Qed.
#[local] Hint Resolve http_still : frames.
Lemma url_still {X} (f : t -> X) path : rel (same_proj f) (url path : tool _).
Proof. unfold url. frames. Qed.
#[local] Hint Resolve url_still : frames.
Lemma get_json_still {X Y} (f : t -> X) `{!FromJson Y} u : rel (same_proj f) (get_json (X := Y) u : tool _).
Proof. unfold get_json. frames. Qed.
#[local] Hint Resolve get_json_still : frames.
Lemma respond_still {X} (f : t -> X) to r : rel (same_proj f) (respond alive to r : tool _).
Proof. unfold respond. frames. Qed.
Lemma own_id_still {X} (f : t -> X) : rel (same_proj f) (own_id : tool _).
Proof. unfold own_id, account_id. frames. Qed.
#[local] Hint Resolve respond_still own_id_still : frames.
Lemma get_receipt_still {X} (f : t -> X) hash : rel (same_proj f) (get_receipt hash : tool _).
Proof. unfold get_receipt. frames. Qed.
#[local] Hint Resolve get_receipt_still : frames.
Lemma block_stats_still {X} (f : t -> X) txs a b : rel (same_proj f) (block_stats txs a b : tool _).
Proof. revert a b. induction txs as [|tx txs IH]; intros a b; cbn [block_stats]; frames. Qed.
#[local] Hint Resolve block_stats_still : frames.

Lemma update_still {X} (f : t -> X) evt : rel (same_proj f) (send_node_update evt : tool _).
Proof.
  unfold send_node_update, some_or_error, get_players_info, get_node_stats, get_t_coin_balance, get_player_bitbel_balance,
    get_node_unconfirmed_len, get_block_stats. frames.
Qed.
Lemma balance_still {X} (f : t -> X) : rel (same_proj f) (check_bitbell_balance : tool _).
Proof. unfold check_bitbell_balance. frames. Qed.
Lemma build_start_still {X} (f : t -> X) : rel (same_proj f) (build_start_mining_tx : tool _).
Proof. unfold build_start_mining_tx, nonce_now. frames. Qed.
Lemma build_verify_still {X} (f : t -> X) r : rel (same_proj f) (build_verify_mining_tx r : tool _).
Proof. unfold build_verify_mining_tx, nonce_now. frames. Qed.
Lemma on_machine_still {A} f (m : wm_handler WmLocal.t F A) : still (on_machine closed f m).
Proof. intros w. unfold on_machine. by destruct (m _). Qed.
#[local] Hint Resolve on_machine_still : frames.
Lemma mine_still challenge : still (mine mining_db depth closed challenge).
Proof. unfold mine. frames. Qed.
#[local] Hint Resolve update_still balance_still build_start_still build_verify_still mine_still : frames.

(** ** What a submission leaves *)
Abbreviation submit := (submit_tx alive rnd).

Lemma submit_status data sender w :
  match submit data sender w with
  | Ret _ w' =>
      w_state w' = w_state w \/
      (v1_method data = "start_mining"%string /\ w_state w' = set_pending_start (Some (tx_data_hash (V1 data))) (w_state w)) \/
      (v1_method data = "verify"%string /\ w_state w' = set_pending_verify (Some (tx_data_hash (V1 data))) (w_state w))
  | Panic _ => True
  end.
Proof.
  unfold submit_tx. rewrite bind_eq. cbn [get_state]. rewrite bind_eq.
  destruct (Keys.sign _ _ _) as [sig|]; [|done]. cbn [mret M_ret]. rewrite bind_eq.
  destruct w as [s [|[body| |[[| | |tx_hash]|]] rest] clock out]; cbn [next_answer w_answers w_state]; try (by left).
  rewrite bind_eq. cbn [emit w_state w_answers w_clock w_out]. unfold try_bind. rewrite bind_eq.
  assert (Hr : forall w1, match (match sender with Some to => respond alive to (RText tx_hash) | None => mret (Ok tt) end : tool _) w1 with
                     | Ret _ w2 => w_state w2 = w_state w1 | Panic _ => False end).
  { intros w1. destruct sender as [to|]; [|done]. unfold respond. by destruct (alive to). }
  specialize (Hr (World s rest clock (out ++ [ToSocket (SubmitRequest (SubmitTx data sig))]))).
  destruct (_ (World s rest clock _)) as [[u|e] w2|w2]; [|by left|done]. cbn [w_state] in Hr.
  rewrite bind_eq. case_bool_decide as Hm.
  - rewrite modify_eq. right. left. split; [exact Hm|]. simpl. by rewrite Hr.
  - unfold when. case_bool_decide as Hv; [|by left].
    rewrite modify_eq. right. right. split; [exact Hv|]. simpl. by rewrite Hr.
Qed.

(** What the state keeps pending of a transaction the node took *)
Definition pend (data : TransactionDataV1) (s : t) : t :=
  if bool_decide (v1_method data = "start_mining"%string) then set_pending_start (Some (tx_data_hash (V1 data))) s
  else if bool_decide (v1_method data = "verify"%string) then set_pending_verify (Some (tx_data_hash (V1 data))) s
  else s.

Lemma submit_taken data sig sender tx_hash rest s clock out :
  Keys.sign rnd (session_key_pair s) (msgpack data) = Ok sig ->
  match sender with Some to => alive to = true | None => True end ->
  submit data sender (World s (SocketAnswer (Some (ResponseTxSign tx_hash)) :: rest) clock out) =
    Ret (Ok tt) (World (pend data s) rest clock
      (out ++ ToSocket (SubmitRequest (SubmitTx data sig)) :: match sender with Some to => [Responded to (RText tx_hash)] | None => [] end)).
Proof.
  intros Hs Ha. unfold submit_tx. rewrite bind_eq. cbn [get_state]. rewrite bind_eq. cbn [w_state]. rewrite Hs. cbn [mret M_ret].
  rewrite bind_eq. cbn [next_answer w_answers w_state w_clock w_out]. rewrite bind_eq. cbn [emit w_answers w_state w_clock w_out].
  unfold try_bind. rewrite bind_eq. unfold pend. destruct sender as [to|].
  - unfold respond. rewrite Ha, bind_eq. cbn [emit w_answers w_state w_clock w_out mret M_ret]. rewrite bind_eq, <- app_assoc.
    by repeat case_bool_decide.
  - cbn [mret M_ret]. rewrite bind_eq. by repeat case_bool_decide.
Qed.

(** The request for a challenge, at a reading of the clock *)
Definition start_data (clock : Z) (s : t) : TransactionDataV1 :=
  MkV1 (Utf8.Utf8.replace (mining_account_id s) "%23" "#") BALANCE_THRESHOLD (to_be_bytes clock) (network (node_info s))
    (Some (mining_contract_hash s)) "start_mining" (ni_public_key (node_info s)) (msgpack (X := Z) 0).

Lemma build_start_eq w : build_start_mining_tx w = Ret (start_data (now w) (w_state w)) (tick w).
Proof. unfold build_start_mining_tx, nonce_now. rewrite bind_eq. cbn [get_state]. by rewrite !bind_eq, timestamp_eq. Qed.

(** ** One transaction of the cycle waits *)
Definition idle (s : t) : Prop := pending_start (mining_status s) = None /\ pending_verify (mining_status s) = None.
Definition single (s : t) : Prop := pending_start (mining_status s) = None \/ pending_verify (mining_status s) = None.

Lemma idle_single s : idle s -> single s.
Proof. intros [H _]. by left. Qed.

Lemma submit_idle data sender : ensures (fun w => idle (w_state w)) (submit data sender) (fun _ w => single (w_state w)).
Proof.
  intros w [H1 H2]. pose proof (submit_status data sender w) as Hs. destruct (submit data sender w) as [r w'|w']; [|done].
  destruct Hs as [->|[[_ ->]|[_ ->]]]; unfold single; simpl; auto.
Qed.

Lemma submit_single data sender : v1_method data <> "start_mining"%string -> v1_method data <> "verify"%string ->
  ensures (fun w => single (w_state w)) (submit data sender) (fun _ w => single (w_state w)).
Proof.
  intros H1 H2 w Hw. pose proof (submit_status data sender w) as Hs. destruct (submit data sender w) as [r w'|w']; [|done].
  by destruct Hs as [->|[[? _]|[? _]]].
Qed.

Lemma still_ensures (I : MiningStatus -> Prop) {A} (m : tool A) : still m ->
  ensures (fun w => I (mining_status (w_state w))) m (fun _ w => I (mining_status (w_state w))).
Proof.
  intros Hm. apply (ensures_rel (same_proj mining_status)); [exact Hm|]. unfold same_proj. by intros w w' ->.
Qed.

Definition idle_status (x : MiningStatus) : Prop := pending_start x = None /\ pending_verify x = None.
Definition single_status (x : MiningStatus) : Prop := pending_start x = None \/ pending_verify x = None.

Lemma start_idle sender :
  ensures (fun w => idle (w_state w)) (data ← build_start_mining_tx; submit data sender) (fun _ w => single (w_state w)).
Proof.
  eapply ensures_bind; [apply (still_ensures idle_status); frames|]. intros data. apply submit_idle.
Qed.

Lemma on_consolidated_single tx_hash :
  ensures (fun w => single (w_state w)) (on_consolidated mining_db depth alive rnd closed tx_hash) (fun _ w => single (w_state w)).
Proof.
  intros w Hw. unfold on_consolidated. rewrite bind_eq. cbn [get_state]. case_bool_decide as Hs; [|case_bool_decide as Hv; [|done]].
  - assert (Hi : idle (set_pending_start None (w_state w))) by (destruct Hw as [Hw|Hw]; [congruence|by split]).
    rewrite bind_eq, modify_eq. set (w1 := upd _ w). assert (H1 : idle (w_state w1)) by done. clearbody w1. clear Hw Hs Hi w. revert w1 H1.
    eapply ensures_try_bind; [apply (still_ensures idle_status); frames| |intros e w; apply idle_single]. intros receipt.
    destruct (msgunpack (X := Challenge) (returns receipt)) as [challenge|]; [|apply ensures_ret; intros w; apply idle_single].
    eapply ensures_try_bind; [apply (still_ensures idle_status); frames| |intros e w; apply idle_single]. intros result.
    eapply ensures_try_bind; [apply (still_ensures idle_status); frames| |intros e w; apply idle_single]. intros data. apply submit_idle.
  - assert (Hi : idle (set_pending_verify None (w_state w))) by (destruct Hw as [Hw|Hw]; [by split|congruence]).
    rewrite bind_eq, modify_eq. set (w1 := upd _ w). assert (H1 : idle (w_state w1)) by done. clearbody w1. clear Hw Hs Hv Hi w. revert w1 H1.
    eapply ensures_try_bind; [apply (still_ensures idle_status); frames| |intros e w; apply idle_single]. intros receipt. apply start_idle.
Qed.

Lemma on_txs_single txs :
  ensures (fun w => single (w_state w)) (on_txs mining_db depth alive rnd closed txs) (fun _ w => single (w_state w)).
Proof.
  induction txs as [|tx txs IH]; cbn [on_txs]; [by apply ensures_ret|].
  eapply ensures_try_bind; [apply on_consolidated_single| |by intros]. intros u. exact IH.
Qed.

(** The input is no command to start. *)
Definition not_start (i : Input) : Prop := match i with InCmd (Start _ _) => False | _ => True end.

Lemma step_single i : not_start i ->
  ensures (fun w => single (w_state w)) (step mining_db depth alive rnd closed i) (fun _ w => single (w_state w)).
Proof.
  intros Hi. destruct i as [evt|cmd]; cbn [step].
  - eapply ensures_bind; [apply (still_ensures single_status); frames|]. intros u. intros w Hw. rewrite bind_eq. cbn [get_state].
    destruct (mining_in_progress _); [|done]. revert w Hw.
    eapply ensures_bind; [apply (still_ensures single_status); frames|]. intros [balance|e]; [|by apply ensures_ret].
    eapply (ensures_bind _ _ (fun _ w => single (w_state w))); [|intros r; by apply ensures_ret].
    intros w Hw. unfold handle_block_evt. rewrite bind_eq. cbn [get_state].
    destruct (bool_decide (pending_start _ = None)) eqn:E1; destruct (bool_decide (pending_verify _ = None)) eqn:E2; cbn [andb].
    + apply bool_decide_eq_true in E1, E2. by apply start_idle.
    + rewrite bind_eq. destruct (be_txs_hashes evt); [by apply on_txs_single|done].
    + rewrite bind_eq. destruct (be_txs_hashes evt); [by apply on_txs_single|done].
    + rewrite bind_eq. destruct (be_txs_hashes evt); [by apply on_txs_single|done].
  - destruct cmd; cbn [handle_cmd]; try done.
    + apply ensures_modify. intros w _. by left.
    + apply ensures_modify. intros w _. by left.
    + apply (still_ensures single_status). frames.
    + apply (still_ensures single_status). frames.
    + apply (still_ensures single_status). frames.
    + apply (still_ensures single_status). frames.
    + eapply (ensures_bind _ _ (fun _ w => single (w_state w))); [|intros r; by apply ensures_ret]. unfold submit_transfer_tx, nonce_now.
      apply (ensures_bind _ _ (fun _ w => single (w_state w))); [by apply ensures_get|]. intros s.
      eapply ensures_bind; [apply (still_ensures single_status); frames|]. intros nonce. by apply submit_single.
    + eapply (ensures_bind _ _ (fun _ w => single (w_state w))); [|intros r; by apply ensures_ret]. unfold submit_unstake_tx, nonce_now.
      apply (ensures_bind _ _ (fun _ w => single (w_state w))); [by apply ensures_get|]. intros s.
      eapply ensures_bind; [apply (still_ensures single_status); frames|]. intros nonce. by apply submit_single.
    + by apply ensures_ret.
    + by apply ensures_ret.
    + by apply ensures_ret.
    + by apply ensures_ret.
    + by apply ensures_ret.
    + by apply ensures_ret.
Qed.

(** C30: from its start, whatever the node answers, the blocks hold and the machine finds, one
    transaction of the cycle at most waits to be in a block, the request for a challenge or its
    proof, as long as nobody sends the command to start. *)
Theorem one_pending join account info hash m kp inputs answers clock r w' :
  Forall not_start inputs ->
  begin mining_db depth alive rnd closed inputs (World (Mk join account default_status info hash m kp) answers clock []) = Ret r w' ->
  single (w_state w').
Proof.
  intros Hin Hr.
  assert (Hrun : ensures (fun w => single (w_state w)) (run mining_db depth alive rnd closed inputs ;; (mret (Ok tt) : tool (Result unit error)))
    (fun _ w => single (w_state w))).
  { eapply (ensures_bind _ _ (fun _ w => single (w_state w))); [|intros u; by apply ensures_ret].
    apply ensures_for_each. intros i Hi. apply step_single. by eapply Forall_forall in Hin. }
  assert (Hb : ensures (fun w => idle (w_state w)) (begin mining_db depth alive rnd closed inputs) (fun _ w => single (w_state w))).
  { unfold begin. eapply ensures_bind; [apply (still_ensures idle_status); frames|]. intros [balance|e].
    - eapply ensures_bind; [apply (still_ensures idle_status); frames|]. intros data.
      eapply ensures_try_bind; [apply submit_idle|intros u; exact Hrun|by intros].
    - eapply ensures_conseq; [exact Hrun|intros w; apply idle_single|done]. }
  specialize (Hb (World (Mk join account default_status info hash m kp) answers clock []) ltac:(by split)). by rewrite Hr in Hb.
Qed.

(** ** The tool and the node *)

(** C31: what the tool waits for is what the node submits.  The node takes the request of the tool it is
    paired with for what the tool signed, signs it, and sends the transaction to its peers and to its pool.
    The hash of that transaction, whatever the node's signature, is the one the tool keeps: as the request
    for a challenge if its method is to start, as the proof if it is to verify, and nowhere for any other
    method; what else the tool keeps pending stays. *)
Theorem submitted_is_pending `{!MsgPack Transaction, !MsgPack bool, !MsgPack string, Hlaws : !RingLaws}
    data sig sender node_rnd node_kp node_sig hash_text node_sender tx_hash rest (s : t) clock out
    (wn : world (option Z) SocketService.effect NodeAnswer) :
  NodeTheorems.loaded (session_key_pair s) -> Keys.sign rnd (session_key_pair s) (msgpack data) = Ok sig ->
  Keys.sign node_rnd node_kp (msgpack (V1 data)) = Ok node_sig ->
  match sender with Some to => alive to = true | None => True end ->
  let request := SubmitTx data sig in
  let tx := UnitTransaction (MkSigned (V1 data) node_sig) in
  SocketService.handle_socket_requests (Some (Keys.public_key (session_key_pair s))) node_kp node_rnd hash_text request node_sender wn =
    Ret (Ok (msgpack (hash_text (get_hash tx))))
      (outs [SocketService.ToNode (Told NP2P (NodeMsg.PropagateTxToPeers tx));
             SocketService.ToNode (InCore (Sent TransactionService (MkComm (KMsg (Msg.AddTx (tx, len (msgpack tx), None))) None)))] wn) /\
  exists s',
    submit data sender (World s (SocketAnswer (Some (ResponseTxSign tx_hash)) :: rest) clock out) =
      Ret (Ok tt) (World s' rest clock
        (out ++ ToSocket (SubmitRequest request) :: match sender with Some to => [Responded to (RText tx_hash)] | None => [] end)) /\
    (v1_method data = "start_mining"%string -> s' = set_pending_start (Some (get_hash tx)) s) /\
    (v1_method data = "verify"%string -> s' = set_pending_verify (Some (get_hash tx)) s) /\
    (v1_method data <> "start_mining"%string -> v1_method data <> "verify"%string -> s' = s).
Proof.
  intros Hk Hs Hn Ha request tx. split.
  - unfold SocketService.handle_socket_requests, request, SocketService.sign_and_submit. rewrite (NodeTheorems.sign_verify rnd _ _ _ Hk Hs). cbn [negb].
    rewrite Hn. destruct wn as [sn a k o]. cbn. unfold mbind, M_bind, SocketService.to_node, zoom, zoom_out, outs. simpl. by rewrite <- app_assoc.
  - exists (pend data s). split; [by apply submit_taken|]. unfold pend.
    split_and!; [by intros ->|by intros ->|intros H1 H2; by rewrite !bool_decide_false].
Qed.

(** A command to start while a proof waits makes a request for a challenge wait beside it: from then on two
    cycles run, and each forgets what the other submits. *)
Lemma start_beside_proof sig id sender tx_hash rest (s : t) clock later out proof :
  alive sender = true ->
  Keys.sign rnd (session_key_pair s) (msgpack (start_data clock s)) = Ok sig ->
  pending_verify (mining_status s) = Some proof ->
  exists w', handle_cmd alive rnd (Start id sender)
      (World s (SocketAnswer (Some (ResponseTxSign tx_hash)) :: rest) (clock, later) out) = Ret tt w' /\
    pending_start (mining_status (w_state w')) = Some (tx_data_hash (V1 (start_data clock s))) /\
    pending_verify (mining_status (w_state w')) = Some proof.
Proof.
  intros Ha Hs Hp. cbn [handle_cmd]. rewrite bind_eq, modify_eq, bind_eq, build_start_eq. unfold tick, upd. cbn [now w_state w_answers w_clock w_out fst snd].
  change (start_data clock (set_in_progress true s)) with (start_data clock s).
  rewrite bind_eq, (submit_taken _ sig (Some sender) tx_hash); [|exact Hs|exact Ha].
  eexists. split; [reflexivity|]. unfold pend. by rewrite bool_decide_true.
Qed.
End theorems.

(** ** A sample *)
Module MiningSample.
#[local] Existing Instances Samples.digest Samples.base58 Samples.ring gmap_iter MemDb.mem_db MemDb.mem_db_laws DatabaseSample.tx_pack
  WmSample.hex WmSample.codecs WmSample.silent.

Definition asked : Challenge := MkChallenge 0 1 2 3.
#[local] Instance codecs : ToolCodecs := {|
  pack_data_v1 := {| msgpack := fun d => v1_nonce d |};
  pack_data := DatabaseSample.tx_pack;
  pack_start_args := {| msgpack := fun n => [n] |};
  pack_mining_args := {| msgpack := fun a => [ma_difficulty a] |};
  pack_verify_args := {| msgpack := fun a => va_proofs a |};
  pack_transfer_args := {| msgpack := fun a => [ta_units a] |};
  pack_withdraw_args := {| msgpack := fun a => [] |};
  unpack_challenge := {| msgunpack := fun l => Some asked |};
  unpack_mining_result := {| msgunpack := fun l => Some l |};
  unpack_u64 := {| msgunpack := fun l => head l |};
  unpack_t_coin := {| msgunpack := fun l => None |};
  from_json_account := {| from_json := fun _ => Some (Account.Mk "me" {[ "TRINCI" := [5000] ]} None None) |};
  from_json_receipt := {| from_json := fun _ => Some (MkReceipt 1 0 10 true [] None) |};
  from_json_players := {| from_json := fun _ => None |};
  from_json_stats := {| from_json := fun _ => None |};
  from_json_u64 := {| from_json := fun _ => None |}
|}.

Definition info : NodeInfo := MkNodeInfo "node" (Some "#Mine") "net" [] DatabaseSample.key 80.
Definition contract : Hash := Samples.hash 5.
Definition machine : WmLocal.t := WmLocal.Mk {[ contract := WmLocal.MkCached (5 : WasmModule) 0 ]} u64_max.
Definition tool_key : Keys.TrinciKeyPair := Samples.keypair "tool".
Definition initial : t := Mk true "%23Mine" default_status info contract machine tool_key.
Definition requested : Hash := tx_data_hash (V1 (start_data 0 initial)).
Definition block : Block := MkBlock (MkBlockData None 1 1 Hashes.default Hashes.default Hashes.default Hashes.default 0) [].

(** The block has the request; the receipt has a challenge, which the contract of the machine solves, and the
    proof is submitted. *)
Definition cycle : list Input := [InBlock (MkBlockEvt block (Some [requested]) None); InCmd (GetReceipt 1 "hash")].
Definition cycle_answers : list answer :=
  [Http (Some []); SocketAnswer (Some (ResponseTxSign "request")); Http None;
   Http (Some []); Http (Some []); SocketAnswer (Some (ResponseTxSign "proof"))].
Definition ran : exec (world t effect answer) (Result unit error) :=
  begin DatabaseSample.db 5 (fun _ => true) 0 [] cycle (World initial cycle_answers (0, []) []).

Definition pending {A} (r : exec (world t effect answer) A) : option (option Hash * option Hash) :=
  match r with
  | Ret _ w => Some (pending_start (mining_status (w_state w)), pending_verify (mining_status (w_state w)))
  | Panic _ => None
  end.

(** The cycle goes from the request, in the block, to its proof. *)
Example ran_cycle : match pending ran with Some (None, Some _) => True | _ => False end.
Proof. vm_compute. exact I. Qed.

Lemma one_pending_witness : match ran with Ret _ w' => single (w_state w') | Panic _ => False end.
Proof.
  assert (Hok : panicked ran = false) by (vm_compute; reflexivity).
  destruct ran as [r w'|w'] eqn:Hr; [|discriminate Hok].
  apply (one_pending DatabaseSample.db 5 (fun _ => true) 0 [] true "%23Mine" info contract machine tool_key cycle cycle_answers (0, []) r w').
  - repeat constructor.
  - exact Hr.
Defined.

#[local] Instance transaction_pack : MsgPack Transaction := {| msgpack := fun d => [1] |}.
#[local] Instance bool_pack : MsgPack bool := {| msgpack := fun b : bool => if b then [195] else [194] |}.
#[local] Instance string_pack : MsgPack string := {| msgpack := fun _ : string => [160] |}.

(** A proof, submitted for a tool that has just asked for a challenge *)
Definition proof_data : TransactionDataV1 :=
  MkV1 "#Mine" BALANCE_THRESHOLD [0] "net" (Some contract) "verify" DatabaseSample.key [1].

Lemma submitted_is_pending_witness :
  exists w', submit_tx (fun _ => true) 0 proof_data (Some 3)
      (World (set_pending_start (Some requested) initial) [SocketAnswer (Some (ResponseTxSign "proof"))] (0, []) []) = Ret (Ok tt) w' /\
    pending_start (mining_status (w_state w')) = Some requested /\
    pending_verify (mining_status (w_state w')) = Some (tx_data_hash (V1 proof_data)).
Proof.
  destruct (submitted_is_pending (Hcodecs := codecs) (Hlaws := NodeTheorems.sample_ring_laws) (fun _ => true) 0 proof_data
    (into_bytes "tool" ++ [0]) (Some 3) 0 (Samples.keypair "a") (into_bytes "a" ++ [0])
    (fun _ => EmptyString) 0 "proof" [] (set_pending_start (Some requested) initial) (0, []) [] (World None [] (0, []) []) I
    ltac:(vm_compute; reflexivity) ltac:(vm_compute; reflexivity) eq_refl) as (_ & s' & H & _ & Hv & _).
  eexists. split; [exact H|]. cbn [w_state]. rewrite (Hv eq_refl). split; reflexivity.
Defined.

Lemma start_beside_proof_witness :
  exists w', handle_cmd (fun _ => true) 0 (Start "id" 1)
      (World (set_pending_verify (Some contract) initial) [SocketAnswer (Some (ResponseTxSign "request"))] (0, []) []) = Ret tt w' /\
    is_Some (pending_start (mining_status (w_state w'))) /\ is_Some (pending_verify (mining_status (w_state w'))).
Proof.
  destruct (start_beside_proof (Hcodecs := codecs) (fun _ => true) 0 (into_bytes "tool" ++ [0; 0; 0; 0; 0; 0; 0; 0]) "id" 1 "request" []
    (set_pending_verify (Some contract) initial) 0 [] [] contract eq_refl
    ltac:(vm_compute; reflexivity) eq_refl) as (w' & H & Hs & Hv).
  exists w'. split; [exact H|]. rewrite Hs, Hv. split; by eexists.
Defined.
End MiningSample.
