(* ===== verification/UpdateService.v ===== *)
(** * The update service of the mining tool ([trinci-mining-tool/src/update_service.rs])

    It keeps what the tool knows of its nodes and of the players in a database of the sled
    crate: the table of all the snapshots of the players, the last of them, and the state of
    every node it is paired with. *)

From stdpp Require Import base gmap strings list fin_maps.
From S2P Require Import Prelude.
From S2P Require Import Exec.
From S2P Require Import Hash.
From S2P Require Import Crypto.
From S2P Require Import CoreModels.
From S2P Require Import DRand.
From S2P Require Import Messages.
From S2P Require Import Utf8.
From S2P Require Import NodeModels.
From S2P Require Import Database.
From S2P Require Import WasmMachine.
From S2P Require Import NodeMessages.
From S2P Require Import SocketService.
From S2P Require Import RestApi.
From S2P Require Import MiningModels.
Open Scope Z_scope.

(** ** The database: a map from keys to values, both bytes, whose operations may fail *)
Class Sled : Type := {
  SledDb : Type;
  sled_get : list Z -> SledDb -> Result (option (list Z)) string;
  sled_insert : list Z -> list Z -> SledDb -> Result SledDb string;
  sled_scan_prefix : list Z -> SledDb -> list (Result (list Z * list Z) string)
}.

(** What was inserted is read; the other keys are as they were. *)
Class SledLaws `{Sled} : Prop := {
  sled_get_inserted k v d d' : sled_insert k v d = Ok d' -> sled_get k d' = Ok (Some v);
  sled_get_other k k' v d d' : sled_insert k v d = Ok d' -> k' <> k -> sled_get k' d' = sled_get k' d
}.

Class UpdateCodecs : Type := {
  pack_snapshots :: MsgPack (list PlayerSnapshot);
  unpack_snapshots :: MsgUnpack (list PlayerSnapshot);
  pack_player_info :: MsgPack PlayerInfo;
  unpack_player_info :: MsgUnpack PlayerInfo
}.

(** What is written is read. *)
Class UpdateCodecsLaws `{UpdateCodecs} : Prop := {
  snapshots_roundtrip (l : list PlayerSnapshot) : msgunpack (msgpack l) = Some l;
  player_info_roundtrip (i : PlayerInfo) : msgunpack (msgpack i) = Some i
}.

Module UpdateService.
Section service.
Context `{Hsled : Sled} `{Hcodecs : UpdateCodecs}.
(** The channels that still have a receiver, the frontend's among them *)
Context (alive : Chan -> bool) (frontend_alive : bool).

Definition PLAYERS : string := "players".
Definition LAST : string := "players_last".
Definition HANDLED : string := "players_handled".
Definition OWNER : string := "owner".

Inductive Update : Type :=
| UpdateNodeState (update : NodeStateUpdate)
| MTUpdate (stats : SystemStats).

Inductive answered : Type :=
| AOwner (owner : option (list Z))
| APrevious (nodes : option (list NodeInterface))
| ARefresh (players : list PlayerSnapshot) (players_handled : list (string * PlayerInfo)).

Inductive effect : Type :=
| ToFrontend (update : Update)
| Answer (to : Chan) (a : answered)
| Cancelled.

Inductive error : Type := UpdateError.
Record t : Type := Mk { db : SledDb }.
Abbreviation h := (M t effect unit).
Abbreviation try A := (Result A error).

Definition default_networking : NodeNetworking := MkNetworking "" "" 0 0.
Definition default_resource : ResourceInfo := MkResourceInfo 0 0 "".
Definition default_health : NodeHealth := MkHealth 0 (MkSystemStats default_resource default_resource default_resource) 0 0.

(** ** The database *)
(** [if let Ok(Some(buf)) = self.db.get(key)]: what cannot be read is as if it were not there. *)
Definition read (key : string) : h (option (list Z)) :=
  gets (fun s => match sled_get (into_bytes key) (db s) with Ok (Some buf) => Some buf | _ => None end).
Definition insert (key : string) (value : list Z) : h (try unit) :=
  s ← get_state;
  match sled_insert (into_bytes key) value (db s) with
  | Ok d => modify (fun _ => Mk d) ;; mret (Ok tt)
  | Err _ => mret (Err UpdateError)
  end.
Definition unpack {X} `{!MsgUnpack X} (buf : list Z) : h (try X) :=
  mret (match msgunpack buf with Some x => Ok x | None => Err UpdateError end).
Definition send (to : Chan) (a : answered) : h (try unit) :=
  if alive to then emit (Answer to a) ;; mret (Ok tt) else mret (Err UpdateError).

Definition player_key (account_id : string) : string := (HANDLED ++ ":" ++ account_id)%string.

(** The entries under a prefix; [flatten] leaves those that cannot be read. *)
Definition scan_handled : h (list (list Z * list Z)) :=
  gets (fun s => omap (fun e => match e with Ok e => Some e | Err _ => None end)
                   (sled_scan_prefix (into_bytes (HANDLED ++ ":")) (db s))).

(** The nodes of the entries: [split_off] leaves the id. *)
Fixpoint players_handled (entries : list (list Z * list Z)) : h (try (list (string * PlayerInfo))) :=
  match entries with
  | [] => mret (Ok [])
  | (key_bytes, buf) :: entries =>
      match Utf8.from_utf8 key_bytes with
      | Err _ => mret (Err UpdateError)
      | Ok key =>
          let account_id := String.substring (String.length (HANDLED ++ ":")) (String.length key) key in
          player_info <-? unpack (X := PlayerInfo) buf;
          rest <-? players_handled entries;
          mret (Ok ((account_id, player_info) :: rest))
      end
  end.

(** ** Commands *)
Fixpoint new_nodes (nodes : list (string * NodeNetworking)) : h (try unit) :=
  match nodes with
  | [] => mret (Ok tt)
  | (account_id, node_nw_info) :: nodes =>
      last_time ← timestamp;
      let health := MkHealth last_time (system_stats default_health) 0 0 in
      _ <-? insert (player_key account_id) (msgpack (MkPlayerInfo node_nw_info (MkPoPStatus [] [] []) health true));
      new_nodes nodes
  end.

Definition set_status (account_id : string) (status : bool) : h (try unit) :=
  buf ← read (player_key account_id);
  match buf with
  | None => mret (Ok tt)
  | Some buf =>
      player <-? unpack (X := PlayerInfo) buf;
      insert (player_key account_id) (msgpack (MkPlayerInfo (connection player) (stats player) (health player) status))
  end.

Definition handle_cmd (cmd : Cmd) : h (try unit) :=
  match cmd with
  | GetOwner response_chan =>
      s ← get_state;
      match sled_get (into_bytes OWNER) (db s) with
      | Err _ => mret (Err UpdateError)
      | Ok owner => send response_chan (AOwner owner)
      end
  | GetPreviousExecution res_chan =>
      entries ← scan_handled;
      handled <-? players_handled entries;
      let interface '(account_id, info) :=
        MkInterface account_id (nw_ip (connection info)) (nw_rest (connection info)) (nw_socket (connection info)) in
      send res_chan (APrevious (match handled with [] => None | _ => Some (map interface handled) end))
  | NewNodeFromDiscovery nodes => new_nodes nodes
  | Refresh res_chan =>
      buf ← read LAST;
      match buf with
      | None => mret (Ok tt)
      | Some buf =>
          players <-? unpack (X := list PlayerSnapshot) buf;
          entries ← scan_handled;
          handled <-? players_handled entries;
          send res_chan (ARefresh players handled)
      end
  | SetOwner owner_public_key => insert OWNER owner_public_key
  | Start id _ => set_status id true
  | CmdStop account_id => set_status account_id false
  | _ => mret (Ok tt)
  end.

(** ** Updates *)
Definition snapshots (update : NodeStateUpdate) : list PlayerSnapshot :=
  map (fun player => MkSnapshot (account_id player) (units_in_stake player) (last_time (health_update update))
                       (h_block_height (health_update update)))
    (players_update update).

(** The height of a snapshot of the players, that of the first of them *)
Definition snapshot_height (last : list PlayerSnapshot) : Z :=
  match last with player :: _ => ps_block_height player | [] => 0 end.

Definition update_players (update : NodeStateUpdate) : h (try unit) :=
  let new_players_snapshot := snapshots update in
  last ← read LAST;
  match last with
  | Some buf =>
      last_players_snapshot <-? unpack (X := list PlayerSnapshot) buf;
      if snapshot_height last_players_snapshot <=? h_block_height (health_update update) then
        _ <-? insert LAST (msgpack new_players_snapshot);
        table ← read PLAYERS;
        match table with
        | Some buf =>
            players_table <-? unpack (X := list PlayerSnapshot) buf;
            insert PLAYERS (msgpack (players_table ++ new_players_snapshot))
        | None => insert PLAYERS (msgpack new_players_snapshot)
        end
      else mret (Ok tt)
  | None =>
      _ <-? insert PLAYERS (msgpack new_players_snapshot);
      insert LAST (msgpack new_players_snapshot)
  end.

Definition push_update (update : NodeStateUpdate) (info : PlayerInfo) : PlayerInfo :=
  let s := stats info in
  let u := pop_update update in
  MkPlayerInfo (connection info)
    (MkPoPStatus (st_bitbel s ++ [bitbel u]) (st_tcoin s ++ [tcoin u]) (st_life_points s ++ [life_points u]))
    (health_update update) (status info).

Definition update_handled (update : NodeStateUpdate) : h (try unit) :=
  let key := player_key (u_account_id update) in
  buf ← read key;
  match buf with
  | Some buf =>
      player_info <-? unpack (X := PlayerInfo) buf;
      insert key (msgpack (push_update update player_info))
  | None => mret (Ok tt)
  end.

Definition update_db (update : NodeStateUpdate) : h (try unit) :=
  if h_block_height (health_update update) mod 1000 =? 0 then
    _ <-? update_players update;
    update_handled update
  else mret (Ok tt).

(** ** The loop *)
Inductive Input : Type :=
| InCmd (cmd : option Cmd)
| InUpdate (update : option NodeStateUpdate).

(** Whether the loop goes on; when it does not, the whole tool is cancelled. *)
Definition step (i : Input) : h bool :=
  let cancel := emit Cancelled ;; mret false in
  match i with
  | InCmd (Some cmd) => _ ← handle_cmd cmd; mret true
  | InUpdate (Some update) =>
      r ← update_db update;
      match r with
      | Err _ => cancel
      | Ok _ => if frontend_alive then emit (ToFrontend (UpdateNodeState update)) ;; mret true else cancel
      end
  | InCmd None | InUpdate None => cancel
  end.

(** The inputs until the loop ends; whether it still runs *)
Fixpoint run (inputs : list Input) : h bool :=
  match inputs with
  | [] => mret true
  | i :: inputs => goes_on ← step i; if goes_on : bool then run inputs else mret false
  end.

(** Every two seconds the frontend is told of the resources of the host. *)
Fixpoint send_system_stats (readings : list SystemStats) : h unit :=
  match readings with
  | [] => mret tt
  | stats :: readings =>
      if frontend_alive then emit (ToFrontend (MTUpdate stats)) ;; send_system_stats readings else emit Cancelled
  end.
End service.
End UpdateService.
