(* ===== verification/UpdateTheorems.v ===== *)
(** * The tables of the players

    The update service appends to the table of the players what the nodes it is paired with tell
    it: the table is in the order of the blocks and ends with the last snapshot, and what
    several nodes tell of the same block is in it several times. *)

From stdpp Require Import base gmap strings list fin_maps sorting.
From S2P Require Import Prelude.
From S2P Require Import Exec.
From S2P Require Import Hash.
From S2P Require Import Crypto.
From S2P Require Import CoreModels.
From S2P Require Import DRand.
From S2P Require Import NodeModels.
From S2P Require Import Database.
From S2P Require Import WasmMachine.
From S2P Require Import NodeMessages.
From S2P Require Import SocketService.
From S2P Require Import RestApi.
From S2P Require Import MiningModels.
From S2P Require Import UpdateService.
Open Scope Z_scope.
Import UpdateService.

Section theorems.
Context `{Hsled : Sled} `{Hsl : !SledLaws} `{Hcodecs : UpdateCodecs} `{Hcl : !UpdateCodecsLaws}.
Context (alive : Chan -> bool) (frontend_alive : bool).
Abbreviation tool A := (M t effect unit A).
Abbreviation tool_world := (world t effect unit).
Implicit Types w : tool_world.

(** ** The tables *)

(** What is read of the two tables *)
Definition read_tables (s : t) : Result (option (list Z)) string * Result (option (list Z)) string :=
  (sled_get (into_bytes PLAYERS) (db s), sled_get (into_bytes LAST) (db s)).
(** The tables are there, with these snapshots. *)
Definition tables (table last : list PlayerSnapshot) (s : t) : Prop :=
  read_tables s = (Ok (Some (msgpack table)), Ok (Some (msgpack last))).
(** The last snapshot cannot be read: the next one starts the tables. *)
Definition fresh (s : t) : Prop := match snd (read_tables s) with Ok (Some _) => False | _ => True end.

Definition not_table (key : string) : Prop := into_bytes PLAYERS <> into_bytes key /\ into_bytes LAST <> into_bytes key.

Lemma player_key_not_table id : not_table (player_key id).
Proof. split; intros H; discriminate H. Qed.
Lemma owner_not_table : not_table OWNER.
Proof. split; intros H; discriminate H. Qed.

Lemma insert_other key v : not_table key -> rel (same_proj read_tables) (insert key v : tool _).
Proof.
  intros [H1 H2] w. unfold insert. rewrite bind_eq. cbn [get_state]. destruct (sled_insert _ _ _) as [d|e] eqn:Hi; [|done].
  rewrite bind_eq, modify_eq. unfold same_proj, read_tables. cbn. by rewrite !(sled_get_other _ _ _ _ _ Hi).
Qed.
#[local] Hint Resolve insert_other player_key_not_table owner_not_table : frames.
Lemma read_same {X} (f : t -> X) key : rel (same_proj f) (read key : tool _).
Proof. unfold read. frames. Qed.
Lemma unpack_same {X Y} (f : t -> X) `{!MsgUnpack Y} buf : rel (same_proj f) (unpack (X := Y) buf : tool _).
Proof. unfold unpack. frames. Qed.
Lemma send_same {X} (f : t -> X) to a : rel (same_proj f) (send alive to a : tool _).
Proof. unfold send. frames. Qed.
Lemma scan_same {X} (f : t -> X) : rel (same_proj f) (scan_handled : tool _).
Proof. unfold scan_handled. frames. Qed.
#[local] Hint Resolve read_same unpack_same send_same scan_same : frames.
Lemma handled_same {X} (f : t -> X) entries : rel (same_proj f) (players_handled entries : tool _).
Proof. induction entries as [|[k v] entries IH]; cbn [players_handled]; frames. Qed.
Lemma new_nodes_same nodes : rel (same_proj read_tables) (new_nodes nodes : tool _).
Proof. induction nodes as [|[id nw] nodes IH]; cbn [new_nodes]; frames. Qed.
Lemma set_status_same id b : rel (same_proj read_tables) (set_status id b : tool _).
Proof. unfold set_status. frames. Qed.
#[local] Hint Resolve handled_same new_nodes_same set_status_same : frames.

Lemma handle_cmd_same cmd : rel (same_proj read_tables) (handle_cmd alive cmd : tool _).
Proof. unfold handle_cmd. destruct cmd; frames. Qed.
Lemma update_handled_same u : rel (same_proj read_tables) (update_handled u : tool _).
Proof. unfold update_handled. frames. Qed.

Lemma insert_ok key v w w' : insert key v w = Ret (Ok tt) w' ->
  sled_get (into_bytes key) (db (w_state w')) = Ok (Some v) /\
  (forall key', into_bytes key' <> into_bytes key ->
     sled_get (into_bytes key') (db (w_state w')) = sled_get (into_bytes key') (db (w_state w))) /\ w_out w' = w_out w.
Proof.
  unfold insert. rewrite bind_eq. cbn [get_state]. destruct (sled_insert _ _ _) as [d|e] eqn:Hi; [|done].
  rewrite bind_eq, modify_eq. intros [= <-]. cbn. split; [by eapply sled_get_inserted|]. split; [|done].
  intros key' Hk. by eapply sled_get_other.
Qed.

(** ** An update *)
Definition height (u : NodeStateUpdate) : Z := h_block_height (health_update u).

Lemma update_players_fresh u w w' :
  fresh (w_state w) -> update_players u w = Ret (Ok tt) w' -> tables (snapshots u) (snapshots u) (w_state w').
Proof.
  intros Hf. unfold update_players. rewrite bind_eq. unfold read. cbn [gets]. unfold fresh, read_tables in Hf. cbn [snd] in Hf.
  assert (Hn : match sled_get (into_bytes LAST) (db (w_state w)) with Ok (Some buf) => Some buf | _ => None end = None)
    by (by destruct (sled_get (into_bytes LAST) (db (w_state w))) as [[buf|]|]).
  rewrite Hn. unfold try_bind. rewrite bind_eq. destruct (insert PLAYERS _ w) as [[[]|e] w1|w1] eqn:H1; [|done..]. intros H2.
  apply insert_ok in H1 as (H1 & _ & _). apply insert_ok in H2 as (H2 & Ho & _). unfold tables, read_tables.
  rewrite H2, Ho by (intros H; discriminate H). by rewrite H1.
Qed.

Lemma read_eq key v w : sled_get (into_bytes key) (db (w_state w)) = Ok (Some v) -> read key w = Ret (Some v) w.
Proof. intros H. unfold read, gets. by rewrite H. Qed.
Lemma unpack_eq {X} `{!MsgPack X, !MsgUnpack X} (x : X) w : msgunpack (msgpack x) = Some x -> unpack (msgpack x) w = Ret (Ok x) w.
Proof. intros H. unfold unpack. by rewrite H. Qed.

Lemma update_players_next table last u w w' :
  tables table last (w_state w) -> update_players u w = Ret (Ok tt) w' ->
  if snapshot_height last <=? height u then tables (table ++ snapshots u) (snapshots u) (w_state w')
  else read_tables (w_state w') = read_tables (w_state w).
Proof.
  intros [= Hp Hl]. unfold update_players, try_bind. rewrite bind_eq, (read_eq _ _ _ Hl). cbv beta iota.
  rewrite bind_eq, (unpack_eq _ _ (snapshots_roundtrip last)). fold (height u).
  destruct (_ <=? _); [|by intros [= <-]].
  rewrite bind_eq. destruct (insert LAST _ w) as [[[]|e] w1|w1] eqn:H1; [|done..].
  apply insert_ok in H1 as (H1 & Ho1 & _).
  rewrite <- (Ho1 PLAYERS) in Hp by (intros H; discriminate H).
  rewrite bind_eq, (read_eq _ _ _ Hp). cbv beta iota. rewrite bind_eq, (unpack_eq _ _ (snapshots_roundtrip table)).
  intros H2. apply insert_ok in H2 as (H2 & Ho2 & _). unfold tables, read_tables.
  rewrite H2, (Ho2 LAST) by (intros H; discriminate H). by rewrite H1.
Qed.

Lemma update_db_tables u w w' : update_db u w = Ret (Ok tt) w' ->
  if height u mod 1000 =? 0 then exists w1, update_players u w = Ret (Ok tt) w1 /\ read_tables (w_state w') = read_tables (w_state w1)
  else w' = w.
Proof.
  unfold update_db. fold (height u). destruct (_ =? 0); [|by intros [= <-]]. unfold try_bind. rewrite bind_eq.
  destruct (update_players u w) as [[[]|e] w1|w1]; [|done..]. intros H. exists w1. split; [done|].
  pose proof (update_handled_same u w1) as Hs. by rewrite H in Hs.
Qed.

(** A node that is found again, as every node is when the tool starts again, loses its history. *)
Lemma rediscovery_forgets id nw w w' :
  new_nodes [(id, nw)] w = Ret (Ok tt) w' ->
  sled_get (into_bytes (player_key id)) (db (w_state w')) =
    Ok (Some (msgpack (MkPlayerInfo nw (MkPoPStatus [] [] []) (MkHealth (now w) (system_stats default_health) 0 0) true))).
Proof.
  cbn [new_nodes]. rewrite bind_eq, timestamp_eq. unfold try_bind. rewrite bind_eq.
  destruct (insert (player_key id) _ (tick w)) as [[[]|e] w1|w1] eqn:Hi; [|done..]. intros [= <-]. exact (proj1 (insert_ok _ _ _ _ Hi)).
Qed.

(** ** The order of the table *)
Definition heights (l : list PlayerSnapshot) : list Z := map ps_block_height l.
Definition chronological (table last : list PlayerSnapshot) : Prop :=
  (exists before, table = before ++ last) /\ StronglySorted Z.le (heights table) /\
  Forall (fun n => n mod 1000 = 0 /\ n <= snapshot_height last) (heights table).

(** An update that names no player is of the block 0, as the one of a node that was just found. *)
Definition sound (u : NodeStateUpdate) : Prop := players_update u = [] -> height u = 0.

Definition good (s : t) : Prop := fresh s \/ exists table last, tables table last s /\ chronological table last.

Lemma good_same s s' : read_tables s' = read_tables s -> good s -> good s'.
Proof. unfold good, fresh, tables. by intros ->. Qed.

Lemma snapshots_heights u : Forall (fun n => n = height u) (heights (snapshots u)).
Proof. unfold heights, snapshots. rewrite List.map_map. apply List.Forall_map. by apply List.Forall_forall. Qed.

Lemma snapshots_height u : sound u -> snapshot_height (snapshots u) = height u.
Proof. intros Hs. unfold snapshots. destruct (players_update u) as [|p l] eqn:E; [|done]. symmetry. by apply Hs. Qed.

Lemma constant_sorted n l : Forall (fun m => m = n) l -> StronglySorted Z.le l.
Proof.
  induction 1 as [|m l Hm Hl IH]; constructor; [exact IH|]. eapply Forall_impl; [exact Hl|]. simpl. lia.
Qed.

Lemma sorted_app (l k : list Z) n :
  StronglySorted Z.le l -> StronglySorted Z.le k -> Forall (fun m => m <= n) l -> Forall (fun m => n <= m) k ->
  StronglySorted Z.le (l ++ k).
Proof.
  intros Hl Hk Hln Hkn. induction Hl as [|x l Hl IH Hx]; [exact Hk|]. inversion_clear Hln. simpl. constructor; [by apply IH|].
  apply Forall_app. split; [exact Hx|]. eapply Forall_impl; [exact Hkn|]. simpl. lia.
Qed.

Lemma first_chronological u : sound u -> height u mod 1000 = 0 -> chronological (snapshots u) (snapshots u).
Proof.
  intros Hs Hm. split; [by exists []|]. split; [eapply constant_sorted, snapshots_heights|].
  rewrite snapshots_height by done. eapply Forall_impl; [apply snapshots_heights|]. simpl. intros n ->. split; [exact Hm|lia].
Qed.

Lemma next_chronological table last u :
  sound u -> height u mod 1000 = 0 -> snapshot_height last <= height u -> chronological table last ->
  chronological (table ++ snapshots u) (snapshots u).
Proof.
  intros Hs Hm Hh (_ & Hsort & Hall). split; [by exists table|]. unfold heights in *. rewrite List.map_app. split.
  - apply (sorted_app _ _ (height u)); [exact Hsort|eapply constant_sorted, snapshots_heights| |].
    + eapply Forall_impl; [exact Hall|]. simpl. lia.
    + eapply Forall_impl; [apply snapshots_heights|]. simpl. lia.
  - rewrite snapshots_height by done. apply Forall_app. split.
    + eapply Forall_impl; [exact Hall|]. simpl. lia.
    + eapply Forall_impl; [apply snapshots_heights|]. simpl. intros n ->. split; [exact Hm|lia].
Qed.

Lemma update_db_good u w w' : sound u -> good (w_state w) -> update_db u w = Ret (Ok tt) w' -> good (w_state w').
Proof.
  intros Hs Hg H. apply update_db_tables in H. destruct (Z.eqb_spec (height u mod 1000) 0) as [Hm|Hm]; [|by subst].
  destruct H as (w1 & H & Ht). apply (good_same (w_state w1)); [exact Ht|]. destruct Hg as [Hf|(table & last & Hl & Hc)].
  - right. exists (snapshots u), (snapshots u). split; [by eapply update_players_fresh|by apply first_chronological].
  - apply (update_players_next table last) in H; [|exact Hl]. destruct (Z.leb_spec (snapshot_height last) (height u)) as [Hh|Hh].
    + right. exists (table ++ snapshots u), (snapshots u). split; [exact H|by eapply next_chronological].
    + apply (good_same (w_state w)); [exact H|]. right. by exists table, last.
Qed.

Definition sound_input (i : Input) : Prop := match i with InUpdate (Some u) => sound u | _ => True end.

Lemma step_good i w w' : sound_input i -> good (w_state w) -> step alive frontend_alive i w = Ret true w' -> good (w_state w').
Proof.
  intros Hi Hg. destruct i as [[cmd|]|[u|]]; cbn [step]; rewrite bind_eq; [|done| |done].
  - pose proof (handle_cmd_same cmd w) as Hs. destruct (handle_cmd alive cmd w) as [r w1|w1]; [|done]. intros [= <-]. by eapply good_same.
  - destruct (update_db u w) as [[[]|e] w1|w1] eqn:Hu; [|done..]. destruct frontend_alive; [|done]. intros [= <-].
    by eapply (update_db_good u w w1).
Qed.

(** C32: while the service runs, from a database with no readable tables or with good ones, whatever the
    commands and the updates, as long as an update that names no player is of the block 0, the table of
    the players ends with the last snapshot, its heights are in order, are multiples of a thousand and not
    above that of the last snapshot. *)
Theorem players_chronological inputs w w' :
  Forall sound_input inputs -> good (w_state w) -> run alive frontend_alive inputs w = Ret true w' -> good (w_state w').
Proof.
  intros Hin. revert w. induction Hin as [|i inputs Hi Hin IH]; intros w Hg; cbn [run]; [by intros [= <-]|].
  rewrite bind_eq. destruct (step alive frontend_alive i w) as [[] w1|w1] eqn:Hs; [|done..]. apply IH. by eapply step_good.
Qed.

(** What several nodes tell of the same block is appended once for each of them, although the
    service means to drop what it has already: the table grows by the snapshots of all. *)
Theorem same_block_duplicated us n table last w w' :
  n mod 1000 = 0 -> snapshot_height last <= n -> Forall (fun u => height u = n /\ players_update u <> []) us ->
  tables table last (w_state w) ->
  run alive true (map (fun u => InUpdate (Some u)) us) w = Ret true w' ->
  exists last', tables (table ++ concat (map snapshots us)) last' (w_state w').
Proof.
  intros Hm. revert table last w. induction us as [|u us IH]; intros table last w Hl Hus Ht; cbn [map run].
  - intros [= <-]. exists last. cbn [concat]. by rewrite app_nil_r.
  - inversion_clear Hus as [|? ? [Hu Hne] Hus']. rewrite bind_eq. cbn [step]. rewrite bind_eq.
    destruct (update_db u w) as [[[]|e] w1|w1] eqn:H1; [|done..]. rewrite bind_eq. cbn [emit].
    apply update_db_tables in H1. rewrite Hu, (proj2 (Z.eqb_eq _ _) Hm) in H1. destruct H1 as (w2 & H2 & Hs).
    apply (update_players_next table last) in H2; [|exact Ht]. rewrite Hu, (proj2 (Z.leb_le _ _) Hl) in H2.
    cbn [concat map]. rewrite app_assoc. apply (IH _ (snapshots u)); [|exact Hus'|].
    + rewrite snapshots_height, Hu; [lia|by intros H0].
    + unfold tables in *. cbn [w_state]. by rewrite Hs.
Qed.
End theorems.

(** ** A sample *)
Module UpdateSample.
#[local] Instance sled : Sled := {|
  SledDb := list (list Z * list Z);
  sled_get := fun k d => Ok (snd <$> find (fun e => bool_decide (fst e = k)) d);
  sled_insert := fun k v d => Ok ((k, v) :: d);
  sled_scan_prefix := fun p d => []
|}.
#[local] Instance sled_laws : SledLaws.
Proof.
  split; simpl.
  - intros k v d d' [= <-]. simpl. by rewrite bool_decide_true.
  - intros k k' v d d' [= <-] Hk. simpl. by rewrite bool_decide_false.
Qed.

#[local] Instance snapshot_eq : EqDecision PlayerSnapshot.
Proof. solve_decision. Defined.
#[local] Instance snapshot_countable : Countable PlayerSnapshot := inj_countable'
  (fun p => (ps_account_id p, ps_t_coin p, ps_time p, ps_block_height p)) (fun '(a, b, c, d) => MkSnapshot a b c d) ltac:(by intros []).
#[local] Instance networking_eq : EqDecision NodeNetworking.
Proof. solve_decision. Defined.
#[local] Instance networking_countable : Countable NodeNetworking := inj_countable'
  (fun p => (nw_ip p, nw_network p, nw_rest p, nw_socket p)) (fun '(a, b, c, d) => MkNetworking a b c d) ltac:(by intros []).
#[local] Instance bitbel_eq : EqDecision BitbelSnapshot.
Proof. solve_decision. Defined.
#[local] Instance bitbel_countable : Countable BitbelSnapshot := inj_countable'
  (fun p => (bs_time p, bs_units p)) (fun '(a, b) => MkBitbel a b) ltac:(by intros []).
#[local] Instance tcoin_eq : EqDecision TCoinSnapshot.
Proof. solve_decision. Defined.
#[local] Instance tcoin_countable : Countable TCoinSnapshot := inj_countable'
  (fun p => (tc_time p, tc_units_in_stake p, tc_total p)) (fun '(a, b, c) => MkTCoin a b c) ltac:(by intros []).
#[local] Instance life_eq : EqDecision LifeCoinSnapshot.
Proof. solve_decision. Defined.
#[local] Instance life_countable : Countable LifeCoinSnapshot := inj_countable'
  (fun p => (lc_time p, lc_units p, lc_total p)) (fun '(a, b, c) => MkLife a b c) ltac:(by intros []).
#[local] Instance resource_eq : EqDecision ResourceInfo.
Proof. solve_decision. Defined.
#[local] Instance resource_countable : Countable ResourceInfo := inj_countable'
  (fun p => (used p, total p, measure p)) (fun '(a, b, c) => MkResourceInfo a b c) ltac:(by intros []).
#[local] Instance system_eq : EqDecision SystemStats.
Proof. solve_decision. Defined.
#[local] Instance system_countable : Countable SystemStats := inj_countable'
  (fun p => (cpus_usage p, disk_usage p, mem_usage p)) (fun '(a, b, c) => MkSystemStats a b c) ltac:(by intros []).
#[local] Instance health_eq : EqDecision NodeHealth.
Proof. solve_decision. Defined.
#[local] Instance health_countable : Countable NodeHealth := inj_countable'
  (fun p => (last_time p, system_stats p, unconfirmed_pool_len p, h_block_height p)) (fun '(a, b, c, d) => MkHealth a b c d) ltac:(by intros []).
#[local] Instance pop_eq : EqDecision PoPStatus.
Proof. solve_decision. Defined.
#[local] Instance pop_countable : Countable PoPStatus := inj_countable'
  (fun p => (st_bitbel p, st_tcoin p, st_life_points p)) (fun '(a, b, c) => MkPoPStatus a b c) ltac:(by intros []).
#[local] Instance info_eq : EqDecision PlayerInfo.
Proof. solve_decision. Defined.
#[local] Instance info_countable : Countable PlayerInfo := inj_countable'
  (fun p => (connection p, stats p, health p, status p)) (fun '(a, b, c, d) => MkPlayerInfo a b c d) ltac:(by intros []).

(** One number for a value *)
Definition write `{Countable A} (x : A) : list Z := [Z.pos (encode x)].
Definition read `{Countable A} (l : list Z) : option A := match l with [Z.pos p] => decode p | _ => None end.
#[local] Instance codecs : UpdateCodecs := {|
  pack_snapshots := {| msgpack := write |};
  unpack_snapshots := {| msgunpack := read |};
  pack_player_info := {| msgpack := write |};
  unpack_player_info := {| msgunpack := read |}
|}.
#[local] Instance codecs_laws : UpdateCodecsLaws.
Proof. split; intros x; simpl; apply decode_encode. Qed.

Definition no_resource : ResourceInfo := MkResourceInfo 0 0 "".
Definition told (id : string) (n : Z) (players : list Player) : NodeStateUpdate :=
  MkUpdate id (MkPoPUpdate (MkBitbel 0 0) (MkTCoin 0 0 0) (MkLife 0 0 0))
    (MkHealth 0 (MkSystemStats no_resource no_resource no_resource) 0 n) players.
Definition one : list Player := [MkPlayer "p" 1 3].
(** A node is found, and told of; it and another tell of the block 1000. *)
Definition start : list Input :=
  [InCmd (Some (NewNodeFromDiscovery [("a", MkNetworking "ip" "net" 1 2)]%string)); InUpdate (Some (told "a" 0 []));
   InUpdate (Some (told "a" 1000 one))].
Definition empty : world t effect unit := World (Mk []) [] (0, []) [].
Definition started : exec (world t effect unit) bool := run (fun _ => true) true start empty.
Definition last_of (n : Z) : list PlayerSnapshot := snapshots (told "a" n one).

Lemma players_chronological_witness :
  exists w', started = Ret true w' /\ good (w_state w').
Proof.
  assert (Hok : match started with Ret b _ => b | Panic _ => false end = true) by (vm_compute; reflexivity).
  destruct started as [[] w'|w'] eqn:Hr; [|discriminate Hok|discriminate Hok].
  exists w'. split; [reflexivity|].
  apply (players_chronological (fun _ => true) true start empty w').
  - repeat constructor; discriminate.
  - left. exact I.
  - exact Hr.
Defined.

(** An update of a later block that names no player leaves nothing to compare the next with: an update of an
    earlier block is taken, after a later one. *)
Lemma empty_update_disorders : match run (fun _ => true) true [InUpdate (Some (told "a" 3000 one)); InUpdate (Some (told "a" 4000 []));
    InUpdate (Some (told "a" 2000 one))] (exec_world started) with
  | Ret true w => tables [MkSnapshot "p" 1 0 1000; MkSnapshot "p" 1 0 3000; MkSnapshot "p" 1 0 2000] [MkSnapshot "p" 1 0 2000] (w_state w)
  | _ => False
  end.
Proof. vm_compute. reflexivity. Qed.

Lemma same_block_duplicated_witness :
  exists w last', run (fun _ => true) true [InUpdate (Some (told "a" 1000 one)); InUpdate (Some (told "b" 1000 one))]
      (exec_world started) = Ret true w /\
    tables ([MkSnapshot "p" 1 0 1000] ++ [MkSnapshot "p" 1 0 1000; MkSnapshot "p" 1 0 1000]) last' (w_state w).
Proof.
  assert (Ht : tables (last_of 1000) (last_of 1000) (w_state (exec_world started))) by (vm_compute; reflexivity).
  set (w0 := exec_world started) in *.
  assert (Hok : match run (fun _ => true) true (map (fun u => InUpdate (Some u)) [told "a" 1000 one; told "b" 1000 one]) w0 with
                | Ret b _ => b | Panic _ => false end = true) by (vm_compute; reflexivity).
  destruct (run (fun _ => true) true (map _ _) w0) as [[] w|w] eqn:Hr; [|discriminate Hok|discriminate Hok].
  destruct (same_block_duplicated (fun _ => true) [told "a" 1000 one; told "b" 1000 one] 1000 (last_of 1000) (last_of 1000) w0 w) as (last' & H).
  - reflexivity.
  - discriminate.
  - repeat constructor; discriminate.
  - exact Ht.
  - exact Hr.
  - exists w, last'. split; [exact Hr|exact H].
Defined.
End UpdateSample.
