(* ===== verification/ToolSocket.v ===== *)
(** * The socket service of the mining tool ([trinci-mining-tool/src/socket_service.rs])

    It holds the connection to a node: it writes the requests of the mining service, gives it
    the blocks the node tells of, and gives what the node answers to the channel of the last
    request. *)

From stdpp Require Import base gmap strings list fin_maps.
From S2P Require Import Prelude.
From S2P Require Import Exec.
From S2P Require Import Hash.
From S2P Require Import Crypto.
From S2P Require Import CoreModels.
From S2P Require Import DRand.
From S2P Require Import Messages.
From S2P Require Import NodeModels.
From S2P Require Import WasmMachine.
From S2P Require Import NodeMessages.
From S2P Require Import EventService.
From S2P Require Import SocketService.
From S2P Require Import SocketTheorems.
From S2P Require Import MiningModels.
Open Scope Z_scope.

Class SocketCodecs : Type := {
  pack_request :: MsgPack SocketRequest;
  unpack_request :: MsgUnpack SocketRequest;
  unpack_outcome :: MsgUnpack bool;
  unpack_tcp :: MsgUnpack TcpMsg
}.

Module ToolSocket.
Section service.
Context `{Hcodecs : SocketCodecs}.
(** How many bytes a vectored write puts on the stream, if the stream is open; the channels that still have
    a receiver, and whether that of the blocks has *)
Context (writes : list Z -> option Z) (alive : Chan -> bool) (blocks_alive : bool).

Inductive effect : Type :=
| Written (bytes : list Z)
| BlockTold (evt : BlockEvt)
| Answered (to : Chan) (msg : TcpMsg)
| Cancelled.
Inductive error : Type := SocketError.

Record t : Type := Mk { request_response_channel : option Chan }.
Abbreviation h := (M t effect unit).
Abbreviation try A := (Result A error).

Definition write (request : SocketRequest) : h (try unit) :=
  match writes (msgpack request) with
  | Some n => emit (Written (write_datagram n (msgpack request))) ;; mret (Ok tt)
  | None => mret (Err SocketError)
  end.

Definition handle_cmd (cmd : SocketCmd) (response_chan : Chan) : h (try unit) :=
  _ <-? (match cmd with
         | SubscribeTopics event_topics => write (SubscribeTo "MT" event_topics)
         | UnsubscribeTopics event_topics => write (UnsubscribeFrom "MT" event_topics)
         | SubmitRequest (SubmitTx tx_data signature) => write (SubmitTx tx_data signature)
         | SubmitRequest _ => mret (Ok tt)
         end);
  modify (fun _ => Mk (Some response_chan)) ;;
  mret (Ok tt).

Definition answer (msg : TcpMsg) : h (try unit) :=
  s ← get_state;
  match request_response_channel s with
  | Some res_chan => when (alive res_chan) (emit (Answered res_chan msg)) ;; mret (Ok tt)
  | None => mret (Ok tt)
  end.

Definition handle_datagram (buf : list Z) : h (try unit) :=
  let fails := emit Cancelled ;; mret (Err SocketError) in
  match msgunpack (X := TcpMsg) buf with
  | None => fails
  | Some (TcpBlockEvt block txs origin) =>
      if blocks_alive then emit (BlockTold (MkBlockEvt block txs origin)) ;; mret (Ok tt) else fails
  | Some TcpOtherEvt => mret (Ok tt)
  | Some (ResponseTopics outcome) => answer (ResponseTopics outcome)
  | Some (ResponseTxSign response) => answer (ResponseTxSign response)
  end.

(** What wakes the loop: a datagram, [None] when the reading fails; a command, [None] when the last sender is gone *)
Inductive Input : Type :=
| Read (buf : option (list Z))
| Received (cmd : option (SocketCmd * Chan)).

Definition step (i : Input) : h (try unit) :=
  match i with
  | Read (Some buf) => handle_datagram buf
  | Received (Some (cmd, response_chan)) =>
      r ← handle_cmd cmd response_chan;
      match r with Ok _ => mret (Ok tt) | Err e => emit Cancelled ;; mret (Err e) end
  | Read None | Received None => mret (Ok tt)
  end.

(** Until an error ends it *)
Fixpoint run (inputs : list Input) : h (try unit) :=
  match inputs with
  | [] => mret (Ok tt)
  | i :: inputs => _ <-? step i; run inputs
  end.

(** [start]: the first subscription, whose answer is read at once; an error here cancels nothing. *)
Definition start (stream : list Z) (inputs : list Input) : h (try unit) :=
  _ <-? write (SubscribeTo "MT" EventService.BLOCK_EXEC);
  match read_datagram stream with
  | None => mret (Err SocketError)
  | Some (buf, _) =>
      match msgunpack (X := bool) buf with
      | Some true => run inputs
      | _ => mret (Err SocketError)
      end
  end.

(** ** Theorems *)

(** What the node reads is the submission the mining service asked for, and its answer goes to the
    channel of that submission, if no other request was made since. *)
Theorem submission_delivered data sig res_chan buf response rest (w : world t effect unit) :
  msgunpack (msgpack (SubmitTx data sig)) = Some (SubmitTx data sig) ->
  len (msgpack (SubmitTx data sig)) < 2 ^ 32 ->
  writes (msgpack (SubmitTx data sig)) = Some (4 + len (msgpack (SubmitTx data sig))) ->
  alive res_chan = true ->
  msgunpack (X := TcpMsg) buf = Some (ResponseTxSign response) ->
  exists bytes,
    run [Received (Some (SubmitRequest (SubmitTx data sig), res_chan)); Read (Some buf)] w =
      Ret (Ok tt) (World (Mk (Some res_chan)) (w_answers w) (w_clock w)
        (w_out w ++ [Written bytes; Answered res_chan (ResponseTxSign response)])) /\
    (req ← read_datagram (bytes ++ rest); r ← msgunpack (X := SocketRequest) (fst req); Some (r, snd req)) =
      Some (SubmitTx data sig, rest).
Proof.
  intros Hr Hl Hw Ha Hb. exists (write_datagram (4 + len (msgpack (SubmitTx data sig))) (msgpack (SubmitTx data sig))). split.
  - unfold run, step, handle_cmd, write, try_bind. rewrite !bind_eq, Hw. cbn. unfold mbind, M_bind. cbn.
    unfold handle_datagram, answer. rewrite Hb. cbn. unfold mbind, M_bind. cbn. rewrite Ha. cbn. by rewrite <- app_assoc.
  - rewrite whole_datagram_read by lia. cbn. by rewrite Hr.
Qed.

Lemma handle_cmd_channel cmd chan (w w' : world t effect unit) u :
  handle_cmd cmd chan w = Ret (Ok u) w' -> w_state w' = Mk (Some chan).
Proof.
  unfold handle_cmd, try_bind. rewrite bind_eq.
  match goal with |- context [match ?m with Ret _ _ => _ | Panic _ => _ end] => destruct m as [[u1|e] w1|w1]; [|done..] end.
  rewrite bind_eq, modify_eq. by intros [= _ <-].
Qed.

(** An answer that comes after another request was made goes to that request. *)
Lemma late_answer cmd1 cmd2 chan1 chan2 buf response (w w' : world t effect unit) :
  alive chan2 = true -> msgunpack (X := TcpMsg) buf = Some (ResponseTxSign response) ->
  run [Received (Some (cmd1, chan1)); Received (Some (cmd2, chan2)); Read (Some buf)] w = Ret (Ok tt) w' ->
  last (w_out w') = Some (Answered chan2 (ResponseTxSign response)).
Proof.
  intros Ha Hb. cbn [run step]. unfold try_bind. rewrite !bind_eq. destruct (handle_cmd cmd1 chan1 w) as [[u1|e1] w1|w1]; [|done..].
  cbn [mret M_ret]. rewrite !bind_eq. destruct (handle_cmd cmd2 chan2 w1) as [[u2|e2] w2|w2] eqn:H2; [|done..].
  apply handle_cmd_channel in H2. cbn [mret M_ret]. rewrite bind_eq.
  unfold handle_datagram, answer. rewrite Hb, bind_eq. cbn [get_state]. rewrite H2. cbn. unfold mbind, M_bind. rewrite Ha. cbn.
  intros [= <-]. cbn. by rewrite last_snoc.
Qed.

(** A stream whose node is gone is read again and again: nothing ends the loop, and nobody is told. *)
Lemma closed_stream_unnoticed n (w : world t effect unit) : run (replicate n (Read None)) w = Ret (Ok tt) w.
Proof. revert w. induction n as [|n IH]; intros w; [done|]. cbn [replicate run step]. unfold try_bind. rewrite bind_eq. apply IH. Qed.
End service.
End ToolSocket.

(** ** A sample *)
Module ToolSocketSample.
Import ToolSocket.
Definition data : TransactionDataV1 :=
  MkV1 "#Mine" 1000 [1] "net" None "verify" (Keys.PkEd25519 (Keys.MkEd25519PublicKey [97])) [].
#[local] Instance codecs : SocketCodecs := {|
  pack_request := {| msgpack := fun r => match r with SubmitTx _ sig => 2 :: sig | SubscribeTo _ e | UnsubscribeFrom _ e => [e] end |};
  unpack_request := {| msgunpack := fun l => match l with 2 :: sig => Some (SubmitTx data sig) | _ => None end |};
  unpack_outcome := {| msgunpack := fun l => Some true |};
  unpack_tcp := {| msgunpack := fun l => Some (ResponseTxSign "hash") |}
|}.
Definition whole (buf : list Z) : option Z := Some (4 + len buf).

Lemma submission_delivered_witness :
  exists bytes,
    run whole (fun _ => true) true [Received (Some (SubmitRequest (SubmitTx data [7; 8]), 3)); Read (Some [1])] (World (Mk None) [] (0, []) []) =
      Ret (Ok tt) (World (Mk (Some 3)) [] (0, []) [Written bytes; Answered 3 (ResponseTxSign "hash")]) /\
    (req ← read_datagram (bytes ++ [9]); r ← msgunpack (X := SocketRequest) (fst req); Some (r, snd req)) = Some (SubmitTx data [7; 8], [9]).
Proof.
  apply (submission_delivered (Hcodecs := codecs) whole (fun _ => true) true data [7; 8] 3 [1] "hash" [9] (World (Mk None) [] (0, []) [])).
  - reflexivity.
  - reflexivity.
  - reflexivity.
  - reflexivity.
  - reflexivity.
Defined.
End ToolSocketSample.
