(* ===== verification/MiningEndpoints.v ===== *)
(** * The REST interface of the mining tool ([trinci-mining-tool/src/endpoints.rs])

    The owner of the tool calls it with transactions of a network of the tool: to pair nodes,
    to start and to stop the mining on them, to transfer and to stake.  Each paired node has a
    mining service, which is reached by a channel the interface keeps under the id of the node. *)

From Stdlib Require Import Ascii.
From stdpp Require Import base gmap strings list fin_maps pretty.
From S2P Require Import Prelude.
From S2P Require Import Exec.
From S2P Require Import Hash.
From S2P Require Import Crypto.
From S2P Require Import CoreModels.
From S2P Require Import DRand.
From S2P Require Import Messages.
From S2P Require Import Utf8.
From S2P Require Import NodeModels.
From S2P Require Import Database.
From S2P Require Import WasmMachine.
From S2P Require Import NodeMessages.
From S2P Require Import SocketService.
From S2P Require Import RestApi.
From S2P Require Import MiningModels.
From S2P Require Import MiningService.
From S2P Require Import UpdateService.
Open Scope Z_scope.

Class EndpointCodecs : Type := {
  unpack_transaction :: MsgUnpack Transaction;
  unpack_public_key :: MsgUnpack Keys.TrinciPublicKey;
  pack_public_key :: MsgPack Keys.TrinciPublicKey;
  unpack_interfaces :: MsgUnpack (list NodeInterface);
  unpack_transfer :: MsgUnpack (string * AssetTransferArgs);
  unpack_stake :: MsgUnpack Z;
  unpack_unstake :: MsgUnpack (option Z);
  unpack_node_info :: MsgUnpack NodeInfo;
  from_json_visa :: FromJson Visa
}.

Module Endpoints.
Definition MINING_TOOL_NW : string := "t3MiningTool".
Definition DEFAULT_REST_PORT : Z := 9001.

Definition OK : Z := 200.
Definition BAD_REQUEST : Z := 400.
Definition UNAUTHORIZED : Z := 401.
Definition METHOD_NOT_ALLOWED : Z := 405.
Definition INTERNAL_SERVER_ERROR : Z := 500.

Section endpoints.
Context `{Hdig : Digest} `{Hb58 : Base58} `{Hring : Ring} `{!MsgPack TransactionData} `{Hcodecs : EndpointCodecs}.
Context `{Hiter : !HashMapIter string}.
(** The channels that still have a receiver, that of the update service and that of its updates among
    them; the documents a generator of keys draws; whether the file of the key can be written *)
Context (alive : Chan -> bool) (update_service_alive : bool) (new_ecdsa_document new_ed25519_document : list Z) (writable : bool).

(** [NetworkNodes], with the content of the file at [session_kp_path], and the channels made so far *)
Record AppState : Type := MkAppState {
  nodes_router : gmap string Chan;
  key_file : option (list Z);
  network_scan : list RestApi.InfoBroadcast;
  channels : Z
}.
Definition set_router (x : gmap string Chan) (s : AppState) : AppState := MkAppState x (key_file s) (network_scan s) (channels s).
Definition set_key_file (x : option (list Z)) (s : AppState) : AppState := MkAppState (nodes_router s) x (network_scan s) (channels s).
Definition set_scan (x : list RestApi.InfoBroadcast) (s : AppState) : AppState := MkAppState (nodes_router s) (key_file s) x (channels s).
Definition set_channels (x : Z) (s : AppState) : AppState := MkAppState (nodes_router s) (key_file s) (network_scan s) x.

(** What goes out: commands to the mining services and to the update service, updates, services that are
    spawned, and requests to nodes *)
Inductive effect : Type :=
| ToMining (to : Chan) (cmd : Cmd)
| ToUpdate (cmd : Cmd)
| UpdateSent (update : NodeStateUpdate)
| Spawned (cmd_receiver : Chan) (join_players : bool) (info : NodeInfo)
| Connected (address : string)
| Posted (url : string) (body : list Z)
| Got (url : string)
| Broadcast (message : string).

(** What comes back: of a mining service, of the update service, the stream of a connection and the body
    of a request, if there is one; [Dropped]: the sender of a response is gone *)
Inductive answer : Type :=
| OfMining (r : ToolResponse)
| OfUpdate (a : UpdateService.answered)
| Stream (stream : option (list Z))
| HttpBody (body : option (list Z))
| Dropped.

(** A handler may wait for what never comes; a refusal has a status and a text, [None] that of a library's error. *)
Inductive stop : Type :=
| Hangs
| Refused (status : Z) (text : option string).
Inductive body : Type :=
| JEmptyObject
| JEmptyList
| JText (s : string)
| JAccount (account : Account.t)
| JReceipt (receipt : Receipt)
| JState (players : list PlayerSnapshot) (players_handled : list (string * PlayerInfo))
| JPaired (nodes : list (string * bool))
| JInterfaces (nodes : list NodeInterface)
| JInterface (node : NodeInterface)
| RawBytes (buf : list Z).

Abbreviation h := (M AppState effect answer).
Abbreviation try A := (Result A stop).
Definition refuse {A} (status : Z) (text : string) : h (try A) := mret (Err (Refused status (Some text))).
Definition fault {A} : h (try A) := mret (Err (Refused INTERNAL_SERVER_ERROR None)).

(** ** Channels *)
Definition oneshot : h Chan := s ← get_state; modify (set_channels (channels s + 1)) ;; mret (channels s).
(** The response on a channel of which the handler has no sender any more; nothing may ever come. *)
Definition response : h (try (option answer)) :=
  a ← next_answer;
  mret (match a with None => Err Hangs | Some Dropped => Ok None | Some a => Ok (Some a) end).
Definition to_update (cmd : Cmd) : h (try unit) := if update_service_alive then emit (ToUpdate cmd) ;; mret (Ok tt) else fault.
Definition to_mining (to : Chan) (cmd : Cmd) : h (try unit) := if alive to then emit (ToMining to cmd) ;; mret (Ok tt) else fault.

(** A command to the service of a node.  The sender of its response goes with it; when there is no such
    node the handler keeps it, and waits for itself. *)
Definition to_node (node_id : string) (cmd : Cmd) : h (try bool) :=
  s ← get_state;
  match nodes_router s !! node_id with
  | Some to => _ <-? to_mining to cmd; mret (Ok true)
  | None => mret (Ok false)
  end.
Definition await (sent : bool) : h (try (option answer)) := if sent then response else mret (Err Hangs).

Definition account_id (k : Keys.TrinciPublicKey) : h (try string) :=
  id ← expect (Keys.to_account_id k);
  match id with Ok id => mret (Ok id) | Err _ => fault end.
(** [to_account_id().unwrap()] *)
Definition account_id_unwrap (k : Keys.TrinciPublicKey) : h string :=
  id ← expect (Keys.to_account_id k);
  match id with Ok id => mret id | Err _ => panic end.
Definition unpack_or {X} `{!MsgUnpack X} (status : Z) (text : option string) (buf : list Z) : h (try X) :=
  mret (match msgunpack buf with Some x => Ok x | None => Err (Refused status text) end).

(** ** The key of the session *)

(** [TrinciKeyPair::new_ecdsa]: the key in the file, or a new one that is written to it *)
Definition new_ecdsa : h (try Keys.TrinciKeyPair) :=
  s ← get_state;
  document <-? (match key_file s with
                | Some buffer => mret (Ok buffer)
                | None => if writable then modify (set_key_file (Some new_ecdsa_document)) ;; mret (Ok new_ecdsa_document) else fault
                end);
  match Keys.ecdsa_new Secp256R1 document with Ok k => mret (Ok (Keys.KpEcdsa k)) | Err _ => fault end.

(** [TrinciKeyPair::new_ed25519]: always a new key, written to the file *)
Definition new_ed25519 : h (try Keys.TrinciKeyPair) :=
  if writable then
    modify (set_key_file (Some new_ed25519_document)) ;;
    match Keys.ed25519_new new_ed25519_document with Ok k => mret (Ok (Keys.KpEd25519 k)) | Err _ => fault end
  else fault.

(** ** The simple endpoints *)
Definition bind_node (info : RestApi.InfoBroadcast) : h (try (Z * body)) :=
  s ← get_state;
  modify (set_scan (network_scan s ++ [info])) ;;
  mret (Ok (OK, JEmptyObject)).

Definition get_owner : h (try (Z * body)) :=
  c ← oneshot;
  _ <-? to_update (GetOwner c);
  r <-? response;
  match r with
  | Some (OfUpdate (UpdateService.AOwner (Some buf))) =>
      match msgunpack (X := Keys.TrinciPublicKey) buf with
      | Some pub_key => id <-? account_id pub_key; mret (Ok (OK, JText id))
      | None => mret (Ok (OK, JEmptyList))
      end
  | _ => mret (Ok (OK, JEmptyList))
  end.

Definition identity : h (try (Z * body)) :=
  session_kp <-? new_ed25519;
  mret (Ok (OK, RawBytes (msgpack (Keys.public_key session_kp)))).

Definition retrieve_account (node_id account : string) : h (try (Z * body)) :=
  c ← oneshot;
  sent <-? to_node node_id (GetAccount account c);
  if sent : bool then
    r <-? response;
    match r with
    | Some (OfMining (RAccount account)) => mret (Ok (OK, JAccount account))
    | _ => refuse INTERNAL_SERVER_ERROR ("Impossible to retrieve account: " ++ account ++ ".")
    end
  else refuse INTERNAL_SERVER_ERROR ("Impossible to retrieve account: " ++ account ++ ".").

Definition retrieve_account_data (node_id account key : string) : h (try (Z * body)) :=
  c ← oneshot;
  sent <-? to_node node_id (GetAccountData account key c);
  r <-? await sent;
  match r with
  | Some (OfMining (RBytes data)) => mret (Ok (OK, RawBytes data))
  | _ => refuse INTERNAL_SERVER_ERROR ("Impossible to retrieve account data for account " ++ account ++ ", key " ++ key ++ ".")
  end.

Definition retrieve_receipt (node_id tx_hash : string) : h (try (Z * body)) :=
  c ← oneshot;
  sent <-? to_node node_id (GetReceipt c tx_hash);
  if sent : bool then
    r <-? response;
    match r with
    | Some (OfMining (RReceipt receipt)) => mret (Ok (OK, JReceipt receipt))
    | _ => refuse INTERNAL_SERVER_ERROR ("Impossible to retrieve receipt: " ++ tx_hash ++ ".")
    end
  else refuse INTERNAL_SERVER_ERROR ("Impossible to retrieve receipt: " ++ tx_hash ++ ".").

Definition submit_tx (node_id : string) (tx : list Z) : h (try (Z * body)) :=
  c ← oneshot;
  sent <-? to_node node_id (CmdSubmitTx c tx);
  r <-? await sent;
  match r with
  | Some (OfMining (RText data)) => mret (Ok (OK, JText data))
  | _ => refuse INTERNAL_SERVER_ERROR ("Impossible to submit tx to node " ++ node_id ++ ".")
  end.

Definition refresh : h (try (Z * body)) :=
  c ← oneshot;
  _ <-? to_update (Refresh c);
  r <-? response;
  match r with
  | Some (OfUpdate (UpdateService.ARefresh players handled)) => mret (Ok (OK, JState players handled))
  | _ => refuse INTERNAL_SERVER_ERROR "Unable to collect state from UpdateService."
  end.

(** ** Nodes that are paired *)

(** The parts of a text between two slashes *)
Fixpoint split_slashes (part s : string) : list string :=
  match s with
  | EmptyString => [part]
  | String "/"%char (String "/"%char s) => part :: split_slashes EmptyString s
  | String c s => split_slashes (part ++ String c EmptyString) s
  end.

Definition set_addr (addr : string) (account : option string) (i : NodeInfo) : NodeInfo :=
  MkNodeInfo addr account (network i) (nonce i) (ni_public_key i) (rest_port i).

(** The task of a node: its stream, who it is, and the pairing, whose failure is only warned of *)
Definition connect_node (pub_key : Keys.TrinciPublicKey) (node : NodeInterface) : h (try (NodeInfo * Z)) :=
  emit (Connected (ni_ip node ++ ":" ++ pretty (ni_socket node))) ;;
  a ← next_answer;
  match a with
  | Some (Stream (Some stream)) =>
      match read_datagram stream with
      | None => fault
      | Some (buf, _) =>
          node_info <-? unpack_or (X := NodeInfo) INTERNAL_SERVER_ERROR None buf;
          let addr := ("http://" ++ ni_ip node)%string in
          _ <-? account_id (ni_public_key node_info);
          let url := ("http://" ++ ni_ip node ++ ":" ++ pretty (ni_rest node) ++ "/pair")%string in
          emit (Posted url (msgpack pub_key)) ;;
          emit (Got url) ;;
          a ← next_answer;
          match a with
          | Some (HttpBody (Some _)) => mret (Ok (set_addr addr (Some "#TCOIN"%string) node_info, ni_socket node))
          | _ => fault
          end
      end
  | _ => fault
  end.

(** The tasks, each with the answers that are its own, in the order of the nodes; their refusals are dropped. *)
Fixpoint connect_nodes (pub_key : Keys.TrinciPublicKey) (nodes : list NodeInterface) : h (list (NodeInfo * Z)) :=
  match nodes with
  | [] => mret []
  | node :: nodes =>
      r ← connect_node pub_key node;
      rest ← connect_nodes pub_key nodes;
      mret (match r with Ok x => x :: rest | Err _ => rest end)
  end.

(** Empty info, for display *)
Definition no_update (id : string) : NodeStateUpdate :=
  MkUpdate id (MkPoPUpdate (MkBitbel 0 0) (MkTCoin 0 0 0) (MkLife 0 0 3))
    (MkHealth 0 (MkSystemStats (MkResourceInfo 0 0 "Perceptual") (MkResourceInfo 0 0 "Bytes") (MkResourceInfo 0 0 "Bytes")) 0 0) [].

(** The loop over the results: what was paired so far is lost when an id cannot be made. *)
Fixpoint add_nodes (results : list (NodeInfo * Z)) : h (try (list (string * NodeNetworking))) :=
  match results with
  | [] => mret (Ok [])
  | (node_info, socket_port) :: results =>
      cmds ← oneshot;
      id <-? account_id (ni_public_key node_info);
      modify (fun s => set_router (<[id := cmds]> (nodes_router s)) s) ;;
      match split_slashes EmptyString (addr node_info) with
      | _ :: ip :: _ =>
          id ← account_id_unwrap (ni_public_key node_info);
          emit (UpdateSent (no_update id)) ;;
          emit (Spawned cmds true node_info) ;;
          rest <-? add_nodes results;
          mret (Ok ((id, MkNetworking ip (network node_info) (rest_port node_info) socket_port) :: rest))
      | _ => refuse INTERNAL_SERVER_ERROR "Problems retrieving address from node info."
      end
  end.

Definition nodes_init (nodes : list NodeInterface) : h (try (Z * body)) :=
  session_kp <-? new_ecdsa;
  results ← connect_nodes (Keys.public_key session_kp) nodes;
  paired <-? add_nodes results;
  _ ← to_update (NewNodeFromDiscovery paired);
  mret (Ok (OK, JPaired (map (fun '(node_id, _) => (node_id, true)) paired))).

(** ** Calls of the owner *)

(** Every node of the router is told to start, until one of them answers. *)
Fixpoint start_all (nodes : list (string * Chan)) : h (try (option string)) :=
  match nodes with
  | [] => mret (Ok None)
  | (id, to) :: nodes =>
      c ← oneshot;
      _ <-? to_mining to (Start id c);
      c ← oneshot;
      _ <-? to_update (Start id c);
      r <-? response;
      match r with
      | Some (OfMining (RText tx_hash)) => mret (Ok (Some tx_hash))
      | _ => start_all nodes
      end
  end.

Definition start_mining (target_node : string) : h (try (Z * body)) :=
  if bool_decide (target_node = "*"%string) then
    s ← get_state;
    r <-? start_all (map_iter (nodes_router s));
    mret (Ok (OK, match r with Some tx_hash => JText tx_hash | None => JEmptyObject end))
  else
    c ← oneshot;
    sent <-? to_node target_node (Start target_node c);
    c ← oneshot;
    _ <-? to_update (Start target_node c);
    r <-? await sent;
    mret (Ok (OK, match r with Some (OfMining (RText tx_hash)) => JText tx_hash | _ => JEmptyObject end)).

Fixpoint stop_all (nodes : list (string * Chan)) : h (try unit) :=
  match nodes with
  | [] => mret (Ok tt)
  | (id, to) :: nodes => _ <-? to_mining to (CmdStop id); _ <-? to_update (CmdStop id); stop_all nodes
  end.

Definition stop_mining (target_node : string) : h (try (Z * body)) :=
  if bool_decide (target_node = "*"%string) then
    s ← get_state;
    _ <-? stop_all (map_iter (nodes_router s));
    mret (Ok (OK, JEmptyObject))
  else
    sent <-? to_node target_node (CmdStop target_node);
    _ <-? (if sent : bool then to_update (CmdStop target_node) else mret (Ok tt));
    mret (Ok (OK, JEmptyObject)).

(** The transactions that the node submits for the owner *)
Definition submit_on (target_node : string) (cmd : Chan -> Cmd) : h (try (Z * body)) :=
  c ← oneshot;
  sent <-? to_node target_node (cmd c);
  r <-? await sent;
  mret (Ok (OK, match r with Some (OfMining (RText tx_hash)) => JText tx_hash | _ => JEmptyObject end)).

(** The key of the owner: the caller of the first [init], when there was none *)
Definition owner_key (caller : Keys.TrinciPublicKey) (tx_method : option string) : h (try (list Z)) :=
  c ← oneshot;
  _ <-? to_update (GetOwner c);
  r <-? response;
  match r with
  | Some (OfUpdate (UpdateService.AOwner (Some buf))) => mret (Ok buf)
  | _ =>
      tx_method ← expect tx_method;
      if bool_decide (tx_method = "init"%string) then
        let owner := msgpack caller in
        _ <-? to_update (SetOwner owner);
        mret (Ok owner)
      else refuse METHOD_NOT_ALLOWED
        "Mining tool is not yet initialized, pair it with an account (using `init` RPC) before any other operation."
  end.

Definition call_method (target_node tx_method : string) (args : list Z) : h (try (Z * body)) :=
  if bool_decide (tx_method = "init"%string) then
    if bool_decide (target_node = "#miningTool"%string) then
      nodes <-? unpack_or (X := list NodeInterface) BAD_REQUEST (Some "TX args can't be serialized"%string) args;
      nodes_init nodes
    else refuse BAD_REQUEST "Unattended target"
  else if bool_decide (tx_method = "start_mining"%string) then start_mining target_node
  else if bool_decide (tx_method = "stop_mining"%string) then stop_mining target_node
  else if bool_decide (tx_method = "set_identity"%string) then
    refuse METHOD_NOT_ALLOWED "Mining tool already paired with another account ID"
  else if bool_decide (tx_method = "transfer"%string) then
    args <-? unpack_or (X := string * AssetTransferArgs) INTERNAL_SERVER_ERROR None args;
    submit_on target_node (Transfer (fst args) (snd args))
  else if bool_decide (tx_method = "stake"%string) then
    units <-? unpack_or (X := Z) INTERNAL_SERVER_ERROR None args;
    submit_on target_node (Transfer TCOIN (MkTransferArgs target_node "TRINCI" units))
  else if bool_decide (tx_method = "unstake"%string) then
    units <-? unpack_or (X := option Z) INTERNAL_SERVER_ERROR None args;
    submit_on target_node (fun c => Unstake c units)
  else refuse BAD_REQUEST "Unsupported method.".

(** [None] of the getters is the panic of a bulk with an empty root. *)
Definition rpc (request : list Z) : h (try (Z * body)) :=
  tx <-? unpack_or (X := Transaction) INTERNAL_SERVER_ERROR None request;
  let data := s_data (signed tx) in
  if negb (bool_decide (TxData.get_network data = MINING_TOOL_NW)) then
    refuse BAD_REQUEST "The TX is not compatible with the mining tool."
  else
    intact ← expect (check_integrity data);
    compromised ← (if intact : bool then mret false else expect (verify tx));
    if compromised : bool then refuse UNAUTHORIZED "TX integrity compromised."
    else
      let target_node := TxData.get_account data in
      buf <-? owner_key (TxData.get_caller data) (TxData.get_method data);
      owner <-? unpack_or (X := Keys.TrinciPublicKey) INTERNAL_SERVER_ERROR (Some "Unable to deserialize owner public key."%string) buf;
      owner_id <-? account_id owner;
      user_id <-? account_id (TxData.get_caller data);
      if negb (bool_decide (owner_id = user_id)) then refuse METHOD_NOT_ALLOWED "User is not the mining tool owner."
      else
        method ← expect (TxData.get_method data);
        args ← expect (TxData.get_args data);
        call_method target_node method args.

(** ** Nodes that are looked for *)
Definition check_visa (potential_node : string) (port : option Z) : h (option RestApi.Visa) :=
  emit (Got ("http://" ++ potential_node ++ ":" ++ pretty (default DEFAULT_REST_PORT port) ++ "/visa")) ;;
  a ← next_answer;
  mret (match a with Some (HttpBody (Some body)) => from_json (Utf8.string_of_bytes body) | _ => None end).

Definition interface_of (visa : RestApi.Visa) (ip : string) : NodeInterface :=
  let c := RestApi.v_node_configs visa in
  MkInterface (RestApi.trinci_peer_id c) ip (RestApi.c_rest_port c) (RestApi.socket_port c).

Definition check_manually_added_node (ip : string) (rest : Z) : h (try (Z * body)) :=
  visa ← check_visa ip (Some rest);
  match visa with
  | Some visa => mret (Ok (OK, JInterface (interface_of visa ip)))
  | None => refuse BAD_REQUEST "Address do not match any node"
  end.

(** What is before the first colon; [None] is the index of an empty address. *)
Definition host_of (node_ip : string) : option string :=
  match node_ip with
  | EmptyString => None
  | _ => Some match String.index 0 ":" node_ip with Some n => String.substring 0 n node_ip | None => node_ip end
  end.

Fixpoint check_visas (network_scan : list RestApi.InfoBroadcast) : h (list (option (RestApi.Visa * string))) :=
  match network_scan with
  | [] => mret []
  | node :: network_scan =>
      visa ← check_visa (RestApi.ib_ip node) (Some (RestApi.ib_rest node));
      rest ← check_visas network_scan;
      mret (((fun visa => (visa, RestApi.ib_ip node)) <$> visa) :: rest)
  end.

Fixpoint interfaces (visas : list (option (RestApi.Visa * string))) : h (list NodeInterface) :=
  match visas with
  | [] => mret []
  | None :: visas => interfaces visas
  | Some (visa, node_ip) :: visas =>
      ip ← expect (host_of node_ip);
      rest ← interfaces visas;
      mret (interface_of visa ip :: rest)
  end.

(** [arrived]: the nodes that bind themselves while the tool waits *)
Definition scan_network_broadcast (arrived : list RestApi.InfoBroadcast) : h (try (Z * body)) :=
  emit (Broadcast "T.R.I.N.C.I. mining tool meeting message") ;;
  for_each arrived (fun info => _ ← bind_node info; mret tt) ;;
  s ← get_state;
  modify (set_scan []) ;;
  visas ← check_visas (network_scan s);
  nodes ← interfaces visas;
  mret (Ok (OK, JInterfaces nodes)).
End endpoints.
End Endpoints.
