(* ===== verification/EndpointTheorems.v ===== *)
(** * Who may call the mining tool, and what its calls do *)

From stdpp Require Import base gmap strings list fin_maps pretty.
From S2P Require Import Prelude.
From S2P Require Import Exec.
From S2P Require Import Hash.
From S2P Require Import Crypto.
From S2P Require Import CoreModels.
From S2P Require Import DRand.
From S2P Require Import Samples.
From S2P Require Import NodeModels.
From S2P Require Import Database.
From S2P Require Import WasmMachine.
From S2P Require Import NodeMessages.
From S2P Require Import SocketService.
From S2P Require Import RestApi.
From S2P Require Import MiningModels.
From S2P Require Import MiningService.
From S2P Require Import UpdateService.
From S2P Require Import MiningEndpoints.
Open Scope Z_scope.
Import Endpoints.

Section theorems.
Context `{Hdig : Digest} `{Hb58 : Base58} `{Hring : Ring} `{Hpack : !MsgPack TransactionData} `{Hcodecs : EndpointCodecs}.
Context `{Hiter : !HashMapIter string}.
Context (alive : Chan -> bool) (update_service_alive : bool) (new_ecdsa_document new_ed25519_document : list Z) (writable : bool).
Abbreviation tool_world := (world AppState effect answer).
Implicit Types w : tool_world.
Abbreviation rpc := (rpc alive update_service_alive new_ecdsa_document writable).

(** ** Who is the caller *)

(** A transaction that is not intact does not verify, so that the check never refuses. *)
Lemma never_compromised tx intact w :
  check_integrity (s_data (signed tx)) = Some intact ->
  (if intact then mret false else expect (verify tx)) w = Ret false w.
Proof. intros H. destruct intact; [done|]. unfold verify. by rewrite H. Qed.

Lemma unpack_or_eq {X} `{!MsgUnpack X} status text buf (x : X) w :
  msgunpack buf = Some x -> unpack_or status text buf w = Ret (Ok x) w.
Proof. intros H. unfold unpack_or. by rewrite H. Qed.

(** A call does what its data says whatever its signature, and whether it is signed at all:
    two requests with the same data are answered alike, with the same commands to the services.
    Whoever knows the public key of the owner calls the tool as its owner. *)
Theorem rpc_ignores_signature request request' tx tx' w :
  msgunpack request = Some tx -> msgunpack request' = Some tx' -> s_data (signed tx) = s_data (signed tx') ->
  rpc request w = rpc request' w.
Proof.
  intros Ht Ht' Hd. unfold Endpoints.rpc, try_bind at 1. symmetry. unfold try_bind at 1. symmetry.
  rewrite !bind_eq, (unpack_or_eq _ _ _ _ _ Ht), (unpack_or_eq _ _ _ _ _ Ht'). cbv zeta. rewrite <- Hd.
  destruct (negb (bool_decide (TxData.get_network (s_data (signed tx)) = MINING_TOOL_NW))); [done|].
  rewrite !bind_eq. destruct (check_integrity (s_data (signed tx))) as [intact|] eqn:Hi; [|done].
  cbn [expect mret M_ret]. rewrite !bind_eq, (never_compromised tx intact) by done.
  rewrite Hd in Hi. by rewrite (never_compromised tx' intact).
Qed.

(** A call of somebody else than the owner is refused, and only the owner's key is asked for. *)
Theorem rpc_needs_owner request tx intact buf owner owner_id user_id rest (s : AppState) clock out :
  msgunpack request = Some tx ->
  TxData.get_network (s_data (signed tx)) = MINING_TOOL_NW ->
  check_integrity (s_data (signed tx)) = Some intact ->
  update_service_alive = true ->
  msgunpack buf = Some owner ->
  Keys.to_account_id owner = Some (Ok owner_id) ->
  Keys.to_account_id (TxData.get_caller (s_data (signed tx))) = Some (Ok user_id) ->
  owner_id <> user_id ->
  rpc request (World s (OfUpdate (UpdateService.AOwner (Some buf)) :: rest) clock out) =
    Ret (Err (Refused METHOD_NOT_ALLOWED (Some "User is not the mining tool owner."%string)))
      (World (set_channels (channels s + 1) s) rest clock (out ++ [ToUpdate (GetOwner (channels s))])).
Proof.
  intros Ht Hn Hi Hu Hb Ho Hc Hne. unfold Endpoints.rpc, try_bind at 1. rewrite bind_eq, (unpack_or_eq _ _ _ _ _ Ht). cbv zeta.
  rewrite Hn, bool_decide_true by done. cbn [negb]. rewrite bind_eq, Hi. cbn [expect mret M_ret].
  rewrite bind_eq, (never_compromised tx intact) by done. unfold owner_key, oneshot, to_update, response. rewrite Hu.
  unfold try_bind. cbn. unfold mbind, M_bind. cbn. rewrite Hb. cbn. unfold Endpoints.account_id. cbn. unfold mbind, M_bind.
  rewrite Ho. cbn. rewrite Hc. cbn. by rewrite bool_decide_false.
Qed.

(** ** Calls for a node the tool does not have *)

(** A call for the transfers or the data of a node that is not paired never ends: nothing is
    sent, and the handler waits for a response whose sender it holds itself. *)
Theorem unknown_node_hangs target cmd w :
  nodes_router (w_state w) !! target = None ->
  exists w', submit_on alive target cmd w = Ret (Err Hangs) w' /\ w_out w' = w_out w /\ w_answers w' = w_answers w.
Proof.
  intros Hr. unfold submit_on, oneshot. cbn. unfold mbind, M_bind. cbn. unfold try_bind, to_node. cbn. unfold mbind, M_bind. cbn.
  rewrite Hr. cbn. by eexists.
Qed.

(** ** Calls for all the nodes *)

(** A command to start on every node reaches only the first one that starts: its answer ends
    the loop. *)
Theorem broadcast_starts_one id to others hash rest (s : AppState) clock out :
  update_service_alive = true -> alive to = true ->
  map_iter (nodes_router s) = (id, to) :: others ->
  start_mining alive update_service_alive "*" (World s (OfMining (RText hash) :: rest) clock out) =
    Ret (Ok (OK, JText hash)) (World (set_channels (channels s + 2) s) rest clock
      (out ++ [ToMining to (Start id (channels s)); ToUpdate (Start id (channels s + 1))])).
Proof.
  intros Hu Ha Hm. unfold start_mining. rewrite bool_decide_true by done. cbn. unfold mbind, M_bind. cbn. rewrite Hm.
  cbn [start_all]. unfold to_mining, to_update, response, oneshot, try_bind. rewrite Hu, Ha. cbn. unfold mbind, M_bind. cbn.
  rewrite <- app_assoc. unfold set_channels. cbn. by rewrite <- Z.add_assoc.
Qed.

(** ** The key of the session *)

(** Asking the tool for its identity replaces the key of its session by one of another kind:
    from then on no node is paired any more, whatever the nodes, and nothing goes to them. *)
Theorem identity_breaks_pairing key nodes w :
  writable = true ->
  Keys.ed25519_new new_ed25519_document = Ok key ->
  is_ok (Keys.ecdsa_new Secp256R1 new_ed25519_document) = false ->
  exists pub w1, identity new_ed25519_document writable w = Ret (Ok (OK, RawBytes pub)) w1 /\ w_out w1 = w_out w /\
    nodes_init update_service_alive new_ecdsa_document writable nodes w1 = Ret (Err (Refused INTERNAL_SERVER_ERROR None)) w1.
Proof.
  intros Hw Hk He. unfold identity, new_ed25519. rewrite Hw. unfold try_bind. cbn. unfold mbind, M_bind. cbn. rewrite Hk. cbn.
  eexists. eexists. split; [reflexivity|]. split; [done|].
  unfold nodes_init, new_ecdsa, try_bind. cbn. unfold mbind, M_bind. cbn.
  destruct (Keys.ecdsa_new Secp256R1 new_ed25519_document) as [k|e]; [discriminate He|done].
Qed.
End theorems.

(** ** A sample *)
Module EndpointSample.
#[local] Existing Instances Samples.digest Samples.base58 gmap_iter.

(** A ring whose documents start with the number of their kind *)
#[local] Instance kinds : Ring := {|
  RingEcdsaKeyPair := list Z;
  RingEd25519KeyPair := list Z;
  ecdsa_from_pkcs8 := fun _ b => match b with 1 :: b => Some b | _ => None end;
  ecdsa_public_key := fun k => k;
  ecdsa_sign := fun k _ d => Some (k ++ d);
  ecdsa_verify := fun _ k d s => bool_decide (s = k ++ d);
  ed25519_from_pkcs8 := fun b => match b with 2 :: b => Some b | _ => None end;
  ed25519_public_key := fun k => k;
  ed25519_sign := fun k d => k ++ d;
  ed25519_verify := fun k d s => bool_decide (s = k ++ d)
|}.
#[local] Instance data_pack : MsgPack TransactionData := {| msgpack := fun d => [1] |}.

Definition owner : Keys.TrinciPublicKey := Keys.PkEd25519 (Keys.MkEd25519PublicKey [7]).
Definition stranger : Keys.TrinciPublicKey := Keys.PkEd25519 (Keys.MkEd25519PublicKey [8]).
Definition call (caller : Keys.TrinciPublicKey) (sig : list Z) : Transaction :=
  UnitTransaction (MkSigned (V1 (MkV1 "node" 0 [1] "t3MiningTool" None "stake" caller [5])) sig).
#[local] Instance codecs : EndpointCodecs := {|
  unpack_transaction := {| msgunpack := fun l => match l with 8 :: sig => Some (call stranger sig) | _ :: sig => Some (call owner sig) | [] => None end |};
  unpack_public_key := {| msgunpack := fun l => Some owner |};
  pack_public_key := {| msgpack := fun k => [7] |};
  unpack_interfaces := {| msgunpack := fun l => Some [] |};
  unpack_transfer := {| msgunpack := fun l => None |};
  unpack_stake := {| msgunpack := fun l => head l |};
  unpack_unstake := {| msgunpack := fun l => None |};
  unpack_node_info := {| msgunpack := fun l => None |};
  from_json_visa := {| from_json := fun _ => None |}
|}.

Definition id_of (k : Keys.TrinciPublicKey) : string := match Keys.to_account_id k with Some (Ok id) => id | _ => EmptyString end.
Definition tool : AppState := MkAppState {[ "node" := 3; "other" := 4 ]} (Some [1]) [] 10.
Definition start (answers : list answer) : world AppState effect answer := World tool answers (0, []) [].
Definition all_alive : Chan -> bool := fun _ => true.
Definition answers : list answer := [OfUpdate (UpdateService.AOwner (Some [7])); OfMining (RText "hash")].

(** A transaction without a signature makes the node stake for the owner. *)
Example unsigned_stake :
  match rpc all_alive true [1] true [7] (start answers) with
  | Ret r w => r = Ok (200, JText "hash") /\
      w_out w = [ToUpdate (GetOwner 10); ToMining 3 (Transfer "#TCOIN" (MkTransferArgs "node" "TRINCI" 5) 11)]
  | Panic _ => False
  end.
Proof. vm_compute. by split. Qed.

Lemma rpc_ignores_signature_witness :
  rpc all_alive true [1] true [7; 9; 9] (start answers) = rpc all_alive true [1] true [7] (start answers).
Proof.
  apply (rpc_ignores_signature all_alive true [1] true [7; 9; 9] [7] (call owner [9; 9]) (call owner [])); reflexivity.
Defined.

Lemma rpc_needs_owner_witness :
  exists w', rpc all_alive true [1] true [8] (start answers) =
    Ret (Err (Refused METHOD_NOT_ALLOWED (Some "User is not the mining tool owner."%string))) w' /\ w_out w' = [ToUpdate (GetOwner 10)].
Proof.
  assert (Ho : exists a, Keys.to_account_id owner = Some (Ok a) /\ bool_decide (a = id_of stranger) = false)
    by (eexists; split; vm_compute; reflexivity).
  assert (Hs : Keys.to_account_id stranger = Some (Ok (id_of stranger))) by (vm_compute; reflexivity).
  destruct Ho as (a & Ha & Hne). apply bool_decide_eq_false in Hne. eexists. split.
  - refine (rpc_needs_owner all_alive true [1] true [8] (call stranger []) true [7] owner a (id_of stranger) [OfMining (RText "hash")]
      tool (0, []) [] _ _ _ _ _ Ha Hs Hne); reflexivity.
  - reflexivity.
Defined.

Lemma unknown_node_hangs_witness :
  exists w', submit_on all_alive "nobody" (Transfer TCOIN (MkTransferArgs "nobody" "TRINCI" 5)) (start answers) = Ret (Err Hangs) w' /\
    w_out w' = [] /\ w_answers w' = answers.
Proof. apply (unknown_node_hangs all_alive "nobody" (Transfer TCOIN (MkTransferArgs "nobody" "TRINCI" 5)) (start answers)). reflexivity. Defined.

Lemma broadcast_starts_one_witness :
  exists id to others, map_iter (nodes_router tool) = (id, to) :: others /\ others <> [] /\
    exists w', start_mining all_alive true "*" (start [OfMining (RText "hash")]) = Ret (Ok (OK, JText "hash")) w' /\
      w_out w' = [ToMining to (Start id 10); ToUpdate (Start id 11)].
Proof.
  assert (Hl : match map_iter (nodes_router tool) with _ :: _ :: _ => true | _ => false end = true) by (vm_compute; reflexivity).
  destruct (map_iter (nodes_router tool)) as [|[id to] others] eqn:Hm; [discriminate Hl|].
  exists id, to, others. split; [reflexivity|]. split; [intros ->; discriminate Hl|]. eexists. split.
  - exact (broadcast_starts_one all_alive true id to others "hash" [] tool (0, []) [] eq_refl eq_refl Hm).
  - reflexivity.
Defined.

Lemma identity_breaks_pairing_witness :
  exists pub w1, identity [2; 5] true (start []) = Ret (Ok (OK, RawBytes pub)) w1 /\ w_out w1 = [] /\
    nodes_init true [1] true [MkInterface "node" "ip" 1 2] w1 = Ret (Err (Refused INTERNAL_SERVER_ERROR None)) w1.
Proof.
  apply (identity_breaks_pairing (Hring := kinds) true [1] [2; 5] true (Keys.MkEd25519KeyPair (H := kinds) [5]) [MkInterface "node" "ip" 1 2] (start [])); reflexivity.
Defined.
End EndpointSample.
