(* ===== verification/PlaygroundInterface.v ===== *)
(** * The playground's side of a node ([trinci-node/src/services/playground_interface.rs], and the
    events of [trinci-node/src/artifacts/messages.rs])

    In the playground the nodes are threads of one process; this service takes the place of
    the peer to peer service: what a node tells its peers goes to the playground, and what
    the playground delivers goes to the services of the node.  It also computes the leader of
    the next block, for display. *)

From stdpp Require Import base gmap strings list fin_maps.
From S2P Require Import Prelude.
From S2P Require Import Exec.
From S2P Require Import Hash.
From S2P Require Import Crypto.
From S2P Require Import CoreModels.
From S2P Require Import DRand.
From S2P Require Import Messages.
From S2P Require Import NodeModels.
From S2P Require Import NodeMessages.
Open Scope Z_scope.

(** ** Events *)
Inductive PlayPayload : Type :=
| Published (payload : Payload)
| PBlockConsolidated (block : Block) (leader : string) (txs_hashes : list Hash).

(** What a node says of itself, to the channel of the command *)
Record PlayNodeInfo : Type := MkPlayNodeInfo {
  pn_connected : bool;
  pn_db_hash : Hash;
  pn_height : Z;
  pn_leader : string;
  pn_node_id : string
}.

Inductive PlayCmd : Type :=
| GetNodeInfo (connected : bool) (response_sender : Chan)
| HeightAfterReconnection (height : Z).

Inductive EventKind : Type :=
| EvCmd (cmd : PlayCmd)
| EvMsg (payload : PlayPayload)
| EvReq (req : NodeReq.t).
Record P2PEvent : Type := MkP2PEvent { from : string; ev_kind : EventKind; ev_res_chan : option Chan }.

Module PlaygroundInterface.
Section service.
Context `{Hdig : Digest} `{Hpcg : Pcg} `{!MsgPack BlockData}.
Context `{!MsgPack TransactionData, !MsgPack Transaction}.
(** The id of the node, and what its generator draws for an index up to a maximum *)
Context (node_id : string) (draw : Z -> Z).

Record t : Type := Mk {
  drand : DRand.t;
  leader : string;
  players : Players.t;
  seed : SeedSource.t
}.
Definition set_drand (x : DRand.t) (s : t) : t := Mk x (leader s) (players s) (seed s).
Definition set_leader (x : string) (s : t) : t := Mk (drand s) x (players s) (seed s).
Definition set_players (x : Players.t) (s : t) : t := Mk (drand s) (leader s) x (seed s).
Definition set_seed (x : SeedSource.t) (s : t) : t := Mk (drand s) (leader s) (players s) x.

Inductive effect : Type :=
| ToNode (e : NodeEffect)
| ToPlayground (event : P2PEvent) (receiver : option string)
| TauriTold (to : Chan) (info : PlayNodeInfo).

Abbreviation h := (M t effect NodeAnswer).
Definition to_node {A} (m : M unit NodeEffect NodeAnswer A) : h A := zoom (fun _ => tt) (fun _ s => s) ToNode m.

(** [send_msg_async] to the playground *)
Definition publish (payload : PlayPayload) : h unit := emit (ToPlayground (MkP2PEvent node_id (EvMsg payload) None) None).
(** [send_req_async_playground]: through the playground to a node, which answers on the channel *)
Definition ask_playground (receiver_id : string) (req : NodeReq.t) : h (Result NodeRes.t NodeCommError) :=
  a ← next_answer;
  let asked := emit (ToPlayground (MkP2PEvent node_id (EvReq req) (Some 0)) (Some receiver_id)) in
  match a with
  | Some (FromNode res) => asked ;; mret (Ok res)
  | Some NDisconnected => mret (Err NSendError)
  | Some (FromCore _) | Some NTimedOut | None => asked ;; mret (Err NRecvTimeoutError)
  end.

Definition random_number_in_range_from_zero (max : Z) : Z := if max =? 0 then 0 else draw max.

Definition with_size (tx : Transaction) : Transaction * Z * option (list Hash) :=
  (tx, len (msgpack tx), retrieve_attachments_from_tx tx).

(** ** From the playground *)
Definition handle_p2p_messages (msg : PlayPayload) : h unit :=
  match msg with
  | Published (PConfirmation confirmation) =>
      to_node (tell_core ConsensusService (Msg.BlockConfirmationFromPeer confirmation)) ;; publish msg
  | Published (PBlock block confirmation txs_hashes) =>
      to_node (tell_core ConsensusService (Msg.BlockFromPeer block confirmation txs_hashes)) ;; publish msg
  | Published (POldTransactions txs) =>
      r ← to_node (ask_node NDB (NodeReq.HasTxs (map get_hash txs)));
      match r with
      | Ok (NodeRes.HasTxs mask) =>
          let txs := omap (fun '(tx, in_db) => if negb in_db then Some tx else None) (zip txs mask) in
          to_node (tell_core TransactionService (Msg.AddTxs (map with_size txs))) ;; publish msg
      | _ => mret tt
      end
  | Published (PTransaction tx) =>
      r ← to_node (ask_node NDB (NodeReq.HasTx (get_hash tx)));
      match r with
      | Ok (NodeRes.HasTx false) => to_node (tell_core TransactionService (Msg.AddTx (with_size tx))) ;; publish msg
      | _ => mret tt
      end
  | PBlockConsolidated _ _ _ => mret tt
  end.

Definition handle_p2p_requests (req : NodeReq.t) (res_chan : Chan) : h unit :=
  r ← to_node (ask_node NDB req);
  match r with Ok response => to_node (reply res_chan response) | Err _ => mret tt end.

Definition handle_playground_cmds (cmd : PlayCmd) : h unit :=
  match cmd with
  | GetNodeInfo connected tauri_response_sender =>
      r ← to_node (ask_node NDB NodeReq.GetStatus);
      match r with
      | Ok (NodeRes.GetStatus height db_hash) =>
          s ← get_state;
          emit (TauriTold tauri_response_sender (MkPlayNodeInfo connected db_hash height (leader s) node_id))
      | _ => mret tt
      end
  | HeightAfterReconnection height => to_node (tell_core BlockService (Msg.HeightFromPeer height))
  end.

Definition handle_p2p_event (event : P2PEvent) : h unit :=
  match ev_kind event with
  | EvMsg msg => handle_p2p_messages msg
  | EvReq req => res_chan ← expect (ev_res_chan event); handle_p2p_requests req res_chan
  | EvCmd cmd => handle_playground_cmds cmd
  end.

(** ** From the node *)
Definition handle_messages (msg : NodeMsg.t) : h unit :=
  match msg with
  | NodeMsg.BlockConsolidated block txs_hashes _ => s ← get_state; publish (PBlockConsolidated block (leader s) txs_hashes)
  | NodeMsg.PropagateBlockToPeers block confirmation txs_hashes => publish (Published (PBlock block confirmation txs_hashes))
  | NodeMsg.PropagateConfirmationToPeers confirmation => publish (Published (PConfirmation confirmation))
  | NodeMsg.PropagateOldTxs txs => publish (Published (POldTransactions txs))
  | NodeMsg.PropagateTxToPeers tx => publish (Published (PTransaction tx))
  | NodeMsg.ExecuteBlock _ _ _ | NodeMsg.StartBlockConsolidation _ _ _ | NodeMsg.VerifyIfConsolidated _ _ => mret tt
  end.

Definition get_neighbors_from_playground : h (list string) :=
  r ← ask_playground node_id NodeReq.GetNeighbors;
  mret (match r with Ok (NodeRes.GetNeighbors neighbors) => neighbors | _ => [] end).

(** What a neighbor answers is given to the service that asked. *)
Definition forward (neighbor : string) (req : NodeReq.t) (res_chan : Chan) : h unit :=
  r ← ask_playground neighbor req;
  match r with Ok response => to_node (reply res_chan response) | Err _ => mret tt end.

Definition handle_requests (req : NodeReq.t) (res_chan : Chan) : h unit :=
  match req with
  | NodeReq.GetFullBlock _ trusted_peers =>
      neighbor ← expect (trusted_peers !! Z.to_nat (random_number_in_range_from_zero (len trusted_peers -u64 1)));
      forward neighbor req res_chan
  | NodeReq.GetLastBlockInfo neighbor => forward neighbor req res_chan
  | NodeReq.GetNeighbors =>
      neighbors ← get_neighbors_from_playground;
      to_node (reply res_chan (NodeRes.GetNeighbors neighbors))
  | NodeReq.GetTxs _ | NodeReq.GetConfirmations _ _ _ =>
      neighbors ← get_neighbors_from_playground;
      if bool_decide (neighbors = []) then mret tt
      else
        neighbor ← expect (neighbors !! Z.to_nat (random_number_in_range_from_zero (len neighbors -u64 1)));
        forward neighbor req res_chan
  | _ => mret tt
  end.

Definition handle_int_comm (comm : NodeComm) : h unit :=
  match n_kind comm with
  | NMsg msg => handle_messages msg
  | NReq req => res_chan ← expect (n_res_chan comm); handle_requests req res_chan
  end.

(** ** The leader *)
Definition update_seed (previous_block_hash txs_hash rxs_hash : Hash) (seed : SeedSource.t) : SeedSource.t :=
  SeedSource.Mk (SeedSource.nonce seed) (SeedSource.nw_name seed) 0 previous_block_hash txs_hash rxs_hash.

Definition calculate_new_leader (block : Block) (new_players : Players.t) : h unit :=
  modify (set_players new_players) ;;
  s ← get_state;
  d ← expect (DRand.new (seed s));
  modify (set_drand d) ;;
  '(index, d) ← expect (DRand.rand (Players.total_weight new_players -u64 1) d);
  modify (set_drand d) ;;
  new_leader ← expect (Players.get_weighted_player_ids new_players !! Z.to_nat index);
  modify (set_leader new_leader) ;;
  let d := block_data block in
  modify (fun s => set_seed (update_seed (block_hash block) (bd_txs_hash d) (bd_rxs_hash d) (seed s)) s).

(** ** The loop: the leader is computed first, by the loop itself; each event has a thread with a copy of
    the state. *)
Inductive Input : Type :=
| FromPlayground (event : P2PEvent)
| Internal (comm : NodeComm).

Definition step (i : Input) : h unit :=
  match i with
  | FromPlayground event => handle_p2p_event event
  | Internal comm =>
      (match n_kind comm with
       | NMsg (NodeMsg.BlockConsolidated block _ players) => calculate_new_leader block players
       | _ => mret tt
       end) ;;
      handle_int_comm comm
  end.

Definition run (inputs : list Input) : h unit := for_each inputs step.

(** ** The start *)

(** The hash the seed starts with, in bytes *)
Definition first_hash : list Z :=
  [18; 32; 212; 255; 46; 148; 185; 186; 147; 194; 189; 79; 94; 56; 62; 235; 92; 80; 34; 253; 74; 34; 50; 133; 98; 156; 254; 44;
   134; 237; 72; 134; 247; 48].

(** [None] is a panic: no player, or a seed that cannot be computed. *)
Definition initial (players : Players.t) : option t :=
  h ← (match Hashes.from_bytes first_hash with Ok h => Some h | Err _ => None end);
  let seed_source := SeedSource.new [0; 0; 0; 0; 0; 0; 0; 0] "bootstrap" h h h in
  d ← DRand.new seed_source;
  leader ← head (Players.players_ids players);
  Some (Mk d leader players seed_source).

(** A node that joins asks the one it was given for its height. *)
Definition start (bootstrap_peer_id : option string) : h unit :=
  match bootstrap_peer_id with
  | Some bootstrap_peer_id =>
      r ← ask_playground bootstrap_peer_id NodeReq.GetHeight;
      match r with
      | Ok (NodeRes.GetHeight height) => to_node (tell_core BlockService (Msg.HeightFromPeer height))
      | _ => mret tt
      end
  | None => mret tt
  end.
End service.
End PlaygroundInterface.
