(* ===== verification/PlaygroundTheorems.v ===== *)
(** * The playground's side of a node: the leader it shows, and its errors *)

From stdpp Require Import base gmap strings list fin_maps.
From S2P Require Import Prelude.
From S2P Require Import Exec.
From S2P Require Import Hash.
From S2P Require Import Crypto.
From S2P Require Import CoreModels.
From S2P Require Import DRand.
From S2P Require Import Samples.
From S2P Require Import Messages.
From S2P Require Import DRandService.
From S2P Require Import NodeModels.
From S2P Require Import NodeMessages.
From S2P Require Import PlaygroundInterface.
Open Scope Z_scope.
Import PlaygroundInterface.

Section leader.
Context `{Hdig : Digest} `{Hpcg : Pcg} `{!MsgPack BlockData}.

(** What the consensus of a node sends its random numbers when it draws the leader that follows a block *)
Definition draw_after (block : Block) (players : Players.t) (to : Service) : list (Comm unit unit unit unit) :=
  let d := block_data block in
  [MkComm (KMsg (Msg.UpdateSeedSource (block_hash block) (bd_txs_hash d) (bd_rxs_hash d))) None;
   MkComm (KReq (Req.GetDRandNum (Players.total_weight players -u64 1))) (Some to)].

(** A leader that is computed comes from the seed as it was; the seed is replaced after. *)
Lemma calculate_new_leader_spec b p (w w' : world t effect NodeAnswer) : calculate_new_leader b p w = Ret tt w' ->
  exists d i d' l, DRand.new (seed (w_state w)) = Some d /\ DRand.rand (Players.total_weight p -u64 1) d = Some (i, d') /\
    Players.get_weighted_player_ids p !! Z.to_nat i = Some l /\
    w_state w' = Mk d' l p (update_seed (block_hash b) (bd_txs_hash (block_data b)) (bd_rxs_hash (block_data b)) (seed (w_state w))).
Proof.
  destruct w as [s ans clk out]. unfold calculate_new_leader, modify, get_state, mbind, M_bind. cbn.
  destruct (DRand.new (seed s)) as [d|]; [|done]. cbn. destruct (DRand.rand _ d) as [[i d']|] eqn:Ei; [|done]. cbn.
  destruct (Players.get_weighted_player_ids p !! Z.to_nat i) as [l|] eqn:El; [|done]. cbn. intros [= <-].
  by exists d, i, d', l.
Qed.

(** The leader shown once a block is consolidated is the one that the random numbers
    of a node of the same network give after the block before it: the interface draws, and
    replaces the hashes of its seed only then. *)
Theorem leader_lags b1 p1 b2 p2 (w w1 w2 : world t effect NodeAnswer) (c : DRandService.t) clock to :
  calculate_new_leader b1 p1 w = Ret tt w1 -> calculate_new_leader b2 p2 w1 = Ret tt w2 ->
  SeedSource.nonce (DRand.seed (DRandService.drand c)) = SeedSource.nonce (seed (w_state w)) ->
  SeedSource.nw_name (DRand.seed (DRandService.drand c)) = SeedSource.nw_name (seed (w_state w)) ->
  exists n c', DRandService.run (draw_after b1 p2 to) (World c [] clock []) = Ret tt c' /\
    w_out c' = [Replied to (Res.GetDRandNum n)] /\
    Players.get_weighted_player_ids p2 !! Z.to_nat n = Some (leader (w_state w2)).
Proof.
  intros (d1 & i1 & d1' & l1 & _ & _ & _ & Hs1)%calculate_new_leader_spec
    (d & i & d' & l & Hd & Hi & Hl & Hs2)%calculate_new_leader_spec Hn Hw.
  rewrite Hs1 in Hd. rewrite Hs2. exists i. destruct c as [[g src] id]. cbn in Hd, Hn, Hw |- *.
  unfold DRandService.run, run_loop, draw_after, DRandService.step, dispatch, modify, gets, mbind, M_bind. cbn.
  unfold DRand.update_seed_source. cbn. unfold update_seed in Hd. rewrite Hn, Hw, Hd. cbn. rewrite Hi. cbn. by eexists.
Qed.

End leader.

Lemma not_panicked {S E R} (m : M S E R unit) w : panicked (m w) = false -> m w = Ret tt (exec_world (m w)).
Proof. by destruct (m w) as [[] w'|w']. Qed.

(** ** Witnesses *)
Module PlaygroundSample.
#[local] Existing Instances Samples.digest Samples.pcg.
#[local] Instance block_pack : MsgPack BlockData := {| msgpack := fun d => [bd_height d] |}.

Definition players : Players.t := Players.Mk ["a"; "b"; "c"] [1; 1; 1].
Definition block (n : Z) : Block := MkBlock (MkBlockData None n 1 (Samples.hash n) (Samples.hash (n + 1)) (Samples.hash 3) (Samples.hash 4) n) [].
Definition start : world t effect NodeAnswer :=
  match initial players with Some s => World s [] (0, []) [] | None => World (Mk (DRand.Mk 0 Samples.seed_source) "" players Samples.seed_source) [] (0, []) [] end.
Definition shown (blocks : list Block) : string :=
  leader (w_state (exec_world (for_each blocks (fun b => calculate_new_leader b players) start))).

(** The last block is the same; the leader shown is not. *)
Theorem leader_of_the_block_before : shown [block 3; block 1] = "b" /\ shown [block 6; block 1] = "c".
Proof. split; vm_compute; reflexivity. Qed.

(** The random numbers of another node of the network, which had other blocks before *)
Definition node : DRandService.t :=
  DRandService.Mk (DRand.Mk 0 (SeedSource.new (replicate 8 0) "bootstrap" (Samples.hash 9) (Samples.hash 9) (Samples.hash 9))) "n".

Lemma leader_lags_witness :
  exists n c', DRandService.run (draw_after (block 3) players ConsensusService) (World node [] (0, []) []) = Ret tt c' /\
    w_out c' = [Replied ConsensusService (Res.GetDRandNum n)] /\ Players.get_weighted_player_ids players !! Z.to_nat n = Some "b".
Proof.
  set (w1 := exec_world (calculate_new_leader (block 3) players start)).
  set (w2 := exec_world (calculate_new_leader (block 1) players w1)).
  assert (Hp1 : panicked (calculate_new_leader (block 3) players start) = false) by (vm_compute; reflexivity).
  assert (Hp2 : panicked (calculate_new_leader (block 1) players w1) = false) by (vm_compute; reflexivity).
  assert (Hl : leader (w_state w2) = "b") by (vm_compute; reflexivity).
  rewrite <- Hl. apply (leader_lags (block 3) players (block 1) players start w1 w2).
  - exact (not_panicked _ _ Hp1).
  - exact (not_panicked _ _ Hp2).
  - vm_compute; reflexivity.
  - vm_compute; reflexivity.
Defined.
End PlaygroundSample.
