(* ===== verification/Panopticon.v ===== *)
(** * The network of the playground ([trinci-playground/src-tauri/src/panopticon.rs], the commands of
    [messages.rs] and the events of [utils.rs])

    The nodes of the playground are threads of one process; the panopticon holds their
    channels, says who is the neighbor of whom, forwards what they publish and what they ask,
    and counts blocks and messages for display. *)

From stdpp Require Import base gmap strings list fin_maps.
From S2P Require Import Prelude.
From S2P Require Import Exec.
From S2P Require Import Hash.
From S2P Require Import Crypto.
From S2P Require Import CoreModels.
From S2P Require Import DRand.
From S2P Require Import Messages.
From S2P Require Import NodeModels.
From S2P Require Import NodeMessages.
From S2P Require Import PlaygroundInterface.
Open Scope Z_scope.

Module Panopticon.
Definition MAX_NEIGHBORS : nat := 5.
Definition MEMENTO_DATA_MAX_AGE_S : Z := 30.
Definition WINDOW_SIZE_S : Z := 5.

Record KadPeerStatus : Type := MkStatus { connected : bool; removed : bool }.

(** ** Who is whose neighbor *)

(** The place of an id among those that count *)
Fixpoint position (id : string) (kad : list string) : option nat :=
  match kad with
  | [] => None
  | peer_id :: kad => if bool_decide (peer_id = id) then Some 0%nat else S <$> position id kad
  end.

(** The half of the neighbors to the right of the place of the node on the ring, and the rest to the left *)
Definition neighbors_at (kad : list string) (k pos : nat) : list string :=
  let k := if (length kad <=? k)%nat then pred (length kad) else k in
  let l_half_k := (k / 2)%nat in
  let r_half_k := (k - l_half_k)%nat in
  omap (fun j => kad !! ((length kad + j + pos + 1) mod length kad)%nat) (seq 0 r_half_k) ++
  omap (fun j => kad !! ((length kad - j + pos - 1) mod length kad)%nat) (seq 0 l_half_k).

Section panopticon.
Context `{Hdig : Digest} `{Hring : Ring} `{!MsgPack TransactionData, !MsgPack BlockData} `{!HashMapIter string}.
(** The hash of a payload; what the generator draws for an index up to a maximum; the value of
    [EMIT_EVENTS], if it is set; what the file of the players holds; the key the transactions
    of the tests are signed with, if the file opens, and its random numbers and nonces *)
Context (comm_hash : PlayPayload -> Z) (draw : Z -> Z) (emit_events : option string) (players_file : option Players.t)
  (test_key : option Keys.TrinciKeyPair) (rnd : Z) (test_nonce : list Z).

Record SamplingMeter : Type := MkSampling {
  avg_txs_in_sec : Z;
  avg_blocks_in_sec : Z;
  sm_timestamp : Z;
  txs_in_window : Z;
  blocks_in_window : Z
}.
Record PanopticonMeter : Type := MkMeter {
  m_blocks : gmap Z Z;
  txs_executed_count : Z;
  blocks_executed_count : Z;
  exchanged_msgs_count : Z;
  sampling : SamplingMeter
}.

Record t : Type := Mk {
  kad : gmap string KadPeerStatus;
  last_height : Z;
  memento : gmap string (gmap Z Z);
  node_channels : gmap string Chan;
  panopticon_meter : PanopticonMeter
}.
Definition set_kad (x : gmap string KadPeerStatus) (s : t) : t := Mk x (last_height s) (memento s) (node_channels s) (panopticon_meter s).
Definition set_last_height (x : Z) (s : t) : t := Mk (kad s) x (memento s) (node_channels s) (panopticon_meter s).
Definition set_memento (x : gmap string (gmap Z Z)) (s : t) : t := Mk (kad s) (last_height s) x (node_channels s) (panopticon_meter s).
Definition set_meter (x : PanopticonMeter) (s : t) : t := Mk (kad s) (last_height s) (memento s) (node_channels s) x.

(** A message of a node, and the node it is for *)
Abbreviation NodeComm := (P2PEvent * option string)%type.

Inductive UiEvent : Type :=
| NewNodeRunning (leader : string)
| NodeConnected
| NodeMessageIn (comm : NodeComm)
| NodeChangedLeader (leader_id : string)
| BlockExecuted (hash : Hash) (height : Z) (n_txs : Z)
| PlaygroundStatsRefresh (meter : PanopticonMeter).

Inductive effect : Type :=
| Emitted (node_id : string) (event : UiEvent)
| ToNode (to : Chan) (comm : NodeComm)
| Replied (to : Chan) (neighbors : list string)
| TauriReplied (to : Chan) (neighbors : list string)
| RemovalLater (node_id : string)
| NodeStarted (node_id : string) (keypair : Keys.TrinciKeyPair) (players : Players.t) (receiver : Chan) (bootstrap : option string).

(** What a node says of itself when it is asked, if it answers in time *)
Abbreviation h := (M t effect (option PlayNodeInfo)).

(** [event_emitter]: the variable has to be set. *)
Definition emits (event : UiEvent) (value : string) : bool :=
  bool_decide (value = "true"%string) || match event with PlaygroundStatsRefresh _ => true | _ => false end.
Definition event_emitter (node_id : string) (event : UiEvent) : h unit :=
  value ← expect emit_events;
  when (emits event value) (emit (Emitted node_id event)).

Definition random_number_in_range_from_zero (max : Z) : Z := if max =? 0 then 0 else draw max.

(** A task that tells the interface of a message and passes it on; without the variable it dies first. *)
Definition deliver (node_id : string) (to : Chan) (comm : NodeComm) : h unit :=
  match emit_events with
  | Some value => when (emits (NodeMessageIn comm) value) (emit (Emitted node_id (NodeMessageIn comm))) ;; emit (ToNode to comm)
  | None => mret tt
  end.

(** ** The meter *)
Definition new_meter (now : Z) : PanopticonMeter := MkMeter ∅ 0 0 0 (MkSampling 0 0 now 0 0).
Definition is_window_expired (now : Z) (m : SamplingMeter) : bool := (sm_timestamp m +u64 WINDOW_SIZE_S) <? now.
(** [restart]; [None] is a division by zero. *)
Definition restart (now : Z) (m : SamplingMeter) : option SamplingMeter :=
  let time_spent := now -u64 sm_timestamp m in
  if time_spent =? 0 then None
  else Some (MkSampling (txs_in_window m / time_spent) (blocks_in_window m / time_spent) now 0 0).

Definition set_sampling (x : SamplingMeter) (m : PanopticonMeter) : PanopticonMeter :=
  MkMeter (m_blocks m) (txs_executed_count m) (blocks_executed_count m) (exchanged_msgs_count m) x.
Definition count_message (m : PanopticonMeter) : PanopticonMeter :=
  MkMeter (m_blocks m) (txs_executed_count m) (blocks_executed_count m) (exchanged_msgs_count m +u64 1) (sampling m).
(** A block that was not seen counts, if it has transactions. *)
Definition count_block (height n_txs : Z) (m : PanopticonMeter) : PanopticonMeter :=
  match m_blocks m !! height with
  | Some _ => m
  | None =>
      let blocks := <[height := n_txs]> (m_blocks m) in
      if n_txs =? 0 then MkMeter blocks (txs_executed_count m) (blocks_executed_count m) (exchanged_msgs_count m) (sampling m)
      else
        let w := sampling m in
        MkMeter blocks (txs_executed_count m +u64 n_txs) (blocks_executed_count m +u64 1) (exchanged_msgs_count m)
          (MkSampling (avg_txs_in_sec w) (avg_blocks_in_sec w) (sm_timestamp w) (txs_in_window w +u64 n_txs) (blocks_in_window w +u64 1))
  end.

(** ** Neighbors *)
Definition kad_list (send_message : bool) (s : t) : list string :=
  omap (fun '(key, status) =>
          if (if send_message then connected status else negb (removed status)) : bool then Some key else None)
    (map_iter (kad s)).
Definition get_neighbors (k : nat) (node_id : string) (send_message : bool) (s : t) : option (list string) :=
  let kad := kad_list send_message s in
  pos ← position node_id kad;
  match neighbors_at kad k pos with [] => None | neighbors => Some neighbors end.

(** ** What was passed on lately *)
Definition in_memento (payload : PlayPayload) (node_id : string) : h bool :=
  let hash := comm_hash payload in
  now ← timestamp;
  s ← get_state;
  peer_memento ← expect (memento s !! node_id);
  let record := modify (fun s => set_memento (<[node_id := <[hash := now]> peer_memento]> (memento s)) s) in
  match peer_memento !! hash with
  | Some record_timestamp => if MEMENTO_DATA_MAX_AGE_S <? now -u64 record_timestamp then record ;; mret false else mret true
  | None => record ;; mret false
  end.

(** ** Messages of the nodes *)

(** The loop over the neighbors; [true] when it returned: at the first one that has the message already. *)
Fixpoint pass_on (payload : PlayPayload) (comm : NodeComm) (peers : list string) : h bool :=
  match peers with
  | [] => mret false
  | peer :: peers =>
      modify (fun s => set_meter (count_message (panopticon_meter s)) s) ;;
      known ← in_memento payload peer;
      if known : bool then mret true
      else
        s ← get_state;
        to ← expect (node_channels s !! peer);
        deliver peer to comm ;;
        pass_on payload comm peers
  end.

Definition gossip (payload : PlayPayload) (comm : NodeComm) : h unit :=
  s ← get_state;
  let peers := List.filter (fun peer => negb (bool_decide (peer = from (fst comm))))
                 (default [] (get_neighbors MAX_NEIGHBORS (from (fst comm)) true s)) in
  returned ← pass_on payload comm peers;
  if returned : bool then mret tt else _ ← in_memento payload (from (fst comm)); mret tt.

Definition handle_nodes_messages (payload : PlayPayload) (comm : NodeComm) : h unit :=
  match payload with
  | PBlockConsolidated light_block leader_id txs_hashes =>
      s ← get_state;
      let height := bd_height (block_data light_block) in
      when (last_height s <? height)
        (modify (set_last_height height) ;; event_emitter (from (fst comm)) (NodeChangedLeader leader_id)) ;;
      event_emitter (from (fst comm)) (BlockExecuted (block_hash light_block) height (len txs_hashes))
  | Published (PBlock light_block _ txs_hashes) =>
      modify (fun s => set_meter (count_block (bd_height (block_data light_block)) (len txs_hashes) (panopticon_meter s)) s) ;;
      gossip payload comm
  | Published _ => gossip payload comm
  end.

Definition handle_nodes_requests (req : NodeReq.t) (comm : NodeComm) : h unit :=
  match req, snd comm with
  | NodeReq.GetNeighbors, _ =>
      s ← get_state;
      res_chan ← expect (ev_res_chan (fst comm));
      emit (Replied res_chan (default [] (get_neighbors MAX_NEIGHBORS (from (fst comm)) true s)))
  | _, Some neighbor =>
      modify (fun s => set_meter (count_message (panopticon_meter s)) s) ;;
      s ← get_state;
      to ← expect (node_channels s !! neighbor);
      deliver neighbor to comm
  | _, None => mret tt
  end.

Definition handle_nodes_comms (comm : NodeComm) : h unit :=
  s ← get_state;
  match kad s !! from (fst comm) with
  | Some status =>
      if connected status then
        match ev_kind (fst comm) with
        | EvCmd _ => mret tt
        | EvMsg msg => handle_nodes_messages msg comm
        | EvReq req => handle_nodes_requests req comm
        end
      else mret tt
  | None => mret tt
  end.

(** ** Commands *)
Inductive PanopticonCommand : Type :=
| CleanMemento
| GetNeighborsOf (node_id : string) (to_tauri : Chan)
| GetNodeInfoOf (node_id : string) (to_tauri : Chan)
| MeterInfoRefresh
| NewNode (node_id : string) (keypair : Keys.TrinciKeyPair) (bootstrap_node_id : option string)
| ReloadNodes (to_tauri : Chan)
| RemoveNodeFromKad (node_id : string)
| SendTx (node_id : string)
| SwitchNode (node_id : string).

Definition command (kind : PlayCmd) : NodeComm := (MkP2PEvent "Playground" (EvCmd kind) None, None).

(** [channels] numbers the channels of the nodes as they are made. *)
Definition new_node (node_id : string) (bootstrap_node_id : option string) (keypair : Keys.TrinciKeyPair) : h unit :=
  s ← get_state;
  match node_channels s !! node_id with
  | Some _ => mret tt
  | None =>
      let channel := map_len (node_channels s) in
      modify (fun s => Mk (<[node_id := MkStatus true false]> (kad s)) (last_height s) (<[node_id := ∅]> (memento s))
                         (<[node_id := channel]> (node_channels s)) (panopticon_meter s)) ;;
      match players_file, emit_events with
      | Some players, Some value =>
          match Players.players_ids players with
          | leader :: _ =>
              when (emits (NewNodeRunning leader) value) (emit (Emitted node_id (NewNodeRunning leader))) ;;
              emit (NodeStarted node_id keypair players channel bootstrap_node_id)
          | [] => mret tt
          end
      | _, _ => mret tt
      end
  end.

Definition set_node_status (node_id : string) (status : KadPeerStatus) : h unit :=
  modify (fun s => set_kad (<[node_id := status]> (kad s)) s).

(** A node that comes back is told the height of one of its neighbors. *)
Definition catch_up (node_id : string) : h unit :=
  s ← get_state;
  match get_neighbors MAX_NEIGHBORS node_id true s with
  | None => mret tt
  | Some neighbors =>
      neighbor ← expect (neighbors !! Z.to_nat (random_number_in_range_from_zero (len neighbors - 1)));
      to ← expect (node_channels s !! neighbor);
      emit (ToNode to (command (GetNodeInfo true 0))) ;;
      a ← next_answer;
      match a with
      | Some (Some node_info) =>
          to ← expect (node_channels s !! node_id);
          emit (ToNode to (command (HeightAfterReconnection (pn_height node_info))))
      | _ => mret tt
      end
  end.

Definition switch_node (node_id : string) : h unit :=
  s ← get_state;
  match kad s !! node_id with
  | None => mret tt
  | Some status =>
      if connected status then
        set_node_status node_id (MkStatus false (removed status)) ;;
        emit (RemovalLater node_id)
      else
        set_node_status node_id (MkStatus true false) ;;
        event_emitter node_id NodeConnected ;;
        catch_up node_id
  end.

(** The transaction of a test *)
Definition test_tx (keypair : Keys.TrinciKeyPair) : Transaction :=
  let tx_data := V1 (MkV1 "TEST" 1000 test_nonce "QmV6PKMHxVQUvrXMikA8Eor1AAGKExD1kHi2GBxD2sXJzL" None "TEST" (Keys.public_key keypair) []) in
  UnitTransaction (MkSigned tx_data (match Keys.sign rnd keypair (msgpack tx_data) with Ok sig => sig | Err _ => [] end)).

(** A task that sends the message and then tells the interface *)
Definition send_then_tell (node_id : string) (to : Chan) (comm : NodeComm) : h unit :=
  emit (ToNode to comm) ;;
  match emit_events with
  | Some value => when (emits (NodeMessageIn comm) value) (emit (Emitted node_id (NodeMessageIn comm)))
  | None => mret tt
  end.

Definition ask_info (node_id : string) (to to_tauri : Chan) : h unit :=
  s ← get_state;
  status ← expect (kad s !! node_id);
  emit (ToNode to (command (GetNodeInfo (connected status) to_tauri))).

Definition handle_panopticon_commands (cmd : PanopticonCommand) : h unit :=
  match cmd with
  | CleanMemento => modify (fun s => set_memento (fmap (fun _ => ∅) (memento s)) s)
  | GetNeighborsOf node_id to_tauri =>
      s ← get_state;
      match get_neighbors MAX_NEIGHBORS node_id false s with
      | Some neighbors => emit (TauriReplied to_tauri neighbors)
      | None => mret tt
      end
  | NewNode node_id keypair bootstrap_node_id => new_node node_id bootstrap_node_id keypair
  | SendTx node_id =>
      s ← get_state;
      if (match kad s !! node_id with Some status => negb (connected status) | None => false end) then mret tt
      else
        keypair ← expect test_key;
        match node_channels s !! node_id with
        | Some to => send_then_tell node_id to (MkP2PEvent "Playground" (EvMsg (Published (PTransaction (test_tx keypair)))) None, None)
        | None => mret tt
        end
  | SwitchNode node_id => switch_node node_id
  | RemoveNodeFromKad node_id =>
      s ← get_state;
      match kad s !! node_id with
      | Some status => if connected status then mret tt else set_node_status node_id (MkStatus false true)
      | None => mret tt
      end
  | GetNodeInfoOf node_id to_tauri =>
      s ← get_state;
      match node_channels s !! node_id with Some to => ask_info node_id to to_tauri | None => mret tt end
  | ReloadNodes to_tauri =>
      s ← get_state;
      for_each (map_iter (node_channels s)) (fun '(node_id, to) => ask_info node_id to to_tauri)
  | MeterInfoRefresh =>
      now ← timestamp;
      s ← get_state;
      (if is_window_expired now (sampling (panopticon_meter s)) then
         m ← expect (restart now (sampling (panopticon_meter s)));
         modify (fun s => set_meter (set_sampling m (panopticon_meter s)) s)
       else mret tt) ;;
      s ← get_state;
      event_emitter "Panopticon" (PlaygroundStatsRefresh (panopticon_meter s))
  end.

(** ** The loop *)
Inductive Input : Type :=
| InCommand (cmd : PanopticonCommand)
| InComm (comm : NodeComm).

Definition step (i : Input) : h unit :=
  match i with InCommand cmd => handle_panopticon_commands cmd | InComm comm => handle_nodes_comms comm end.
Definition run (inputs : list Input) : h unit := for_each inputs step.
Definition initial (now : Z) : t := Mk ∅ 0 ∅ ∅ (new_meter now).
End panopticon.
End Panopticon.
