(* ===== verification/PanopticonTheorems.v ===== *)
(** * The network of the playground: neighbors, and what reaches whom *)

From stdpp Require Import base gmap strings list fin_maps.
From Stdlib Require Import Sorting.Sorted.
From S2P Require Import Prelude.
From S2P Require Import Exec.
From S2P Require Import Hash.
From S2P Require Import Crypto.
From S2P Require Import CoreModels.
From S2P Require Import DRand.
From S2P Require Import Samples.
From S2P Require Import Messages.
From S2P Require Import NodeModels.
From S2P Require Import NodeMessages.
From S2P Require Import PlaygroundInterface.
From S2P Require Import Panopticon.
Open Scope Z_scope.
Import Panopticon.

(** ** The ring of the nodes *)

Lemma position_lookup id kad pos : position id kad = Some pos -> kad !! pos = Some id.
Proof.
  revert pos. induction kad as [|x kad IH]; intros pos; [done|]. cbn [position]. case_bool_decide as Hx; [by intros [= <-]; subst|].
  destruct (position id kad) as [n|]; [|done]. intros [= <-]. by apply IH.
Qed.

Lemma position_elem id kad : id ∈ kad -> is_Some (position id kad).
Proof.
  induction kad as [|x kad IH]; [by intros ?%elem_of_nil|]. intros Hin. cbn [position]. case_bool_decide as Hx; [by eexists|].
  apply elem_of_cons in Hin as [->|Hin]; [done|]. destruct (IH Hin) as [n ->]. by eexists.
Qed.

(** How far the neighbors are to the right of the node *)
Definition offsets (n k : nat) : list nat :=
  let k := if (n <=? k)%nat then pred n else k in
  map (fun j => (j + 1)%nat) (seq 0 (k - k / 2)) ++ map (fun j => (n - (j + 1))%nat) (seq 0 (k / 2)).

Lemma offsets_length n k : (0 < n)%nat -> length (offsets n k) = Nat.min k (pred n).
Proof.
  intros Hn. unfold offsets. rewrite length_app, !length_map, !length_seq. pose proof (Nat.Div0.div_le_upper_bound k 2 k).
  destruct (Nat.leb_spec n k); pose proof (Nat.Div0.div_le_upper_bound (pred n) 2 (pred n)); lia.
Qed.

Lemma offsets_range n k : Forall (fun o => (1 <= o < n)%nat) (offsets n k).
Proof.
  unfold offsets. apply Forall_app. set (k' := if (n <=? k)%nat then pred n else k).
  assert (Hk : (k' <= pred n)%nat) by (unfold k'; destruct (Nat.leb_spec n k); lia). clearbody k'.
  pose proof (Nat.Div0.div_le_upper_bound k' 2 k'). split; apply Forall_map, Forall_forall; intros j Hj%elem_of_seq; simpl; lia.
Qed.

Lemma offsets_NoDup n k : NoDup (offsets n k).
Proof.
  unfold offsets. set (k' := if (n <=? k)%nat then pred n else k).
  assert (Hk : (k' <= pred n)%nat) by (unfold k'; destruct (Nat.leb_spec n k); lia). clearbody k'.
  pose proof (Nat.Div0.div_le_upper_bound k' 2 k') as Hd. apply NoDup_app. split_and!.
  - apply NoDup_fmap_2_strong; [intros x y _ _; lia|apply NoDup_seq].
  - intros x Hx Hy. apply list_elem_of_fmap in Hx as (i & -> & Hi%elem_of_seq). apply list_elem_of_fmap in Hy as (j & Hij & Hj%elem_of_seq). lia.
  - apply NoDup_fmap_2_strong; [|apply NoDup_seq]. intros x y Hx%elem_of_seq Hy%elem_of_seq. lia.
Qed.

Lemma omap_map {A B C} (f : B -> option C) (g : A -> B) (l : list A) : omap f (map g l) = omap (fun x => f (g x)) l.
Proof. induction l as [|x l IH]; [done|]. csimpl. by rewrite IH. Qed.

Lemma omap_ext_in {A B} (f g : A -> option B) (l : list A) : (forall x, x ∈ l -> f x = g x) -> omap f l = omap g l.
Proof.
  induction l as [|x l IH]; [done|]. intros H. csimpl. rewrite (H x); [|by left]. rewrite IH; [done|].
  intros y Hy. apply H. by right.
Qed.

(** The neighbors are the nodes at these places. *)
Lemma neighbors_at_offsets kad k pos : (pos < length kad)%nat ->
  neighbors_at kad k pos = omap (fun o => kad !! ((pos + o) mod length kad)%nat) (offsets (length kad) k).
Proof.
  intros Hp. unfold neighbors_at, offsets. set (k' := if (length kad <=? k)%nat then pred (length kad) else k).
  assert (Hk : (k' <= pred (length kad))%nat) by (unfold k'; destruct (Nat.leb_spec (length kad) k); lia). clearbody k'.
  pose proof (Nat.Div0.div_le_upper_bound k' 2 k') as Hd. rewrite omap_app. f_equal.
  - rewrite omap_map. apply omap_ext_in. intros j Hj. simpl. f_equal.
    replace (length kad + j + pos + 1)%nat with (pos + (j + 1) + 1 * length kad)%nat by lia. by rewrite Nat.Div0.mod_add.
  - rewrite omap_map. apply omap_ext_in. intros j Hj%elem_of_seq. simpl. do 2 f_equal. lia.
Qed.

(** Places on a ring of [n] *)
Lemma ring_place n pos o : (pos < n)%nat -> (o < n)%nat ->
  ((pos + o) mod n = if pos + o <? n then pos + o else pos + o - n)%nat.
Proof.
  intros Hp Ho. destruct (Nat.ltb_spec (pos + o) n); [by rewrite Nat.mod_small|].
  symmetry. apply (Nat.mod_unique _ _ 1); lia.
Qed.

(** The elements of a list at some places *)
Lemma omap_lookup_NoDup {A} (kad : list A) ps : NoDup kad -> NoDup ps -> Forall (fun i => (i < length kad)%nat) ps ->
  NoDup (omap (fun i => kad !! i) ps) /\ length (omap (fun i => kad !! i) ps) = length ps /\
  forall x, x ∈ omap (fun i => kad !! i) ps <-> exists i, i ∈ ps /\ kad !! i = Some x.
Proof.
  intros Hk Hn Hf. induction Hn as [|i ps Hi Hn IH].
  - split_and!; [constructor|done|]. intros x. split; [by intros ?%elem_of_nil|]. by intros (i & ?%elem_of_nil & _).
  - apply Forall_cons in Hf as [Hl Hf]. destruct (IH Hf) as (H1 & H2 & H3). apply lookup_lt_is_Some in Hl as [x Hx].
    csimpl. rewrite Hx. split_and!.
    + apply NoDup_cons. split; [|done]. intros (j & Hj & Hjx)%H3. by rewrite (NoDup_lookup kad i j x Hk Hx Hjx) in Hi.
    + simpl. by rewrite H2.
    + intros y. rewrite elem_of_cons, H3. split.
      * intros [->|(j & Hj & ?)]; [exists i|exists j]; (split; [rewrite elem_of_cons; tauto|done]).
      * intros (j & [->|Hj]%elem_of_cons & Hy); [left; congruence|right; by exists j].
Qed.

(** The neighbors are other nodes, each once, and as many as asked or as there are. *)
Lemma neighbors_at_spec kad k pos id : NoDup kad -> kad !! pos = Some id ->
  NoDup (neighbors_at kad k pos) /\ ~ (id ∈ neighbors_at kad k pos) /\
  length (neighbors_at kad k pos) = Nat.min k (pred (length kad)) /\ (forall x, x ∈ neighbors_at kad k pos -> x ∈ kad).
Proof.
  intros Hl Ep. pose proof (lookup_lt_Some _ _ _ Ep) as Hp.
  rewrite neighbors_at_offsets, <- (omap_map (fun i => kad !! i)) by done.
  set (ps := map (fun o => ((pos + o) mod length kad)%nat) (offsets (length kad) k)).
  pose proof (offsets_range (length kad) k) as Hr. rewrite Forall_forall in Hr.
  assert (Hps : forall i, i ∈ ps -> (i < length kad)%nat /\ i <> pos).
  { intros i (o & -> & Ho%Hr)%list_elem_of_fmap. rewrite ring_place by lia. case_match; rewrite ?Nat.ltb_lt, ?Nat.ltb_ge in *; lia. }
  destruct (omap_lookup_NoDup kad ps) as (H1 & H2 & H3); [done| |by apply Forall_forall; intros i Hi; apply Hps|].
  { apply NoDup_fmap_2_strong; [|apply offsets_NoDup]. intros x y Hx%Hr Hy%Hr. simpl.
    rewrite !ring_place by lia. repeat case_match; rewrite ?Nat.ltb_lt, ?Nat.ltb_ge in *; lia. }
  split_and!.
  - done.
  - intros (i & Hi & Hx)%H3. destruct (Hps i Hi) as [_ []]. by apply (NoDup_lookup kad i pos id).
  - rewrite H2. unfold ps. rewrite length_map. apply offsets_length. lia.
  - intros x (i & _ & Hx)%H3. by eapply list_elem_of_lookup_2.
Qed.

(** The nodes counted: each once, the connected ones for messages, those that were not removed for display *)
Lemma omap_fst_NoDup {A B} (f : A * B -> bool) (l : list (A * B)) : NoDup l.*1 ->
  NoDup (omap (fun '(k, x) => if f (k, x) then Some k else None) l).
Proof.
  induction l as [|[k x] l IH]; [constructor|]. csimpl. intros [Hk Hl]%NoDup_cons. destruct (f (k, x)); [|by apply IH].
  apply NoDup_cons. split; [|by apply IH]. intros ((k', x') & Hin & He)%list_elem_of_omap. apply Hk, list_elem_of_fmap.
  exists (k', x'). split; [|done]. by destruct (f (k', x')); simplify_eq/=.
Qed.

Section neighbors.
Context `{!HashMapIter string}.

Lemma kad_list_spec send_message (s : t) id :
  id ∈ kad_list send_message s <->
    exists status, kad s !! id = Some status /\ (if send_message then connected status else negb (removed status)) = true.
Proof.
  unfold kad_list. rewrite list_elem_of_omap. split.
  - intros ((k & st) & Hin%elem_of_map_iter & He). case_match; simplify_eq/=. by exists st.
  - intros (st & Hst & Hc). exists (id, st). rewrite Hc. split; [by apply elem_of_map_iter|done].
Qed.

Lemma kad_list_NoDup send_message (s : t) : NoDup (kad_list send_message s).
Proof.
  unfold kad_list. apply (omap_fst_NoDup (fun '(_, status) => if send_message then connected status else negb (removed status))).
  rewrite map_iter_perm. apply NoDup_fst_map_to_list.
Qed.

Definition counted (send_message : bool) (s : t) : nat := length (kad_list send_message s).

Lemma get_neighbors_Some k id send_message (s : t) ns : get_neighbors k id send_message s = Some ns ->
  NoDup ns /\ ~ (id ∈ ns) /\ length ns = Nat.min k (pred (counted send_message s)) /\ (forall x, x ∈ ns -> x ∈ kad_list send_message s).
Proof.
  unfold get_neighbors, counted. destruct (position id _) as [pos|] eqn:Ep; [|done]. apply position_lookup in Ep. simpl.
  destruct (neighbors_at_spec _ k pos id (kad_list_NoDup send_message s) Ep) as (H1 & H2 & H3 & H4).
  destruct (neighbors_at _ k pos); [done|]. by intros [= <-].
Qed.

(** A node that counts has the neighbors it asks for, or all the others. *)
Lemma get_neighbors_default k id send_message (s : t) : id ∈ kad_list send_message s ->
  NoDup (default [] (get_neighbors k id send_message s)) /\ ~ (id ∈ default [] (get_neighbors k id send_message s)) /\
  length (default [] (get_neighbors k id send_message s)) = Nat.min k (pred (counted send_message s)) /\
  (forall x, x ∈ default [] (get_neighbors k id send_message s) -> x ∈ kad_list send_message s).
Proof.
  intros [pos Ep]%position_elem. unfold get_neighbors, counted. rewrite Ep. apply position_lookup in Ep. simpl.
  destruct (neighbors_at_spec _ k pos id (kad_list_NoDup send_message s) Ep) as (H1 & H2 & H3 & H4).
  by destruct (neighbors_at _ k pos).
Qed.

(** When the others are not more than asked, they are all neighbors. *)
Lemma neighbors_others k id send_message (s : t) : id ∈ kad_list send_message s -> (counted send_message s <= S k)%nat ->
  id :: default [] (get_neighbors k id send_message s) ≡ₚ kad_list send_message s.
Proof.
  intros Hid Hk. destruct (get_neighbors_default k id send_message s Hid) as (H1 & H2 & H3 & H4).
  apply submseteq_length_Permutation.
  - apply NoDup_submseteq; [by apply NoDup_cons|]. intros x [->|Hx]%elem_of_cons; [done|by apply H4].
  - simpl. rewrite H3. unfold counted in *. lia.
Qed.

(** C36: the neighbors of a node are other nodes that count, each once: as many as asked, or
    all the others when they are fewer; a node that counts and is not alone has some. *)
Theorem neighbors_spec k id send_message (s : t) :
  match get_neighbors k id send_message s with
  | Some ns => NoDup ns /\ ~ (id ∈ ns) /\ length ns = Nat.min k (pred (counted send_message s)) /\ ns <> [] /\
      forall x, x ∈ ns -> x ∈ kad_list send_message s
  | None => ~ (id ∈ kad_list send_message s) \/ k = 0%nat \/ counted send_message s = 1%nat
  end.
Proof.
  destruct (get_neighbors k id send_message s) as [ns|] eqn:E.
  - destruct (get_neighbors_Some _ _ _ _ _ E) as (H1 & H2 & H3 & H4). split_and!; try done. intros ->.
    unfold get_neighbors in E. destruct (position _ _); [|done]. simpl in E. by destruct (neighbors_at _ _ _).
  - destruct (decide (id ∈ kad_list send_message s)) as [Hid|]; [right|by left].
    destruct (get_neighbors_default k id send_message s Hid) as (_ & _ & H & _). rewrite E in H. simpl in H.
    destruct k; [by left|right]. assert (0 < counted send_message s)%nat; [|lia].
    unfold counted. destruct (kad_list send_message s); [by apply elem_of_nil in Hid|simpl; lia].
Qed.
End neighbors.

(** ** The invariant of the network *)
Section invariant.
Context `{Hdig : Digest} `{Hring : Ring} `{!MsgPack TransactionData, !MsgPack BlockData} `{!HashMapIter string}.
Context (comm_hash : PlayPayload -> Z) (draw : Z -> Z) (emit_events : option string) (players_file : option Players.t)
  (test_key : option Keys.TrinciKeyPair) (rnd : Z) (test_nonce : list Z).
Context (Hdraw : forall max, 0 <= max -> 0 <= draw max <= max) (Hemit : is_Some emit_events) (Hkey : is_Some test_key).

Abbreviation pworld := (world t effect (option PlayNodeInfo)).
Abbreviation ph := (M t effect (option PlayNodeInfo)).

(** A reading of the clock that does not overflow when a few seconds are added to it *)
Definition sane (now : Z) : Prop := 0 <= now < 2 ^ 63.

(** Every node that counts has a memento and a channel, and a connected node was not removed. *)
Definition good (s : t) : Prop :=
  dom (memento s) = dom (kad s) /\ dom (node_channels s) = dom (kad s) /\
  sane (sm_timestamp (sampling (panopticon_meter s))) /\
  map_Forall (fun _ status => connected status && removed status = false) (kad s).

(** [names] are nodes of the network. *)
Definition Inv (names : gset string) (w : pworld) : Prop :=
  good (w_state w) /\ names ⊆ dom (kad (w_state w)) /\ sane (fst (w_clock w)) /\ Forall sane (snd (w_clock w)).

(** Total correctness with the same invariant before and after *)
Abbreviation keeping names m := (hoare (Inv names) m (fun _ => Inv names)).

Lemma keeping_ret {A} names (a : A) : keeping names (mret a : ph A).
Proof. by intros w Hw. Qed.
Lemma keeping_emit names (e : effect) : keeping names (emit e : ph unit).
Proof. by intros w Hw. Qed.
Lemma keeping_when names c (m : ph unit) : keeping names m -> keeping names (when c m).
Proof. destruct c; [done|]. intros _. apply keeping_ret. Qed.
Lemma keeping_bind {A B} names (m : ph A) (k : A -> ph B) :
  keeping names m -> (forall a, keeping names (k a)) -> keeping names (m ≫= k).
Proof. intros Hm Hk. by apply (hoare_bind _ _ (fun _ => Inv names)). Qed.
Lemma keeping_next_answer names : keeping names (next_answer : ph _).
Proof. intros w Hw. unfold next_answer. by destruct (w_answers w). Qed.
Lemma keeping_expect {A} names (o : option A) : is_Some o -> keeping names (expect o : ph A).
Proof. intros [a ->]. apply keeping_ret. Qed.
Lemma keeping_expect_bind {A B} names (a : A) (k : A -> ph B) : keeping names (k a) -> keeping names (expect (Some a) ≫= k).
Proof. done. Qed.
(** What a program reads names nodes of the network. *)
Lemma keeping_get {A} names (k : t -> ph A) :
  (forall s, good s -> names ⊆ dom (kad s) -> keeping (dom (kad s)) (k s)) -> keeping names (get_state ≫= k).
Proof.
  intros Hk w (Hg & Hn & Hc). specialize (Hk (w_state w) Hg Hn w (conj Hg (conj (reflexivity _) Hc))).
  rewrite bind_eq. unfold get_state. destruct (k (w_state w) w) as [a w'|w']; [|done]. cbv beta in Hk.
  destruct Hk as (Hg' & Hn' & Hc'). split; [done|]. split; [by etrans|done].
Qed.
Lemma keeping_modify names (f : t -> t) :
  (forall s, good s -> names ⊆ dom (kad s) -> good (f s) /\ names ⊆ dom (kad (f s))) -> keeping names (modify f : ph unit).
Proof. intros Hf w (Hg & Hn & Hc). destruct (Hf _ Hg Hn) as [Hg' Hn']. exact (conj Hg' (conj Hn' Hc)). Qed.
Lemma keeping_for_each {A} names (l : list A) (body : A -> ph unit) :
  (forall x, x ∈ l -> keeping names (body x)) -> keeping names (for_each l body).
Proof. apply hoare_for_each. Qed.
Lemma keeping_timestamp {A} names (k : Z -> ph A) :
  (forall now, sane now -> keeping names (k now)) -> keeping names (timestamp ≫= k).
Proof.
  intros Hk [s ans [n l] out] (Hg & Hn & Hc & Hl). rewrite bind_eq, timestamp_eq. apply Hk; [done|].
  split; [done|]. split; [done|]. simpl in *. destruct Hl; by split; simpl.
Qed.

Lemma good_channel (s : t) id : good s -> id ∈ dom (kad s) -> is_Some (node_channels s !! id).
Proof. intros (_ & Hn & _) Hid. by rewrite <- elem_of_dom, Hn. Qed.

Lemma event_emitter_keeps names id event : keeping names (event_emitter emit_events id event).
Proof. destruct Hemit as [v Hv]. unfold event_emitter. rewrite Hv. apply keeping_when, keeping_emit. Qed.

Lemma deliver_keeps names id to comm : keeping names (deliver emit_events id to comm).
Proof.
  unfold deliver. destruct emit_events; [|apply keeping_ret].
  apply keeping_bind; [apply keeping_when, keeping_emit|]. intros _. apply keeping_emit.
Qed.

Lemma count_message_keeps names : keeping names (modify (fun s => set_meter (count_message (panopticon_meter s)) s) : ph unit).
Proof. by apply keeping_modify. Qed.

Lemma in_memento_keeps names payload id : id ∈ names -> keeping names (in_memento comm_hash payload id).
Proof.
  intros Hid. unfold in_memento. apply keeping_timestamp. intros n Hn. intros w Hw.
  pose proof Hw as ((Hm & Hc & Hs & Hr) & Hd & Hw'). rewrite bind_eq. cbn [get_state].
  destruct (memento (w_state w) !! id) as [m|] eqn:Em.
  2: { apply not_elem_of_dom in Em. rewrite Hm in Em. by apply Em, Hd. }
  rewrite bind_eq. cbn [expect mret M_ret].
  assert (Hk : Inv names (upd (fun s => set_memento (<[id := <[comm_hash payload := n]> m]> (memento s)) s) w)).
  { split; [|done]. split; [|done]. simpl. rewrite dom_insert_L, Hm.
    apply subseteq_union_1_L, singleton_subseteq_l, Hd, Hid. }
  destruct (m !! comm_hash payload) as [r|]; [|exact Hk]. by destruct (_ <? _); [exact Hk|].
Qed.

Lemma pass_on_keeps names payload comm peers :
  (forall p, p ∈ peers -> p ∈ names) -> keeping names (pass_on comm_hash emit_events payload comm peers).
Proof.
  revert names. induction peers as [|p peers IH]; intros names Hp; [apply keeping_ret|]. cbn [pass_on].
  apply keeping_bind; [apply count_message_keeps|intros _].
  apply keeping_bind; [apply in_memento_keeps, Hp; by left|]. intros [|]; [apply keeping_ret|].
  apply keeping_get. intros s Hg Hn. apply keeping_bind; [apply keeping_expect, good_channel; [done|apply Hn, Hp; by left]|].
  intros to. apply keeping_bind; [apply deliver_keeps|intros _]. apply IH. intros q Hq. apply Hn, Hp. by right.
Qed.

Lemma kad_list_dom send_message (s : t) id : id ∈ kad_list send_message s -> id ∈ dom (kad s).
Proof. intros (st & Hst & _)%kad_list_spec. by apply elem_of_dom_2 in Hst. Qed.

Lemma neighbors_dom k id send_message (s : t) x : x ∈ default [] (get_neighbors k id send_message s) -> x ∈ dom (kad s).
Proof.
  destruct (get_neighbors k id send_message s) as [ns|] eqn:E; simpl; [|by intros ?%elem_of_nil].
  intros Hx. apply get_neighbors_Some in E as (_ & _ & _ & H). by eapply kad_list_dom, H.
Qed.

Lemma gossip_keeps names payload comm : from (fst comm) ∈ names -> keeping names (gossip comm_hash emit_events payload comm).
Proof.
  intros Hf. unfold gossip. apply keeping_get. intros s Hg Hn. apply keeping_bind.
  - apply pass_on_keeps. intros p [Hp _]%elem_of_filter_list. by eapply neighbors_dom.
  - intros [|]; [apply keeping_ret|]. apply keeping_bind; [by apply in_memento_keeps, Hn|]. intros _. apply keeping_ret.
Qed.

Lemma messages_keep names payload comm : from (fst comm) ∈ names -> keeping names (handle_nodes_messages comm_hash emit_events payload comm).
Proof.
  intros Hf. unfold handle_nodes_messages. destruct payload as [[]|]; try by apply gossip_keeps.
  - apply keeping_bind; [|intros _; by apply gossip_keeps]. apply keeping_modify. intros s Hg Hn. split; [|done].
    destruct Hg as (H1 & H2 & H3 & H4). split; [done|]. split; [done|]. split; [|done]. simpl. unfold count_block. by repeat case_match.
  - apply keeping_get. intros s Hg Hn. apply keeping_bind; [|intros _; apply event_emitter_keeps]. apply keeping_when, keeping_bind.
    + by apply keeping_modify.
    + intros _. apply event_emitter_keeps.
Qed.

(** What a node may ask: it says where the answer goes, and of a node of the network *)
Definition comm_ok (names : gset string) (comm : P2PEvent * option string) : Prop :=
  match ev_kind (fst comm) with
  | EvReq NodeReq.GetNeighbors => is_Some (ev_res_chan (fst comm))
  | EvReq _ => forall neighbor, snd comm = Some neighbor -> neighbor ∈ names
  | _ => True
  end.

Lemma forwarded_keeps names comm neighbor : neighbor ∈ names ->
  keeping names (modify (fun s => set_meter (count_message (panopticon_meter s)) s) ;;
                 s ← get_state; to ← expect (node_channels s !! neighbor); deliver emit_events neighbor to comm).
Proof.
  intros Hn. apply keeping_bind; [apply count_message_keeps|intros _]. apply keeping_get. intros s Hg Hs.
  apply keeping_bind; [by apply keeping_expect, good_channel; [|apply Hs]|]. intros to. apply deliver_keeps.
Qed.

Lemma requests_keep names req comm :
  ev_kind (fst comm) = EvReq req -> comm_ok names comm -> keeping names (handle_nodes_requests emit_events req comm).
Proof.
  intros He. unfold comm_ok. rewrite He. intros Hok. unfold handle_nodes_requests.
  destruct req; try (destruct (snd comm) as [neighbor|]; [by apply forwarded_keeps, Hok|apply keeping_ret]).
  apply keeping_get. intros s Hg Hn. apply keeping_bind; [by apply keeping_expect|]. intros c. apply keeping_emit.
Qed.

Lemma comms_keep names comm : comm_ok names comm -> keeping names (handle_nodes_comms comm_hash emit_events comm).
Proof.
  intros Hok. unfold handle_nodes_comms. apply keeping_get. intros s Hg Hn.
  destruct (kad s !! from (fst comm)) as [st|] eqn:Ek; [|apply keeping_ret]. destruct (connected st); [|apply keeping_ret].
  apply elem_of_dom_2 in Ek. destruct (ev_kind (fst comm)) as [cmd|msg|req] eqn:Ee; [apply keeping_ret|by apply messages_keep|].
  apply requests_keep; [done|]. unfold comm_ok in *. rewrite Ee in *. destruct req; try done; intros n Hs; by apply Hn, Hok.
Qed.

Lemma set_status_keeps names id st : id ∈ names -> (connected st = true -> removed st = false) ->
  keeping names (set_node_status id st : ph unit).
Proof.
  intros Hid Hst. apply keeping_modify. intros s (H1 & H2 & H3 & H4) Hn. unfold good. simpl. rewrite !dom_insert_L.
  assert ({[id]} ∪ dom (kad s) = dom (kad s)) as -> by apply subseteq_union_1_L, singleton_subseteq_l, Hn, Hid.
  split_and!; try done. apply map_Forall_insert_2; [|done]. destruct st as [[] []]; try done. by rewrite Hst.
Qed.

Lemma ask_info_keeps names id to to_tauri : id ∈ names -> keeping names (ask_info id to to_tauri : ph unit).
Proof.
  intros Hid. unfold ask_info. apply keeping_get. intros s Hg Hn.
  apply keeping_bind; [by apply keeping_expect, elem_of_dom, Hn|]. intros st. apply keeping_emit.
Qed.

Lemma drawn_range max : 0 <= max -> 0 <= random_number_in_range_from_zero draw max <= max.
Proof. unfold random_number_in_range_from_zero. destruct (Z.eqb_spec max 0); [lia|]. apply Hdraw. Qed.

(** What is drawn among a list that is not empty is an element of it. *)
Lemma drawn_elem {A} (x : A) l :
  exists y, (x :: l) !! Z.to_nat (random_number_in_range_from_zero draw (len (x :: l) - 1)) = Some y /\ y ∈ x :: l.
Proof.
  destruct (lookup_lt_is_Some_2 (x :: l) (Z.to_nat (random_number_in_range_from_zero draw (len (x :: l) - 1)))) as [y Hy].
  - pose proof (drawn_range (len (x :: l) - 1)). unfold len in *. simpl length in *. lia.
  - exists y. split; [done|]. by eapply list_elem_of_lookup_2.
Qed.

Lemma get_neighbors_nonempty k id send_message (s : t) : get_neighbors k id send_message s <> Some [].
Proof. unfold get_neighbors. destruct (position _ _); [|done]. simpl. by destruct (neighbors_at _ _ _). Qed.

Lemma catch_up_keeps names id : id ∈ names -> keeping names (catch_up draw id : ph unit).
Proof.
  intros Hid. unfold catch_up. apply keeping_get. intros s Hg Hn.
  destruct (get_neighbors MAX_NEIGHBORS id true s) as [ns|] eqn:En; [|apply keeping_ret].
  pose proof (get_neighbors_nonempty MAX_NEIGHBORS id true s) as Hne. destruct ns as [|n ns]; [by rewrite En in Hne|].
  destruct (drawn_elem n ns) as (y & -> & Hy). apply keeping_expect_bind.
  apply keeping_bind.
  - apply keeping_expect, good_channel; [done|]. eapply neighbors_dom. by rewrite En.
  - intros to. apply keeping_bind; [apply keeping_emit|intros _]. apply keeping_bind; [apply keeping_next_answer|].
    intros [[info|]|]; try apply keeping_ret.
    apply keeping_bind; [by apply keeping_expect, good_channel, Hn|]. intros c. apply keeping_emit.
Qed.

Lemma switch_node_keeps names id : keeping names (switch_node draw emit_events id).
Proof.
  unfold switch_node. apply keeping_get. intros s Hg Hn.
  destruct (kad s !! id) as [st|] eqn:Ek; [|apply keeping_ret]. apply elem_of_dom_2 in Ek. destruct (connected st).
  - apply keeping_bind; [by apply set_status_keeps|]. intros _. apply keeping_emit.
  - apply keeping_bind; [by apply set_status_keeps|]. intros _. apply keeping_bind; [apply event_emitter_keeps|]. intros _.
    by apply catch_up_keeps.
Qed.

Lemma new_node_keeps names id bootstrap keypair : keeping names (new_node emit_events players_file id bootstrap keypair).
Proof.
  unfold new_node. apply keeping_get. intros s Hg Hn. destruct (node_channels s !! id); [apply keeping_ret|]. apply keeping_bind.
  - apply keeping_modify. intros u (H1 & H2 & H3 & H4) Hu. unfold good. simpl. rewrite !dom_insert_L, H1, H2.
    split; [|by etrans; [|apply union_subseteq_r]]. split_and!; try done. by apply map_Forall_insert_2.
  - intros _. destruct players_file as [players|], emit_events as [v|]; try apply keeping_ret.
    destruct (Players.players_ids players); [apply keeping_ret|].
    apply keeping_bind; [apply keeping_when, keeping_emit|]. intros _. apply keeping_emit.
Qed.

Lemma send_then_tell_keeps names id to comm : keeping names (send_then_tell emit_events id to comm).
Proof.
  unfold send_then_tell. apply keeping_bind; [apply keeping_emit|]. intros _.
  destruct emit_events; [apply keeping_when, keeping_emit|apply keeping_ret].
Qed.

(** A window that expired took some time. *)
Lemma restart_expired now m : sane now -> sane (sm_timestamp m) -> is_window_expired now m = true ->
  exists m', restart now m = Some m' /\ sm_timestamp m' = now.
Proof.
  unfold sane, is_window_expired, restart, WINDOW_SIZE_S. intros Hn Hm Hw.
  rewrite u64_add_small in Hw by (unfold u64_max; lia). apply Z.ltb_lt in Hw.
  rewrite u64_sub_small by (unfold u64_max; lia). destruct (Z.eqb_spec (now - sm_timestamp m) 0); [lia|]. by eexists.
Qed.

Lemma refresh_keeps names : keeping names (handle_panopticon_commands draw emit_events players_file test_key rnd test_nonce MeterInfoRefresh).
Proof.
  cbn [handle_panopticon_commands]. apply keeping_timestamp. intros n Hn. apply keeping_get. intros s (H1 & H2 & H3 & H4) Hs.
  apply keeping_bind; [|intros _; apply keeping_get; intros; apply event_emitter_keeps].
  destruct (is_window_expired _ _) eqn:Ew; [|apply keeping_ret]. destruct (restart_expired n _ Hn H3 Ew) as (m & -> & Hm).
  apply keeping_expect_bind, keeping_modify. intros u (U1 & U2 & U3 & U4) Hu. split; [|done]. split_and!; try done. simpl. by rewrite Hm.
Qed.

Lemma commands_keep names cmd : keeping names (handle_panopticon_commands draw emit_events players_file test_key rnd test_nonce cmd).
Proof.
  destruct cmd as [|id tauri|id tauri| |id key bootstrap|tauri|id|id|id];
    [| | |apply refresh_keeps|apply new_node_keeps| | | |apply switch_node_keeps]; cbn [handle_panopticon_commands].
  - apply keeping_modify. intros s (H1 & H2 & H3 & H4) Hn. unfold good. simpl. by rewrite dom_fmap_L.
  - apply keeping_get. intros s Hg Hn. destruct (get_neighbors _ _ _ _); [apply keeping_emit|apply keeping_ret].
  - apply keeping_get. intros s (H1 & H2 & H34) Hn. destruct (node_channels s !! id) as [to|] eqn:Et; [|apply keeping_ret].
    apply elem_of_dom_2 in Et. apply ask_info_keeps. by rewrite <- H2.
  - apply keeping_get. intros s (H1 & H2 & H34) Hn. apply keeping_for_each. intros [id to] Hin%elem_of_map_iter%elem_of_dom_2.
    apply ask_info_keeps. by rewrite <- H2.
  - apply keeping_get. intros s Hg Hn. destruct (kad s !! id) as [st|] eqn:Ek; [|apply keeping_ret]. apply elem_of_dom_2 in Ek.
    destruct (connected st); [apply keeping_ret|by apply set_status_keeps].
  - apply keeping_get. intros s Hg Hn. case_match; [apply keeping_ret|]. apply keeping_bind; [by apply keeping_expect|].
    intros key. destruct (node_channels s !! id); [apply send_then_tell_keeps|apply keeping_ret].
Qed.

Definition input_ok (names : gset string) (i : Input) : Prop :=
  match i with InCommand _ => True | InComm comm => comm_ok names comm end.

(** C35: the panopticon does not die, and keeps its invariant (each node has its memento
    and its channel, a connected node is not marked removed), whatever commands and messages it
    gets, provided the events are configured, the key of the tests can be made, and the
    requests name nodes of the network. *)
Theorem network_survives names inputs w :
  Inv names w -> Forall (input_ok names) inputs ->
  exists w', run comm_hash draw emit_events players_file test_key rnd test_nonce inputs w = Ret tt w' /\ Inv names w'.
Proof.
  intros Hw Hi. rewrite Forall_forall in Hi.
  assert (H : keeping names (run comm_hash draw emit_events players_file test_key rnd test_nonce inputs)).
  { apply keeping_for_each. intros [cmd|comm] Hin%Hi; [apply commands_keep|by apply comms_keep]. }
  specialize (H w Hw). destruct (run _ _ _ _ _ _ _ _ _) as [[] w'|]; [by exists w'|done].
Qed.

(** A request that names a node the network does not have kills the panopticon, and
    with it the whole playground's network. *)
Theorem unknown_node_panics names comm req neighbor status w :
  ev_kind (fst comm) = EvReq req -> req <> NodeReq.GetNeighbors -> snd comm = Some neighbor ->
  kad (w_state w) !! from (fst comm) = Some status -> connected status = true ->
  Inv names w -> neighbor ∉ dom (kad (w_state w)) ->
  panicked (handle_nodes_comms comm_hash emit_events comm w) = true.
Proof.
  intros He Hr Hs Hk Hc (Hg & _) Hn. unfold handle_nodes_comms. rewrite bind_eq. cbn [get_state]. rewrite Hk, Hc, He.
  assert (Hnone : node_channels (w_state w) !! neighbor = None).
  { apply not_elem_of_dom. destruct Hg as (_ & -> & _). done. }
  unfold handle_nodes_requests. rewrite Hs. destruct w as [s ans clk out].
  destruct req; try done; unfold modify, get_state, mbind, M_bind; cbn in Hnone |- *; by rewrite Hnone.
Qed.
End invariant.

(** ** What is published reaches every node once *)
Section gossip.
Context `{Hdig : Digest} `{Hring : Ring} `{!MsgPack BlockData} `{!HashMapIter string}.
Context (comm_hash : PlayPayload -> Z) (value : string) (payload : PlayPayload) (t0 : Z).

Abbreviation pworld := (world t effect (option PlayNodeInfo)).

(** The nodes that get messages *)
Abbreviation online s := (kad_list true s).

(** The clock goes forward, and stays within the age of a memento from [t0] on. *)
Definition soon (w : pworld) : Prop :=
  StronglySorted Z.le (fst (w_clock w) :: snd (w_clock w)) /\
  Forall (fun now => t0 <= now <= t0 + MEMENTO_DATA_MAX_AGE_S) (fst (w_clock w) :: snd (w_clock w)).

(** What the memento of a node says of the payload *)
Definition seen (s : t) (id : string) : option Z := m ← memento s !! id; m !! comm_hash payload.
Definition saw (w : pworld) (id : string) : Prop :=
  exists ts, seen (w_state w) id = Some ts /\ t0 <= ts <= now w.

Lemma soon_tick (w : pworld) : soon w -> soon (tick w) /\ t0 <= now w <= now (tick w) /\ now w <= t0 + MEMENTO_DATA_MAX_AGE_S.
Proof.
  destruct w as [s ans [n l] out]. intros [Hs Hf]. unfold soon, tick, now. cbn in *. apply Forall_cons in Hf as [Hn Hf].
  destruct l as [|n' l]; cbn; [by split_and!; auto; try lia; repeat constructor|].
  apply StronglySorted_inv in Hs as [Hs Hle]. apply Forall_cons in Hle as [Hle _]. split_and!; try done; lia.
Qed.

(** What the delivery to a node emits *)
Definition delivery (s : t) (comm : P2PEvent * option string) (id : string) : list effect :=
  (if emits (NodeMessageIn comm) value then [Emitted id (NodeMessageIn comm)] else []) ++
  match node_channels s !! id with Some to => [ToNode to comm] | None => [] end.

(** A run that changes neither who is in the network nor its channels *)
Definition same_network (s s' : t) : Prop := kad s' = kad s /\ node_channels s' = node_channels s.

(** From one world to a later one of the same network, in which the nodes that saw the payload still did *)
Definition later (w w' : pworld) : Prop :=
  soon w' /\ same_network (w_state w) (w_state w') /\ forall id, saw w id -> saw w' id.

Lemma later_refl w : soon w -> later w w.
Proof. intros H. split; [done|]. by split. Qed.
Lemma later_trans w1 w2 w3 : later w1 w2 -> later w2 w3 -> later w1 w3.
Proof.
  intros (H1 & [K1 N1] & S1) (H2 & [K2 N2] & S2). split; [done|]. split; [split; congruence|]. auto.
Qed.

(** A node has a memento that does not hold the payload. *)
Definition unseen (w : pworld) (id : string) : Prop :=
  exists m, memento (w_state w) !! id = Some m /\ m !! comm_hash payload = None.

(** Asking whether a node saw the payload records it. *)
Lemma in_memento_fresh id (w : pworld) : soon w -> unseen w id ->
  exists w', in_memento comm_hash payload id w = Ret false w' /\ later w w' /\ w_out w' = w_out w /\ saw w' id /\
    forall id', id' <> id -> unseen w id' -> unseen w' id'.
Proof.
  intros Hs (m & Hm & Hf). pose proof (soon_tick w Hs) as (Ht & Hn1 & Hn2). unfold in_memento. rewrite bind_eq, timestamp_eq, bind_eq.
  unfold get_state. change (w_state (tick w)) with (w_state w). rewrite Hm, bind_eq. cbn [expect mret M_ret]. rewrite Hf, bind_eq, modify_eq.
  cbn [mret M_ret]. set (w' := upd _ (tick w)). exists w'.
  assert (Hid : saw w' id).
  { exists (now w). unfold seen. cbn. by rewrite lookup_insert_eq; cbn; rewrite lookup_insert_eq. }
  split; [done|]. split; [|split; [done|split; [done|]]].
  - split; [done|]. split; [done|]. intros id' (ts & Hts & Hr). destruct (decide (id' = id)) as [->|Hne]; [done|]. exists ts. unfold seen in *. cbn.
    rewrite lookup_insert_ne by done. split; [done|]. change (now w') with (now (tick w)). lia.
  - intros id' Hne (m' & Hm' & Hf'). exists m'. cbn. by rewrite lookup_insert_ne.
Qed.

(** A node that saw it lately says so, and nothing changes. *)
Lemma in_memento_seen id (w : pworld) : 0 <= t0 -> t0 + MEMENTO_DATA_MAX_AGE_S <= u64_max -> soon w -> saw w id ->
  exists w', in_memento comm_hash payload id w = Ret true w' /\ later w w' /\ w_out w' = w_out w.
Proof.
  intros H0 Hmax Hs (ts & Hts & Hr). pose proof (soon_tick w Hs) as (Ht & Hn1 & Hn2). unfold in_memento.
  rewrite bind_eq, timestamp_eq, bind_eq. unfold get_state. change (w_state (tick w)) with (w_state w). unfold seen in Hts.
  apply bind_Some in Hts as (m & Hm & Hts). rewrite Hm, bind_eq. cbn [expect mret M_ret]. rewrite Hts.
  rewrite u64_sub_small by lia. destruct (Z.ltb_spec MEMENTO_DATA_MAX_AGE_S (now w - ts)); [lia|].
  exists (tick w). split; [done|]. split; [|done]. split; [done|]. split; [done|].
  intros id' (ts' & Hts' & Hr'). exists ts'. split; [done|lia].
Qed.

(** The loop over neighbors that did not see the payload delivers it to each of them. *)
Lemma pass_on_fresh comm peers (w : pworld) :
  soon w -> NoDup peers -> (forall p, p ∈ peers -> unseen w p /\ is_Some (node_channels (w_state w) !! p)) ->
  exists w', pass_on comm_hash (Some value) payload comm peers w = Ret false w' /\ later w w' /\
    w_out w' = w_out w ++ mjoin (map (delivery (w_state w) comm) peers) /\
    (forall p, p ∈ peers -> saw w' p) /\ forall p, p ∉ peers -> unseen w p -> unseen w' p.
Proof.
  revert w. induction peers as [|p peers IH]; intros w Hs Hd Hp.
  - exists w. cbn. split_and!; try done; [by rewrite app_nil_r|by intros p ?%elem_of_nil].
  - apply NoDup_cons in Hd as [Hnp Hd]. cbn [pass_on]. rewrite bind_eq, modify_eq, bind_eq.
    set (w0 := upd _ w). destruct (Hp p) as [Hu [to Hto]]; [by left|].
    destruct (in_memento_fresh p w0 Hs Hu) as (w1 & -> & Hl1 & Ho1 & Hs1 & Hu1). rewrite bind_eq. unfold get_state.
    assert (Hnet : same_network (w_state w) (w_state w1)) by (destruct Hl1 as (_ & [K N] & _); by split; [rewrite K|rewrite N]).
    destruct Hnet as [Hk Hc]. rewrite bind_eq, Hc, Hto. cbn [expect mret M_ret]. rewrite bind_eq.
    set (w2 := outs (delivery (w_state w) comm p) w1).
    assert (deliver (Some value) p to comm w1 = Ret tt w2) as ->.
    { unfold w2, outs, deliver, delivery. rewrite bind_eq, Hto. unfold when, emit. destruct (emits _ _); cbn; [by rewrite <- app_assoc|done]. }
    destruct (IH w2) as (w3 & -> & Hl3 & Ho3 & Hs3 & Hu3); [apply Hl1|done| |].
    { intros q Hq. destruct (Hp q) as [Huq Hcq]; [by right|]. cbn. rewrite Hc. split; [|done].
      apply Hu1; [by intros ->|done]. }
    exists w3. split; [done|]. split; [|split_and!].
    + eapply later_trans; [|eapply later_trans; [exact Hl1|exact Hl3]]. split; [done|]. by split.
    + rewrite Ho3. cbn. rewrite Ho1, <- app_assoc. do 2 f_equal. unfold delivery. by rewrite Hc.
    + intros q [->|Hq]%elem_of_cons; [apply Hl3, Hs1|by apply Hs3].
    + intros q [Hq1 Hq2]%not_elem_of_cons Hq. apply Hu3; [done|]. by apply Hu1.
Qed.

Lemma pass_on_app comm l r (w : pworld) :
  pass_on comm_hash (Some value) payload comm (l ++ r) w =
    match pass_on comm_hash (Some value) payload comm l w with
    | Ret true w' => Ret true w'
    | Ret false w' => pass_on comm_hash (Some value) payload comm r w'
    | Panic w' => Panic w'
    end.
Proof.
  revert w. induction l as [|p l IH]; intros w; [done|]. cbn [app pass_on]. rewrite !bind_eq, !modify_eq, !bind_eq.
  destruct (in_memento comm_hash payload p _) as [[|] w1|w1]; [done| |done]. rewrite !bind_eq. unfold get_state.
  destruct (node_channels (w_state w1) !! p) as [to|]; [|done]. rewrite !bind_eq. cbn [expect mret M_ret]. rewrite !bind_eq.
  destruct (deliver _ _ _ _ w1) as [[] w2|w2]; [apply IH|done].
Qed.

(** The loop ends at the first neighbor that has the payload: those after it are not looked at,
    and get nothing. *)
Theorem pass_on_stops comm l p r (w : pworld) : 0 <= t0 -> t0 + MEMENTO_DATA_MAX_AGE_S <= u64_max ->
  soon w -> NoDup l -> (forall q, q ∈ l -> unseen w q /\ is_Some (node_channels (w_state w) !! q)) -> saw w p ->
  exists w', pass_on comm_hash (Some value) payload comm (l ++ p :: r) w = Ret true w' /\
    w_out w' = w_out w ++ mjoin (map (delivery (w_state w) comm) l).
Proof.
  intros H0 Hmax Hs Hd Hl Hp. rewrite pass_on_app. destruct (pass_on_fresh comm l w Hs Hd Hl) as (w1 & -> & Hl1 & Ho1 & _).
  cbn [pass_on]. rewrite bind_eq, modify_eq, bind_eq. set (w1' := upd _ w1).
  destruct (in_memento_seen p w1' H0 Hmax) as (w2 & -> & _ & Ho2); [apply Hl1|by apply Hl1|]. exists w2. split; [done|].
  by rewrite Ho2, <- Ho1.
Qed.

Lemma filter_others id (l : list string) : ~ (id ∈ l) -> List.filter (fun p => negb (bool_decide (p = id))) l = l.
Proof.
  induction l as [|x l IH]; [done|]. intros [Hx Hl]%not_elem_of_cons. simpl. rewrite bool_decide_false by congruence.
  simpl. by rewrite IH.
Qed.

(** Publishing it delivers it to every node but the one it comes from, once. *)
Lemma gossip_fresh comm (w : pworld) :
  good (w_state w) -> soon w -> from (fst comm) ∈ online (w_state w) -> (counted true (w_state w) <= S MAX_NEIGHBORS)%nat ->
  (forall p, p ∈ online (w_state w) -> unseen w p) ->
  exists w' peers, gossip comm_hash (Some value) payload comm w = Ret tt w' /\ later w w' /\
    from (fst comm) :: peers ≡ₚ online (w_state w) /\
    w_out w' = w_out w ++ mjoin (map (delivery (w_state w) comm) peers) /\ forall p, p ∈ online (w_state w) -> saw w' p.
Proof.
  intros Hg Hs Hf Hc Hu. pose proof (neighbors_others MAX_NEIGHBORS _ true _ Hf Hc) as Hperm.
  destruct (get_neighbors_default MAX_NEIGHBORS _ true _ Hf) as (H1 & H2 & _ & H4).
  unfold gossip. rewrite bind_eq. unfold get_state. rewrite filter_others by done.
  set (peers := default [] _) in *. rewrite bind_eq.
  destruct (pass_on_fresh comm peers w Hs H1) as (w1 & -> & Hl1 & Ho1 & Hs1 & Hu1).
  { intros p Hp. split; [by apply Hu, H4|]. apply good_channel; [done|]. by eapply kad_list_dom, H4. }
  rewrite bind_eq. destruct (in_memento_fresh (from (fst comm)) w1) as (w2 & -> & Hl2 & Ho2 & Hs2 & _); [apply Hl1|by apply Hu1, Hu|].
  exists w2, peers. split; [done|]. split; [by eapply later_trans|]. split; [done|]. split; [congruence|].
  intros p Hp. rewrite <- Hperm in Hp. apply elem_of_cons in Hp as [->|Hp]; [done|]. by apply Hl2, Hs1.
Qed.

(** Once every node saw it, nobody gets it again. *)
Lemma gossip_stale comm (w : pworld) : 0 <= t0 -> t0 + MEMENTO_DATA_MAX_AGE_S <= u64_max ->
  soon w -> from (fst comm) ∈ online (w_state w) -> (forall p, p ∈ online (w_state w) -> saw w p) ->
  exists w', gossip comm_hash (Some value) payload comm w = Ret tt w' /\ later w w' /\ w_out w' = w_out w.
Proof.
  intros H0 Hmax Hs Hf Hsaw. destruct (get_neighbors_default MAX_NEIGHBORS _ true _ Hf) as (_ & H2 & _ & H4).
  unfold gossip. rewrite bind_eq. unfold get_state. rewrite filter_others by done.
  set (peers := default [] _) in *. rewrite bind_eq. destruct peers as [|p peers]; cbn [pass_on].
  - cbn [mret M_ret]. rewrite bind_eq. destruct (in_memento_seen (from (fst comm)) w H0 Hmax Hs) as (w1 & -> & Hl1 & Ho1); [by apply Hsaw|].
    by exists w1.
  - rewrite bind_eq, modify_eq, bind_eq. set (w0 := upd _ w).
    destruct (in_memento_seen p w0 H0 Hmax Hs) as (w1 & -> & Hl1 & Ho1); [by apply Hsaw, H4; left|].
    exists w1. split; [done|]. split; [|done]. eapply later_trans; [|exact Hl1]. split; [done|]. by split.
Qed.

(** C34: with at most six nodes online, a payload no node has seen is delivered to every
    node online but its publisher, to each exactly once, however many of the nodes publish it
    again, as long as the mementos last: the flood a publication starts reaches everybody and stops. *)
Theorem flood_reaches_all_once comm again (w : pworld) :
  0 <= t0 -> t0 + MEMENTO_DATA_MAX_AGE_S <= u64_max -> good (w_state w) -> soon w ->
  from (fst comm) ∈ online (w_state w) -> (counted true (w_state w) <= S MAX_NEIGHBORS)%nat ->
  (forall p, p ∈ online (w_state w) -> unseen w p) ->
  Forall (fun c => from (fst c) ∈ online (w_state w)) again ->
  exists w' peers,
    for_each (comm :: again) (gossip comm_hash (Some value) payload) w = Ret tt w' /\
    from (fst comm) :: peers ≡ₚ online (w_state w) /\
    w_out w' = w_out w ++ mjoin (map (delivery (w_state w) comm) peers).
Proof.
  intros H0 Hmax Hg Hs Hf Hc Hu Hag. destruct (gossip_fresh comm w Hg Hs Hf Hc Hu) as (w1 & peers & Hrun & Hl & Hp & Ho & Hsaw).
  cbn [for_each]. rewrite bind_eq, Hrun.
  assert (Hon : forall w', later w w' -> online (w_state w') = online (w_state w)) by (intros w' (_ & [Hk _] & _); unfold kad_list; by rewrite Hk).
  enough (exists w2, for_each again (gossip comm_hash (Some value) payload) w1 = Ret tt w2 /\ w_out w2 = w_out w1) as (w2 & -> & Ho2).
  { exists w2, peers. split; [done|]. split; [done|congruence]. }
  clear Hrun Ho. revert w1 Hl Hsaw. induction Hag as [|c again Hfc Hag IH]; intros w1 Hl Hsaw; [by exists w1|].
  cbn [for_each]. rewrite bind_eq.
  destruct (gossip_stale c w1 H0 Hmax) as (w2 & -> & Hl2 & Ho2); [apply Hl|by rewrite Hon|by rewrite Hon|].
  destruct (IH w2) as (w3 & -> & Ho3); [by eapply later_trans|intros p Hp'; by apply Hl2, Hsaw|]. exists w3. split; [done|congruence].
Qed.
End gossip.

(** ** Witnesses *)
Module PanopticonSample.
#[local] Existing Instances Samples.digest Samples.ring.
#[local] Instance block_pack : MsgPack BlockData := {| msgpack := fun d => [bd_height d] |}.
#[local] Instance data_pack : MsgPack TransactionData := {| msgpack := fun d => [1] |}.
#[local] Instance strings : HashMapIter string := gmap_iter.

Definition ids : list string := ["a"; "b"; "c"].
Definition network : t :=
  Mk (list_to_map (map (fun id => (id, MkStatus true false)) ids)) 0 (list_to_map (map (fun id => (id, ∅)) ids))
    (list_to_map (zip ids [0; 1; 2])) (new_meter 100).
Definition start : world t effect (option PlayNodeInfo) := World network [] (100, [101; 103; 110]) [].
Definition payload : PlayPayload := Published (POldTransactions []).
Definition published (id : string) : P2PEvent * option string := (MkP2PEvent id (EvMsg payload) None, None).

Lemma network_good : good network.
Proof.
  split_and!; [vm_compute; reflexivity..|by vm_compute|]. apply map_Forall_lookup. intros id st H.
  apply elem_of_list_to_map_2, list_elem_of_fmap in H as (x & [= -> ->] & _). reflexivity.
Qed.

Lemma online_ids : kad_list true network ≡ₚ ids.
Proof.
  apply NoDup_Permutation; [apply kad_list_NoDup|apply (bool_decide_unpack (NoDup ids)); vm_compute; exact I|].
  intros x. rewrite kad_list_spec. split.
  - intros (st & H & _). apply elem_of_list_to_map_2, list_elem_of_fmap in H as (y & [= -> _] & Hy). exact Hy.
  - intros Hx. exists (MkStatus true false). split; [|reflexivity]. unfold ids in Hx.
    repeat (apply elem_of_cons in Hx as [->|Hx]; [vm_compute; reflexivity|]). by apply elem_of_nil in Hx.
Qed.

Lemma flood_reaches_all_once_witness : exists w' peers,
  for_each [published "a"; published "b"; published "c"] (gossip (fun _ => 7) (Some "true") payload) start = Ret tt w' /\
  "a" :: peers ≡ₚ kad_list true network /\ w_out w' = mjoin (map (delivery "true" network (published "a")) peers).
Proof.
  apply (flood_reaches_all_once (fun _ => 7) "true" payload 100 (published "a") [published "b"; published "c"] start).
  - lia.
  - by vm_compute.
  - exact network_good.
  - unfold soon, start, MEMENTO_DATA_MAX_AGE_S. cbn. split; repeat constructor; lia.
  - change (w_state start) with network. rewrite online_ids. by left.
  - unfold counted. change (w_state start) with network. rewrite online_ids. unfold MAX_NEIGHBORS. simpl. lia.
  - intros p Hp. change (w_state start) with network in Hp. rewrite online_ids in Hp. exists ∅. split; [|reflexivity].
    unfold ids in Hp. repeat (apply elem_of_cons in Hp as [->|Hp]; [vm_compute; reflexivity|]). by apply elem_of_nil in Hp.
  - change (w_state start) with network. repeat constructor; rewrite online_ids; unfold ids; rewrite !elem_of_cons; simpl; tauto.
Defined.

Lemma network_survives_witness : exists w',
  run (fun _ => 7) (fun max => max) (Some "true") None (Some (Samples.keypair "k")) 0 []
    [InComm (published "a"); InCommand (SwitchNode "b"); InCommand (SwitchNode "b"); InCommand MeterInfoRefresh;
     InComm (MkP2PEvent "c" (EvReq NodeReq.GetHeight) (Some 0), Some "a")] start = Ret tt w' /\
  Inv {["a"]} w'.
Proof.
  apply (network_survives (fun _ => 7) (fun max => max)).
  - intros max Hmax. lia.
  - by eexists.
  - by eexists.
  - split; [exact network_good|]. split; [|split; [by vm_compute|repeat constructor; by vm_compute]].
    apply singleton_subseteq_l, elem_of_dom. vm_compute. by eexists.
  - repeat constructor. intros neighbor [= <-]. by apply elem_of_singleton.
Defined.

Lemma unknown_node_panics_witness :
  panicked (handle_nodes_comms (fun _ => 7) (Some "true") (MkP2PEvent "c" (EvReq NodeReq.GetHeight) (Some 0), Some "z") start) = true.
Proof.
  apply (unknown_node_panics (fun _ => 7) (Some "true") ∅ _ NodeReq.GetHeight "z" (MkStatus true false)).
  - reflexivity.
  - discriminate.
  - reflexivity.
  - vm_compute. reflexivity.
  - reflexivity.
  - split; [exact network_good|]. split; [apply empty_subseteq|split; [by vm_compute|repeat constructor; by vm_compute]].
  - apply not_elem_of_dom. vm_compute. reflexivity.
Defined.
End PanopticonSample.
