(* ===== verification/TauriInterface.v ===== *)
(** * The commands of the playground's window ([trinci-playground/src-tauri/src/tauri_interface.rs])

    What the window asks becomes commands to the panopticon; starting the playground makes the
    keys of the nodes and writes the file of the players. *)

From stdpp Require Import base gmap strings list fin_maps pretty.
From S2P Require Import Prelude.
From S2P Require Import Exec.
From S2P Require Import Hash.
From S2P Require Import Crypto.
From S2P Require Import CoreModels.
From S2P Require Import NodeModels.
From S2P Require Import NodeMessages.
From S2P Require Import PlaygroundInterface.
From S2P Require Import Panopticon.
Open Scope Z_scope.

Module TauriInterface.
Section tauri_interface.
Context `{Hdig : Digest} `{Hb58 : Base58} `{Hring : Ring}.
(** The key pair a key file gives, or that is made for it; what the generator draws from a range
    without its end. *)
Context (new_ecdsa : string -> option Keys.TrinciKeyPair) (random_number_in_range : Z -> Z -> Z).

(** The variables of the process *)
Record t : Type := Mk { LATENCY : option string; EMIT_EVENTS : option string }.

(** What comes back on the channel of a command *)
Inductive Reply : Type :=
| Neighbors (ids : list string)
| Info (info : PlayNodeInfo).

Inductive effect : Type :=
| ToPanopticon (cmd : Panopticon.PanopticonCommand)
| PlayersWritten (players : Players.t).

Abbreviation h := (M t effect Reply).

Definition set_latency (x : option string) (s : t) : t := Mk x (EMIT_EVENTS s).
Definition set_emit_events (x : option string) (s : t) : t := Mk (LATENCY s) x.

(** [to_panopticon] *)
Definition to_panopticon (cmd : Panopticon.PanopticonCommand) : h unit := emit (ToPanopticon cmd).

(** The id of a key pair; [None] is a panic. *)
Definition peer_id (keypair : Keys.TrinciKeyPair) : option string :=
  r ← Keys.to_account_id (Keys.public_key keypair);
  match r with Ok id => Some id | Err _ => None end.

Definition add_node (bootstrap_node_id : string) : h unit :=
  keypair ← expect (new_ecdsa "new_key");
  trinci_peer_id ← expect (peer_id keypair);
  to_panopticon (Panopticon.NewNode trinci_peer_id keypair (Some bootstrap_node_id)).

(** [None]: nothing came in time. *)
Definition get_neighbors (node_id : string) : h (option (list string)) :=
  to_panopticon (Panopticon.GetNeighborsOf node_id 0) ;;
  a ← next_answer;
  mret (match a with Some (Neighbors ids) => Some ids | _ => None end).

Definition get_node_info (node_id : string) : h (option PlayNodeInfo) :=
  to_panopticon (Panopticon.GetNodeInfoOf node_id 0) ;;
  a ← next_answer;
  mret (match a with Some (Info info) => Some info | _ => None end).

(** The nodes that answer, until none does in time; [fuel] is more than the answers that come. *)
Fixpoint collect (fuel : nat) : h (list PlayNodeInfo) :=
  match fuel with
  | O => mret []
  | S fuel =>
      a ← next_answer;
      match a with
      | Some (Info info) => rest ← collect fuel; mret (info :: rest)
      | _ => mret []
      end
  end.

Definition collect_all : h (list PlayNodeInfo) := fun w => collect (S (length (w_answers w))) w.
Definition reload_nodes : h (list PlayNodeInfo) :=
  to_panopticon (Panopticon.ReloadNodes 0) ;; collect_all.

Definition send_tx (node_id : string) : h unit := to_panopticon (Panopticon.SendTx node_id).
Definition switch_node (node_id : string) : h unit := to_panopticon (Panopticon.SwitchNode node_id).

(** The name of the key file of the node [j] *)
Definition key_name (j : nat) : string := ("new_key_" ++ pretty (N.of_nat j))%string.

(** The nodes from [j] on: their ids and key pairs *)
Fixpoint make_nodes (j n : nat) : h (list (string * Keys.TrinciKeyPair)) :=
  match n with
  | O => mret []
  | S n =>
      keypair ← expect (new_ecdsa (key_name j));
      trinci_peer_id ← expect (peer_id keypair);
      nodes ← make_nodes (S j) n;
      mret ((trinci_peer_id, keypair) :: nodes)
  end.

Definition start_panopticon (nodes_number players_number : nat) : h unit :=
  modify (fun s => set_emit_events (Some "true"%string) (set_latency (Some "OFF"%string) s)) ;;
  nodes ← make_nodes 1 nodes_number;
  emit (PlayersWritten (Players.Mk (take players_number (map fst nodes)) (replicate players_number 1))) ;;
  for_each (imap pair nodes) (fun '(index, (node_id, keypair)) =>
    to_panopticon (Panopticon.NewNode node_id keypair (if (index =? 0)%nat then None else Some node_id))) ;;
  modify (set_latency (Some "ON"%string)).

Definition switch_listening : h unit :=
  s ← get_state;
  var ← expect (EMIT_EVENTS s);
  modify (set_emit_events (Some (if bool_decide (var = "true"%string) then "false" else "true")%string)).

(** The task of [test]: the index is drawn below the last one; [gen_range] panics on an empty range. *)
Fixpoint test (nodes : list string) (tx_number : nat) : h unit :=
  match tx_number with
  | O => mret tt
  | S tx_number =>
      let last := (len nodes -u64 1) mod 2 ^ 16 in
      (if last =? 0 then panic else mret tt) ;;
      node_id ← expect (nodes !! Z.to_nat (random_number_in_range 0 last));
      to_panopticon (Panopticon.SendTx node_id) ;;
      test nodes tx_number
  end.

(** ** What the commands do *)

Abbreviation tworld := (world t effect Reply).

(** More fuel than answers makes no difference. *)
Lemma collect_enough fuel (w : tworld) : (length (w_answers w) < fuel)%nat -> collect fuel w = collect_all w.
Proof.
  unfold collect_all. enough (H : forall fuel1 fuel2 (w : tworld), (length (w_answers w) < fuel1)%nat -> (length (w_answers w) < fuel2)%nat ->
    collect fuel1 w = collect fuel2 w) by (intros Hw; apply H; lia).
  induction fuel1 as [|fuel1 IH]; intros fuel2 [s ans clk out] H1 H2; [lia|]. destruct fuel2 as [|fuel2]; [lia|].
  cbn [collect]. rewrite !bind_eq. unfold next_answer. cbn in *. destruct ans as [|[|info] ans]; [done|done|].
  rewrite !bind_eq. rewrite (IH fuel2); [done|cbn in *; lia..].
Qed.

(** The nodes that answer before a reply of another kind or the end are listed, in order. *)
Lemma collect_infos infos s clk out :
  collect_all (World s (map Info infos) clk out) = Ret infos (World s [] clk out).
Proof.
  unfold collect_all. cbn. rewrite length_map. induction infos as [|info infos IH]; [done|].
  cbn [map length collect]. rewrite bind_eq. cbn [next_answer w_answers]. rewrite bind_eq. cbn in IH |- *. by rewrite IH.
Qed.

(** The ids and keys that are made when every key file gives a key with an id *)
Definition made (node : string * Keys.TrinciKeyPair) (j : nat) : Prop :=
  new_ecdsa (key_name j) = Some (snd node) /\ peer_id (snd node) = Some (fst node).

Lemma make_nodes_spec j n (w : tworld) nodes :
  Forall2 made nodes (seq j n) -> make_nodes j n w = Ret nodes w.
Proof.
  revert j w nodes. induction n as [|n IH]; intros j w nodes; cbn [seq]; [by intros ->%Forall2_nil_inv_r|].
  intros (x & rest & [Hk Hid] & Hr & ->)%Forall2_cons_inv_r. cbn [make_nodes].
  rewrite bind_eq, Hk. cbn. rewrite bind_eq, Hid. cbn. rewrite bind_eq, (IH _ _ rest) by done. by destruct x.
Qed.

(** What starting the playground asks the panopticon *)
Definition new_nodes (nodes : list (string * Keys.TrinciKeyPair)) : list Panopticon.PanopticonCommand :=
  map (fun '(index, (node_id, keypair)) =>
    Panopticon.NewNode node_id keypair (if (index =? 0)%nat then None else Some node_id)) (imap pair nodes).

Lemma start_panopticon_spec nodes_number players_number nodes (w : tworld) :
  Forall2 made nodes (seq 1 nodes_number) ->
  start_panopticon nodes_number players_number w =
    Ret tt (outs (PlayersWritten (Players.Mk (take players_number (map fst nodes)) (replicate players_number 1)) :: map ToPanopticon (new_nodes nodes))
      (upd (fun _ => Mk (Some "ON"%string) (Some "true"%string)) w)).
Proof.
  intros Hm. unfold start_panopticon. rewrite bind_eq, modify_eq, bind_eq, (make_nodes_spec _ _ _ _ Hm), bind_eq.
  cbn [emit]. rewrite bind_eq.
  assert (Hf : forall f (l : list (nat * (string * Keys.TrinciKeyPair))) (v : tworld),
    for_each l (fun '(index, (node_id, keypair)) => to_panopticon (f index node_id keypair)) v =
    Ret tt (outs (map (fun '(index, (node_id, keypair)) => ToPanopticon (f index node_id keypair)) l) v)).
  { intros f. induction l as [|[i [id key]] l IH]; intros v; cbn [for_each map]; [destruct v; unfold outs; cbn; by rewrite app_nil_r|].
    rewrite bind_eq. unfold to_panopticon, emit. rewrite IH. unfold outs. cbn. by rewrite <- app_assoc. }
  rewrite (Hf (fun index node_id keypair => Panopticon.NewNode node_id keypair (if (index =? 0)%nat then None else Some node_id))).
  rewrite modify_eq. unfold outs, upd. cbn. do 2 f_equal. rewrite <- app_assoc. cbn. do 2 f_equal. f_equal. unfold new_nodes.
  rewrite map_map. apply map_ext. by intros [i [id key]].
Qed.
End tauri_interface.
End TauriInterface.
