(* ===== verification/TauriTheorems.v ===== *)
(** * The playground as its window starts it *)

From stdpp Require Import base gmap strings list fin_maps.
From S2P Require Import Prelude.
From S2P Require Import Exec.
From S2P Require Import Hash.
From S2P Require Import Crypto.
From S2P Require Import CoreModels.
From S2P Require Import DRand.
From S2P Require Import Samples.
From S2P Require Import NodeModels.
From S2P Require Import NodeMessages.
From S2P Require Import PlaygroundInterface.
From S2P Require Import Panopticon.
From S2P Require Import PanopticonTheorems.
From S2P Require Import TauriInterface.
Open Scope Z_scope.
Import Panopticon.

(** What is made of the elements of a numbered list, not of their numbers *)
Lemma map_imap_pair {A B} (g : nat * A -> B) (h : A -> B) l (f : nat -> nat) :
  (forall i x, g (i, x) = h x) -> map g (imap (fun n x => (f n, x)) l) = map h l.
Proof.
  intros Hg. revert f. induction l as [|x l IH]; intros f; [done|]. cbn. rewrite Hg. f_equal. apply (IH (fun n => f (S n))).
Qed.

Section tauri.
Context `{Hdig : Digest} `{Hb58 : Base58} `{Hring : Ring} `{!MsgPack TransactionData, !MsgPack BlockData} `{!HashMapIter string}.
Context (new_ecdsa : string -> option Keys.TrinciKeyPair).
Context (comm_hash : PlayPayload -> Z) (draw : Z -> Z) (players_file : option Players.t)
  (test_key : option Keys.TrinciKeyPair) (rnd : Z) (test_nonce : list Z).

(** What the panopticon makes of the commands of new nodes *)
Lemma new_node_dom id bootstrap keypair (w : world t effect (option PlayNodeInfo)) w' :
  dom (node_channels (w_state w)) = dom (kad (w_state w)) ->
  new_node (Some "true"%string) players_file id bootstrap keypair w = Ret tt w' ->
  dom (kad (w_state w')) = {[id]} ∪ dom (kad (w_state w)) /\ dom (node_channels (w_state w')) = dom (kad (w_state w')).
Proof.
  intros Hd. unfold new_node. rewrite bind_eq. unfold get_state.
  destruct (node_channels (w_state w) !! id) as [c|] eqn:Ec.
  - intros [= <-]. apply elem_of_dom_2 in Ec. rewrite Hd in Ec. split; [|done].
    symmetry. by apply subseteq_union_1_L, singleton_subseteq_l.
  - rewrite bind_eq, modify_eq. set (w1 := upd _ w).
    assert (H1 : dom (kad (w_state w1)) = {[id]} ∪ dom (kad (w_state w)) /\ dom (node_channels (w_state w1)) = dom (kad (w_state w1)))
      by (cbn; rewrite !dom_insert_L; by rewrite Hd).
    destruct players_file as [players|]; [|by intros [= <-]]. destruct (Players.players_ids players); [by intros [= <-]|].
    by intros [= <-].
Qed.

Abbreviation pan_run := (run comm_hash draw (Some "true"%string) players_file test_key rnd test_nonce).

Lemma new_nodes_run (cmds : list (string * Keys.TrinciKeyPair * option string)) w :
  Inv ∅ w ->
  exists w', pan_run (map (fun '(id, key, bootstrap) => InCommand (NewNode id key bootstrap)) cmds) w = Ret tt w' /\ Inv ∅ w' /\
    dom (kad (w_state w')) = list_to_set (map (fun '(id, _, _) => id) cmds) ∪ dom (kad (w_state w)).
Proof.
  revert w. induction cmds as [|[[id key] bootstrap] cmds IH]; intros w Hw.
  { exists w. split; [done|]. split; [done|]. cbn. by rewrite union_empty_l_L. }
  unfold run. cbn [map for_each]. rewrite bind_eq. cbn [step handle_panopticon_commands].
  pose proof (new_node_keeps (Some "true"%string) players_file (ex_intro _ _ eq_refl) ∅ id bootstrap key w Hw) as Hk.
  destruct (new_node _ _ _ _ _ w) as [[] w1|w1] eqn:En; [|done]. cbv beta in Hk.
  apply new_node_dom in En as [Hd _]; [|apply Hw]. destruct (IH w1 Hk) as (w2 & Hr & Hi & Hd2). exists w2.
  split; [exact Hr|]. split; [done|]. cbn. by rewrite Hd2, Hd, union_assoc_L, (union_comm_L _ {[id]}).
Qed.

(** Starting the playground gives a network of exactly the nodes whose keys were made,
    all known to the panopticon, and the file of the players; but each node after the first is
    told to join through itself, so that it asks nobody else for the height. *)
Theorem playground_starts nodes_number players_number nodes now w :
  Forall2 (TauriInterface.made new_ecdsa) nodes (seq 1 nodes_number) -> sane now ->
  exists w1 cmds w2,
    TauriInterface.start_panopticon new_ecdsa nodes_number players_number w = Ret tt w1 /\
    w_out w1 = w_out w ++ TauriInterface.PlayersWritten
      (Players.Mk (take players_number (map fst nodes)) (replicate players_number 1)) :: map TauriInterface.ToPanopticon cmds /\
    pan_run (map InCommand cmds) (World (initial now) [] (now, []) []) = Ret tt w2 /\
    dom (kad (w_state w2)) = list_to_set (map fst nodes) /\ Inv (list_to_set (map fst nodes)) w2 /\
    forall id key bootstrap, NewNode id key (Some bootstrap) ∈ cmds -> bootstrap = id.
Proof.
  intros Hm Hs. set (cmds := TauriInterface.new_nodes nodes).
  set (l := map (fun '(index, (id, key)) => (id, key, if (index =? 0)%nat then None else Some id)) (imap pair nodes)).
  assert (Hcl : map InCommand cmds = map (fun '(id, key, bootstrap) => InCommand (NewNode id key bootstrap)) l).
  { unfold cmds, TauriInterface.new_nodes, l. rewrite !map_map. apply map_ext. by intros [i [id key]]. }
  assert (Hid : map (fun '(id, _, _) => id) l = map fst nodes).
  { unfold l. rewrite map_map. apply (map_imap_pair _ _ _ (fun n => n)). by intros i [id key]. }
  destruct (new_nodes_run l (World (initial now) [] (now, []) [])) as (w2 & Hr & Hi & Hd).
  { split; [|split; [apply empty_subseteq|by split]]. by split_and!. }
  eexists _, cmds, w2. split; [by apply TauriInterface.start_panopticon_spec|]. split; [done|]. rewrite Hcl. split; [exact Hr|].
  cbn in Hd. rewrite dom_empty_L, union_empty_r_L, Hid in Hd. split; [done|]. split.
  - destruct Hi as (Hg & _ & Hc). split; [done|]. split; [by rewrite Hd|done].
  - intros id key bootstrap ((i & id' & key') & He & _)%list_elem_of_fmap. by destruct (i =? 0)%nat; simplify_eq.
Qed.
End tauri.

(** The transactions of a test go to nodes of the list, never to its last one; a list of one
    node panics the task. *)
Theorem test_skips_last `{Hring : Ring} (draw : Z -> Z -> Z) (nodes : list string) last n w w' :
  (forall lo hi, lo < hi -> lo <= draw lo hi < hi) -> 0 < len nodes < 2 ^ 16 ->
  TauriInterface.test draw (nodes ++ [last]) n w = Ret tt w' ->
  exists ids, w_out w' = w_out w ++ map (fun id => TauriInterface.ToPanopticon (SendTx id)) ids /\ Forall (fun id => id ∈ nodes) ids.
Proof.
  intros Hdraw Hlen. assert (Hlast : (len (nodes ++ [last]) -u64 1) mod 2 ^ 16 = len nodes).
  { rewrite len_app. change (len [last]) with 1. rewrite u64_sub_small by (unfold u64_max; lia).
    rewrite Z.mod_small by lia. lia. }
  revert w. induction n as [|n IH]; intros w; [intros [= <-]; exists []; by rewrite app_nil_r|].
  cbn [TauriInterface.test]. rewrite Hlast, bind_eq. destruct (Z.eqb_spec (len nodes) 0); [lia|]. cbn [mret M_ret].
  specialize (Hdraw 0 (len nodes) ltac:(lia)). destruct (lookup_lt_is_Some_2 nodes (Z.to_nat (draw 0 (len nodes)))) as [id Hid];
    [unfold len in *; lia|]. rewrite bind_eq, (lookup_app_l_Some _ _ _ _ Hid). cbn [expect mret M_ret]. rewrite bind_eq.
  intros (ids & Ho & Hids)%IH. exists (id :: ids). split; [rewrite Ho; cbn; by rewrite <- app_assoc|].
  constructor; [by eapply list_elem_of_lookup_2|done].
Qed.

(** ** Witness *)
Module TauriSample.
#[local] Existing Instances Samples.digest Samples.base58 Samples.ring.
#[local] Instance block_pack : MsgPack BlockData := {| msgpack := fun d => [bd_height d] |}.
#[local] Instance data_pack : MsgPack TransactionData := {| msgpack := fun d => [1] |}.
#[local] Instance strings : HashMapIter string := gmap_iter.

Definition key_file (name : string) : option Keys.TrinciKeyPair := Some (Samples.keypair name).
Definition node (name : string) : string * Keys.TrinciKeyPair :=
  (default "" (TauriInterface.peer_id (Samples.keypair name)), Samples.keypair name).
Definition nodes : list (string * Keys.TrinciKeyPair) := [node "new_key_1"; node "new_key_2"; node "new_key_3"].

Lemma playground_starts_witness : exists w1 cmds w2,
    TauriInterface.start_panopticon key_file 3 2 (World (TauriInterface.Mk None None) [] (0, []) []) = Ret tt w1 /\
    w_out w1 = TauriInterface.PlayersWritten (Players.Mk (take 2 (map fst nodes)) [1; 1]) :: map TauriInterface.ToPanopticon cmds /\
    run (fun _ => 7) (fun max => max) (Some "true"%string) None None 0 [] (map InCommand cmds) (World (initial 100) [] (100, []) []) = Ret tt w2 /\
    dom (kad (w_state w2)) = list_to_set (map fst nodes) /\ Inv (list_to_set (map fst nodes)) w2 /\
    forall id key bootstrap, NewNode id key (Some bootstrap) ∈ cmds -> bootstrap = id.
Proof.
  apply (playground_starts key_file (fun _ => 7) (fun max => max) None None 0 [] 3 2 nodes 100).
  - repeat constructor; vm_compute; reflexivity.
  - by vm_compute.
Defined.
End TauriSample.
