(* ===== verification/P2PStart.v ===== *)
(** * The start of the peer to peer service ([Behaviour::new] and [P2PService::start] of
    [trinci-node/src/services/p2p_service.rs])

    What is asked of the libraries of the network, in order: the protocols, the addresses of the
    first peer, the addresses to listen on and to announce, the topics. *)

From stdpp Require Import base gmap strings list fin_maps pretty.
From S2P Require Import Prelude.
From S2P Require Import Exec.
From S2P Require Import CoreModels.
From S2P Require Import NodeMessages.
From S2P Require Import P2PService.
Open Scope Z_scope.

Module P2PStart.
Definition MAX_TRANSACTION_SIZE : Z := Consts.BLOCK_MAX_SIZE_BYTES.
Definition PEER_KEEP_ALIVE_S : Z := 10.
Definition QUERY_TIMEOUT_S : Z := 5 * 60.
Definition TRINCI_TOPICS : list TrinciTopics := [TBlocks; TConsensus; TTxs].

Section start.
Context `{Hp2p : Libp2p}.

(** What the swarm is asked *)
Inductive SwarmOp : Type :=
| KadProtocol (name : string) (query_timeout : Z)
| KadAddress (peer : PeerId) (addr : string)
| KadBootstrap
| GossipLimit (max_transmit_size : Z)
| IdleTimeout (seconds : Z)
| ListenOn (addr : string)
| ExternalAddress (addr : string)
| AutonatServer (peer : PeerId) (addr : option string)
| SubscribedTo (topic : string).

Abbreviation h := (M unit SwarmOp unit).

Record Config : Type := MkConfig {
  bootstrap_addresses : option (list string);
  bootstrap_peer_id : option string;
  interfaces : list string;
  port : Z;
  public_address : option string;
  network_name : string
}.

(** [format!("/ip4/{}/tcp/{}", ip, port)] *)
Definition tcp_address (ip : string) (port : Z) : string := ("/ip4/" ++ ip ++ "/tcp/" ++ pretty (Z.to_N port))%string.

(** [str::parse] of an address; [None] is a panic or is left out. *)
Definition parse_address (addr : string) : option string := if is_multiaddr addr then Some addr else None.

(** [Behaviour::new] *)
Definition behaviour_new (c : Config) : h unit :=
  emit (KadProtocol ("/trinci/" ++ network_name c ++ "/1.0.0") QUERY_TIMEOUT_S) ;;
  match bootstrap_addresses c, bootstrap_peer_id c with
  | Some addresses, Some peer_id =>
      for_each addresses (fun addr =>
        peer ← expect (peer_from_str peer_id);
        addr ← expect (parse_address addr);
        emit (KadAddress peer addr) ;;
        emit KadBootstrap)
  | _, _ => mret tt
  end ;;
  emit (GossipLimit MAX_TRANSACTION_SIZE).

Definition start (c : Config) : h unit :=
  behaviour_new c ;;
  emit (IdleTimeout PEER_KEEP_ALIVE_S) ;;
  for_each (interfaces c) (fun interface =>
    addr ← expect (parse_address (tcp_address interface (port c)));
    emit (ListenOn addr)) ;;
  match public_address c with
  | Some public_ip => multiaddr ← expect (parse_address (tcp_address public_ip (port c))); emit (ExternalAddress multiaddr)
  | None => mret tt
  end ;;
  match bootstrap_peer_id c, bootstrap_addresses c with
  | Some peer_id, Some peer_addresses =>
      for_each peer_addresses (fun address =>
        peer ← expect (peer_from_str peer_id);
        emit (AutonatServer peer (parse_address address)))
  | _, _ => mret tt
  end ;;
  for_each TRINCI_TOPICS (fun topic => emit (SubscribedTo (topic_to_string topic))).

(** ** What a start that ends asked *)

(** The operations on the swarm, with the first peer when there is one *)
Definition ops (peer : option (list string * PeerId)) (c : Config) : list SwarmOp :=
  KadProtocol ("/trinci/" ++ network_name c ++ "/1.0.0") QUERY_TIMEOUT_S ::
  match peer with Some (addresses, id) => mjoin (map (fun addr => [KadAddress id addr; KadBootstrap]) addresses) | None => [] end ++
  GossipLimit MAX_TRANSACTION_SIZE :: IdleTimeout PEER_KEEP_ALIVE_S ::
  map (fun interface => ListenOn (tcp_address interface (port c))) (interfaces c) ++
  match public_address c with Some ip => [ExternalAddress (tcp_address ip (port c))] | None => [] end ++
  match peer with Some (addresses, id) => map (fun addr => AutonatServer id (Some addr)) addresses | None => [] end ++
  map (fun topic => SubscribedTo (topic_to_string topic)) TRINCI_TOPICS.

(** The first peer, with the id its text stands for *)
Definition first_peer (c : Config) (peer : option (list string * PeerId)) : Prop :=
  match bootstrap_addresses c, bootstrap_peer_id c with
  | Some addresses, Some peer_id => exists id, peer_from_str peer_id = Some id /\ peer = Some (addresses, id) /\
      Forall (fun addr => is_multiaddr addr = true) addresses
  | _, _ => peer = None
  end.

Lemma parse_address_ok addr : is_multiaddr addr = true -> parse_address addr = Some addr.
Proof. unfold parse_address. by intros ->. Qed.
Lemma mjoin_singletons {A B} (f : A -> B) (l : list A) : mjoin (map (fun x => [f x]) l) = map f l.
Proof. induction l as [|x l IH]; [done|]. cbn. by f_equal. Qed.

Lemma behaviour_new_spec c peer (w : world unit SwarmOp unit) : first_peer c peer ->
  behaviour_new c w = Ret tt (outs (KadProtocol ("/trinci/" ++ network_name c ++ "/1.0.0") QUERY_TIMEOUT_S ::
    match peer with Some (addresses, id) => mjoin (map (fun addr => [KadAddress id addr; KadBootstrap]) addresses) | None => [] end ++
    [GossipLimit MAX_TRANSACTION_SIZE]) w).
Proof.
  unfold first_peer, behaviour_new. intros Hp. rewrite bind_eq, emit_outs, bind_eq.
  destruct (bootstrap_addresses c) as [addresses|], (bootstrap_peer_id c) as [peer_id|];
    try (subst peer; cbn [mret M_ret]; rewrite emit_outs, outs_outs; done).
  destruct Hp as (id & Hid & -> & Ha). rewrite Forall_forall in Ha.
  rewrite (for_each_outs _ _ (fun addr => [KadAddress id addr; KadBootstrap])); [by rewrite emit_outs, !outs_outs|].
  intros addr v Hin. rewrite Hid, bind_eq. cbn [expect mret M_ret]. rewrite bind_eq, parse_address_ok by by apply Ha.
  cbn [expect mret M_ret]. by rewrite bind_eq, emit_outs, emit_outs, outs_outs.
Qed.

(** When its addresses are addresses, the peer to peer service starts, and asks the
    network for exactly these: a protocol named after the network, the addresses of the first
    peer, every interface and the public address on its port, and the three topics. *)
Theorem start_spec c peer (w : world unit SwarmOp unit) :
  first_peer c peer -> Forall (fun interface => is_multiaddr (tcp_address interface (port c)) = true) (interfaces c) ->
  (forall ip, public_address c = Some ip -> is_multiaddr (tcp_address ip (port c)) = true) ->
  start c w = Ret tt (outs (ops peer c) w).
Proof.
  intros Hp Hi Ha. rewrite Forall_forall in Hi. unfold start. rewrite bind_eq, (behaviour_new_spec c peer) by done.
  rewrite bind_eq, emit_outs, bind_eq.
  rewrite (for_each_outs _ _ (fun interface => [ListenOn (tcp_address interface (port c))])).
  2: { intros interface v Hin. rewrite bind_eq, parse_address_ok by by apply Hi. done. }
  rewrite bind_eq.
  assert (Hpub : forall v : world unit SwarmOp unit,
    match public_address c with
    | Some public_ip => multiaddr ← expect (parse_address (tcp_address public_ip (port c))); emit (ExternalAddress multiaddr)
    | None => mret tt
    end v = Ret tt (outs match public_address c with Some ip => [ExternalAddress (tcp_address ip (port c))] | None => [] end v)).
  { intros v. destruct (public_address c) as [ip|]; [|by rewrite outs_nil]. by rewrite bind_eq, parse_address_ok by by apply Ha. }
  rewrite Hpub, bind_eq.
  assert (Hnat : forall v : world unit SwarmOp unit,
    match bootstrap_peer_id c, bootstrap_addresses c with
    | Some peer_id, Some peer_addresses =>
        for_each peer_addresses (fun address => id ← expect (peer_from_str peer_id); emit (AutonatServer id (parse_address address)))
    | _, _ => mret tt
    end v = Ret tt (outs match peer with Some (addresses, id) => map (fun addr => AutonatServer id (Some addr)) addresses | None => [] end v)).
  { intros v. unfold first_peer in Hp. destruct (bootstrap_addresses c) as [addresses|], (bootstrap_peer_id c) as [peer_id|];
      try (subst peer; by rewrite outs_nil).
    destruct Hp as (id & Hid & -> & Hm). rewrite Forall_forall in Hm. rewrite <- mjoin_singletons. apply for_each_outs.
    intros addr u Hin. rewrite Hid, bind_eq. cbn [expect mret M_ret]. by rewrite parse_address_ok by by apply Hm. }
  rewrite Hnat, (for_each_outs _ _ (fun topic => [SubscribedTo (topic_to_string topic)])) by done.
  rewrite !outs_outs, !mjoin_singletons. do 2 f_equal. unfold ops. cbn. rewrite <- !app_assoc. do 2 f_equal.
Qed.
End start.
End P2PStart.
