(* ===== verification/NodeRun.v ===== *)
(** * A node from its command line ([run] and [run_playground] of [trinci-node/src/lib.rs], the
    options of [clap.rs], [retrieve_replica] and [get_public_ip] of [utils.rs], and the keys of
    the peer to peer network of [artifacts/models.rs])

    What a node reads, writes and starts, in order.  The start of the core and the genesis
    block are those of [NodeStart]; the services are those of their own files. *)

From stdpp Require Import base gmap strings list fin_maps pretty.
From S2P Require Import Prelude.
From S2P Require Import Exec.
From S2P Require Import Hash.
From S2P Require Import Crypto.
From S2P Require Import CoreModels.
From S2P Require Import DRand.
From S2P Require Import NodeModels.
From S2P Require Import NodeErrors.
From S2P Require Import Database.
From S2P Require Import WasmMachine.
From S2P Require Import WasmService.
From S2P Require Import P2PService.
From S2P Require Import P2PStart.
From S2P Require Import SocketService.
From S2P Require Import RestApi.
From S2P Require Import NodeStart.
Open Scope Z_scope.

(** The options of the command line, less those of the indexer and of Kafka *)
Record Cli : Type := MkCli {
  autoreplica_peer_addr : option string;
  blockchain_bootstrap_file : option string;
  database_path : option string;
  p2p_keypair_file : option string;
  p2p_address : option (list string);
  p2p_port : option Z;
  p2p_bootstrap_peer_addresses : option (list string);
  p2p_bootstrap_peer_id : option string;
  public_address : option string;
  rest_address : option string;
  cli_rest_port : option Z;
  socket_address : option string;
  cli_socket_port : option Z;
  trinci_keypair_file : option string
}.

(** The identity of a node for [libp2p]: its keys, their file and the id *)
Class P2PIdentity : Type := {
  P2PKeyPair : Type;
  from_protobuf_encoding : list Z -> option P2PKeyPair;
  to_protobuf_encoding : P2PKeyPair -> option (list Z);
  get_peer_id : P2PKeyPair -> string
}.

Module NodeRun.
Definition API_IP : string := "https://api.ipify.org".
Definition REPLICA_BOOTSTRAP : string := "data/bs/replica_bootstrap.bin".

Section run.
Context `{Hdig : Digest} `{Hb58 : Base58} `{Hring : Ring} `{Hhex : Hex} `{Hcodecs : WasmCodecs} `{!MsgUnpack Bootstrap}.
Context {D F : Type} `{Hdb : Db D F} `{Hfork : DbFork F} `{Hid : P2PIdentity}.
(** [Hash::from_hex] of the text of the seed's first hashes; the database at a path; the directory of
    the sources; whether a file can be made at a path, how much of a buffer one write takes, the key
    documents that would be made; what JSON and text responses read as. *)
Context (initial_hash : Hash) (open_db : string -> D) (manifest_dir : string) (writable : string -> bool)
  (write_len : list Z -> Z) (new_ecdsa_document : list Z) (generated : P2PKeyPair)
  (parse_visa : list Z -> option Visa) (parse_text : list Z -> option string).

(** The files of the machine *)
Record t : Type := Mk { files : gmap string (list Z) }.

(** What comes back: the body of a response; a genesis block executed *)
Inductive answer : Type :=
| HttpBody (body : list Z)
| GenesisExecuted.

Inductive effect : Type :=
| HttpGet (uri : string)
| CoreStarted (trinci_peer_id : string) (c : NodeStart.config)
| EventServiceStarted
| CoreInterfaceStarted
| DBServiceStarted (db : D)
| WasmServiceStarted (cache_max : Z) (db : D) (network_name : string) (burning_fuel_method : option string)
| GenesisRequested (block : Block) (txs : list Transaction) (network_name : string)
| SocketServiceStarted (address : string) (port : Z) (info : NodeInfo)
| P2PServiceStarted (peer_id : string) (c : P2PStart.Config)
| AssemblyAnswered (rest_port socket_port : Z)
| RestListening (listen_on bootstrap_file : string) (s : RestApi.State)
| PlaygroundStarted (players : Players.t) (trinci_peer_id : string) (bootstrap_peer_id : option string).

Abbreviation h := (M t effect answer).

Definition write_file (path : string) (buf : list Z) : h unit := modify (fun s => Mk (<[path := buf]> (files s))).

(** [isahc::get]; [None] when it fails *)
Definition http_get (uri : string) : h (option (list Z)) :=
  emit (HttpGet uri) ;;
  a ← next_answer;
  mret (match a with Some (HttpBody body) => Some body | _ => None end).

(** ** The files *)

(** A single [write]: what does not fit in it is left out. *)
Definition retrieve_replica (peer_addr : string) (cli : Cli) : h Cli :=
  visa ← http_get (peer_addr ++ "/visa");
  visa ← expect visa;
  info ← expect (parse_visa visa);
  bootstrap ← http_get (peer_addr ++ "/bootstrap");
  bootstrap ← expect bootstrap;
  expect (if writable REPLICA_BOOTSTRAP then Some tt else None) ;;
  write_file REPLICA_BOOTSTRAP (take (Z.to_nat (write_len bootstrap)) bootstrap) ;;
  mret (MkCli (autoreplica_peer_addr cli) (Some REPLICA_BOOTSTRAP) (database_path cli) (p2p_keypair_file cli) (p2p_address cli)
    (p2p_port cli) (RestApi.p2p_addresses (v_node_configs info)) (Some (RestApi.p2p_peer_id (v_node_configs info)))
    (public_address cli) (rest_address cli) (cli_rest_port cli) (socket_address cli) (cli_socket_port cli) (trinci_keypair_file cli)).

Definition get_public_ip : h (option string) :=
  response ← http_get API_IP;
  match response with
  | Some ip => ip ← expect (parse_text ip); mret (Some ip)
  | None => mret None
  end.

(** [P2PKeyPair] *)
Definition new_from_file (filename : string) : h P2PKeyPair :=
  s ← get_state;
  bytes ← expect (files s !! filename);
  expect (from_protobuf_encoding bytes).
Definition save_to_file (filename : string) (keypair : P2PKeyPair) : h unit :=
  protobuf ← expect (to_protobuf_encoding keypair);
  expect (if writable filename then Some tt else None) ;;
  write_file filename protobuf.

(** [TrinciKeyPair::new_ecdsa]: the key in the file, or one that is made and written to it *)
Definition new_ecdsa (path : string) : h (option Keys.TrinciKeyPair) :=
  s ← get_state;
  private_key_bytes ←
    match files s !! path with
    | Some buffer => mret (Some buffer)
    | None => if writable path then write_file path new_ecdsa_document ;; mret (Some new_ecdsa_document) else mret None
    end;
  mret (match private_key_bytes with
        | Some bytes => match Keys.ecdsa_new Secp256R1 bytes with Ok k => Some (Keys.KpEcdsa k) | Err _ => None end
        | None => None
        end).

(** The id of a key pair; [None] is a panic. *)
Definition account_id_of (keypair : Keys.TrinciKeyPair) : option string :=
  match Keys.to_account_id (Keys.public_key keypair) with Some (Ok id) => Some id | _ => None end.

(** ** The node *)

(** The genesis block, when the node starts from the bootstrap *)
Definition execute_genesis (c : NodeStart.config) : h unit :=
  match NodeStart.bootstrap_txs c with
  | None => mret tt
  | Some [] => panic
  | Some txs =>
      emit (GenesisRequested (NodeStart.genesis_block txs) txs (NodeStart.network_name c)) ;;
      a ← next_answer;
      match a with Some GenesisExecuted => mret tt | _ => panic end
  end.

(** The services up to the machine, and the genesis block when the node starts from the bootstrap *)
Definition start_services (trinci_peer_id : string) (c : NodeStart.config) (db : D) : h unit :=
  emit (CoreStarted trinci_peer_id c) ;;
  emit EventServiceStarted ;;
  emit CoreInterfaceStarted ;;
  emit (DBServiceStarted db) ;;
  emit (WasmServiceStarted NodeStart.CACHE_MAX db (NodeStart.network_name c) (NodeStart.burning_fuel_method c)) ;;
  execute_genesis c.

(** What miners are told of the node *)
Definition node_info (network_name : string) (keypair : Keys.TrinciKeyPair) (rest_port : Z) : NodeInfo :=
  MkNodeInfo "http://127.0.0.1" None network_name NodeStart.NONCE (Keys.public_key keypair) rest_port.

Definition p2p_config (cli : Cli) (public_address : option string) (network_name : string) : P2PStart.Config :=
  P2PStart.MkConfig (p2p_bootstrap_peer_addresses cli) (p2p_bootstrap_peer_id cli) (default ["0.0.0.0"] (p2p_address cli))
    (default 0 (p2p_port cli)) public_address network_name.

Definition p2p_relay (cli : Cli) : option (list string) :=
  match p2p_bootstrap_peer_addresses cli, p2p_bootstrap_peer_id cli with
  | Some relay_addresses, Some relay_id => Some (map (fun addr => relay_id ++ "@" ++ addr)%string relay_addresses)
  | _, _ => None
  end.

(** The keys for the peer to peer network *)
Definition p2p_keys (cli : Cli) : h P2PKeyPair :=
  match p2p_keypair_file cli with
  | Some keypair_file => new_from_file keypair_file
  | None => save_to_file ("data/kp/p2p_kp/" ++ get_peer_id generated ++ ".bin") generated ;; mret generated
  end.

Definition bootstrap_file_path (cli : Cli) : string := default (manifest_dir ++ "/data/bs/t3_bs_testnet.bin")%string (blockchain_bootstrap_file cli).

(** [run] once its options are known; [false]: the keys of the node could not be read or made. *)
Definition run_configured (cli : Cli) : h bool :=
  p2p_keypair ← p2p_keys cli;
  let p2p_peer_id := get_peer_id p2p_keypair in
  keypair ← new_ecdsa (default "data/kp/trinci_kp/trinci_keypair.bin" (trinci_keypair_file cli));
  match keypair with
  | None => mret false
  | Some keypair =>
      trinci_peer_id ← expect (account_id_of keypair);
      let db_path := ("db/" ++ trinci_peer_id ++ "/")%string in
      let bootstrap_file := bootstrap_file_path cli in
      s ← get_state;
      '(c, db) ← expect (NodeStart.init_core initial_hash (files s !! bootstrap_file) (open_db db_path) trinci_peer_id);
      let network_name := NodeStart.network_name c in
      start_services trinci_peer_id c db ;;
      let rest_port := default 5001 (cli_rest_port cli) in
      let socket_port := default 5000 (cli_socket_port cli) in
      emit (SocketServiceStarted (default "127.0.0.1" (socket_address cli)) socket_port
        (node_info network_name keypair rest_port)) ;;
      public_address ← match public_address cli with Some addr => mret (Some addr) | None => get_public_ip end;
      emit (P2PServiceStarted p2p_peer_id (p2p_config cli public_address network_name)) ;;
      emit (AssemblyAnswered rest_port socket_port) ;;
      emit (RestListening (default "127.0.0.1" (rest_address cli) ++ ":" ++ pretty (Z.to_N rest_port)) bootstrap_file
        (MkState (MkNodeConfigs bootstrap_file db_path p2p_peer_id None (p2p_relay cli) rest_port socket_port trinci_peer_id) network_name)) ;;
      mret true
  end.

Definition run (cli : Cli) : h bool :=
  cli ← match autoreplica_peer_addr cli with Some peer_addr => retrieve_replica peer_addr cli | None => mret cli end;
  run_configured cli.

(** ** A node of the playground *)
Definition run_playground (keypair : Keys.TrinciKeyPair) (players : Players.t) (bootstrap_peer_id : option string) (cli : Cli) : h unit :=
  trinci_peer_id ← expect (account_id_of keypair);
  let db := open_db ("/tmp/db/" ++ trinci_peer_id ++ "/") in
  s ← get_state;
  '(c, db) ← expect (NodeStart.init_core_from_bootstrap initial_hash (files s !! bootstrap_file_path cli) db trinci_peer_id);
  start_services trinci_peer_id c db ;;
  emit (PlaygroundStarted players trinci_peer_id bootstrap_peer_id).
End run.

(** ** The routes of the REST interface *)
Inductive Method : Type := GET | POST.
#[export] Instance Method_eq_dec : EqDecision Method.
Proof. solve_decision. Defined.
Inductive Endpoint : Type :=
| IsHealthy | GetAccount | GetAccountData | GetFullBlock | GetPlayers | GetReceipt | PairingMiningTool | GetSystemStatus
| GetUnconfirmedPoolLen | GetNodeStatus | SubmitTx | SubmitT2Block | GetVisa | BootstrapFile | PostMessage | GetTransaction | GetP2pId.

Definition routes : list (string * Method * Endpoint) :=
  [("/", GET, IsHealthy); ("/get_account/:account_id", GET, GetAccount); ("/get_account_data/:account_id/:key", GET, GetAccountData);
   ("/get_full_block/:block_height", GET, GetFullBlock); ("/get_players", GET, GetPlayers); ("/get_receipt/:receipt_hash", GET, GetReceipt);
   ("/pair", POST, PairingMiningTool); ("/system_status", GET, GetSystemStatus); ("/unconfirmed_tx_pool_len", GET, GetUnconfirmedPoolLen);
   ("/status", GET, GetNodeStatus); ("/submit_tx", POST, SubmitTx); ("/submit_t2_block", POST, SubmitT2Block); ("/visa", GET, GetVisa);
   ("/bootstrap", GET, BootstrapFile);
   ("/api/v1/message", POST, PostMessage); ("/api/v1/submit_tx", POST, SubmitTx); ("/api/v1/account/:account_id", GET, GetAccount);
   ("/api/v1/transaction/:transaction_hash", GET, GetTransaction); ("/api/v1/receipt/:receipt_hash", GET, GetReceipt);
   ("/api/v1/block/:block_height", GET, GetFullBlock); ("/api/v1/p2p/id", GET, GetP2pId); ("/api/v1/bootstrap", GET, BootstrapFile);
   ("/api/v1/visa", GET, GetVisa)]%string.
End NodeRun.
