(* ===== verification/NodeRunTheorems.v ===== *)
(** * What a node starts: the order, a replica, a node of the playground *)

From stdpp Require Import base gmap strings list fin_maps pretty.
From S2P Require Import Prelude.
From S2P Require Import Exec.
From S2P Require Import Hash.
From S2P Require Import Crypto.
From S2P Require Import CoreModels.
From S2P Require Import DRand.
From S2P Require Import Samples.
From S2P Require Import NodeModels.
From S2P Require Import NodeErrors.
From S2P Require Import Database.
From S2P Require Import WasmMachine.
From S2P Require Import WasmService.
From S2P Require Import P2PService.
From S2P Require Import P2PStart.
From S2P Require Import SocketService.
From S2P Require Import RestApi.
From S2P Require Import DatabaseTheorems.
From S2P Require Import NodeStart.
From S2P Require Import NodeStartTheorems.
From S2P Require Import NodeRun.
Open Scope Z_scope.
Import NodeRun.

Section run.
Context `{Hdig : Digest} `{Hb58 : Base58} `{Hring : Ring} `{Hhex : Hex} `{Hcodecs : WasmCodecs} `{!MsgUnpack Bootstrap}.
Context {D F : Type} `{Hdb : Db D F} `{Hfork : DbFork F} `{Hid : P2PIdentity}.
Context (initial_hash : Hash) (open_db : string -> D) (manifest_dir : string) (writable : string -> bool)
  (write_len : list Z -> Z) (new_ecdsa_document : list Z) (generated : P2PKeyPair)
  (parse_visa : list Z -> option Visa) (parse_text : list Z -> option string).

Abbreviation nworld := (world t (effect (D := D)) answer).
Abbreviation node_run := (run initial_hash open_db manifest_dir writable write_len new_ecdsa_document generated parse_visa parse_text).

(** What the start of the services emits *)
Definition services (id : string) (c : NodeStart.config) (db : D) : list (effect (D := D)) :=
  [CoreStarted id c; EventServiceStarted; CoreInterfaceStarted; DBServiceStarted db;
   WasmServiceStarted NodeStart.CACHE_MAX db (NodeStart.network_name c) (NodeStart.burning_fuel_method c)] ++
  match NodeStart.bootstrap_txs c with
  | Some txs => [GenesisRequested (NodeStart.genesis_block txs) txs (NodeStart.network_name c)]
  | None => []
  end.

Lemma start_services_inv id c db (w w' : nworld) : start_services id c db w = Ret tt w' ->
  w_out w' = w_out w ++ services id c db /\ w_state w' = w_state w /\ NodeStart.bootstrap_txs c <> Some [] /\
  (NodeStart.bootstrap_txs c <> None -> head (w_answers w) = Some GenesisExecuted).
Proof.
  unfold start_services, execute_genesis. destruct w as [s ans clk out]. unfold emit, mbind, M_bind, services. cbn.
  destruct (NodeStart.bootstrap_txs c) as [[|tx txs]|]; cbn; [done| |intros [= <-]; cbn; by rewrite <- !app_assoc].
  unfold next_answer. cbn. destruct ans as [|[|] ans]; [done..|]. intros [= <-]. cbn. by rewrite <- !app_assoc.
Qed.

(** Requests of the network that are made before the services start *)
Definition only_gets (es : list (effect (D := D))) : Prop := Forall (fun e => exists uri, e = HttpGet uri) es.

Lemma http_get_inv uri (w : nworld) b w' : http_get uri w = Ret b w' ->
  w_out w' = w_out w ++ [HttpGet uri] /\ w_state w' = w_state w.
Proof.
  unfold http_get. destruct w as [s ans clk out]. unfold emit, next_answer, mbind, M_bind. cbn.
  destruct ans as [|[body|] ans]; by intros [= <- <-].
Qed.

Lemma retrieve_replica_inv peer_addr cli (w : nworld) cli' w' :
  retrieve_replica writable write_len parse_visa peer_addr cli w = Ret cli' w' ->
  exists es visa, w_out w' = w_out w ++ es /\ only_gets es /\ blockchain_bootstrap_file cli' = Some REPLICA_BOOTSTRAP /\
    p2p_bootstrap_peer_addresses cli' = RestApi.p2p_addresses (v_node_configs visa) /\
    p2p_bootstrap_peer_id cli' = Some (RestApi.p2p_peer_id (v_node_configs visa)).
Proof.
  intros H. unfold retrieve_replica in H. invert H. apply http_get_inv in R as [Ho Hs].
  invert H. apply expect_ret_inv in R as [-> ->]. invert H. apply expect_ret_inv in R as [Hv ->].
  invert H. apply http_get_inv in R as [Ho2 Hs2]. invert H. apply expect_ret_inv in R as [-> ->].
  invert H. apply expect_ret_inv in R as [_ ->]. invert H. injection R as <- <-. injection H as <- <-.
  eexists _, _. split; [cbn; rewrite Ho2, Ho, <- app_assoc; reflexivity|]. split; [repeat constructor; by eexists|done].
Qed.

Lemma get_public_ip_inv (w : nworld) ip w' : get_public_ip parse_text w = Ret ip w' ->
  w_out w' = w_out w ++ [HttpGet API_IP] /\ w_state w' = w_state w.
Proof.
  intros H. unfold get_public_ip in H. invert H. apply http_get_inv in R as [Ho Hs]. destruct a as [ip'|]; [|by injection H as <- <-].
  invert H. apply expect_ret_inv in R as [_ ->]. by injection H as <- <-.
Qed.

(** Reading and writing keys emits nothing, and changes no other file that is there. *)
Definition keys_only (w w' : nworld) : Prop :=
  w_out w' = w_out w /\ w_answers w' = w_answers w /\
  forall path buf, files (w_state w) !! path = Some buf -> ~ starts_with "data/kp/p2p_kp/" path -> files (w_state w') !! path = Some buf.

Lemma keys_quiet cli (w : nworld) k w' : p2p_keys writable generated cli w = Ret k w' -> keys_only w w'.
Proof.
  unfold p2p_keys. destruct (p2p_keypair_file cli) as [file|]; intros H.
  - unfold new_from_file in H. invert H. injection R as <- <-. invert H. apply expect_ret_inv in R as [_ ->].
    apply expect_ret_inv in H as [_ ->]. by split_and!.
  - invert H. injection H as <- <-. unfold save_to_file in R. invert R. apply expect_ret_inv in R0 as [_ ->].
    invert R. apply expect_ret_inv in R0 as [_ ->]. injection R as <- <-. split_and!; try done.
    intros path buf Hb Hn. cbn. rewrite lookup_insert_ne; [done|]. intros <-. apply Hn, Is_true_true, starts_with_true. by eexists.
Qed.

Lemma new_ecdsa_keys path (w : nworld) k w' : new_ecdsa writable new_ecdsa_document path w = Ret k w' -> keys_only w w'.
Proof.
  intros H. unfold new_ecdsa in H. invert H. injection R as <- <-. invert H. injection H as <- <-.
  destruct (files _ !! path) as [b|] eqn:Eb; [injection R as <- <-; by split_and!|].
  destruct (writable path); [|injection R as <- <-; by split_and!]. injection R as <- <-. split_and!; try done.
  intros path' buf Hb _. cbn. rewrite lookup_insert_ne; [done|]. by intros <-; rewrite Eb in Hb.
Qed.

(** What a node is told by and reached through: the same ports, name and id everywhere *)
Record reachable_at (cli : Cli) (id : string) (c : NodeStart.config) (info : NodeInfo) (p2p : P2PStart.Config) (configs : NodeConfigs) : Prop := {
  at_id : trinci_peer_id configs = id /\ Keys.to_account_id (ni_public_key info) = Some (Ok id);
  at_rest : c_rest_port configs = default 5001 (cli_rest_port cli) /\ rest_port info = default 5001 (cli_rest_port cli);
  at_socket : RestApi.socket_port configs = default 5000 (cli_socket_port cli);
  at_p2p : P2PStart.port p2p = default 0 (p2p_port cli) /\ P2PStart.interfaces p2p = default ["0.0.0.0"%string] (p2p_address cli);
  at_network : network info = NodeStart.network_name c /\ P2PStart.network_name p2p = NodeStart.network_name c
}.

(** What is started last: all that is reached from outside *)
Definition doors (cli : Cli) (c : NodeStart.config) (info : NodeInfo) (gets : list (effect (D := D))) (p2p : P2PStart.Config) (configs : NodeConfigs) :
    list (effect (D := D)) :=
  [SocketServiceStarted (default "127.0.0.1"%string (socket_address cli)) (default 5000 (cli_socket_port cli)) info] ++ gets ++
  [P2PServiceStarted (RestApi.p2p_peer_id configs) p2p;
   AssemblyAnswered (default 5001 (cli_rest_port cli)) (default 5000 (cli_socket_port cli));
   RestListening (default "127.0.0.1" (rest_address cli) ++ ":" ++ pretty (Z.to_N (default 5001 (cli_rest_port cli))))
     (bootstrap_path configs) (MkState configs (NodeStart.network_name c))].

(** What a node whose options are known starts, when it does *)
Lemma configured_node cli (w w' : nworld) :
  run_configured initial_hash open_db manifest_dir writable new_ecdsa_document generated parse_text cli w = Ret true w' ->
  exists gets' id c db info p2p configs file_content,
    w_out w' = w_out w ++ services id c db ++ doors cli c info gets' p2p configs /\
    only_gets gets' /\ NodeStart.bootstrap_txs c <> Some [] /\ reachable_at cli id c info p2p configs /\
    NodeStart.init_core initial_hash file_content (open_db (db_path configs)) id = Some (c, db) /\
    bootstrap_path configs = bootstrap_file_path manifest_dir cli /\
    P2PStart.bootstrap_addresses p2p = p2p_bootstrap_peer_addresses cli /\ P2PStart.bootstrap_peer_id p2p = p2p_bootstrap_peer_id cli /\
    (forall buf, files (w_state w) !! bootstrap_path configs = Some buf -> ~ starts_with "data/kp/p2p_kp/" (bootstrap_path configs) ->
      file_content = Some buf).
Proof.
  intros H. unfold run_configured in H. inverting H as p2p_keypair w1 R1. apply keys_quiet in R1 as (Ho1 & _ & Hf1).
  inverting H as keypair w2 R2. apply new_ecdsa_keys in R2 as (Ho2 & _ & Hf2). destruct keypair as [keypair|]; [|done].
  inverting H as id w3 R3. apply expect_ret_inv in R3 as [Hk ->]. inverting H as s w4 R4. injection R4 as <- <-.
  inverting H as x w5 R5. apply expect_ret_inv in R5 as [Hinit ->]. destruct x as [c db]. cbv beta iota zeta in H.
  inverting H as y w6 R6. destruct y. apply start_services_inv in R6 as (Hs & Hst & Hne & _).
  inverting H as y w7 R7. injection R7 as <- <-. inverting H as ip w8 R8.
  match type of R8 with _ ?w = _ => assert (Hp : exists gets', w_out w8 = w_out w ++ gets' /\ only_gets gets') end.
  { destruct (public_address cli); [injection R8 as <- <-; exists []; rewrite app_nil_r; split; [done|constructor]|].
    apply get_public_ip_inv in R8 as [Hpub _]. eexists. split; [exact Hpub|]. repeat constructor. by eexists. }
  destruct Hp as (gets' & Hp & Hg'). unfold emit, mbind, M_bind in H. cbn in H. injection H as <-.
  eexists gets', id, c, db, _, _, (MkNodeConfigs _ _ _ _ _ _ _ _), _. split.
  { cbn. rewrite Hp. cbn. rewrite Hs. cbn. rewrite Ho2, Ho1. unfold doors. rewrite <- !app_assoc. reflexivity. }
  split; [done|]. split; [done|]. split.
  { split; try by split. split; [done|]. cbn. unfold account_id_of in Hk. by destruct (Keys.to_account_id _) as [[]|]; simplify_eq. }
  split_and!; try done. intros buf Hb Hn. cbn in Hb, Hn |- *. exact (Hf2 _ _ (Hf1 _ _ Hb Hn) Hn).
Qed.

(** *** Nothing is reached from outside before the genesis block *)
Definition outward (e : effect (D := D)) : bool :=
  match e with SocketServiceStarted _ _ _ | P2PServiceStarted _ _ | AssemblyAnswered _ _ | RestListening _ _ _ => true | _ => false end.
Definition inward (e : effect (D := D)) : Prop := outward e = false.

Abbreviation nh A := (M t (effect (D := D)) answer A).
Lemma http_get_inward uri : rel (adds inward) (http_get uri : nh _).
Proof. unfold http_get. by frames. Qed.
#[local] Hint Resolve http_get_inward : frames.
Lemma replica_inward peer cli : rel (adds inward) (retrieve_replica writable write_len parse_visa peer cli : nh _).
Proof. unfold retrieve_replica, write_file. frames. Qed.
Lemma p2p_keys_inward cli : rel (adds inward) (p2p_keys writable generated cli : nh _).
Proof. unfold p2p_keys, new_from_file, save_to_file, write_file. frames. Qed.
Lemma new_ecdsa_inward path : rel (adds inward) (new_ecdsa writable new_ecdsa_document path : nh _).
Proof. unfold new_ecdsa, write_file. frames. Qed.
Lemma services_inward id c db : rel (adds inward) (start_services id c db : nh _).
Proof. unfold start_services, execute_genesis. by frames. Qed.

(** Where something is reached from outside, the inward parts before have ended. *)
Lemma past {A B} (m : nh A) (k : A -> nh B) w e :
  rel (adds inward) m -> Forall inward (w_out w) -> outward e = true -> e ∈ w_out (exec_world ((m ≫= k) w)) ->
  exists a w1, m w = Ret a w1 /\ Forall inward (w_out w1) /\ e ∈ w_out (exec_world (k a w1)).
Proof.
  intros Hm Hw He Hin. destruct (Hm w) as (es & Ho & Hes). rewrite bind_eq in Hin.
  assert (Hall : Forall inward (w_out (exec_world (m w)))) by (rewrite Ho; by apply Forall_app).
  destruct (m w) as [a w1|w1]; [by exists a, w1|]. cbn [exec_world] in *. rewrite Forall_forall in Hall. specialize (Hall e Hin).
  unfold inward in Hall. congruence.
Qed.
Lemma stays {A} (m : nh A) w e : rel (adds (fun _ => True)) m -> e ∈ w_out w -> e ∈ w_out (exec_world (m w)).
Proof. intros Hm He. destruct (Hm w) as (es & -> & _). apply elem_of_app. by left. Qed.

Lemma configured_waits cli (w : nworld) e (r := run_configured initial_hash open_db manifest_dir writable new_ecdsa_document generated parse_text cli w) :
  Forall inward (w_out w) -> e ∈ w_out (exec_world r) -> outward e = true ->
  exists id c, CoreStarted id c ∈ w_out (exec_world r) /\ (NodeStart.bootstrap_txs c <> None -> head (w_answers w) = Some GenesisExecuted).
Proof.
  intros Hw Hin He. subst r. unfold run_configured in *.
  apply past in Hin as (k & w1 & R1 & Hw1 & Hin); [|apply p2p_keys_inward|done|done]. pose proof (keys_quiet _ _ _ _ R1) as (_ & Ha1 & _).
  apply past in Hin as (keypair & w2 & R2 & Hw2 & Hin); [|apply new_ecdsa_inward|done|done]. pose proof (new_ecdsa_keys _ _ _ _ R2) as (_ & Ha2 & _).
  rewrite bind_eq, R1, bind_eq, R2. destruct keypair as [keypair|]; [|rewrite Forall_forall in Hw2; specialize (Hw2 e Hin); unfold inward in Hw2; congruence].
  apply past in Hin as (id & w3 & R3 & Hw3 & Hin); [|frames|done|done]. rewrite bind_eq, R3. apply expect_ret_inv in R3 as [_ ->].
  rewrite bind_eq in *. cbn [get_state] in *. 
  apply past in Hin as (x & w5 & R5 & Hw5 & Hin); [|frames|done|done]. rewrite bind_eq, R5. apply expect_ret_inv in R5 as [_ ->]. destruct x as [c db].
  apply past in Hin as (u & w6 & R6 & Hw6 & Hin); [|apply services_inward|done|done]. rewrite bind_eq, R6.
  destruct u. apply start_services_inv in R6 as (Ho6 & _ & _ & Hans). exists id, c. split; [|by rewrite <- Ha1, <- Ha2].
  apply stays; [unfold get_public_ip, http_get; by frames|]. rewrite Ho6. apply elem_of_app. right. by left.
Qed.

(** The answers a replica has had before its services start: the visa and the bootstrap of its peer *)
Definition visa_answers (cli : Cli) : nat := match autoreplica_peer_addr cli with Some _ => 2 | None => 0 end.

Lemma http_get_answer uri (w : nworld) b w' : http_get uri w = Ret (Some b) w' -> w_answers w = HttpBody b :: w_answers w'.
Proof.
  unfold http_get. destruct w as [s ans clk out]. unfold emit, next_answer, mbind, M_bind. cbn.
  destruct ans as [|[body|] ans]; by intros [= <- <-].
Qed.
Lemma retrieve_replica_answers peer_addr cli (w : nworld) cli' w' :
  retrieve_replica writable write_len parse_visa peer_addr cli w = Ret cli' w' ->
  (exists a b, w_answers w = a :: b :: w_answers w') /\
  (cli_rest_port cli' = cli_rest_port cli /\ cli_socket_port cli' = cli_socket_port cli /\ p2p_port cli' = p2p_port cli) /\
  (rest_address cli' = rest_address cli /\ socket_address cli' = socket_address cli /\ p2p_address cli' = p2p_address cli).
Proof.
  intros H. unfold retrieve_replica in H. inverting H as v w1 R1. inverting H as v1 w2 R2. apply expect_ret_inv in R2 as [-> ->].
  apply http_get_answer in R1. inverting H as i w3 R3. apply expect_ret_inv in R3 as [_ ->]. inverting H as b w4 R4.
  inverting H as b1 w5 R5. apply expect_ret_inv in R5 as [-> ->]. apply http_get_answer in R4.
  inverting H as u w6 R6. apply expect_ret_inv in R6 as [_ ->]. inverting H as u1 w7 R7. injection R7 as <- <-. injection H as <- <-.
  split; [|done]. exists (HttpBody v1), (HttpBody b1). by rewrite R1, R4.
Qed.

(** C26: until the genesis block of a node that starts from its bootstrap has been executed nothing
    of it is reached from outside, whatever else happens and even if it panics: neither its
    socket nor its network, nor the assembly of the miners, nor its REST interface. And a node
    that starts starts its parts in one order (the core, the services, the genesis block when it
    has no block yet, and only then these), all of them with the same network name, account
    and ports, those of its command line. *)
Theorem started_node cli (w : nworld) (r := node_run cli w) :
  w_out w = [] ->
  (forall e, e ∈ w_out (exec_world r) -> outward e = true ->
     exists id c, CoreStarted id c ∈ w_out (exec_world r) /\
       (NodeStart.bootstrap_txs c <> None -> w_answers w !! visa_answers cli = Some GenesisExecuted)) /\
  forall w', r = Ret true w' ->
    exists gets gets' id c db info p2p configs file_content,
      w_out w' = gets ++ services id c db ++ doors cli c info gets' p2p configs /\
      only_gets gets /\ only_gets gets' /\ NodeStart.bootstrap_txs c <> Some [] /\ reachable_at cli id c info p2p configs /\
      NodeStart.init_core initial_hash file_content (open_db (db_path configs)) id = Some (c, db).
Proof.
  intros Hw. subst r. unfold run. split.
  - intros e Hin He. destruct (autoreplica_peer_addr cli) as [peer_addr|] eqn:Er; [|rewrite bind_eq in *; cbn [mret M_ret] in *].
    + apply past in Hin as (cli' & w1 & R & Hw1 & Hin); [|apply replica_inward|by rewrite Hw|done]. rewrite bind_eq, R.
      apply retrieve_replica_answers in R as ((a & b & Ha) & _). destruct (configured_waits cli' w1 e Hw1 Hin He) as (id & c & Hc & Hg).
      exists id, c. split; [done|]. intros Hb. unfold visa_answers. rewrite Er, Ha. specialize (Hg Hb). by destruct (w_answers w1).
    + destruct (configured_waits cli w e ltac:(by rewrite Hw) Hin He) as (id & c & Hc & Hg).
      exists id, c. split; [done|]. intros Hb. unfold visa_answers. rewrite Er. specialize (Hg Hb). by destruct (w_answers w).
  - intros w' H. inverting H as cli' w1 R.
    assert (Hc : exists gets, w_out w1 = gets /\ only_gets gets /\
      (cli_rest_port cli' = cli_rest_port cli /\ cli_socket_port cli' = cli_socket_port cli /\ p2p_port cli' = p2p_port cli) /\
      (rest_address cli' = rest_address cli /\ socket_address cli' = socket_address cli /\ p2p_address cli' = p2p_address cli)).
    { destruct (autoreplica_peer_addr cli) as [peer_addr|].
      - pose proof (retrieve_replica_answers _ _ _ _ _ R) as (_ & Hp). apply retrieve_replica_inv in R as (es & _ & Ho & Hg & _).
        exists es. rewrite Hw in Ho. by split.
      - injection R as <- <-. exists []. split; [done|]. split; [constructor|done]. }
    destruct Hc as (gets & Ho & Hg & (P1 & P2 & P3) & A1 & A2 & A3).
    apply configured_node in H as (gets' & id & c & db & info & p2p & configs & content & Hout & Hg' & Hne & [B1 B2 B3 B4 B5] & Hi & _).
    exists gets, gets', id, c, db, info, p2p, configs, content. rewrite Hout, Ho. unfold doors. rewrite P1, P2, A1, A2 in *.
    split; [done|]. split; [done|]. split; [done|]. split; [done|]. split; [split; try done; by rewrite <- P3, <- A3|done].
Qed.

(** What a replica reads: the peers of the visa, and of the bootstrap what a write took *)
Lemma retrieve_replica_eq peer_addr cli visa body bootstrap rest s clk out : parse_visa body = Some visa -> writable REPLICA_BOOTSTRAP = true ->
  exists cli' out', retrieve_replica writable write_len parse_visa peer_addr cli (World s (HttpBody body :: HttpBody bootstrap :: rest) clk out : nworld) =
      Ret cli' (World (Mk (<[REPLICA_BOOTSTRAP := take (Z.to_nat (write_len bootstrap)) bootstrap]> (files s))) rest clk out') /\
    blockchain_bootstrap_file cli' = Some REPLICA_BOOTSTRAP /\
    p2p_bootstrap_peer_addresses cli' = RestApi.p2p_addresses (v_node_configs visa) /\
    p2p_bootstrap_peer_id cli' = Some (RestApi.p2p_peer_id (v_node_configs visa)).
Proof.
  intros Hv Hw. eexists _, _. split; [|split; [|split]].
  - unfold retrieve_replica, http_get, write_file, emit, modify, next_answer, mbind, M_bind. cbn. rewrite Hv. cbn. rewrite Hw. reflexivity.
  - reflexivity.
  - reflexivity.
  - reflexivity.
Qed.

(** C27: a replica whose database has no block, once it got the visa and the bootstrap file of
    a peer and wrote the file whole, starts from the same network name, transactions and seed as
    a node started from that file, and joins the network through the addresses of the visa. *)
Theorem replica_joins cli peer_addr visa body bootstrap rest s clk w' source_config source_id source_db source_db' :
  autoreplica_peer_addr cli = Some peer_addr -> parse_visa body = Some visa -> writable REPLICA_BOOTSTRAP = true ->
  len bootstrap <= write_len bootstrap -> (forall path, load_block u64_max (open_db path) = None) ->
  NodeStart.init_core_from_bootstrap initial_hash (Some bootstrap) source_db source_id = Some (source_config, source_db') ->
  node_run cli (World s (HttpBody body :: HttpBody bootstrap :: rest) clk []) = Ret true w' ->
  exists id c peer_id p2p, CoreStarted id c ∈ w_out w' /\ P2PServiceStarted peer_id p2p ∈ w_out w' /\
    NodeStart.network_name c = NodeStart.network_name source_config /\ NodeStart.bootstrap_txs c = NodeStart.bootstrap_txs source_config /\
    NodeStart.seed_source c = NodeStart.seed_source source_config /\ NodeStart.block c = None /\ NodeStart.players c = Players.Mk [id] [1] /\
    P2PStart.network_name p2p = NodeStart.network_name source_config /\
    P2PStart.bootstrap_addresses p2p = RestApi.p2p_addresses (v_node_configs visa) /\
    P2PStart.bootstrap_peer_id p2p = Some (RestApi.p2p_peer_id (v_node_configs visa)).
Proof.
  intros Hrep Hv Hw Hlen Hempty Hsrc H. unfold run in H. rewrite Hrep in H.
  destruct (retrieve_replica_eq peer_addr cli visa body bootstrap rest s clk [] Hv Hw) as (cli' & out' & Hr & Hb & Ha & Hp).
  rewrite bind_eq, Hr in H.
  apply configured_node in H as (gets' & id & c & db & info & p2p & configs & content & Ho & _ & _ & [_ _ _ _ [_ Hn]] & Hinit & Hpath & Hpa & Hpi & Hfile).
  rewrite take_ge in Hfile by (unfold len in Hlen; lia). unfold bootstrap_file_path in Hpath. rewrite Hb in Hpath. cbn in Hpath.
  rewrite Hpath in Hfile. cbn in Hfile. rewrite lookup_insert_eq in Hfile. rewrite (Hfile _ eq_refl ltac:(by vm_compute)) in Hinit.
  unfold NodeStart.init_core in Hinit. rewrite Hempty in Hinit. unfold NodeStart.init_core_from_bootstrap in Hinit, Hsrc.
  destruct (NodeStart.load_bootstrap_struct_from_file (Some bootstrap)) as [[[name bin] txs]|]; [|done]. cbn in Hinit, Hsrc.
  destruct (NodeStart.store_service_account bin (open_db _)) as [db1|]; [|done]. cbn in Hinit. injection Hinit as <- <-.
  destruct (NodeStart.store_service_account bin source_db) as [db2|]; [|done]. cbn in Hsrc. injection Hsrc as <- _.
  eexists id, _, _, p2p. rewrite Ho. split; [apply elem_of_app; right; by left|].
  split; [unfold doors; rewrite !elem_of_app; right; right; right; right; by left|]. rewrite Hpa, Hpi, Ha, Hp. by split_and!.
Qed.

(** A node of the playground starts its core from the bootstrap, without a block and as its
    only player, and asks for the genesis block, whatever its database holds already. *)
Theorem playground_forgets keypair players bootstrap_peer_id cli (w w' : nworld) :
  run_playground initial_hash open_db manifest_dir keypair players bootstrap_peer_id cli w = Ret tt w' ->
  exists id c db, w_out w' = w_out w ++ services id c db ++ [PlaygroundStarted players id bootstrap_peer_id] /\
    NodeStart.block c = None /\ NodeStart.players c = Players.Mk [id] [1] /\
    exists txs, NodeStart.bootstrap_txs c = Some txs /\ txs <> [].
Proof.
  intros H. unfold run_playground in H. inverting H as id w1 R1. apply expect_ret_inv in R1 as [_ ->].
  inverting H as s w2 R2. injection R2 as <- <-. inverting H as x w3 R3. apply expect_ret_inv in R3 as [Hinit ->]. destruct x as [c db].
  cbv beta iota zeta in H. inverting H as y w4 R4. destruct y. apply start_services_inv in R4 as (Hs & _ & Hne & _).
  injection H as <-. exists id, c, db. split; [cbn; by rewrite Hs, <- app_assoc|].
  unfold NodeStart.init_core_from_bootstrap in Hinit.
  destruct (NodeStart.load_bootstrap_struct_from_file _) as [[[name bin] txs]|]; [|done]. cbn in Hinit.
  destruct (NodeStart.store_service_account bin _) as [db1|]; [|done]. cbn in Hinit. injection Hinit as <- <-.
  split; [done|]. split; [done|]. exists txs. split; [done|]. intros ->. by apply Hne.
Qed.

End run.

(** Without a port, the node announces its public address with the port zero. *)
Theorem port_zero_announced `{Hp2p : Libp2p} cli ip network_name peer w :
  p2p_port cli = None -> P2PStart.first_peer (p2p_config cli (Some ip) network_name) peer ->
  Forall (fun interface => is_multiaddr (P2PStart.tcp_address interface 0) = true) (default ["0.0.0.0"%string] (p2p_address cli)) ->
  is_multiaddr (P2PStart.tcp_address ip 0) = true ->
  exists w', P2PStart.start (p2p_config cli (Some ip) network_name) w = Ret tt w' /\
    P2PStart.ExternalAddress ("/ip4/" ++ ip ++ "/tcp/0") ∈ w_out w'.
Proof.
  intros Hport Hp Hi Ha.
  assert (Hpt : P2PStart.port (p2p_config cli (Some ip) network_name) = 0) by (unfold p2p_config; cbn; by rewrite Hport).
  eexists. split; [apply (P2PStart.start_spec _ peer); [exact Hp|by rewrite Hpt|rewrite Hpt; by intros ? [= <-]]|].
  cbn [w_out outs]. unfold outs. cbn [w_out]. apply elem_of_app. right. unfold P2PStart.ops. apply elem_of_cons. right. rewrite Hpt.
  rewrite !elem_of_app, !elem_of_cons, !elem_of_app. right. right. right. right. left. by left.
Qed.

(** No two routes have the same path and method. *)
Lemma routes_unique : NoDup (map fst routes).
Proof. apply (bool_decide_unpack (NoDup (map fst routes))). vm_compute. exact I. Qed.

(** ** Witnesses *)
Module RunSample.
Import DatabaseSample StartSample.
#[local] Existing Instances Samples.digest Samples.base58 Samples.ring MemDb.mem_db StartSample.hex StartSample.codecs.
#[local] Instance read_bootstrap : MsgUnpack Bootstrap :=
  {| msgunpack := fun l => Some (MkBootstrap l [BulkTransaction DatabaseSample.bulk] "") |}.
#[local] Instance identity : P2PIdentity :=
  {| P2PKeyPair := list Z; from_protobuf_encoding := Some; to_protobuf_encoding := Some; get_peer_id := Samples.string_of_bytes |}.

Definition configs : NodeConfigs := MkNodeConfigs "bs" "db" "peer" (Some ["/ip4/10.0.0.1/tcp/7000"%string]) None 5001 5000 "source".
Definition visa : Visa := MkVisa (MkCratesVersion "0" "0") (MkDbStatus 0 (Samples.hash 0)) configs "net".
Definition cli : Cli := MkCli (Some "http://10.0.0.1"%string) None None None None None None None None None None None None None.
Definition bootstrap_file : list Z := [1; 2; 3].
Abbreviation sample_run := (run (Hid := identity) (D := RocksDb.t) (F := Fork) (Samples.hash 0) (fun _ => DatabaseSample.db) "" (fun _ => true) len [7; 7] [8] (fun _ => Some visa) (fun _ => Some "10.0.0.2"%string)).
Definition start : world t (effect (D := RocksDb.t)) answer :=
  World (Mk ∅) [HttpBody []; HttpBody bootstrap_file; GenesisExecuted; HttpBody []] (0, []) [].

Definition ended {S E R} (r : exec (world S E R) bool) : bool := match r with Ret b _ => b | Panic _ => false end.
Lemma ended_true {S E R} (r : exec (world S E R) bool) : ended r = true -> r = Ret true (exec_world r).
Proof. destruct r as [[]|]; [intros _; reflexivity|discriminate|discriminate]. Qed.

Lemma sample_ends : ended (sample_run cli start) = true.
Proof. vm_compute. reflexivity. Qed.

Lemma started_node_witness : exists gets gets' id c db info p2p configs file_content,
    w_out (exec_world (sample_run cli start)) = gets ++ services id c db ++ doors cli c info gets' p2p configs /\
    only_gets gets /\ only_gets gets' /\ NodeStart.bootstrap_txs c <> Some [] /\ reachable_at cli id c info p2p configs /\
    NodeStart.init_core (F := Fork) (Samples.hash 0) file_content DatabaseSample.db id = Some (c, db).
Proof.
  apply (proj2 (started_node (Hid := identity) (F := Fork) (Samples.hash 0) (fun _ => DatabaseSample.db) "" (fun _ => true) len [7; 7] [8] (fun _ => Some visa)
    (fun _ => Some "10.0.0.2"%string) cli start eq_refl)).
  exact (ended_true _ sample_ends).
Defined.

Lemma replica_joins_witness : exists (c : NodeStart.config) peer_id p2p,
  P2PServiceStarted peer_id p2p ∈ w_out (exec_world (sample_run cli start)) /\
  Some (NodeStart.network_name c) = NodeStart.calculate_network_name bootstrap_file /\
  P2PStart.network_name p2p = NodeStart.network_name c /\
  P2PStart.bootstrap_addresses p2p = Some ["/ip4/10.0.0.1/tcp/7000"%string].
Proof.
  assert (Hs : exists c db, NodeStart.init_core_from_bootstrap (F := Fork) (Samples.hash 0) (Some bootstrap_file) DatabaseSample.db "source" = Some (c, db) /\
    Some (NodeStart.network_name c) = NodeStart.calculate_network_name bootstrap_file).
  { assert (Hok : match NodeStart.init_core_from_bootstrap (F := Fork) (Samples.hash 0) (Some bootstrap_file) DatabaseSample.db "source" with
      | Some (c, _) => bool_decide (Some (NodeStart.network_name c) = NodeStart.calculate_network_name bootstrap_file) | None => false end = true)
      by (vm_compute; reflexivity).
    destruct (NodeStart.init_core_from_bootstrap _ _ _ _) as [[c db]|]; [|discriminate Hok]. exists c, db. split; [reflexivity|].
    apply bool_decide_eq_true in Hok. exact Hok. }
  destruct Hs as (c & db & Hc & Hn).
  destruct (replica_joins (Hid := identity) (F := Fork) (Samples.hash 0) (fun _ => DatabaseSample.db) "" (fun _ => true) len [7; 7] [8] (fun _ => Some visa) (fun _ => Some "10.0.0.2"%string)
    cli "http://10.0.0.1" visa [] bootstrap_file [GenesisExecuted; HttpBody []] (Mk ∅) (0, []) (exec_world (sample_run cli start)) c "source" DatabaseSample.db db
    eq_refl eq_refl eq_refl) as (id & c' & peer_id & p2p & _ & Hp & _ & _ & _ & _ & _ & Hnet & Haddr & _).
  - reflexivity.
  - intros path. vm_compute. reflexivity.
  - exact Hc.
  - exact (ended_true _ sample_ends).
  - exists c, peer_id, p2p. split; [exact Hp|]. split; [exact Hn|]. split; [exact Hnet|exact Haddr].
Defined.

Abbreviation sample_playground := (run_playground (D := RocksDb.t) (F := Fork) (Samples.hash 0) (fun _ => DatabaseSample.merged (store_block DatabaseSample.block [] DatabaseSample.fork)) "/src"
  (Samples.keypair "a") (Players.Mk ["a"%string] [1]) None).
Definition with_bootstrap : world t (effect (D := RocksDb.t)) answer := World (Mk {["/src/data/bs/t3_bs_testnet.bin"%string := bootstrap_file]}) [GenesisExecuted] (0, []) [].

(** The database has a block, and the node starts from the bootstrap. *)
Lemma playground_forgets_witness :
  load_block u64_max (DatabaseSample.merged (store_block DatabaseSample.block [] DatabaseSample.fork)) = Some DatabaseSample.block /\
  exists id c db, w_out (exec_world (sample_playground cli with_bootstrap)) = services id c db ++ [PlaygroundStarted (Players.Mk ["a"%string] [1]) id None] /\
    NodeStart.block c = None.
Proof.
  split; [vm_compute; reflexivity|].
  assert (Hok : panicked (sample_playground cli with_bootstrap) = false) by (vm_compute; reflexivity).
  destruct (sample_playground cli with_bootstrap) as [[] w'|w'] eqn:Hr; [|discriminate Hok].
  apply playground_forgets in Hr as (id & c & db & Ho & Hb & _). exists id, c, db. split; [exact Ho|exact Hb].
Defined.
End RunSample.
