(* ===== verification/Indexer.v ===== *)
(** * The indexer of the balances ([trinci-node/src/services/indexer.rs]; the updates of
    [artifacts/models.rs])

    With the feature of the indexer, the updates of the balances of a block are posted to a CouchDB
    server, each with its place among the updates of its transaction. *)

From stdpp Require Import base gmap strings list fin_maps pretty.
From S2P Require Import Prelude.
From S2P Require Import Exec.
From S2P Require Import Hash.
From S2P Require Import NodeModels.
From S2P Require Import NodeErrors.
From S2P Require Import WasmMachine.
Open Scope Z_scope.

(** The node of a bulk an update comes from *)
Record AssetNode : Type := MkAssetNode { an_tx_hash : Hash; an_origin : string }.
Record AssetCouchDb : Type := MkAsset {
  ac_account : string;
  ac_origin : string;
  ac_asset : string;
  prev_amount : list Z;
  amount : list Z;
  ac_method : string;
  ac_tx_hash : Hash;
  smartcontract_hash : Hash;
  ac_block_height : Z;
  ac_block_hash : Hash;
  ac_block_timestamp : Z;
  ac_node : option AssetNode
}.

(** [AssetCouchDb::new]: the transaction and the block are filled in later. *)
Definition new_asset (account_id origin asset : string) (prev_amount new_amount : list Z) (smartcontract_hash : Hash)
    (block_timestamp : Z) (method : string) (node : option AssetNode) : AssetCouchDb :=
  MkAsset account_id origin asset prev_amount new_amount method Hashes.default smartcontract_hash 0 Hashes.default block_timestamp node.

Module Indexer.
Section indexer.
(** JSON values, what MessagePack reads as one, or the text of its error; the texts of bytes; the
    random ids; whether a request can be made to an address *)
Context {Json : Type} (read_json : list Z -> Result Json string) (hex_encode : list Z -> string) (new_v4 : nat -> string)
  (valid_uri : string -> bool).

Record Config : Type := MkConfig { host : string; port : Z; db_name : string; user : string; password : string }.

Inductive Amount : Type :=
| Null
| Decoded (source : list Z) (value : Json)
| Undecoded (source : list Z) (error : string).

Record CouchDbDoc : Type := MkDoc {
  doc_id : string;
  account : string;
  origin : string;
  asset : string;
  doc_prev_amount : Amount;
  doc_amount : Amount;
  method : string;
  sequence_number : Z;
  tx_hash : string;
  doc_smartcontract_hash : string;
  block_height : Z;
  block_hash : string;
  block_timestamp : Z;
  node : option (string * string)
}.

(** The statics [PREV_HASH] and [SEQUENCE], and how many ids were drawn *)
Record t : Type := Mk { prev_hash : option Hash; sequence : Z; drawn : nat }.
Definition initial : t := Mk None 0 0.

Definition next_sequence (hash : Hash) (s : t) : Z * t :=
  if bool_decide (prev_hash s = Some hash) then (sequence s +u64 1, Mk (prev_hash s) (sequence s +u64 1) (drawn s))
  else (0, Mk (Some hash) 0 (drawn s)).

Definition get_amount (buf : list Z) : Amount :=
  match buf with
  | [] => Null
  | _ => match read_json buf with Ok val => Decoded buf val | Err e => Undecoded buf e end
  end.

(** The bytes of a hash; it is 40 bytes long. *)
Definition hash_text (h : Hash) : string := hex_encode (default [] (Hashes.as_bytes h)).

(** [CouchDbDoc::from] *)
Definition doc_from (item : AssetCouchDb) (s : t) : CouchDbDoc * t :=
  let id := new_v4 (drawn s) in
  let '(number, s) := next_sequence (ac_tx_hash item) s in
  (MkDoc id (ac_account item) (ac_origin item) (ac_asset item) (get_amount (prev_amount item)) (get_amount (amount item)) (ac_method item)
     number (hash_text (ac_tx_hash item)) (hash_text (smartcontract_hash item)) (ac_block_height item) (hash_text (ac_block_hash item))
     (ac_block_timestamp item) ((fun n => (hash_text (an_tx_hash n), an_origin n)) <$> ac_node item),
   Mk (prev_hash s) (sequence s) (S (drawn s))).

(** Updates that change a balance *)
Definition is_update (item : AssetCouchDb) : bool :=
  ((0 <? len (prev_amount item)) || (0 <? len (amount item))) && negb (bool_decide (prev_amount item = amount item)).

Fixpoint docs_from (items : list AssetCouchDb) (s : t) : list CouchDbDoc * t :=
  match items with
  | [] => ([], s)
  | item :: items => let '(doc, s) := doc_from item s in let '(docs, s) := docs_from items s in (doc :: docs, s)
  end.

Definition uri (c : Config) : string :=
  ("http://" ++ user c ++ ":" ++ password c ++ "@" ++ host c ++ ":" ++ pretty (Z.to_N (port c)) ++ "/" ++ db_name c ++ "/_bulk_docs")%string.

(** What is posted; how that ends is only logged. *)
Definition store_data (c : Config) (data : list AssetCouchDb) : M t (string * list CouchDbDoc) unit unit :=
  s ← get_state;
  let '(docs, s) := docs_from (List.filter is_update data) s in
  modify (fun _ => s) ;;
  when (valid_uri (uri c)) (emit (uri c, docs)).

(** ** The numbers *)

(** The updates of each transaction together, with how many there are *)
Definition grouped (groups : list (Hash * nat)) (items : list AssetCouchDb) : Prop :=
  map ac_tx_hash items = mjoin (map (fun '(h, n) => replicate n h) groups).
Definition numbered (groups : list (Hash * nat)) : list Z := mjoin (map (fun '(_, n) => seqZ 0 (Z.of_nat n)) groups).

Lemma docs_from_app items items' s :
  docs_from (items ++ items') s =
    let '(docs, s1) := docs_from items s in let '(docs', s2) := docs_from items' s1 in (docs ++ docs', s2).
Proof.
  revert s. induction items as [|item items IH]; intros s; cbn [app docs_from]; [by destruct (docs_from items' s)|].
  destruct (doc_from item s) as [doc s1]. rewrite IH. destruct (docs_from items s1) as [docs s2]. by destruct (docs_from items' s2).
Qed.

(** The updates of a transaction after the first *)
Lemma docs_from_same h n k items s : 0 <= k -> k + Z.of_nat n <= u64_max -> map ac_tx_hash items = replicate n h ->
  prev_hash s = Some h -> sequence s = k ->
  map sequence_number (fst (docs_from items s)) = seqZ (k + 1) (Z.of_nat n) /\ prev_hash (snd (docs_from items s)) = Some h.
Proof.
  revert k items s. induction n as [|n IH]; intros k items s Hk Hn Hi Hp Hs; cbn [replicate] in Hi.
  { destruct items; [|done]. cbn. by rewrite seqZ_nil. }
  destruct items as [|item items]; [done|]. injection Hi as Hh Hi. cbn [docs_from]. unfold doc_from, next_sequence. rewrite Hp, Hh, bool_decide_true by done.
  rewrite Hs, u64_add_small by lia. destruct (IH (k + 1) items (Mk (Some h) (k + 1) (S (drawn s)))) as [H1 H2]; [lia|lia|done|done|done|].
  cbn. destruct (docs_from items _) as [docs s2]. cbn in H1, H2 |- *. rewrite H1. split; [|done].
  rewrite (seqZ_cons (k + 1)) by lia. do 2 f_equal; lia.
Qed.

Lemma docs_from_group h n items s : (0 < n)%nat -> Z.of_nat n <= u64_max -> map ac_tx_hash items = replicate n h -> prev_hash s <> Some h ->
  map sequence_number (fst (docs_from items s)) = seqZ 0 (Z.of_nat n) /\ prev_hash (snd (docs_from items s)) = Some h.
Proof.
  intros Hpos Hn Hi Hp. destruct n as [|n]; [lia|]. destruct items as [|item items]; [done|]. injection Hi as Hh Hi.
  cbn [docs_from]. unfold doc_from, next_sequence. rewrite Hh, bool_decide_false by done.
  destruct (docs_from_same h n 0 items (Mk (Some h) 0 (S (drawn s)))) as [H1 H2]; [lia|lia|done|done|done|].
  cbn. destruct (docs_from items _) as [docs s2]. cbn in H1, H2 |- *. rewrite H1. split; [|done].
  rewrite (seqZ_cons 0) by lia. do 2 f_equal; lia.
Qed.

(** When the updates of each transaction come together and no transaction comes twice, the
    documents posted for it are numbered from zero on, whatever was posted before. *)
Theorem numbers_spec c groups data s ans clk : valid_uri (uri c) = true ->
  grouped groups (List.filter is_update data) -> Forall (fun g => 0 < Z.of_nat (snd g) <= u64_max) groups -> NoDup (map fst groups) ->
  (forall h, prev_hash s = Some h -> h ∉ map fst groups) ->
  exists s' docs, store_data c data (World s ans clk []) = Ret tt (World s' ans clk [(uri c, docs)]) /\
    map sequence_number docs = numbered groups /\ map tx_hash docs = map hash_text (map ac_tx_hash (List.filter is_update data)).
Proof.
  unfold grouped, numbered, store_data, mbind, M_bind. intros Hu. rewrite Hu. cbn. set (items := List.filter is_update data). intros Hg Hpos Hd Hp.
  assert (Htx : forall items s, map tx_hash (fst (docs_from items s)) = map hash_text (map ac_tx_hash items)).
  { clear. induction items as [|item items IH]; intros s; [done|]. cbn [docs_from]. destruct (doc_from item s) as [doc s1] eqn:Ed.
    specialize (IH s1). destruct (docs_from items s1) as [docs s2]. cbn in *. rewrite IH. unfold doc_from in Ed.
    destruct (next_sequence _ s). by injection Ed as <- _. }
  specialize (Htx items s).
  assert (Hnum : map sequence_number (fst (docs_from items s)) = mjoin (map (fun '(_, n) => seqZ 0 (Z.of_nat n)) groups)).
  { clear Htx. clearbody items. revert items s Hg Hp. induction groups as [|[h n] groups IH]; intros items s Hg Hp; cbn in Hg.
    { apply map_eq_nil in Hg as ->. done. }
    apply Forall_cons in Hpos as [Hn Hpos]. apply NoDup_cons in Hd as [Hh Hd]. cbn in Hn, Hh.
    apply map_eq_app in Hg as (items1 & items2 & -> & H1 & H2). rewrite docs_from_app.
    destruct (docs_from_group h n items1 s) as [Hn1 Hp1]; [lia|lia|done|intros E; apply (Hp h E); by left|].
    destruct (docs_from items1 s) as [docs1 s1]. cbn in Hn1, Hp1.
    specialize (IH Hpos Hd items2 s1 H2 ltac:(intros h' E; rewrite Hp1 in E; by injection E as <-)).
    destruct (docs_from items2 s1) as [docs2 s2]. cbn in IH |- *. by rewrite map_app, Hn1, IH. }
  destruct (docs_from items s) as [docs s2]. cbn in *. by exists s2, docs.
Qed.
End indexer.
End Indexer.

(** ** Samples *)
Module IndexerSample.
Definition update (h : Hash) (n : Z) : AssetCouchDb := new_asset "a" "b" "c" [n] [n + 1] Hashes.default 0 "m" None.
Definition of_tx (h : Hash) (n : Z) : AssetCouchDb :=
  MkAsset "a" "b" "c" [n] [n + 1] "m" h Hashes.default 1 Hashes.default 0 None.
Abbreviation config := (Indexer.MkConfig "localhost" 5984 "trinci" "admin" "password").
Abbreviation read := (fun l : list Z => Ok (E := string) l).
Definition numbers_of (items : list AssetCouchDb) : list Z :=
  map Indexer.sequence_number (fst (Indexer.docs_from read (fun _ => "") (fun _ => "") items Indexer.initial)).
Definition tx1 : Hash := Hashes.default.
Definition tx2 : Hash := MkHash (replicate 40 1).

Lemma numbers_spec_witness : exists s' docs,
  Indexer.store_data read (fun _ => ""%string) (fun _ => ""%string) (fun _ => true) config [of_tx tx1 1; of_tx tx1 2; of_tx tx2 1] (World Indexer.initial [] (0, []) []) =
    Ret tt (World s' [] (0, []) [(Indexer.uri config, docs)]) /\ map Indexer.sequence_number docs = [0; 1; 0].
Proof.
  destruct (Indexer.numbers_spec read (fun _ => ""%string) (fun _ => ""%string) (fun _ => true) config [(tx1, 2%nat); (tx2, 1%nat)] [of_tx tx1 1; of_tx tx1 2; of_tx tx2 1]
    Indexer.initial [] (0, [])) as (s' & docs & H1 & H2 & _).
  - reflexivity.
  - reflexivity.
  - repeat constructor; vm_compute; discriminate.
  - apply (bool_decide_unpack (NoDup [tx1; tx2])). vm_compute. exact I.
  - discriminate.
  - exists s', docs. split; [exact H1|exact H2].
Defined.

(** Updates of two transactions that alternate have the same numbers again. *)
Theorem alternating_numbers : numbers_of [of_tx tx1 1; of_tx tx2 1; of_tx tx1 2] = [0; 0; 0].
Proof. vm_compute. reflexivity. Qed.
End IndexerSample.
