(* ===== verification/Kafka.v ===== *)
(** * The bridge to Kafka ([trinci-node/src/services/kafka_service.rs])

    With its feature, what the event service tells of executed blocks and of the events of
    contracts goes to two topics of a Kafka server, as hexadecimal text. *)

From stdpp Require Import base gmap strings list fin_maps pretty.
From S2P Require Import Prelude.
From S2P Require Import Exec.
From S2P Require Import EventService.
From S2P Require Import NodeMessages.
Open Scope Z_scope.

Module Kafka.
Definition SMARTCONTRACT_EVENT : string := "trinci_messages_transaction_event".
Definition BLOCK_EVENT : string := "trinci_messages_get_block_response".

Record Config : Type := MkConfig { addr : string; port : Z }.

Section kafka.
(** [hex::encode]; whether a producer can be made for a host *)
Context (hex_encode : list Z -> string) (connects : string -> bool).

Inductive effect : Type :=
| ToNode (e : NodeEffect)
| ToKafka (topic text : string).

Abbreviation h := (M unit effect NodeAnswer).
Definition to_node {A} (m : M unit NodeEffect NodeAnswer A) : h A := zoom (fun _ => tt) (fun _ s => s) ToNode m.

(** How a send ends is only logged. *)
Definition send_to_kafka (topic : string) (payload : list Z) : h unit := emit (ToKafka topic (hex_encode payload)).

(** A subscription that is not granted is a panic. *)
Definition subscribe (event_topics : Z) (event_sender : Chan) : h Z :=
  r ← to_node (ask_node NEvent (NodeReq.Subscribe event_topics event_sender None));
  match r with
  | Ok (NodeRes.Subscribe (Some connection_id)) => mret connection_id
  | _ => panic
  end.

(** What [select] gives the loop *)
Inductive Input : Type :=
| BlockExecuted (buf : list Z)
| ContractEvent (buf : list Z)
| Closed.

Definition step (i : Input) : h unit :=
  match i with
  | BlockExecuted block_buf => send_to_kafka BLOCK_EVENT block_buf
  | ContractEvent contract_buf => send_to_kafka SMARTCONTRACT_EVENT contract_buf
  | Closed => mret tt
  end.

(** The first channel is for the blocks, the second for the contracts. *)
Definition run (inputs : list Input) : h unit :=
  _ ← subscribe EventService.BLOCK_EXEC 0;
  _ ← subscribe EventService.CONTRACT_EVENTS 1;
  for_each inputs step.

Definition start (config : Config) (inputs : list Input) : h unit :=
  expect (if connects (addr config ++ ":" ++ pretty (Z.to_N (port config))) then Some tt else None) ;;
  run inputs.

(** ** What goes to the server *)
Definition record_of (i : Input) : list effect :=
  match i with
  | BlockExecuted buf => [ToKafka BLOCK_EVENT (hex_encode buf)]
  | ContractEvent buf => [ToKafka SMARTCONTRACT_EVENT (hex_encode buf)]
  | Closed => []
  end.

(** Once both subscriptions are granted every event goes to the topic of its kind, once
    and in order; a closed channel leaves the service looping. *)
Theorem events_forwarded config inputs id1 id2 rest clk :
  connects (addr config ++ ":" ++ pretty (Z.to_N (port config))) = true ->
  start config inputs (World tt (FromNode (NodeRes.Subscribe (Some id1)) :: FromNode (NodeRes.Subscribe (Some id2)) :: rest) clk []) =
    Ret tt (World tt rest clk
      ([ToNode (Asked NEvent (NodeReq.Subscribe EventService.BLOCK_EXEC 0 None));
        ToNode (Asked NEvent (NodeReq.Subscribe EventService.CONTRACT_EVENTS 1 None))] ++ mjoin (map record_of inputs))).
Proof.
  intros Hc. unfold start. rewrite bind_eq, Hc. unfold run. cbn [expect mret M_ret]. rewrite bind_eq.
  unfold subscribe at 1, to_node, zoom, ask_node, emit, next_answer, mbind, M_bind. cbn.
  unfold subscribe, to_node, zoom, ask_node, emit, next_answer, mbind, M_bind. cbn.
  rewrite (for_each_outs _ _ record_of); [done|]. intros [buf|buf|] v _; [done|done|]. cbn. unfold outs. rewrite app_nil_r. by destruct v.
Qed.
End kafka.

Lemma events_forwarded_witness :
  w_out (exec_world (start (fun _ => "00"%string) (fun _ => true) (MkConfig "localhost" 9092) [ContractEvent [1]; BlockExecuted [2]]
    (World tt [FromNode (NodeRes.Subscribe (Some 1)); FromNode (NodeRes.Subscribe (Some 2))] (0, []) []))) =
  [ToNode (Asked NEvent (NodeReq.Subscribe EventService.BLOCK_EXEC 0 None));
   ToNode (Asked NEvent (NodeReq.Subscribe EventService.CONTRACT_EVENTS 1 None));
   ToKafka SMARTCONTRACT_EVENT "00"; ToKafka BLOCK_EVENT "00"].
Proof. rewrite (events_forwarded (fun _ => "00"%string) (fun _ => true)); [reflexivity|reflexivity]. Defined.
End Kafka.
