(* ===== verification/TxSubmitter.v ===== *)
(** * The submitter of transactions for tests ([test-utility/tx-submitter/src/tx_builder.rs], [main.rs])

    A small server that makes transactions of the service account with the key of the
    administrator and posts them to a node. *)

From stdpp Require Import base gmap strings list fin_maps.
From S2P Require Import Prelude.
From S2P Require Import Exec.
From S2P Require Import Hash.
From S2P Require Import Crypto.
From S2P Require Import CoreModels.
From S2P Require Import DRand.
From S2P Require Import Samples.
From S2P Require Import NodeModels.
From S2P Require Import RestApi.
Open Scope Z_scope.

Module TxSubmitter.
Definition NW_NAME : string := "QmPAokH8f7b6Fy48Uk85BNf1xmNKQNpG1eowWoZbKnZNp2".

(** What the contracts are called with; the first three are JSON values. *)
Inductive Args : Type :=
| Mint (to : string) (units : Z)
| Transfer (from to : string) (units : Z) (data : option (list Z))
| Init (name : string) (max_units : Z)
| ContractRegistration (name version description url : string) (bin : list Z).

Section submitter.
Context `{Hdig : Digest} `{Hring : Ring} `{!MsgPack TransactionData, !MsgPack Transaction, !MsgPack Args}.
(** The key in the file of the administrator, or made for it; what the generator gives the [n]-th
    transaction: the randomness of its signature and its nonce of ten bytes; the binary of the mining
    contract, if its file opens *)
Context (admin : option Keys.TrinciKeyPair) (random : nat -> Z * list Z) (mining_bin : option (list Z)).

Inductive effect : Type :=
| Posted (uri : string) (body : list Z).

(** The state counts the transactions made; how a post ends: whether the status is a success *)
Abbreviation h := (M nat effect bool).

(** [get_sc_hash]; [None] is a panic. *)
Definition get_sc_hash (sc : list Z) : option Hash :=
  match Hashes.from_bytes ([18; 32] ++ sha256 sc) with Ok hash => Some hash | Err _ => None end.

(** A unit transaction signed with the key of the administrator *)
Definition unit_tx (account : string) (contract : option Hash) (method : string) (args : Args) : h Transaction :=
  kp ← expect admin;
  n ← get_state;
  modify S ;;
  let '(rnd, nonce) := random n in
  let data := V1 (MkV1 account 10000000 nonce NW_NAME contract method (Keys.public_key kp) (msgpack args)) in
  match Keys.sign rnd kp (msgpack data) with
  | Ok signature => mret (UnitTransaction (MkSigned data signature))
  | Err _ => panic
  end.

Definition mint_bb_tx (target_user : string) (units : Z) : h Transaction :=
  unit_tx "TRINCI" None "mint" (Mint target_user units).
Definition transfer_bb_tx (from_user to_user : string) (units : Z) (data : option (list Z)) : h Transaction :=
  unit_tx "TRINCI" None "transfer" (Transfer from_user to_user units data).
Definition publish_sc (args : Args) : h Transaction := unit_tx "TRINCI" None "contract_registration" args.
Definition craft_init_mining_sc : h Transaction :=
  bin ← expect mining_bin;
  contract_hash ← expect (get_sc_hash bin);
  unit_tx "#TCOIN" (Some contract_hash) "init" (Init "#TCOIN" 100000000).

(** [isahc::post] of a transaction: a post that fails is a panic. *)
Definition post_tx (node_rest_addr : string) (tx : h Transaction) : h bool :=
  tx ← tx;
  emit (Posted (node_rest_addr ++ "/submit_tx") (msgpack tx)) ;;
  r ← next_answer;
  expect r.

Definition submit_mint (addr target_user units : string) : h bool :=
  units ← expect (parse_unsigned 64 units);
  post_tx addr (mint_bb_tx target_user units).
Definition submit_transfer (addr from_user to_user units : string) : h bool :=
  units ← expect (parse_unsigned 64 units);
  post_tx addr (transfer_bb_tx from_user to_user units None).
Definition test_size (addr from_user to_user units data_size : string) : h bool :=
  units ← expect (parse_unsigned 64 units);
  data_size ← expect (parse_unsigned 64 data_size);
  post_tx addr (transfer_bb_tx from_user to_user units (Some (replicate (Z.to_nat data_size) 0))).
Definition publish_mining_sc (addr : string) : h bool :=
  bin ← expect mining_bin;
  post_tx addr (publish_sc (ContractRegistration "#TCOIN" "0.1.0" "trinci mining coin" "http://affidaty.io" bin)).
Definition init_mining_sc (addr : string) : h bool := post_tx addr craft_init_mining_sc.

Fixpoint submit_times (addr : string) (n : nat) : h bool :=
  match n with
  | O => mret true
  | S n =>
      ok ← post_tx addr (mint_bb_tx "#PIT" 1000);
      if ok : bool then submit_times addr n else mret false
  end.
Definition loop_submit_tx (addr number : string) : h bool :=
  n ← expect (parse_unsigned 64 number);
  submit_times addr (Z.to_nat n).
End submitter.

(** ** What is made verifies *)
Section verifies.
Context `{Hdig : Digest} `{Hring : Ring} `{Hlaws : !RingLaws} `{!MsgPack TransactionData, !MsgPack Transaction, !MsgPack Args}.

(** The key of the administrator is one that was loaded, and a nonce is not empty. *)
Context (kp : Keys.TrinciKeyPair) (random : nat -> Z * list Z) (mining_bin : option (list Z)).
Context (Hkp : NodeTheorems.loaded kp) (Hnonce : forall n, (random n).2 <> []).

(** A transaction of the administrator that verifies *)
Definition verified_tx (tx : Transaction) : Prop :=
  verify tx = Some true /\ TxData.get_network (s_data (signed tx)) = NW_NAME /\ TxData.get_caller (s_data (signed tx)) = Keys.public_key kp.

Lemma unit_tx_verified account contract method args : account <> EmptyString -> method <> EmptyString ->
  ensures (fun _ => True) (unit_tx (Some kp) random account contract method args) (fun tx _ => verified_tx tx).
Proof.
  intros Ha Hm w _. unfold unit_tx, get_state, modify, mbind, M_bind. cbn.
  specialize (Hnonce (w_state w)). destruct (random (w_state w)) as [rnd nonce]. cbn in Hnonce |- *.
  set (data := V1 (MkV1 _ _ _ _ _ _ _ _)). destruct (Keys.sign rnd kp (msgpack data)) as [sig|e] eqn:Es; [|done].
  split_and!; try done.
  apply (NodeTheorems.unit_verify_spec _ (MkV1 account 10000000 nonce NW_NAME contract method (Keys.public_key kp) (msgpack args)));
    [done|]. cbn. split; [|by split_and!].
  unfold NodeTheorems.signature_ok, data_verify. cbn. by apply (NodeTheorems.sign_verify rnd).
Qed.

(** What is posted: a transaction that verifies *)
Definition posts_verified (addr : string) (e : effect) : Prop :=
  exists tx, e = Posted (addr ++ "/submit_tx") (msgpack tx) /\ verified_tx tx.

Lemma post_tx_adds addr tx : rel (adds (posts_verified addr)) tx -> ensures (fun _ => True) tx (fun tx _ => verified_tx tx) ->
  rel (adds (posts_verified addr)) (post_tx addr tx).
Proof.
  intros Hq Hv. unfold post_tx. apply (rel_bind_ensures _ _ verified_tx); [done|done|].
  intros tx' Htx. frames. by exists tx'.
Qed.

Lemma post_unit_tx addr account contract method args : account <> EmptyString -> method <> EmptyString ->
  rel (adds (posts_verified addr)) (post_tx addr (unit_tx (Some kp) random account contract method args)).
Proof. intros Ha Hm. apply post_tx_adds; [unfold unit_tx; frames|by apply unit_tx_verified]. Qed.

Lemma post_init_tx addr : rel (adds (posts_verified addr)) (post_tx addr (craft_init_mining_sc (Some kp) random mining_bin)).
Proof.
  unfold craft_init_mining_sc. apply post_tx_adds; [unfold unit_tx; frames|].
  apply ensures_bind with (Q := fun _ _ => True); [by apply ensures_expect|]. intros bin.
  apply ensures_bind with (Q := fun _ _ => True); [by apply ensures_expect|]. intros hash. by apply unit_tx_verified.
Qed.

(** A request to the submitter, with the parameters of its path *)
Inductive Request : Type :=
| MintRequest (target_user units : string)
| TransferRequest (from_user to_user units : string)
| SizeRequest (from_user to_user units data_size : string)
| LoopRequest (number : string)
| PublishRequest
| InitRequest.

Definition serve (addr : string) (r : Request) : M nat effect bool bool :=
  match r with
  | MintRequest target_user units => submit_mint (Some kp) random addr target_user units
  | TransferRequest from_user to_user units => submit_transfer (Some kp) random addr from_user to_user units
  | SizeRequest from_user to_user units data_size => test_size (Some kp) random addr from_user to_user units data_size
  | LoopRequest number => loop_submit_tx (Some kp) random addr number
  | PublishRequest => publish_mining_sc (Some kp) random mining_bin addr
  | InitRequest => init_mining_sc (Some kp) random mining_bin addr
  end.

(** Whatever the submitter is asked, and however its posts end, each thing it posts is a
    transaction of the administrator for the network that the node's verification accepts. *)
Theorem posts_verify addr r w : exists es, w_out (exec_world (serve addr r w)) = w_out w ++ es /\ Forall (posts_verified addr) es.
Proof.
  cut (rel (adds (posts_verified addr)) (serve addr r)); [intros H; apply H|]. destruct r; cbn [serve];
    unfold submit_mint, submit_transfer, test_size, publish_mining_sc, init_mining_sc, loop_submit_tx.
  - frames. by apply post_unit_tx.
  - frames. by apply post_unit_tx.
  - frames. by apply post_unit_tx.
  - frames. induction (Z.to_nat a) as [|n IH]; cbn [submit_times]; [frames|].
    apply rel_bind; [typeclasses eauto|by apply post_unit_tx|intros []; [exact IH|frames]].
  - frames. by apply post_unit_tx.
  - apply post_init_tx.
Qed.
End verifies.

Module SubmitterSample.
#[local] Existing Instances Samples.digest Samples.ring.
#[local] Instance data_pack : MsgPack TransactionData := {| msgpack := fun d => [1] |}.
#[local] Instance tx_pack : MsgPack Transaction := {| msgpack := fun _ => [2] |}.
#[local] Instance args_pack : MsgPack Args := {| msgpack := fun a => match a with Mint _ units => [units] | _ => [] end |}.

Lemma posts_verify_witness : exists es,
  w_out (exec_world (serve (Samples.keypair "k") (fun n => (0, [Z.of_nat n])) None "http://127.0.0.1:9000" (LoopRequest "2") (World 0%nat [true; false] (0, []) []))) = [] ++ es /\
  Forall (posts_verified (Samples.keypair "k") "http://127.0.0.1:9000") es.
Proof.
  apply (posts_verify (Hlaws := NodeTheorems.sample_ring_laws)).
  - exact I.
  - discriminate.
Defined.
End SubmitterSample.
End TxSubmitter.
