(* ===== verification/NodeKeys.v ===== *)
(** * Hashes and values in the database ([NodeHash], [BinaryKey] and [BinaryValue] of
    [trinci-node/src/artifacts/models.rs])

    The merkledb crate keeps keys and values as bytes: it hands the code a buffer of [size] bytes
    for a key, and reads keys back from what was written.  That the rest of the development takes
    hashes themselves as the keys of the database is justified here. *)

From stdpp Require Import base gmap strings list fin_maps.
From S2P Require Import Prelude.
From S2P Require Import Hash.
From S2P Require Import NodeModels.
From S2P Require Import WasmMachine.
From S2P Require Import Samples.
Open Scope Z_scope.

Module NodeKeys.
(** [BinaryKey for NodeHash] *)
Definition size (h : Hash) : Z := Hashes.size h.

(** [clone_from_slice] panics when the lengths differ ([None]); it gives the buffer that was written
    and the number of bytes. *)
Definition write (h : Hash) (buffer : list Z) : option (list Z * Z) :=
  bytes ← Hashes.as_bytes h;
  if len buffer =? len bytes then Some (bytes, size h) else None.

Definition read (buffer : list Z) : option Hash :=
  match Hashes.from_bytes buffer with Ok h => Some h | Err _ => None end.

(** [BinaryValue for NodeHash] *)
Definition to_bytes (h : Hash) : option (list Z) := Hashes.to_bytes h.
Definition from_bytes (bytes : list Z) : Result Hash CryptoError := Hashes.from_bytes bytes.

(** [From<MerkleDbHash>]: the 32 bytes of a hash of the database *)
Definition of_merkledb (bytes : list Z) : option Hash :=
  match Hashes.new Sha256 bytes with Ok h => Some h | Err _ => None end.

(** [BinaryValue] of accounts, blocks, confirmations, receipts and transactions *)
Definition value_to_bytes {X} `{!MsgPack X} (x : X) : list Z := msgpack x.
Definition value_from_bytes {X} `{!MsgUnpack X} (bytes : list Z) : option X := msgunpack bytes.

(** Into a buffer of the size it announces a hash is written whole, and it is the hash that
    is read back; different hashes are different keys; a buffer of any other size is a panic. *)
Theorem key_roundtrip h buffer : Hashes.wf h ->
  (write h buffer = None <-> len buffer <> size h) /\
  (len buffer = size h -> exists bytes, write h buffer = Some (bytes, size h) /\ len bytes = size h /\ read bytes = Some h) /\
  (forall h' buffer' bytes n n', write h buffer = Some (bytes, n) -> write h' buffer' = Some (bytes, n') -> Hashes.wf h' -> h' = h).
Proof.
  intros Hw. destruct (Hashes.from_bytes_as_bytes h Hw) as (bs & Hb & Hf & _).
  destruct (Hashes.as_bytes_total h Hw) as (bs' & Hb' & Hl). rewrite Hb in Hb'. injection Hb' as <-.
  unfold write, read, size. rewrite Hb. cbn. rewrite Hl. split_and!.
  - destruct (len buffer =? Hashes.size h) eqn:E; [split; [done|lia]|split; [lia|done]].
  - intros ->. rewrite Z.eqb_refl. exists bs. by rewrite Hf.
  - intros h' buffer' bytes n n' H H' Hw'. destruct (Hashes.from_bytes_as_bytes h' Hw') as (bs2 & Hb2 & Hf2 & _).
    rewrite Hb2 in H'. cbn in H'. destruct (_ =? Hashes.size h); [|done]. destruct (_ =? len bs2); [|done].
    injection H as <- _. injection H' as -> _. rewrite Hf in Hf2. by injection Hf2.
Qed.

(** A hash of the database is a well-formed one, and different ones stay different. *)
Lemma of_merkledb_spec bytes : length bytes = 32%nat -> Forall is_u8 bytes ->
  exists h, of_merkledb bytes = Some h /\ Hashes.wf h /\ take 32 (Hashes.hash_value h) = bytes.
Proof.
  intros Hl Hb. unfold of_merkledb. rewrite Hashes.new_fits by (unfold len; cbn; lia).
  eexists. split; [done|]. split; [apply Hashes.wf_layout; [done|unfold len; cbn; lia]|].
  change (take 32 (bytes ++ replicate (36 - length bytes) 0) = bytes). rewrite <- Hl. by rewrite take_app_length.
Qed.

Lemma key_roundtrip_witness : exists bytes, write (Samples.hash 7) [0; 0; 0] = Some (bytes, 3) /\ len bytes = 3 /\ read bytes = Some (Samples.hash 7).
Proof.
  refine (proj1 (proj2 (key_roundtrip (Samples.hash 7) [0; 0; 0] _)) _).
  - apply Samples.hash_wf. vm_compute. split; discriminate.
  - reflexivity.
Defined.
Definition decode_hex (hex : string) : Result (list Z) string := if decide (hex = "000107"%string) then Ok [0; 1; 7] else Err "odd".

Lemma made_wf_witness : exists h, Hashes.from_hex decode_hex "000107" = Ok h /\ h = Samples.hash 7 /\ Hashes.wf h.
Proof.
  exists (Samples.hash 7). split; [reflexivity|]. split; [reflexivity|]. apply (@Hashes.made_wf Samples.digest decode_hex).
  - intros hex bytes. unfold decode_hex. destruct (decide _); [|discriminate]. intros [= <-]. repeat constructor; vm_compute; discriminate.
  - apply (@Hashes.made_from_hex Samples.digest decode_hex "000107"%string). reflexivity.
Defined.
End NodeKeys.
