(* ===== verification/WasmPlayground.v ===== *)
(** * The consolidation of a block on a node of the playground ([consolidate_block] of
    [trinci-node/src/services/wasm_service.rs] with the feature [playground])

    A node of the playground takes the players from a file that all nodes share, and tells its
    side of the playground of the block; it leaves out what a standalone node does after the
    merge. *)

From stdpp Require Import base gmap strings list fin_maps.
From S2P Require Import Prelude.
From S2P Require Import Exec.
From S2P Require Import Hash.
From S2P Require Import Crypto.
From S2P Require Import CoreModels.
From S2P Require Import Messages.
From S2P Require Import NodeModels.
From S2P Require Import NodeErrors.
From S2P Require Import Database.
From S2P Require Import EventService.
From S2P Require Import WasmMachine.
From S2P Require Import WasmService.
From S2P Require Import NodeMessages.
Open Scope Z_scope.

Module WasmPlayground.
Section playground.
Context `{Hdig : Digest} `{Hb58 : Base58} `{Hring : Ring} `{Hhex : Hex} `{Hcodecs : WasmCodecs}.
Context {D F W Chan : Type} `{Hdb : Db D F} `{Hfork : DbFork F} `{Hwm : Wm W F}.

Inductive effect : Type :=
| Service (e : WasmService.effect (Chan := Chan))
| ToNode (e : NodeEffect).

Abbreviation state := (WasmService.t (D := D) (F := F) (W := W)).
Abbreviation h := (M state effect core_answer).
Definition on_service {A} (m : M state (WasmService.effect (Chan := Chan)) core_answer A) : h A := zoom id (fun s _ => s) Service m.

(** The players in the file of the playground: a file that is not there or does not parse is a panic. *)
Definition notify_block_consolidated_playground (players_json : option Players.t) (block : Block) (txs_hashes : list Hash) : h unit :=
  actual_players ← expect players_json;
  on_service (WasmService.send_msg BlockService (Msg.BlockConsolidated block txs_hashes actual_players)) ;;
  emit (ToNode (Told NP2P (NodeMsg.BlockConsolidated block txs_hashes actual_players))).

Definition consolidate_block (players_json : option Players.t) (block : Block) (confirmations : list Confirmation) (txs_hashes : list Hash) :
    h (Result unit NodeError) :=
  s ← get_state;
  match WasmService.forks_collector s !! block_hash block with
  | None => panic
  | Some db_fork =>
      modify (WasmService.set_forks_collector (delete (block_hash block) (WasmService.forks_collector s))) ;;
      let db_fork := store_block block confirmations db_fork in
      if WasmService.db_poisoned s then mret (Err (NodeDBError MergeFork))
      else
        match merge_fork db_fork (WasmService.db s) with
        | Err e => mret (Err e)
        | Ok d =>
            modify (WasmService.set_db d) ;;
            on_service (WasmService.emit_events [(EventService.BLOCK_EXEC, msgpack (BlockEvent block (Some txs_hashes) None))]) ;;
            notify_block_consolidated_playground players_json block txs_hashes ;;
            mret (Ok tt)
        end
  end.

(** Consolidating a block keeps the forks of all the other blocks, which were made from the database as it
    was before; it tells the core and the playground of the same players, and nobody of the events of
    the contracts. *)
Theorem forks_kept players block confs hashes (w : world state effect core_answer) f d :
  WasmService.forks_collector (w_state w) !! block_hash block = Some f -> WasmService.db_poisoned (w_state w) = false ->
  merge_fork (store_block block confs f) (WasmService.db (w_state w)) = Ok d ->
  exists w', consolidate_block (Some players) block confs hashes w = Ret (Ok tt) w' /\
    WasmService.db (w_state w') = d /\
    WasmService.forks_collector (w_state w') = delete (block_hash block) (WasmService.forks_collector (w_state w)) /\
    w_out w' = w_out w ++ [Service (WasmService.Emitted EventService.BLOCK_EXEC (msgpack (BlockEvent block (Some hashes) None)));
      Service (WasmService.Core (Sent BlockService (MkComm (KMsg (Msg.BlockConsolidated block hashes players)) None)));
      ToNode (Told NP2P (NodeMsg.BlockConsolidated block hashes players))].
Proof.
  intros Hf Hp Hm. unfold consolidate_block, get_state, mbind, M_bind. rewrite Hf, Hp. cbn. rewrite Hm. cbn.
  eexists. split; [reflexivity|]. cbn. split; [done|]. split; [done|]. by rewrite <- !app_assoc.
Qed.
End playground.
End WasmPlayground.
