(* ===== verification/ExtComm.v ===== *)
(** * The messages between two peers on the wire ([ExtComm] of [trinci-node/src/artifacts/messages.rs])

    A request or a response is the whole of a stream: it is written at once, and the stream is
    closed; the other side reads until the stream ends. *)

From stdpp Require Import base gmap strings list fin_maps.
From S2P Require Import Prelude.
Open Scope Z_scope.

Module ExtComm.
Definition protocol : string := "/ExtComm/1.0.0".

Inductive error : Type :=
| UnexpectedEof (msg : string)
| Io.

(** What [FramedRead] gives of a stream, frame after frame, until it ends: bytes as they arrive, or an
    error of the stream *)
Inductive frame : Type :=
| Bytes (l : list Z)
| Failed.

(** The loop ends at an error as at the end. *)
Fixpoint read_frames (frames : list frame) : list Z :=
  match frames with
  | Bytes bytes :: frames => bytes ++ read_frames frames
  | Failed :: _ | [] => []
  end.

Definition read_message (frames : list frame) : Result (list Z) error :=
  match read_frames frames with
  | [] => Err (UnexpectedEof "Received empty frame")
  | buffer => Ok buffer
  end.

Definition read_request : list frame -> Result (list Z) error := read_message.
Definition read_response : list frame -> Result (list Z) error := read_message.

(** A sink takes what is sent ([None]: the send or the closing fails), and the stream ends. *)
Definition write_message (sink : list Z -> option (list Z)) (data : list Z) : Result (list Z) error :=
  match sink data with Some written => Ok written | None => Err Io end.
Definition write_request : (list Z -> option (list Z)) -> list Z -> Result (list Z) error := write_message.
Definition write_response : (list Z -> option (list Z)) -> list Z -> Result (list Z) error := write_message.

(** The ways in which bytes arrive: in frames of any sizes until the end, or until an error after some of
    them *)
Inductive arrives : list Z -> list frame -> Prop :=
| arrives_end : arrives [] []
| arrives_frame l data frames : arrives data frames -> arrives (l ++ data) (Bytes l :: frames).

Inductive cut_short : list Z -> list frame -> Prop :=
| cut_here data frames : cut_short data (Failed :: frames)
| cut_later l data frames : cut_short data frames -> cut_short (l ++ data) (Bytes l :: frames).

Lemma read_frames_arrives data frames : arrives data frames -> read_frames frames = data.
Proof. induction 1 as [|l data frames _ IH]; [done|]. cbn. by rewrite IH. Qed.

Lemma read_frames_cut data frames : cut_short data frames -> read_frames frames `prefix_of` data.
Proof.
  induction 1 as [data frames|l data frames _ [rest IH]]; [apply prefix_nil|]. cbn. exists rest. by rewrite IH, app_assoc.
Qed.

(** Whatever the sizes of the frames in which it arrives, a message that is not empty is read as it
    was written, and an empty one is refused; when the stream fails on the way, what is read is a part of the
    message from its start, taken for the whole unless it is empty. *)
Theorem message_roundtrip sink data written frames :
  (forall l, sink l = Some l) -> write_message sink data = Ok written ->
  (arrives written frames -> data <> [] -> read_message frames = Ok data) /\
  (arrives written frames -> data = [] -> is_err (read_message frames) = true) /\
  (cut_short written frames -> forall l, read_message frames = Ok l -> l `prefix_of` data /\ l <> []).
Proof.
  intros Hs. unfold write_message. rewrite Hs. intros [= <-]. unfold read_message. split_and!.
  - intros ->%read_frames_arrives Hd. by destruct data.
  - intros ->%read_frames_arrives ->. done.
  - intros H%read_frames_cut l Hl. destruct (read_frames frames); [done|]. injection Hl as <-. done.
Qed.

(** A request that is cut by an error is taken for a shorter one. *)
Lemma error_taken_for_end : read_request [Bytes [1; 2]; Failed; Bytes [3]] = Ok [1; 2].
Proof. reflexivity. Qed.

Lemma message_roundtrip_witness : read_message [Bytes [1]; Bytes []; Bytes [2; 3]] = Ok [1; 2; 3].
Proof.
  refine (proj1 (message_roundtrip (fun l => Some l) [1; 2; 3] [1; 2; 3] [Bytes [1]; Bytes []; Bytes [2; 3]] _ _) _ _).
  - reflexivity.
  - reflexivity.
  - apply (arrives_frame [1] [2; 3]), (arrives_frame [] [2; 3]), (arrives_frame [2; 3] []), arrives_end.
  - discriminate.
Defined.
End ExtComm.
