(* ===== verification/MiningStart.v ===== *)
(** * The start of the mining tool ([trinci-mining-tool/src/main.rs]; [ws_handler] of [endpoints.rs])

    The tool opens its key and its database, starts the update service, asks it for the nodes of its
    last execution and connects to them again, and then serves its REST interface and the sockets of
    its window. *)

From stdpp Require Import base gmap strings list fin_maps pretty.
From S2P Require Import Prelude.
From S2P Require Import Exec.
From S2P Require Import Hash.
From S2P Require Import Crypto.
From S2P Require Import CoreModels.
From S2P Require Import DRand.
From S2P Require Import Samples.
From S2P Require Import NodeModels.
From S2P Require Import WasmMachine.
From S2P Require Import NodeMessages.
From S2P Require Import SocketService.
From S2P Require Import RestApi.
From S2P Require Import MiningModels.
From S2P Require Import UpdateService.
From S2P Require Import MiningEndpoints.
Open Scope Z_scope.

Module MiningStart.
Import Endpoints.


(** ** The sockets of the window *)
Section window.
(** What [select] gives the loop of [ws_handler], with the sockets there are *)
Inductive WsInput : Type :=
| WsCancelled
| WsUpdate (msg : UpdateService.Update) (sockets : list Z)
| WsClosed.
Inductive WsEffect : Type :=
| EmittedTo (socket : Z) (event : string) (msg : UpdateService.Update)
| WsCancel.

Definition event_of (msg : UpdateService.Update) : string :=
  match msg with
  | UpdateService.UpdateNodeState _ => "update:node"
  | UpdateService.MTUpdate _ => "update:mt"
  end.

(** A socket that cannot be written is only logged.  [false] ends the loop. *)
Definition ws_step (i : WsInput) : M unit WsEffect unit bool :=
  match i with
  | WsCancelled => mret false
  | WsUpdate msg sockets => for_each sockets (fun socket => emit (EmittedTo socket (event_of msg) msg)) ;; mret true
  | WsClosed => emit WsCancel ;; mret false
  end.
Fixpoint ws_handler (inputs : list WsInput) : M unit WsEffect unit unit :=
  match inputs with
  | [] => mret tt
  | i :: inputs => go ← ws_step i; if go : bool then ws_handler inputs else mret tt
  end.

(** What reaches the sockets, until the tool is cancelled or its updates end *)
Fixpoint ws_effects (inputs : list WsInput) : list WsEffect :=
  match inputs with
  | [] | WsCancelled :: _ => []
  | WsUpdate msg sockets :: inputs => map (fun socket => EmittedTo socket (event_of msg) msg) sockets ++ ws_effects inputs
  | WsClosed :: _ => [WsCancel]
  end.

Theorem updates_reach_sockets inputs (w : world unit WsEffect unit) : ws_handler inputs w = Ret tt (outs (ws_effects inputs) w).
Proof.
  revert w. induction inputs as [|[|msg sockets|] inputs IH]; intros w.
  - cbn. unfold outs. rewrite app_nil_r. by destruct w.
  - cbn. unfold outs. rewrite app_nil_r. by destruct w.
  - cbn [ws_handler ws_step]. rewrite bind_eq, bind_eq, for_each_emit. cbn. rewrite IH. unfold outs. cbn. by rewrite app_assoc.
  - done.
Qed.
End window.

(** ** The start *)
Section start.
Context `{Hdig : Digest} `{Hb58 : Base58} `{Hring : Ring} `{!MsgPack TransactionData} `{Hcodecs : EndpointCodecs}.
Context `{Hiter : !HashMapIter string}.
Context (update_service_alive : bool) (new_ecdsa_document : list Z) (writable : bool).
(** Whether the database opens, and whether the address of the interface is free *)
Context (sled_opens binds : bool).

Inductive effect : Type :=
| UpdateServiceStarted
| OfTool (e : Endpoints.effect)
| WindowStarted
| StatsStarted
| Serving (rest_addr : string).

Abbreviation h := (M AppState effect answer).


(** ** The nodes of the last execution *)

Abbreviation tworld := (world AppState Endpoints.effect answer).

(** What a node gives who connects to it: its stream, unless it refuses the connection, and the body of its
    page of pairing, unless the request fails *)
Record Behaviour : Type := Behaves { b_stream : option (list Z); b_page : option (list Z) }.



(** Neither connects to a node nor starts a mining service *)
Definition quiet (e : Endpoints.effect) : Prop := match e with Connected _ | Spawned _ _ _ => False | _ => True end.



Lemma new_ecdsa_quiet : rel (adds quiet) (new_ecdsa new_ecdsa_document writable).
Proof. unfold new_ecdsa, fault. frames. Qed.
Lemma account_id_quiet k : rel (adds quiet) (account_id k).
Proof. unfold account_id, fault. frames. Qed.
Lemma account_id_unwrap_quiet k : rel (adds quiet) (account_id_unwrap k).
Proof. unfold account_id_unwrap. frames. Qed.
Lemma oneshot_quiet : rel (adds quiet) oneshot.
Proof. unfold oneshot. frames. Qed.
Lemma to_update_quiet cmd : rel (adds quiet) (to_update update_service_alive cmd).
Proof. unfold to_update, fault. frames. done. Qed.
#[local] Hint Resolve new_ecdsa_quiet account_id_quiet account_id_unwrap_quiet oneshot_quiet to_update_quiet : frames.





(** ** The tool's start goes through *)






(** ** The key and the pairing *)



Lemma connect_nodes_router key nodes : rel (same_proj nodes_router) (connect_nodes key nodes).
Proof.
  induction nodes as [|node nodes IH]; cbn [connect_nodes]; [by frames|].
  apply rel_bind; [typeclasses eauto| |intros r; apply rel_bind; [typeclasses eauto|exact IH|intros rest; by frames]].
  unfold connect_node, unpack_or, fault, account_id. by frames.
Qed.


(** ** A run of the tool *)



End start.

(** ** A sample *)
Module StartSample.
#[local] Existing Instances Samples.digest Samples.base58 Samples.ring gmap_iter.
#[local] Instance data_pack : MsgPack TransactionData := {| msgpack := fun d => [1] |}.
Definition node_key : Keys.TrinciPublicKey := Keys.PkEd25519 (Keys.MkEd25519PublicKey [7]).
#[local] Instance codecs : EndpointCodecs := {|
  unpack_transaction := {| msgunpack := fun _ => None |};
  unpack_public_key := {| msgunpack := fun _ => None |};
  pack_public_key := {| msgpack := fun _ => [7] |};
  unpack_interfaces := {| msgunpack := fun _ => None |};
  unpack_transfer := {| msgunpack := fun _ => None |};
  unpack_stake := {| msgunpack := fun _ => None |};
  unpack_unstake := {| msgunpack := fun _ => None |};
  unpack_node_info := {| msgunpack := fun _ => Some (MkNodeInfo "" None "net" [] node_key 9001) |};
  from_json_visa := {| from_json := fun _ => None |}
|}.

(** Of two nodes of the last execution one answers. *)
Definition nodes : list (NodeInterface * Behaviour) :=
  [(MkInterface "a" "10.0.0.1" 9001 5000, Behaves (Some [0; 0; 0; 1; 9]) (Some [])); (MkInterface "b" "10.0.0.2" 9001 5000, Behaves None None)].

End StartSample.
End MiningStart.
