(* ===== verification/KeyFiles.v ===== *)
(** * Keys in files ([new_private_key] of [trinci-core-new/src/crypto/{ecdsa,ed25519}.rs], [new_ecdsa] and
    [new_ed25519] of [crypto/identity.rs])

    A node keeps its identity in a file: an ECDSA key is read from it, or made and written to it the
    first time; an Ed25519 key is always made. *)

From stdpp Require Import base gmap strings list fin_maps.
From S2P Require Import Prelude.
From S2P Require Import Exec.
From S2P Require Import Hash.
From S2P Require Import Crypto.
From S2P Require Import Samples.
Open Scope Z_scope.

Module KeyFiles.
Import Keys.

Section files.
Context `{Hring : Ring}.
(** The documents the ring crate draws, one after the other; whether a file can be written *)
Context (generate_ecdsa : CurveId -> nat -> option (list Z)) (generate_ed25519 : nat -> option (list Z)) (writable : string -> bool).

Record t : Type := Mk { files : gmap string (list Z); drawn : nat }.
Abbreviation h := (M t unit unit).
Abbreviation try A := (Result A CryptoError).

(** A document is drawn and written to a file. *)
Definition save_document (generate : nat -> option (list Z)) (path : string) : h (try (list Z)) :=
  s ← get_state;
  modify (fun s => Mk (files s) (S (drawn s))) ;;
  match generate (drawn s) with
  | None => mret (Err CryptoAlgUnspecifiedError)
  | Some bytes =>
      if writable path then modify (fun s => Mk (<[path := bytes]> (files s)) (drawn s)) ;; mret (Ok bytes) else mret (Err IoError)
  end.
Definition ecdsa_new_private_key (curve_id : CurveId) (path : string) : h (try (list Z)) := save_document (generate_ecdsa curve_id) path.
Definition ed25519_new_private_key (path : string) : h (try (list Z)) := save_document generate_ed25519 path.

Definition new_ecdsa (curve_id : CurveId) (path : string) : h (try TrinciKeyPair) :=
  s ← get_state;
  private_key_bytes <-? (match files s !! path with
                         | Some buffer => mret (Ok buffer)
                         | None => ecdsa_new_private_key curve_id path
                         end);
  mret (let? k := ecdsa_new curve_id private_key_bytes in Ok (KpEcdsa k)).

Definition new_ed25519 (path : string) : h (try TrinciKeyPair) :=
  private_key_bytes <-? ed25519_new_private_key path;
  mret (let? k := ed25519_new private_key_bytes in Ok (KpEd25519 k)).

Lemma save_document_inv generate path (w : world t unit unit) bytes w' : save_document generate path w = Ret (Ok bytes) w' ->
  generate (drawn (w_state w)) = Some bytes /\ files (w_state w') = <[path := bytes]> (files (w_state w)).
Proof.
  unfold save_document, get_state, mbind, M_bind. cbn. destruct (generate _) as [b|]; [|done]. destruct (writable path); [|done].
  by intros [= <- <-].
Qed.

(** A node that was given an ECDSA key has the same key at every later start that finds the
    file, and no start changes a file it finds; what another file holds does not matter. *)
Theorem identity_kept curve_id path (w w1 : world t unit unit) k : new_ecdsa curve_id path w = Ret (Ok k) w1 ->
  forall w2 : world t unit unit, files (w_state w2) !! path = files (w_state w1) !! path -> new_ecdsa curve_id path w2 = Ret (Ok k) w2.
Proof.
  unfold new_ecdsa. intros H w2 Hf. inverting H as s w3 R. injection R as <- <-. inverting try H as bytes w4 R.
  assert (Hb : files (w_state w4) !! path = Some bytes).
  { destruct (files (w_state w) !! path) as [buf|] eqn:E; [injection R as -> <-; done|].
    apply save_document_inv in R as [_ ->]. apply lookup_insert_eq. }
  assert (Hk : (let? k := ecdsa_new curve_id bytes in Ok (KpEcdsa k)) = Ok k /\ w1 = w4) by (by injection H as -> ->).
  destruct Hk as [Hk ->]. rewrite Hb in Hf. rewrite bind_eq. cbn [get_state]. rewrite Hf. unfold try_bind. rewrite bind_eq.
  cbn [mret M_ret]. by rewrite Hk.
Qed.

(** An Ed25519 key is new at every start, whatever the file held, which is lost; it is the one that the
    file gives when it is loaded. *)
Theorem ed25519_replaced path (w w1 : world t unit unit) k : new_ed25519 path w = Ret (Ok k) w1 ->
  exists bytes, generate_ed25519 (drawn (w_state w)) = Some bytes /\ files (w_state w1) !! path = Some bytes /\
    (str_contains "/tpm" path = false -> str_contains "ecdsa" path = false ->
     load_keypair (Some path) (fun p => files (w_state w1) !! p) = Some (Ok k)).
Proof.
  unfold new_ed25519. intros H. inverting try H as bytes w2 R. apply save_document_inv in R as [Hg Hf].
  assert (Hk : (let? k := ed25519_new bytes in Ok (KpEd25519 k)) = Ok k /\ w1 = w2) by (by injection H as -> ->).
  destruct Hk as [Hk ->]. exists bytes. rewrite Hf, lookup_insert_eq. split_and!; [done|done|].
  intros Ht He. unfold load_keypair. rewrite Ht, He, lookup_insert_eq. by rewrite Hk.
Qed.
End files.

Lemma identity_kept_witness :
  let first := new_ecdsa (Hring := Samples.ring) (fun _ _ => Some [1; 2]) (fun _ => true) Secp256R1 "node.kp" (World (Mk ∅ 0) [] (0, []) []) in
  let again := World (Mk {["node.kp"%string := [1; 2]]} 7) [] (0, []) [] in
  new_ecdsa (Hring := Samples.ring) (fun _ _ => Some [1; 2]) (fun _ => true) Secp256R1 "node.kp" again =
    Ret (Ok (KpEcdsa (MkEcdsaKeyPair (H := Samples.ring) Secp256R1 [1; 2]))) again.
Proof.
  intros first again.
  apply (identity_kept (Hring := Samples.ring) (fun _ _ => Some [1; 2]) (fun _ => true) Secp256R1 "node.kp"
    (World (Mk ∅ 0) [] (0, []) []) (exec_world first)); vm_compute; reflexivity.
Defined.
End KeyFiles.
