(* ===== verification/WasmAgreement.v ===== *)
(** * The WASM service: what one node builds the others accept

    Two nodes with the same database, the same machine and the same settings that get the same leader
    and the same random numbers execute the transactions of a block alike, whatever their names and
    the forks they keep: the roots the builder of a block puts into it are those every other
    node computes.  So two nodes that build the blocks of a chain in turn stay replicas of each other. *)

From stdpp Require Import base gmap strings list fin_maps.
From S2P Require Import Prelude.
From S2P Require Import Exec.
From S2P Require Import Hash.
From S2P Require Import Crypto.
From S2P Require Import CoreModels.
From S2P Require Import DRand.
From S2P Require Import Messages.
From S2P Require Import NodeModels.
From S2P Require Import NodeErrors.
From S2P Require Import Database.
From S2P Require Import Fuel.
From S2P Require Import EventService.
From S2P Require Import WasmMachine.
From S2P Require Import WasmService.
From S2P Require Import WasmBlocks.
From S2P Require Import Samples.
From S2P Require Import DatabaseTheorems.
From S2P Require Import WasmSamples.
From S2P Require Import Twins.
Open Scope Z_scope.
Import WasmService.

Section agreement.
Context `{Hdig : Digest} `{Hb58 : Base58} `{Hring : Ring} `{Hhex : Hex} `{Hcodecs : WasmCodecs}.
Context {D F W Chan : Type} `{Hdb : Db D F} `{Hfork : DbFork F} `{Hwm : Wm W F}.

Abbreviation service_t := (t (D := D) (F := F) (W := W)).
Abbreviation tx_t := (tx_state (D := D) (F := F) (W := W)).
Abbreviation hw := (world service_t (effect (Chan := Chan)) core_answer).
Abbreviation txm := (M tx_t (effect (Chan := Chan)) core_answer).
Abbreviation hm := (M service_t (effect (Chan := Chan)) core_answer).

(** Nodes that agree: only their names and the forks they keep may differ. *)
Record agree (name name' : string) (forks forks' : gmap Hash F) (s s' : service_t) : Prop := {
  agree_method : burning_fuel_method s = burning_fuel_method s';
  agree_db : db s = db s';
  agree_poisoned : db_poisoned s = db_poisoned s';
  agree_network : network_name s = network_name s';
  agree_wm : wm s = wm s';
  agree_name : node_id s = name /\ node_id s' = name';
  agree_forks : forks_collector s = forks /\ forks_collector s' = forks'
}.

Section runs.
Context (name name' : string) (forks forks' : gmap Hash F).
Abbreviation P := (agree name name' forks forks').
(** Transactions that run on equal forks *)
Definition agree_tx (x x' : tx_t) : Prop := P (service x) (service x') /\ fork x = fork x'.

(** ** Transactions *)
Lemma twins_modify_fork g : twins agree_tx (modify_fork g : txm unit) (modify_fork g).
Proof. apply twins_modify. intros x x' [Hs Hf]. split; [done|]. cbn. by rewrite Hf. Qed.

Lemma twins_on_wm {A} events (m : wm_handler W F A) : twins agree_tx (on_wm events m : txm _) (on_wm events m).
Proof.
  apply twins_zoom_same.
  - intros x x' [Hs Hf]. by rewrite (agree_wm _ _ _ _ _ _ Hs), Hf.
  - intros ws x x' [Hs Hf]. split; [|done]. destruct Hs. by split.
Qed.

Lemma twins_gets_fork {A} (g : F -> A) : twins agree_tx (gets (fun x => g (fork x)) : txm A) (gets (fun x => g (fork x))).
Proof. apply twins_gets. by intros x x' [_ ->]. Qed.
#[local] Hint Resolve twins_modify_fork twins_on_wm : twins.

Lemma twins_check_app_hash contract ctx ts : twins agree_tx (check_app_hash contract ctx ts : txm _) (check_app_hash contract ctx ts).
Proof. unfold check_app_hash. twins_run. Qed.
Lemma twins_to_account_id k : twins agree_tx (to_account_id k : txm _) (to_account_id k).
Proof. unfold to_account_id. twins_run. Qed.
Lemma twins_error_text e : twins agree_tx (error_text e : txm _) (error_text e).
Proof. unfold error_text. twins_run. Qed.
Lemma twins_error_kind e : twins agree_tx (error_kind e : txm _) (error_kind e).
Proof. unfold error_kind. twins_run. Qed.
Lemma twins_wm_fuel_limit id height limit : twins agree_tx (wm_fuel_limit id height limit : txm _) (wm_fuel_limit id height limit).
Proof. apply twins_gets. by intros x x' [_ ->]. Qed.
#[local] Hint Resolve twins_check_app_hash twins_to_account_id twins_error_text twins_error_kind twins_wm_fuel_limit : twins.

(** A program that reads the service looks only at what the nodes agree on. *)
Lemma twins_gets_service {A} (k k' : service_t -> txm A) :
  (forall s s', P s s' -> twins agree_tx (k s) (k' s')) -> twins agree_tx (gets service ≫= k) (gets service ≫= k').
Proof. intros Hk. apply (twins_gets_bind _ _ P); [by intros x x' [H _]|done]. Qed.

Lemma twins_call_burn_fuel method origin fuel ts : twins agree_tx (call_burn_fuel method origin fuel ts : txm _) (call_burn_fuel method origin fuel ts).
Proof.
  unfold call_burn_fuel. apply (twins_bind _ (gets fork)); [apply (twins_gets_fork id)|]. intros f. twins_run.
Qed.

Lemma twins_handle_unit tx height index evs ts :
  twins agree_tx (handle_unit_transaction tx height index evs ts : txm _) (handle_unit_transaction tx height index evs ts).
Proof.
  unfold handle_unit_transaction. apply twins_gets_service. intros s s' Hs. rewrite (agree_network _ _ _ _ _ _ Hs). twins_run.
Qed.

Lemma twins_bulk_nodes ts height nodes evs remaining :
  twins agree_tx (bulk_nodes ts height nodes evs remaining : txm _) (bulk_nodes ts height nodes evs remaining).
Proof.
  revert evs remaining. induction nodes as [|node nodes IH]; intros evs remaining; cbn [bulk_nodes]; [twins_run|].
  apply twins_gets_service. intros s s' Hs. rewrite (agree_network _ _ _ _ _ _ Hs). twins_run; apply IH.
Qed.

Lemma twins_bulk_root ts caller root limit height index :
  twins agree_tx (bulk_root ts caller root limit height index : txm _) (bulk_root ts caller root limit height index).
Proof.
  unfold bulk_root. apply twins_gets_service. intros s s' Hs. rewrite (agree_network _ _ _ _ _ _ Hs). twins_run.
Qed.
#[local] Hint Resolve twins_call_burn_fuel twins_handle_unit twins_bulk_nodes twins_bulk_root : twins.

Lemma twins_handle_bulk tx height index evs ts :
  twins agree_tx (handle_bulk_transaction tx height index evs ts : txm _) (handle_bulk_transaction tx height index evs ts).
Proof. unfold handle_bulk_transaction, handle_bulk_v1, handle_bulk_nodes_execution. twins_run. Qed.
#[local] Hint Resolve twins_handle_bulk : twins.

Lemma twins_execute_transaction tx height index method ts :
  twins agree_tx (execute_transaction tx height index method ts : txm _) (execute_transaction tx height index method ts).
Proof. unfold execute_transaction. twins_run. Qed.
#[local] Hint Resolve twins_execute_transaction : twins.

(** Blocks that plan the same: what their execution looks at *)
Definition same_plan (b b' : Block) : Prop :=
  bd_height (block_data b) = bd_height (block_data b') /\ bd_timestamp (block_data b) = bd_timestamp (block_data b') /\
  block_builder_id b = block_builder_id b'.

Lemma twins_execute_block_transactions b b' index txs : same_plan b b' ->
  twins agree_tx (execute_block_transactions b index txs : txm _) (execute_block_transactions b' index txs).
Proof.
  intros (Hh & Ht & _). revert index. induction txs as [|tx txs IH]; intros index; cbn [execute_block_transactions]; [twins_run|].
  apply twins_gets_service. intros s s' Hs. rewrite Hh, Ht, (agree_method _ _ _ _ _ _ Hs). twins_run.
Qed.

(** ** Blocks *)

(** What comes before the roots of a block: the hashes of the receipts and the fork *)
Definition block_run (block : Block) (transactions : list Transaction) : hm (Result (Result (list Hash) NodeError * F) NodeError) :=
  s ← get_state;
  if db_poisoned s then mret (Err (NodeDBError CreateFork))
  else if bool_decide (is_Some (load_block (bd_height (block_data block)) (db s))) then mret (Err (NodeDBError BlockAlreadyInDB))
  else
    let '(d, db_fork) := create_fork (db s) in
    modify (set_db d) ;;
    answer ← send_req NodeInterface ConsensusService Req.GetLeader;
    let db_fork :=
      match answer with
      | Ok (Res.GetLeader expected_leader) => mark_slashed expected_leader (default (node_id s) (block_builder_id block)) db_fork
      | _ => db_fork
      end in
    r ← with_fork db_fork (execute_block_transactions block 0 transactions);
    mret (Ok r).

Definition block_end (block : Block) (round : Z) (transactions : list Transaction)
    (ran : Result (Result (list Hash) NodeError * F) NodeError) : hm (Result unit NodeError) :=
  match ran with
  | Ok (Ok receipts_hashes, db_fork) => update_db_fork db_fork block round transactions receipts_hashes
  | Ok (Err e, _) | Err e => mret (Err e)
  end.

Lemma execute_block_split block round txs (w : hw) :
  execute_block block round txs w = (block_run block txs ≫= block_end block round txs) w.
Proof.
  unfold execute_block, block_run. rewrite !bind_eq. cbn [get_state]. destruct (db_poisoned (w_state w)); [done|].
  destruct (bool_decide _); [done|]. destruct (create_fork _) as [d f]. rewrite !bind_eq. cbn [modify].
  rewrite !bind_eq. destruct (send_req _ _ _ _) as [answer w1|w1]; [|done]. rewrite !bind_eq.
  destruct (with_fork _ _ w1) as [[[hs|e] f'] w2|w2]; done.
Qed.

Lemma twins_block_run b b' txs builder : same_plan b b' -> block_builder_id b = Some builder ->
  twins P (block_run b txs : hm _) (block_run b' txs).
Proof.
  intros Hp Hid. pose proof Hp as (Hh & _ & Hb). unfold block_run. apply twins_get_bind. intros s s' Hs.
  rewrite <- Hb, Hid, <- Hh, <- (agree_poisoned _ _ _ _ _ _ Hs), <- (agree_db _ _ _ _ _ _ Hs).
  destruct (db_poisoned s); [apply twins_ret|]. destruct (bool_decide _); [apply twins_ret|]. destruct (create_fork (db s)) as [d f].
  apply twins_bind; [apply twins_modify; intros x x' []; by split|]. intros _.
  apply twins_bind; [apply twins_zoom_same; done|]. intros answer.
  apply twins_bind; [|intros r; apply twins_ret].
  apply (twins_zoom _ _ _ _ agree_tx); [intros x x' Hx; by split|by intros x x' y y' [Hx _] _|].
  apply twins_bind; [by apply twins_execute_block_transactions|]. intros a.
  apply twins_bind; [apply (twins_gets_fork id)|]. intros g. apply twins_ret.
Qed.
End runs.

(** The roots and the lists depend on the height of a block alone. *)
Lemma roots_height b b' f txs hs : bd_height (block_data b) = bd_height (block_data b') -> roots f b txs hs = roots f b' txs hs.
Proof. unfold roots. by intros ->. Qed.
Lemma listed_fork_height b b' (f : F) txs hs : bd_height (block_data b) = bd_height (block_data b') -> listed_fork f b txs hs = listed_fork f b' txs hs.
Proof. unfold listed_fork. by intros ->. Qed.

(** The builder of a block and another node that is given a block, run side by side: when their transactions
    are done they are still alike; then the builder keeps its fork under its proposal, and the other keeps the
    same fork under the block it was given if the roots are those. *)
Lemma side_by_side name name' forks forks' block round txs (w v w' : hw) :
  paired (agree name name' forks forks') w v -> name <> name' -> block_builder_id block = Some name ->
  0 < bd_height (block_data block) -> execute_block block round txs w = Ret (Ok tt) w' ->
  exists w1 es proposal fork, same_plan block proposal /\ w_out w1 = w_out w ++ es /\
    w' = upd (kept (block_hash proposal) fork) (outs [told ConsensusService (Msg.ProposalAfterBuild proposal round (map get_hash txs))] w1) /\
    forall block' round', same_plan block block' -> exists v1, paired (agree name name' forks forks') w1 v1 /\ w_out v1 = w_out v ++ es /\
      if bool_decide (claimed_roots block' = claimed_roots proposal) then
        execute_block block' round' txs v = Ret (Ok tt)
          (upd (kept (block_hash block') fork) (outs [told ConsensusService (Msg.BlockExecutionEnded block' (map get_hash txs))] v1))
      else exists e, execute_block block' round' txs v = Ret (Err e) v1.
Proof.
  intros Hp Hn Hid Hh H. rewrite execute_block_split in H. inverting H as ran w1 R.
  destruct ran as [[[hs|e] f]|e]; [|done|done]. cbn [block_end] in H.
  assert (Hrun : forall b', same_plan block b' -> exists v1, block_run b' txs v = Ret (Ok (Ok hs, f)) v1 /\
    paired (agree name name' forks forks') w1 v1 /\ same_effects w v w1 v1).
  { intros b' Hb. pose proof (twins_block_run name name' forks forks' block b' txs name Hb Hid w v Hp) as Ht. rewrite R in Ht.
    destruct (block_run b' txs v) as [r v1|v1]; [|done]. destruct Ht as (<- & Hp1 & He). by exists v1. }
  destruct (Hrun block ltac:(done)) as (v0 & Rv0 & Hp0 & es & Hes & _).
  destruct Hp0 as ([_ _ _ _ _ [Hname _] _] & _).
  pose proof (own_block_proposed f block round txs hs w1) as Hown. rewrite Hid, Hname in Hown. specialize (Hown eq_refl).
  assert (Hl : map (listed_hash (bd_height (block_data block))) txs = map get_hash txs).
  { apply map_ext. intros tx. unfold listed_hash. by destruct (Z.ltb_spec 0 (bd_height (block_data block))); [|lia]. }
  destruct (roots f block txs hs) as [[sh tr] rr] eqn:Hr. destruct Hown as [Hc Hu]. rewrite Hu, Hl in H. injection H as <-.
  exists w1, es, (with_roots sh tr rr block), (listed_fork f block txs hs). split; [done|]. split; [done|]. split; [done|]. intros block' round' Hb.
  destruct (Hrun block' Hb) as (v1 & Rv1 & Hp1 & es' & He1 & He2). exists v1. split; [done|].
  rewrite Hes in He1. apply app_inv_head in He1 as <-. split; [done|]. pose proof Hb as (Hh' & _ & Hb').
  destruct Hp1 as ([_ _ _ _ _ [_ Hv1] _] & _).
  pose proof (external_block_checked f block' round' txs hs v1) as He. rewrite <- Hb', Hid, Hv1, <- Hh' in He.
  specialize (He Hn Hh). rewrite <- (roots_height block block'), Hr, <- (listed_fork_height block block') in He by done.
  rewrite execute_block_split, bind_eq, Rv1, Hc. cbn [block_end]. rewrite He. case_bool_decide; [done|by eexists].
Qed.

(** C5: take two nodes with the same database, machine and settings that get the same answers of the
    core, one of which executes a block it builds.  It proposes the block with three roots; the
    other node accepts, of all blocks with the same height, time and builder and the same
    transactions, exactly those with these roots: it keeps the very fork the builder keeps
    and reports the block, or refuses it and keeps nothing. *)
Theorem validators_agree name name' forks forks' block round txs (w v w' : hw) :
  paired (agree name name' forks forks') w v -> name <> name' -> block_builder_id block = Some name ->
  0 < bd_height (block_data block) -> execute_block block round txs w = Ret (Ok tt) w' ->
  exists es proposal fork, same_plan block proposal /\
    w_out w' = w_out w ++ es ++ [told ConsensusService (Msg.ProposalAfterBuild proposal round (map get_hash txs))] /\
    forks_collector (w_state w') = <[block_hash proposal := fork]> forks /\
    forall block' round', same_plan block block' ->
      if bool_decide (claimed_roots block' = claimed_roots proposal) then
        exists v', execute_block block' round' txs v = Ret (Ok tt) v' /\
          w_out v' = w_out v ++ es ++ [told ConsensusService (Msg.BlockExecutionEnded block' (map get_hash txs))] /\
          forks_collector (w_state v') = <[block_hash block' := fork]> forks'
      else
        exists v' e, execute_block block' round' txs v = Ret (Err e) v' /\ w_out v' = w_out v ++ es /\
          forks_collector (w_state v') = forks'.
Proof.
  intros Hp Hn Hid Hh H. destruct (side_by_side _ _ _ _ _ _ _ _ _ _ Hp Hn Hid Hh H) as (w1 & es & proposal & fork & Hplan & Hes & -> & Hv).
  exists es, proposal, fork. split; [done|]. destruct (Hv block round ltac:(done)) as (v0 & ([_ _ _ _ _ _ [Hforks _]] & _) & _).
  split; [cbn; by rewrite Hes, app_assoc|]. split; [cbn; by rewrite Hforks|]. intros block' round' Hb.
  destruct (Hv block' round' Hb) as (v1 & ([_ _ _ _ _ _ [_ Hf1]] & _) & He & H'). case_bool_decide.
  - eexists. split; [exact H'|]. cbn. by rewrite He, app_assoc, Hf1.
  - destruct H' as [e H']. exists v1, e. by rewrite He, Hf1.
Qed.

(** ** Replicas

    Nodes that agree and keep the same forks *)
Section replicas.
Context (name name' : string).
Definition replica (s s' : service_t) : Prop := exists forks, agree name name' forks forks s s'.

Lemma replica_modify (f f' : service_t -> service_t) :
  (forall forks s s', agree name name' forks forks s s' -> replica (f s) (f' s')) -> twins replica (modify f : hm unit) (modify f').
Proof. intros Hf. apply twins_modify. intros s s' [forks H]. by apply (Hf forks). Qed.
Lemma replica_set_db d : twins replica (modify (set_db d) : hm unit) (modify (set_db d)).
Proof. apply replica_modify. intros forks s s' []. exists forks. by split. Qed.
Lemma replica_send_msg to msg : twins replica (send_msg to msg : hm unit) (send_msg to msg).
Proof. by apply twins_zoom_same. Qed.
Lemma replica_emit_events evs : twins replica (emit_events evs : hm unit) (emit_events evs).
Proof. unfold emit_events. twins_run. Qed.
#[local] Hint Resolve replica_set_db replica_send_msg replica_emit_events : twins.

Lemma replica_players_of d : twins replica (players_of d : hm _) (players_of d).
Proof.
  unfold players_of. apply twins_bind; [twins_run|]. intros [ids|]; [|twins_run].
  apply twins_bind; [|twins_run]. induction ids as [|id ids IH]; cbn [players_units]; unfold player_units; twins_run.
Qed.
Lemma replica_contract_events d hashes : twins replica (emit_contract_events d hashes : hm unit) (emit_contract_events d hashes).
Proof. unfold emit_contract_events. twins_run. Qed.
#[local] Hint Resolve replica_players_of replica_contract_events : twins.







(** ** Nodes that build in turn *)



End replicas.







End agreement.

(** ** A sample *)
Module AgreementSample.
Import WasmSample.
#[local] Existing Instances Samples.digest Samples.base58 Samples.ring MemDb.mem_db WasmSample.hex WasmSample.codecs WasmSample.machine.

(** The node that holds the key builds a block of a transaction that writes; another node is given its proposal. *)
Definition plan : Block := block_at 1 (Some key).
Definition other_world : service_world := World (initial DatabaseSample.db false "other" "net" (Some "burn") tt) [] (0, []) [].
Definition built : exec service_world (Result unit NodeError) := execute_block plan 0 paying builder_world.

Definition succeeded (r : exec service_world (Result unit NodeError)) : bool := match r with Ret (Ok _) _ => true | _ => false end.
Lemma succeeded_ret r : succeeded r = true -> r = Ret (Ok tt) (exec_world r).
Proof. destruct r as [[[]|]|]; [intros _; reflexivity|discriminate|discriminate]. Qed.

Lemma validators_agree_witness : exists es proposal,
  w_out (exec_world built) = es ++ [told ConsensusService (Msg.ProposalAfterBuild proposal 0 (map get_hash paying))] /\
  exists v', execute_block proposal 0 paying other_world = Ret (Ok tt) v' /\
    w_out v' = es ++ [told ConsensusService (Msg.BlockExecutionEnded proposal (map get_hash paying))].
Proof.
  assert (Hs : succeeded built = true) by (vm_compute; reflexivity).
  destruct (validators_agree me "other" ∅ ∅ plan 0 paying builder_world other_world (exec_world built)) as (es & proposal & fork & Hp & Ho & _ & H).
  - split; [split; try reflexivity; split; reflexivity|]. split; reflexivity.
  - vm_compute. discriminate.
  - vm_compute. reflexivity.
  - vm_compute. reflexivity.
  - exact (succeeded_ret _ Hs).
  - exists es, proposal. split; [exact Ho|]. specialize (H proposal 0 Hp). rewrite bool_decide_true in H by reflexivity.
    destruct H as (v' & Hv & Hvo & _). exists v'. split; [exact Hv|exact Hvo].
Defined.






End AgreementSample.
